(** * The subprocess protocol bridge of personal-mcp

  A shallow embedding of the bridge between the Electron main process and
  the Python tool provider: the line-delimited JSON-RPC decoding, the
  readiness handshake, the readiness polling of [callMCPTool], the per-call
  listeners and timers.  The repository holds two versions of the bridge:

  - the [main.js] with banner detection, [initializeMCPServer] and the
    id-correlating [callMCPTool], embedded in [Module Bridge];
  - the [src/app/src/main.js] without handshake, whose [callMCPTool] parses
    the whole buffer and does not look at ids, embedded in [Module Legacy].

  The bridge is event driven: stdout and stderr chunks, the close of the
  provider, timers and invocations of [callMCPTool] arrive one at a time on a
  single thread.  Each version is a state and a [step] function over these
  events; what the environment decides (chunk boundaries, the order of
  events, [Date.now()], [Math.random()]) is carried by the events.

  Text is a sequence of 8-bit code units ([string]), a chunk being the text
  [data.toString()] gives; JSON numbers are the integers of the wire
  protocol; [JSON.parse] is a parameter of the handlers.

  A state of [Module Bridge] describes one provider process: the module-level
  handle from one run of [startMCPServer] on.  The [activate] handler of the
  application runs [startMCPServer] again when a window is re-created; the
  events of the model stop short of that second run, so a statement about
  [Bridge.run] speaks of the time up to it. *)

From Stdlib Require Import ZArith Lia Ascii Bool.
From Stdlib Require String.
From stdpp Require Import list strings.

Set Default Proof Using "Type".
Set Warnings "-register-all".

(** ** Text primitives of the JavaScript runtime *)

Module Text.

Definition nl : ascii := "010"%char.
Definition dq : ascii := "034"%char.
Definition bsl : ascii := "092"%char.

Definition is_nl (c : ascii) : bool := Ascii.eqb c nl.

(** [s.split("\n")]: never empty, the last element is the text after the
    last newline. *)
Fixpoint split_nl (s : string) : list string :=
  match s with
  | EmptyString => [EmptyString]
  | String c s' =>
      if is_nl c then EmptyString :: split_nl s'
      else match split_nl s' with
           | [] => [String c EmptyString]
           | l :: ls => String c l :: ls
           end
  end.

(** White space removed by [String.prototype.trim], within the 8-bit range:
    TAB, LF, VT, FF, CR, SP and NBSP. *)
Definition is_ws (c : ascii) : bool :=
  let n := nat_of_ascii c in
  ((9 <=? n) && (n <=? 13)) || (n =? 32) || (n =? 160).

Fixpoint trimStart (s : string) : string :=
  match s with
  | EmptyString => EmptyString
  | String c s' => if is_ws c then trimStart s' else s
  end.

Fixpoint trimEnd (s : string) : string :=
  match s with
  | EmptyString => EmptyString
  | String c s' =>
      match trimEnd s' with
      | EmptyString => if is_ws c then EmptyString else String c EmptyString
      | t => String c t
      end
  end.

Definition trim (s : string) : string := trimEnd (trimStart s).

(** [!line] on a string: true exactly for the empty string. *)
Definition is_empty (s : string) : bool :=
  match s with EmptyString => true | _ => false end.

(** [hay.includes(needle)]. *)
Definition includes (hay needle : string) : bool :=
  match String.index 0 needle hay with
  | Some _ => true
  | None => false
  end.

Definition concat_all (chunks : list string) : string :=
  foldr String.append EmptyString chunks.

(** The complete lines of a buffer and the fragment after its last newline:
    [lines[0 .. length-2]] and [lines[length-1]] of the split. *)
Definition complete_lines (s : string) : list string := removelast (split_nl s).
Definition fragment (s : string) : string := List.last (split_nl s) EmptyString.

(** The text whose split gives these complete lines and this fragment. *)
Fixpoint join_lines (lines : list string) (rest : string) : string :=
  match lines with
  | [] => rest
  | l :: ls => l +:+ String nl (join_lines ls rest)
  end.

Fixpoint has_nl (s : string) : bool :=
  match s with
  | EmptyString => false
  | String c s' => is_nl c || has_nl s'
  end.

End Text.

(** ** JSON values and the property accesses the bridge performs *)

Inductive json : Type :=
| JNull
| JBool (b : bool)
| JNum (n : Z)
| JStr (s : string)
| JArr (items : list json)
| JObj (fields : list (string * json)).

(** A JavaScript value as the handlers see it: [undefined] or a JSON value. *)
Inductive jsval : Type :=
| Undefined
| Val (v : json).

Module Js.

(** The last binding of a key wins, as in the object [JSON.parse] builds. *)
Fixpoint lookup_field (k : string) (fields : list (string * json)) : jsval :=
  match fields with
  | [] => Undefined
  | (k', v) :: rest =>
      match lookup_field k rest with
      | Undefined => if String.eqb k k' then Val v else Undefined
      | found => found
      end
  end.

(** [v.k]: [None] is the TypeError raised on [null] and [undefined];
    primitives and arrays have none of the keys the bridge reads. *)
Definition get (v : jsval) (k : string) : option jsval :=
  match v with
  | Undefined => None
  | Val JNull => None
  | Val (JObj fields) => Some (lookup_field k fields)
  | Val _ => Some Undefined
  end.

(** Truthiness, as tested by [if (x)] and [x || y]. *)
Definition truthy (v : jsval) : bool :=
  match v with
  | Undefined => false
  | Val JNull => false
  | Val (JBool b) => b
  | Val (JNum n) => negb (n =? 0)%Z
  | Val (JStr s) => negb (Text.is_empty s)
  | Val (JArr _) => true
  | Val (JObj _) => true
  end.

(** [v === n] for a number [n]. *)
Definition strict_eq_num (v : jsval) (n : Z) : bool :=
  match v with
  | Val (JNum m) => (m =? n)%Z
  | _ => false
  end.

(** [a || b]. *)
Definition or_else (a b : jsval) : jsval := if truthy a then a else b.

End Js.

(** ** A reference [JSON.parse] / [JSON.stringify] for the wire subset

    The handlers below are parametric in the parser.  This instance covers
    the JSON of the wire protocol (objects, arrays, strings with the simple
    escapes, integer numbers, literals) and is used to run the handlers on
    concrete streams. *)

Module Json.

Definition code (c : ascii) : nat := nat_of_ascii c.

Definition is_json_ws (c : ascii) : bool :=
  let n := code c in (n =? 32) || (n =? 9) || (n =? 10) || (n =? 13).

Fixpoint skip_ws (s : list ascii) : list ascii :=
  match s with
  | c :: r => if is_json_ws c then skip_ws r else s
  | [] => []
  end.

Definition is_digit (c : ascii) : bool :=
  let n := code c in (48 <=? n) && (n <=? 57).

Definition digit_val (c : ascii) : Z := Z.of_nat (code c - 48).

Fixpoint take_digits (acc : Z) (s : list ascii) : Z * list ascii :=
  match s with
  | c :: r => if is_digit c then take_digits (10 * acc + digit_val c)%Z r
              else (acc, s)
  | [] => (acc, [])
  end.

(** An unsigned integer literal: a lone [0], or digits not starting with 0. *)
Definition parse_nat (s : list ascii) : option (Z * list ascii) :=
  match s with
  | c :: r =>
      if Ascii.eqb c "0"%char then Some (0%Z, r)
      else if is_digit c then Some (take_digits 0 s)
      else None
  | [] => None
  end.

Definition parse_number (s : list ascii) : option (Z * list ascii) :=
  match s with
  | c :: r =>
      if Ascii.eqb c "-"%char
      then match parse_nat r with
           | Some (n, r') => Some ((- n)%Z, r')
           | None => None
           end
      else parse_nat s
  | [] => None
  end.

Definition unescape (c : ascii) : option ascii :=
  if Ascii.eqb c Text.dq then Some Text.dq
  else if Ascii.eqb c Text.bsl then Some Text.bsl
  else if Ascii.eqb c "/"%char then Some "/"%char
  else if Ascii.eqb c "n"%char then Some Text.nl
  else if Ascii.eqb c "t"%char then Some "009"%char
  else if Ascii.eqb c "r"%char then Some "013"%char
  else if Ascii.eqb c "b"%char then Some "008"%char
  else if Ascii.eqb c "f"%char then Some "012"%char
  else None.

(** The characters after an opening quote, up to the closing one. *)
Fixpoint parse_string_body (s : list ascii) : option (string * list ascii) :=
  match s with
  | [] => None
  | c :: r =>
      if Ascii.eqb c Text.dq then Some (EmptyString, r)
      else if Ascii.eqb c Text.bsl then
        match r with
        | e :: r' =>
            match unescape e, parse_string_body r' with
            | Some ch, Some (str, rest) => Some (String ch str, rest)
            | _, _ => None
            end
        | [] => None
        end
      else if code c <? 32 then None
      else match parse_string_body r with
           | Some (str, rest) => Some (String c str, rest)
           | None => None
           end
  end.

Fixpoint strip_prefix (p s : list ascii) : option (list ascii) :=
  match p, s with
  | [], _ => Some s
  | a :: p', b :: s' => if Ascii.eqb a b then strip_prefix p' s' else None
  | _ :: _, [] => None
  end.

Definition parse_literal (s : list ascii) : option (json * list ascii) :=
  match strip_prefix (String.list_ascii_of_string "null") s with
  | Some r => Some (JNull, r)
  | None =>
  match strip_prefix (String.list_ascii_of_string "true") s with
  | Some r => Some (JBool true, r)
  | None =>
  match strip_prefix (String.list_ascii_of_string "false") s with
  | Some r => Some (JBool false, r)
  | None =>
  match parse_number s with
  | Some (n, r) => Some (JNum n, r)
  | None => None
  end end end end.

Fixpoint parse_value (fuel : nat) (s : list ascii) {struct fuel}
  : option (json * list ascii) :=
  match fuel with
  | O => None
  | S fuel' =>
      match skip_ws s with
      | [] => None
      | c :: r =>
          if Ascii.eqb c "{"%char then
            match skip_ws r with
            | c' :: r' =>
                if Ascii.eqb c' "}"%char then Some (JObj [], r')
                else match parse_members fuel' r with
                     | Some (fs, rest) => Some (JObj fs, rest)
                     | None => None
                     end
            | [] => None
            end
          else if Ascii.eqb c "["%char then
            match skip_ws r with
            | c' :: r' =>
                if Ascii.eqb c' "]"%char then Some (JArr [], r')
                else match parse_elements fuel' r with
                     | Some (vs, rest) => Some (JArr vs, rest)
                     | None => None
                     end
            | [] => None
            end
          else if Ascii.eqb c Text.dq then
            match parse_string_body r with
            | Some (str, rest) => Some (JStr str, rest)
            | None => None
            end
          else parse_literal (c :: r)
      end
  end
with parse_elements (fuel : nat) (s : list ascii) {struct fuel}
  : option (list json * list ascii) :=
  match fuel with
  | O => None
  | S fuel' =>
      match parse_value fuel' s with
      | Some (v, r) =>
          match skip_ws r with
          | c :: r' =>
              if Ascii.eqb c ","%char then
                match parse_elements fuel' r' with
                | Some (vs, rest) => Some (v :: vs, rest)
                | None => None
                end
              else if Ascii.eqb c "]"%char then Some ([v], r')
              else None
          | [] => None
          end
      | None => None
      end
  end
with parse_members (fuel : nat) (s : list ascii) {struct fuel}
  : option (list (string * json) * list ascii) :=
  match fuel with
  | O => None
  | S fuel' =>
      match skip_ws s with
      | q :: r0 =>
          if Ascii.eqb q Text.dq then
            match parse_string_body r0 with
            | Some (k, r1) =>
                match skip_ws r1 with
                | c :: r2 =>
                    if Ascii.eqb c ":"%char then
                      match parse_value fuel' r2 with
                      | Some (v, r3) =>
                          match skip_ws r3 with
                          | d :: r4 =>
                              if Ascii.eqb d ","%char then
                                match parse_members fuel' r4 with
                                | Some (fs, rest) => Some ((k, v) :: fs, rest)
                                | None => None
                                end
                              else if Ascii.eqb d "}"%char
                                   then Some ([(k, v)], r4)
                              else None
                          | [] => None
                          end
                      | None => None
                      end
                    else None
                | [] => None
                end
            | None => None
            end
          else None
      | [] => None
      end
  end.

(** [JSON.parse(text)]: [None] stands for the SyntaxError. *)
Definition parse (text : string) : option json :=
  let s := String.list_ascii_of_string text in
  match parse_value (2 * length s + 2) s with
  | Some (v, rest) =>
      match skip_ws rest with
      | [] => Some v
      | _ :: _ => None
      end
  | None => None
  end.

Definition hex_digit (n : nat) : ascii :=
  if n <? 10 then ascii_of_nat (48 + n) else ascii_of_nat (87 + n).

Definition escape_char (c : ascii) (rest : string) : string :=
  if Ascii.eqb c Text.dq then String Text.bsl (String Text.dq rest)
  else if Ascii.eqb c Text.bsl then String Text.bsl (String Text.bsl rest)
  else if Ascii.eqb c Text.nl then String Text.bsl (String "n"%char rest)
  else if Ascii.eqb c "009"%char then String Text.bsl (String "t"%char rest)
  else if Ascii.eqb c "013"%char then String Text.bsl (String "r"%char rest)
  else if Ascii.eqb c "008"%char then String Text.bsl (String "b"%char rest)
  else if Ascii.eqb c "012"%char then String Text.bsl (String "f"%char rest)
  else if code c <? 32 then
    String Text.bsl (String "u"%char (String "0"%char (String "0"%char
      (String (hex_digit (code c / 16)) (String (hex_digit (code c mod 16)) rest)))))
  else String c rest.

Fixpoint escape (s : string) : string :=
  match s with
  | EmptyString => EmptyString
  | String c s' => escape_char c (escape s')
  end.

Definition quote (s : string) : string :=
  String Text.dq (escape s +:+ String Text.dq EmptyString).

Fixpoint digits_of (fuel : nat) (n : nat) (acc : string) : string :=
  match fuel with
  | O => acc
  | S fuel' =>
      let acc' := String (ascii_of_nat (48 + n mod 10)) acc in
      if n / 10 =? 0 then acc' else digits_of fuel' (n / 10) acc'
  end.

Definition show_Z (n : Z) : string :=
  let m := Z.to_nat (Z.abs n) in
  let d := digits_of (S m) m EmptyString in
  if (n <? 0)%Z then String "-"%char d else d.

(** [JSON.stringify(v)], the compact form. *)
Fixpoint stringify (v : json) : string :=
  match v with
  | JNull => "null"
  | JBool true => "true"
  | JBool false => "false"
  | JNum n => show_Z n
  | JStr s => quote s
  | JArr items =>
      "[" +:+ String.concat "," (map stringify items) +:+ "]"
  | JObj fields =>
      "{" +:+ String.concat ","
                (map (fun kv => quote (fst kv) +:+ ":" +:+ stringify (snd kv)) fields)
          +:+ "}"
  end.

(** One frame on the wire: [JSON.stringify(frame) + "\n"]. *)
Definition line (frame : json) : string :=
  stringify frame +:+ String Text.nl EmptyString.

End Json.


(** ** Promises and the errors the bridge raises *)

(** An [Error] of the source is [new Error(text)]: the handlers that catch it
    read its [message] and nothing else, so an error is its text.  The names
    of the specification stand for the four texts the bridge itself passes
    to [new Error]; [RemoteToolError] is the text taken from a response. *)
Record error : Type := mkError { message : string }.

Definition NotRunning : error := mkError "MCP server not running".
Definition NotReadyError : error :=
  mkError "MCP server not ready - timeout waiting for initialization".
Definition CallTimeoutError : error := mkError "MCP call timeout".
Definition HandshakeTimeoutError : error := mkError "MCP initialization timeout".
Definition RemoteToolError (msg : string) : error := mkError msg.

(** [ToString(v)] of a value that came out of [JSON.parse], as [new Error(v)]
    and [JSON.parse(v)] apply it.  [None] is the TypeError of
    OrdinaryToPrimitive: an object with an own key [toString] hides
    [Object.prototype.toString] behind a value that is not callable, and
    [valueOf] gives the object back.  An array is joined with [","]: its
    [null] elements give the empty text, the others their [ToString]. *)
Fixpoint to_string (v : json) : option string :=
  match v with
  | JNull => Some "null"
  | JBool true => Some "true"
  | JBool false => Some "false"
  | JNum n => Some (Json.show_Z n)
  | JStr s => Some s
  | JArr items =>
      let fix join (xs : list json) : option (list string) :=
        match xs with
        | [] => Some []
        | x :: rest =>
            match match x with JNull => Some EmptyString | _ => to_string x end,
                  join rest with
            | Some t, Some ts => Some (t :: ts)
            | _, _ => None
            end
        end in
      match join items with
      | Some texts => Some (String.concat "," texts)
      | None => None
      end
  | JObj fields =>
      match Js.lookup_field "toString" fields with
      | Undefined => Some "[object Object]"
      | Val _ => None
      end
  end.

(** [new Error(v)]: the message is [ToString(v)], and the empty text of
    [Error.prototype.message] when [v] is [undefined]; [None] when the
    conversion throws. *)
Definition new_Error (v : jsval) : option error :=
  match v with
  | Undefined => Some (mkError EmptyString)
  | Val j =>
      match to_string j with
      | Some text => Some (mkError text)
      | None => None
      end
  end.

Inductive promise : Type :=
| Unsettled
| Resolved (v : jsval)
| Rejected (e : error).

(** [resolve]/[reject] on a promise: only the first call has an effect. *)
Definition settle (p : promise) (by_ : promise) : promise :=
  match p with
  | Unsettled => by_
  | _ => p
  end.

Definition settle_opt (p : promise) (by_ : option promise) : promise :=
  match by_ with
  | Some q => settle p q
  | None => p
  end.

Definition is_settled (p : promise) : bool :=
  match p with Unsettled => false | _ => true end.

(** The listeners registered on the provider's stdout, by their closure:
    the logger of [startMCPServer], the [dataHandler] of the k-th
    [initializeMCPServer] run, the [dataHandler] of the i-th [callMCPTool]. *)
Inductive listener : Type :=
| LogListener
| InitListener (k : nat)
| CallListener (i : nat).

Global Instance listener_eq_dec : EqDecision listener.
Proof. solve_decision. Defined.

(** [emitter.removeListener("data", h)]; every closure is registered once. *)
Definition remove_listener (h : listener) (ls : list listener) : list listener :=
  filter (fun x => x <> h) ls.

(** Who wrote a frame to stdin (bookkeeping of the model, not program state). *)
Inductive writer : Type :=
| ByInit (k : nat)
| ByCall (i : nat).

(** ** The current implementation *)

Module Bridge.

Definition maxAttempts : nat := 15.
Definition pollInterval : Z := 500.
Definition bannerDelay : Z := 2000.
Definition handshakeTimeout : Z := 10000.
Definition callTimeout : Z := 45000.

(** The banner test of the stderr listener. *)
Definition is_banner (output : string) : bool :=
  (Text.includes output "FastMCP" || Text.includes output "Starting MCP server")
  && (Text.includes output "Server name"
      || Text.includes output "Echo Test Server"
      || Text.includes output "Simple Test Server").

Definition initRequest : json :=
  JObj [("jsonrpc", JStr "2.0"); ("id", JNum 0); ("method", JStr "initialize");
        ("params", JObj [("protocolVersion", JStr "2024-11-05");
                         ("capabilities", JObj [("tools", JObj [])]);
                         ("clientInfo", JObj [("name", JStr "gmail-calendar-assistant");
                                              ("version", JStr "1.0.0")])])].

Definition initNotification : json :=
  JObj [("jsonrpc", JStr "2.0"); ("method", JStr "notifications/initialized")].

(** [Date.now() + Math.floor(Math.random() * 1000)]; [rnd] is the value of
    the floor, an integer in [0, 999]. *)
Definition request_id (now rnd : Z) : Z := (now + rnd)%Z.

Definition request (id : Z) (toolName : string) (params : json) : json :=
  JObj [("jsonrpc", JStr "2.0"); ("id", JNum id); ("method", JStr "tools/call");
        ("params", JObj [("name", JStr toolName); ("arguments", params)])].

(** The closure variables of one dispatched call. *)
Record inflight : Type := mkInflight {
  reqid : Z;
  responseData : string;
  isComplete : bool;
  timeout_armed : bool
}.

Inductive phase : Type :=
| Polling            (* suspended in the 500 ms sleep of the readiness loop *)
| Sent (f : inflight) (* listener registered, request written *)
| Returned           (* the executor returned after [reject] *)
| Threw.             (* a TypeError escaped the async executor *)

Record call : Type := mkCall {
  toolName : string;
  params : json;
  attempts : nat;
  phase_of : phase;
  outcome : promise
}.

(** The time a call has spent in the sleeps of its readiness loop. *)
Definition waited (c : call) : Z := (pollInterval * Z.of_nat (attempts c))%Z.

(** The closure variables of one run of [initializeMCPServer]. *)
Record handshaking : Type := mkHandshaking {
  h_responseData : string;
  h_timeout_armed : bool;
  h_promise : promise
}.

(** One handshake attempt, one per banner chunk. *)
Inductive handshake : Type :=
| Scheduled                (* the 2000 ms timer set on the banner is pending *)
| Started (h : handshaking) (* [initializeMCPServer] registered its listener *)
| Refused.                 (* [initializeMCPServer] found the handle null *)

(** The promise returned by [initializeMCPServer], once it has been called. *)
Definition handshake_promise (h : handshake) : promise :=
  match h with
  | Scheduled => Unsettled
  | Started h => h_promise h
  | Refused => Rejected NotRunning
  end.

Record bridge : Type := mkBridge {
  mcpProcess : bool;       (* false: the module-level handle is null *)
  serverReady : bool;
  stdout_listeners : list listener;
  stdin : list (writer * json);
  handshakes : list handshake;
  calls : list call
}.

(** The state [startMCPServer] leaves behind after a successful spawn: the
    handle set, [serverReady] false, the logger listening on stdout. *)
Definition startMCPServer : bridge :=
  mkBridge true false [LogListener] [] [] [].

Definition set_process (s : bridge) (b : bool) : bridge :=
  mkBridge b (serverReady s) (stdout_listeners s) (stdin s) (handshakes s) (calls s).
Definition set_ready (s : bridge) (b : bool) : bridge :=
  mkBridge (mcpProcess s) b (stdout_listeners s) (stdin s) (handshakes s) (calls s).
Definition set_listeners (s : bridge) (ls : list listener) : bridge :=
  mkBridge (mcpProcess s) (serverReady s) ls (stdin s) (handshakes s) (calls s).
Definition write_stdin (s : bridge) (w : writer) (frame : json) : bridge :=
  mkBridge (mcpProcess s) (serverReady s) (stdout_listeners s)
           (stdin s ++ [(w, frame)]) (handshakes s) (calls s).
Definition set_handshakes (s : bridge) (hs : list handshake) : bridge :=
  mkBridge (mcpProcess s) (serverReady s) (stdout_listeners s) (stdin s) hs (calls s).
Definition set_calls (s : bridge) (cs : list call) : bridge :=
  mkBridge (mcpProcess s) (serverReady s) (stdout_listeners s) (stdin s) (handshakes s) cs.

Definition set_phase (c : call) (p : phase) : call :=
  mkCall (toolName c) (params c) (attempts c) p (outcome c).
Definition set_outcome (c : call) (p : promise) : call :=
  mkCall (toolName c) (params c) (attempts c) (phase_of c) p.
Definition incr_attempts (c : call) : call :=
  mkCall (toolName c) (params c) (S (attempts c)) (phase_of c) (outcome c).

Inductive event : Type :=
| StdoutData (chunk : string)
| StderrData (chunk : string)
| ProcessClose
| BannerTimer (k : nat)
| HandshakeTimeout (k : nat)
| CallTool (tool : string) (args : json) (now rnd : Z)
| PollTimer (i : nat) (now rnd : Z)
| CallTimeout (i : nat).

Section WithParser.

Variable JSON_parse : string -> option json.

(** *** [callMCPTool]: the response listener *)

(** The settlement chosen for our response: [reject] with the first truthy of
    [error.message], [error.data], the fallback text; else [resolve(result)].
    [None]: [new Error] threw on its argument, before [reject] was called. *)
Definition settlement (response : json) : option promise :=
  let err := default Undefined (Js.get (Val response) "error") in
  if Js.truthy err then
    let msg := default Undefined (Js.get err "message") in
    let data := default Undefined (Js.get err "data") in
    match new_Error (Js.or_else (Js.or_else msg data) (Val (JStr "Unknown MCP error"))) with
    | Some e => Some (Rejected e)
    | None => None
    end
  else
    Some (Resolved (default Undefined (Js.get (Val response) "result"))).

Inductive line_result : Type :=
| Skipped               (* SyntaxError or TypeError caught, or another id *)
| Matched (p : promise) (* our response: settle and return *)
| Faulted.              (* our response, but a TypeError is caught after
                           [isComplete] was set and the timer cleared: that
                           of [mcpProcess.stdout] on a null handle, or, the
                           listener removed, that of [new Error] *)

(** The body of the [try] block for one non-empty line. *)
Definition try_line (live : bool) (id : Z) (line : string) : line_result :=
  match JSON_parse line with
  | None => Skipped
  | Some response =>
      match Js.get (Val response) "id" with
      | None => Skipped
      | Some idv =>
          if Js.strict_eq_num idv id then
            if live then
              match settlement response with
              | Some p => Matched p
              | None => Faulted
              end
            else Faulted
          else Skipped
      end
  end.

Definition completed (f : inflight) : inflight :=
  mkInflight (reqid f) (responseData f) true false.

(** The [for] loop over the complete lines.  The third component lists the
    frames [JSON.parse] returned, in order; it is an observation of the run,
    not program state. *)
Fixpoint for_lines (live : bool) (f : inflight) (lines : list string)
  : inflight * option promise * list json :=
  match lines with
  | [] => (f, None, [])
  | l :: rest =>
      let line := Text.trim l in
      if Text.is_empty line then for_lines live f rest
      else
        let seen := match JSON_parse line with Some v => [v] | None => [] end in
        match try_line live (reqid f) line with
        | Skipped =>
            let '(f', r, log) := for_lines live f rest in (f', r, seen ++ log)
        | Matched p => (completed f, Some p, seen)
        | Faulted =>
            let '(f', r, log) := for_lines live (completed f) rest in
            (f', r, seen ++ log)
        end
  end.

Definition set_buffer (f : inflight) (buf : string) : inflight :=
  mkInflight (reqid f) buf (isComplete f) (timeout_armed f).

(** [dataHandler] of [callMCPTool]. *)
Definition dataHandler (live : bool) (f : inflight) (data : string)
  : inflight * option promise * list json :=
  if isComplete f then (f, None, [])
  else
    let f1 := set_buffer f (responseData f +:+ data) in
    match for_lines live f1 (Text.complete_lines (responseData f1)) with
    | (f2, Some p, log) => (f2, Some p, log)
    | (f2, None, log) => (set_buffer f2 (Text.fragment (responseData f1)), None, log)
    end.

Definition fresh (id : Z) : inflight := mkInflight id EmptyString false true.

(** The listener of a dispatched call receiving the chunks of the stream in
    turn while the handle is live; once it has settled it is unregistered and
    sees no further chunk, and once [isComplete] is set a further chunk
    changes nothing. *)
Fixpoint feed (f : inflight) (chunks : list string)
  : inflight * option promise * list json :=
  match chunks with
  | [] => (f, None, [])
  | c :: rest =>
      match dataHandler true f c with
      | (f', Some p, log) => (f', Some p, log)
      | (f', None, log) =>
          let '(f'', r, log') := feed f' rest in (f'', r, log ++ log')
      end
  end.

(** *** [initializeMCPServer]: the handshake listener *)

Inductive init_result : Type :=
| NoResponse   (* loop ran to its end *)
| Aborted      (* an exception left the loop for the outer [catch] *)
| Cleared      (* id 0 seen, timer cleared, then TypeError on a null handle *)
| Completed.   (* id 0 seen: notification written, [resolve()] *)

Fixpoint init_lines (live : bool) (lines : list string) : init_result :=
  match lines with
  | [] => NoResponse
  | l :: rest =>
      let line := Text.trim l in
      if Text.is_empty line then init_lines live rest
      else
        match JSON_parse line with
        | None => Aborted
        | Some response =>
            match Js.get (Val response) "id" with
            | None => Aborted
            | Some idv =>
                if Js.strict_eq_num idv 0 then
                  if live then Completed else Cleared
                else init_lines live rest
            end
        end
  end.

(** [dataHandler] of [initializeMCPServer], followed by the continuation of
    [await initializeMCPServer()] in the banner timer when it resolves. *)
Definition init_dataHandler (k : nat) (s : bridge) (data : string) : bridge :=
  match handshakes s !! k with
  | Some (Started h) =>
      let buf := h_responseData h +:+ data in
      match init_lines (mcpProcess s) (Text.split_nl buf) with
      | NoResponse | Aborted =>
          set_handshakes s
            (<[k := Started (mkHandshaking buf (h_timeout_armed h) (h_promise h))]>
               (handshakes s))
      | Cleared =>
          set_handshakes s
            (<[k := Started (mkHandshaking buf false (h_promise h))]> (handshakes s))
      | Completed =>
          let s1 := set_handshakes s
            (<[k := Started (mkHandshaking buf false
                               (settle (h_promise h) (Resolved Undefined)))]>
               (handshakes s)) in
          let s2 := set_listeners s1 (remove_listener (InitListener k) (stdout_listeners s1)) in
          let s3 := write_stdin s2 (ByInit k) initNotification in
          if is_settled (h_promise h) then s3 else set_ready s3 true
      end
  | _ => s
  end.

(** [initializeMCPServer()] for the k-th banner: reject on a null handle,
    else arm the 10000 ms timer, register the listener, write the request. *)
Definition initializeMCPServer (k : nat) (s : bridge) : bridge :=
  if mcpProcess s then
    let s1 := set_handshakes s
      (<[k := Started (mkHandshaking EmptyString true Unsettled)]> (handshakes s)) in
    let s2 := set_listeners s1 (stdout_listeners s1 ++ [InitListener k]) in
    write_stdin s2 (ByInit k) initRequest
  else
    set_handshakes s (<[k := Refused]> (handshakes s)).

(** The timer callback set when a banner is seen, 2000 ms later. *)
Definition banner_timer (k : nat) (s : bridge) : bridge :=
  match handshakes s !! k with
  | Some Scheduled => initializeMCPServer k s
  | _ => s
  end.

(** The 10000 ms timer of a handshake. *)
Definition handshake_timeout (k : nat) (s : bridge) : bridge :=
  match handshakes s !! k with
  | Some (Started h) =>
      if h_timeout_armed h then
        set_handshakes s
          (<[k := Started (mkHandshaking (h_responseData h) false
                             (settle (h_promise h) (Rejected HandshakeTimeoutError)))]>
             (handshakes s))
      else s
  | _ => s
  end.

(** *** [callMCPTool]: readiness wait and dispatch *)

Definition put_call (s : bridge) (i : nat) (c : call) : bridge :=
  set_calls s (<[i := c]> (calls s)).

(** From [const request = ...] to [stdin.write]. *)
Definition dispatch (s : bridge) (i : nat) (c : call) (now rnd : Z) : bridge :=
  let id := request_id now rnd in
  let s1 := put_call s i (set_phase c (Sent (mkInflight id EmptyString false true))) in
  let s2 := set_listeners s1 (stdout_listeners s1 ++ [CallListener i]) in
  write_stdin s2 (ByCall i) (request id (toolName c) (params c)).

(** The [while] condition and what follows the loop. *)
Definition readiness_loop (s : bridge) (i : nat) (c : call) (now rnd : Z) : bridge :=
  if negb (mcpProcess s) then put_call s i (set_phase c Threw)
  else if negb (serverReady s) && (attempts c <? maxAttempts) then
    put_call s i (set_phase c Polling)
  else if negb (serverReady s) then
    put_call s i (set_outcome (set_phase c Returned)
                    (settle (outcome c) (Rejected NotReadyError)))
  else dispatch s i c now rnd.

Definition callMCPTool (s : bridge) (tool : string) (args : json) (now rnd : Z) : bridge :=
  let i := length (calls s) in
  if negb (mcpProcess s) then
    set_calls s (calls s ++ [mkCall tool args 0 Returned (Rejected NotRunning)])
  else
    let c := mkCall tool args 0 Polling Unsettled in
    readiness_loop (set_calls s (calls s ++ [c])) i c now rnd.

(** The sleep of call [i] elapses: [attempts++], then the loop test again. *)
Definition poll_timer (i : nat) (s : bridge) (now rnd : Z) : bridge :=
  match calls s !! i with
  | Some c =>
      match phase_of c with
      | Polling => readiness_loop s i (incr_attempts c) now rnd
      | _ => s
      end
  | None => s
  end.

(** The 45000 ms timer of call [i]. *)
Definition call_timeout (i : nat) (s : bridge) : bridge :=
  match calls s !! i with
  | Some c =>
      match phase_of c with
      | Sent f =>
          if timeout_armed f then
            if isComplete f then put_call s i (set_phase c (Sent (completed f)))
            else if mcpProcess s then
              let s1 := put_call s i
                (set_outcome (set_phase c (Sent (completed f)))
                             (settle (outcome c) (Rejected CallTimeoutError))) in
              set_listeners s1 (remove_listener (CallListener i) (stdout_listeners s1))
            else
              put_call s i (set_phase c (Sent (completed f)))
          else s
      | _ => s
      end
  | None => s
  end.

(** Whether a pass of the listener of a call reached its [removeListener]:
    the statement follows [isComplete = true] and [clearTimeout], and succeeds
    when the handle is set. *)
Definition unregistered (live : bool) (f f' : inflight) : bool :=
  live && negb (isComplete f) && isComplete f'.

(** One listener receives a stdout chunk. *)
Definition deliver (data : string) (s : bridge) (h : listener) : bridge :=
  match h with
  | LogListener => s
  | InitListener k => init_dataHandler k s data
  | CallListener i =>
      match calls s !! i with
      | Some c =>
          match phase_of c with
          | Sent f =>
              let '(f', r, _) := dataHandler (mcpProcess s) f data in
              let s1 := put_call s i
                (set_outcome (set_phase c (Sent f')) (settle_opt (outcome c) r)) in
              if unregistered (mcpProcess s) f f'
              then set_listeners s1 (remove_listener (CallListener i) (stdout_listeners s1))
              else s1
          | _ => s
          end
      | None => s
      end
  end.

(** [emit("data", chunk)] calls the listeners registered when it starts. *)
Definition emit_stdout (s : bridge) (data : string) : bridge :=
  foldl (deliver data) s (stdout_listeners s).

(** The stderr listener of [startMCPServer]: a chunk that passes the banner
    test sets a 2000 ms timer for the handshake. *)
Definition stderr_listener (s : bridge) (output : string) : bridge :=
  if is_banner output
  then set_handshakes s (handshakes s ++ [Scheduled])
  else s.

(** The close handler of [startMCPServer]: [mcpProcess = null]. *)
Definition on_close (s : bridge) : bridge := set_process s false.

Definition step (s : bridge) (e : event) : bridge :=
  match e with
  | StdoutData chunk => emit_stdout s chunk
  | StderrData chunk => stderr_listener s chunk
  | ProcessClose => on_close s
  | BannerTimer k => banner_timer k s
  | HandshakeTimeout k => handshake_timeout k s
  | CallTool tool args now rnd => callMCPTool s tool args now rnd
  | PollTimer i now rnd => poll_timer i s now rnd
  | CallTimeout i => call_timeout i s
  end.

Definition run (s : bridge) (trace : list event) : bridge := foldl step s trace.

End WithParser.

End Bridge.

(** ** The earlier implementation, [src/app/src/main.js] *)

Module Legacy.

Definition callTimeout : Z := 30000.

(** [id: Date.now()]. *)
Definition request_id (now : Z) : Z := now.

Definition request (id : Z) (toolName : string) (params : json) : json :=
  JObj [("jsonrpc", JStr "2.0"); ("id", JNum id); ("method", JStr "tools/call");
        ("params", JObj [("name", JStr toolName); ("arguments", params)])].

Record call : Type := mkCall {
  reqid : Z;
  responseData : string;
  timeout_armed : bool;
  outcome : promise
}.

Record bridge : Type := mkBridge {
  mcpProcess : bool;
  stdout_listeners : list listener;
  stdin : list (writer * json);
  calls : list call
}.

(** The state [startMCPServer] leaves behind after a successful spawn. *)
Definition startMCPServer : bridge := mkBridge true [LogListener] [] [].

Inductive event : Type :=
| StdoutData (chunk : string)
| CallTool (tool : string) (args : json) (now : Z)
| CallTimeout (i : nat).

(** [x?.k]: [undefined] on [null] and [undefined], else the property. *)
Definition opt_get (v : jsval) (k : string) : jsval :=
  default Undefined (Js.get v k).

(** [x?.[0]]. *)
Definition opt_first (v : jsval) : jsval :=
  match v with
  | Val (JArr (x :: _)) => Val x
  | Val (JObj fields) => Js.lookup_field "0" fields
  | Val (JStr (String c _)) => Val (JStr (String c EmptyString))
  | _ => Undefined
  end.

Section WithParser.

Variable JSON_parse : string -> option json.

(** What the [try] block does after [JSON.parse(responseData)] succeeded and
    the timer and listener were removed: [None] is an exception caught by the
    handler (of a property read, of [new Error], of the inner [JSON.parse]),
    which leaves the promise as it is. *)
Definition settlement (response : json) : option promise :=
  match Js.get (Val response) "error" with
  | None => None
  | Some err =>
      if Js.truthy err then
        match new_Error (opt_get err "message") with
        | Some e => Some (Rejected e)
        | None => None
        end
      else
        let content :=
          opt_get (opt_first (opt_get (opt_get (Val response) "result") "content")) "text" in
        if Js.truthy content then
          match content with
          | Val c =>
              match to_string c with
              | Some text =>
                  match JSON_parse text with
                  | Some parsedContent => Some (Resolved (Val parsedContent))
                  | None => None
                  end
              | None => None
              end
          | Undefined => None
          end
        else Some (Resolved (opt_get (Val response) "result"))
  end.

(** [dataHandler] of call [i]; the flag tells whether the listener removed
    itself. *)
Definition dataHandler (c : call) (data : string) : call * bool :=
  let buf := responseData c +:+ data in
  match JSON_parse buf with
  | None => (mkCall (reqid c) buf (timeout_armed c) (outcome c), false)
  | Some response =>
      (mkCall (reqid c) buf false (settle_opt (outcome c) (settlement response)), true)
  end.

Definition deliver (data : string) (s : bridge) (h : listener) : bridge :=
  match h with
  | CallListener i =>
      match calls s !! i with
      | Some c =>
          let '(c', removed) := dataHandler c data in
          mkBridge (mcpProcess s)
                   (if removed then remove_listener (CallListener i) (stdout_listeners s)
                    else stdout_listeners s)
                   (stdin s) (<[i := c']> (calls s))
      | None => s
      end
  | _ => s
  end.

Definition emit_stdout (s : bridge) (data : string) : bridge :=
  foldl (deliver data) s (stdout_listeners s).

Definition callMCPTool (s : bridge) (tool : string) (args : json) (now : Z) : bridge :=
  let i := length (calls s) in
  if negb (mcpProcess s) then
    mkBridge (mcpProcess s) (stdout_listeners s) (stdin s)
             (calls s ++ [mkCall 0 EmptyString false (Rejected NotRunning)])
  else
    let id := request_id now in
    mkBridge (mcpProcess s) (stdout_listeners s ++ [CallListener i])
             (stdin s ++ [(ByCall i, request id tool args)])
             (calls s ++ [mkCall id EmptyString true Unsettled]).

(** The 30000 ms timer: [reject(new Error("MCP call timeout"))], nothing else. *)
Definition call_timeout (i : nat) (s : bridge) : bridge :=
  match calls s !! i with
  | Some c =>
      if timeout_armed c then
        mkBridge (mcpProcess s) (stdout_listeners s) (stdin s)
                 (<[i := mkCall (reqid c) (responseData c) false
                           (settle (outcome c) (Rejected CallTimeoutError))]> (calls s))
      else s
  | None => s
  end.

Definition step (s : bridge) (e : event) : bridge :=
  match e with
  | StdoutData chunk => emit_stdout s chunk
  | CallTool tool args now => callMCPTool s tool args now
  | CallTimeout i => call_timeout i s
  end.

Definition run (s : bridge) (trace : list event) : bridge := foldl step s trace.

End WithParser.

End Legacy.


(** ** The IPC handlers of [main.js]

    The five handlers that forward a request of the renderer to
    [callMCPTool].  A handler is an async function: it returns at once when
    its guard refuses the argument, and otherwise when the promise of its
    call settles. *)

Module Ipc.

Inductive channel : Type :=
| GetRecentEmails      (* "get-recent-emails" *)
| GetUpcomingEvents    (* "get-upcoming-events" *)
| SearchWebInsights    (* "search-web-insights" *)
| SummarizeEmails      (* "summarize-emails" *)
| AnalyzeCalendar.     (* "analyze-calendar" *)

(** The tool a handler calls. *)
Definition tool (ch : channel) : string :=
  match ch with
  | GetRecentEmails => "get_recent_emails"
  | GetUpcomingEvents => "get_upcoming_events"
  | SearchWebInsights => "search_web_insights"
  | SummarizeEmails => "summarize_emails_ai"
  | AnalyzeCalendar => "analyze_calendar_ai"
  end.

(** A default parameter [x = d]: the default replaces [undefined] only. *)
Definition or_default (v : jsval) (d : json) : jsval :=
  match v with
  | Undefined => Val d
  | Val _ => v
  end.

(** One property of an object literal, as [JSON.stringify] writes it: a
    property whose value is [undefined] is left out. *)
Definition prop (k : string) (v : jsval) : list (string * json) :=
  match v with
  | Undefined => []
  | Val j => [(k, j)]
  end.

(** The arguments object a handler passes to [callMCPTool], from the first
    two arguments of the invocation. *)
Definition arguments (ch : channel) (a b : jsval) : json :=
  match ch with
  | GetRecentEmails => JObj (prop "maxResults" (or_default a (JNum 50)))
  | GetUpcomingEvents => JObj (prop "days" (or_default a (JNum 7)))
  | SearchWebInsights =>
      JObj (prop "query" a ++ prop "context" (or_default b (JStr EmptyString)))
  | SummarizeEmails => JObj (prop "emails" a)
  | AnalyzeCalendar => JObj (prop "events" a)
  end.

(** [v.length] of a value that is neither [null] nor [undefined]. *)
Definition length_of (v : json) : jsval :=
  match v with
  | JArr items => Val (JNum (Z.of_nat (length items)))
  | JStr s => Val (JNum (Z.of_nat (String.length s)))
  | JObj fields => Js.lookup_field "length" fields
  | _ => Undefined
  end.

(** [!v || v.length === 0]. *)
Definition no_items (v : jsval) : bool :=
  match v with
  | Undefined => true
  | Val j => negb (Js.truthy v) || Js.strict_eq_num (length_of j) 0
  end.

(** The handlers with a guard, and the text of their refusal. *)
Definition guard (ch : channel) : option string :=
  match ch with
  | SummarizeEmails => Some "No emails to summarize"
  | AnalyzeCalendar => Some "No events to analyze"
  | _ => None
  end.

(** [{ success: false, error: msg }]. *)
Definition failure (msg : string) : json :=
  JObj [("success", JBool false); ("error", JStr msg)].

(** [error.message] of the [Error] a call was rejected with. *)
Definition error_message (e : error) : string := message e.

(** [result && result.structuredContent ? result.structuredContent : result]. *)
Definition unwrap (result : jsval) : jsval :=
  if Js.truthy result then
    let content := default Undefined (Js.get result "structuredContent") in
    if Js.truthy content then content else result
  else result.

(** What the handler returns once the promise of its call has settled. *)
Definition answer (p : promise) : option jsval :=
  match p with
  | Unsettled => None
  | Resolved result => Some (unwrap result)
  | Rejected e => Some (Val (failure (error_message e)))
  end.

(** An invocation has returned, or awaits the promise of call [i]. *)
Inductive invocation : Type :=
| Replied (v : jsval)
| Awaiting (i : nat).

(** The handler up to its [await]. *)
Definition invoke (s : Bridge.bridge) (ch : channel) (a b : jsval) (now rnd : Z)
  : Bridge.bridge * invocation :=
  let call :=
    (Bridge.callMCPTool s (tool ch) (arguments ch a b) now rnd,
     Awaiting (length (Bridge.calls s))) in
  match guard ch with
  | Some msg => if no_items a then (s, Replied (Val (failure msg))) else call
  | None => call
  end.

(** The reply the renderer has received, if any. *)
Definition reply (s : Bridge.bridge) (r : invocation) : option jsval :=
  match r with
  | Replied v => Some v
  | Awaiting i =>
      match Bridge.calls s !! i with
      | Some c => answer (Bridge.outcome c)
      | None => None
      end
  end.

(** *** The handlers of [src/app/src/main.js]

    The same channels, guards and arguments; the handlers return the result
    of the call as it is. *)

Definition legacy_answer (p : promise) : option jsval :=
  match p with
  | Unsettled => None
  | Resolved result => Some result
  | Rejected e => Some (Val (failure (error_message e)))
  end.

Definition legacy_invoke (s : Legacy.bridge) (ch : channel) (a b : jsval) (now : Z)
  : Legacy.bridge * invocation :=
  let call :=
    (Legacy.callMCPTool s (tool ch) (arguments ch a b) now,
     Awaiting (length (Legacy.calls s))) in
  match guard ch with
  | Some msg => if no_items a then (s, Replied (Val (failure msg))) else call
  | None => call
  end.

Definition legacy_reply (s : Legacy.bridge) (r : invocation) : option jsval :=
  match r with
  | Replied v => Some v
  | Awaiting i =>
      match Legacy.calls s !! i with
      | Some c => legacy_answer (Legacy.outcome c)
      | None => None
      end
  end.

End Ipc.

(** ** Sample frames, streams and traces *)

Module Sample.

Definition response (id : Z) (result : json) : json :=
  JObj [("jsonrpc", JStr "2.0"); ("id", JNum id); ("result", result)].

Definition error_response (id : Z) (code : Z) (msg : string) : json :=
  JObj [("jsonrpc", JStr "2.0"); ("id", JNum id);
        ("error", JObj [("code", JNum code); ("message", JStr msg)])].

(** An error response whose message is an object with an own key
    [toString]: [new Error] throws on it. *)
Definition opaque_error_response (id : Z) : json :=
  JObj [("jsonrpc", JStr "2.0"); ("id", JNum id);
        ("error", JObj [("code", JNum (-32000));
                        ("message", JObj [("toString", JNull)])])].

Definition banner : string := "FastMCP 2.0 | Server name: Echo Test Server".

Definition noise : string := "INFO  Starting provider" +:+ String Text.nl EmptyString.

Definition args : json := JObj [("maxResults", JNum 50)].

(** Banner seen, the 2000 ms timer fired, the handshake answered. *)
Definition handshake_ok : list Bridge.event :=
  [Bridge.StderrData banner; Bridge.BannerTimer 0;
   Bridge.StdoutData (Json.line (response 0 (JObj [])))].

Definition ready : Bridge.bridge :=
  Bridge.run Json.parse Bridge.startMCPServer handshake_ok.

End Sample.

(** ** Invariants of the bridge *)

Module Inv.

(** What the phases of a call imply about its counter and its promise. *)
Definition call_ok (c : Bridge.call) : Prop :=
  match Bridge.phase_of c with
  | Bridge.Polling =>
      Bridge.attempts c < Bridge.maxAttempts /\ Bridge.outcome c = Unsettled
  | Bridge.Sent _ => True
  | Bridge.Returned =>
      (Bridge.outcome c = Rejected NotRunning /\ Bridge.attempts c = 0)
      \/ (Bridge.outcome c = Rejected NotReadyError
          /\ Bridge.attempts c = Bridge.maxAttempts)
  | Bridge.Threw =>
      Bridge.outcome c = Unsettled /\ 1 <= Bridge.attempts c
  end.

Definition is_sent (c : Bridge.call) : Prop :=
  match Bridge.phase_of c with Bridge.Sent _ => True | _ => False end.

(** Only dispatched calls have written to stdin. *)
Definition writes_ok (s : Bridge.bridge) : Prop :=
  forall i frame, (ByCall i, frame) ∈ Bridge.stdin s ->
    exists c, Bridge.calls s !! i = Some c /\ is_sent c.

Definition wf (s : Bridge.bridge) : Prop :=
  Forall call_ok (Bridge.calls s) /\ writes_ok s.

(** The ready flag is backed by a handshake that was started by the banner
    timer and completed. *)
Definition ready_ok (s : Bridge.bridge) : Prop :=
  Bridge.serverReady s = true ->
  exists k h, Bridge.handshakes s !! k = Some (Bridge.Started h)
              /\ Bridge.h_promise h = Resolved Undefined
              /\ (ByInit k, Bridge.initRequest) ∈ Bridge.stdin s
              /\ (ByInit k, Bridge.initNotification) ∈ Bridge.stdin s.

(** The handshakes that were started have written their request. *)
Definition started_ok (s : Bridge.bridge) : Prop :=
  forall k h, Bridge.handshakes s !! k = Some (Bridge.Started h) ->
    (ByInit k, Bridge.initRequest) ∈ Bridge.stdin s.

Definition backed (s : Bridge.bridge) : Prop := started_ok s /\ ready_ok s.

(** Events other than a banner on stderr. *)
Definition no_banner (e : Bridge.event) : Prop :=
  match e with
  | Bridge.StderrData chunk => Bridge.is_banner chunk = false
  | _ => True
  end.

(** Events other than the firing of a banner timer. *)
Definition no_banner_timer (e : Bridge.event) : Prop :=
  match e with
  | Bridge.BannerTimer _ => False
  | _ => True
  end.

(** No handshake has left the 2000 ms delay. *)
Definition unstarted (s : Bridge.bridge) : Prop :=
  Bridge.serverReady s = false
  /\ Forall (fun h => h = Bridge.Scheduled) (Bridge.handshakes s).

Definition no_close (e : Bridge.event) : Prop :=
  match e with
  | Bridge.ProcessClose => False
  | _ => True
  end.

(** A call that is waiting for readiness, or has given up waiting. *)
Definition waiting_or_not_ready (c : Bridge.call) : Prop :=
  (Bridge.phase_of c = Bridge.Polling
   /\ Bridge.attempts c < Bridge.maxAttempts /\ Bridge.outcome c = Unsettled)
  \/ (Bridge.phase_of c = Bridge.Returned
      /\ Bridge.attempts c = Bridge.maxAttempts
      /\ Bridge.outcome c = Rejected NotReadyError).

(** A call that was never dispatched and has not resolved. *)
Definition never_dispatched (c : Bridge.call) : Prop :=
  ~ is_sent c /\ forall v, Bridge.outcome c <> Resolved v.

(** No handshake was ever scheduled: not ready, nothing written, no call
    dispatched or resolved. *)
Definition quiet (s : Bridge.bridge) : Prop :=
  Bridge.handshakes s = [] /\ Bridge.serverReady s = false
  /\ Bridge.stdin s = [] /\ Forall never_dispatched (Bridge.calls s).

(** The provider runs and every call is inside its bounded wait or has
    failed at the bound. *)
Definition alive (s : Bridge.bridge) : Prop :=
  Bridge.mcpProcess s = true /\ Forall waiting_or_not_ready (Bridge.calls s).

(** The number of times the sleep of call [i] elapses in a trace. *)
Fixpoint polls (i : nat) (trace : list Bridge.event) : nat :=
  match trace with
  | [] => 0
  | Bridge.PollTimer j _ _ :: rest => (if Nat.eqb j i then 1 else 0) + polls i rest
  | _ :: rest => polls i rest
  end.

(** At every poll of call [i] along the trace the provider runs and the
    ready flag is unset. *)
Fixpoint unready_at_polls (parse : string -> option json) (i : nat)
    (s : Bridge.bridge) (trace : list Bridge.event) : Prop :=
  match trace with
  | [] => True
  | e :: rest =>
      match e with
      | Bridge.PollTimer j _ _ =>
          if Nat.eqb j i
          then Bridge.mcpProcess s = true /\ Bridge.serverReady s = false
          else True
      | _ => True
      end
      /\ unready_at_polls parse i (Bridge.step parse s e) rest
  end.

(** How an event may change a dispatched call: its request id stays, and
    its promise is left alone or, if unsettled, settled by its own timer or
    from a response whose id is the request id. *)
Definition evolves (c c' : Bridge.call) : Prop :=
  exists f f',
    Bridge.phase_of c = Bridge.Sent f /\ Bridge.phase_of c' = Bridge.Sent f'
    /\ Bridge.reqid f' = Bridge.reqid f
    /\ (Bridge.outcome c' = Bridge.outcome c
        \/ (Bridge.outcome c = Unsettled
            /\ (Bridge.outcome c' = Rejected CallTimeoutError
                \/ exists response idv,
                     Js.get (Val response) "id" = Some idv
                     /\ Js.strict_eq_num idv (Bridge.reqid f) = true
                     /\ Bridge.settlement response = Some (Bridge.outcome c')))).

(** None of these lines is a response to call [id] at which the [try] block
    of its listener is left by a TypeError once [isComplete] is set. *)
Definition unfaulted (parse : string -> option json) (id : Z) (lines : list string) : Prop :=
  Forall (fun l => Bridge.try_line parse true id (Text.trim l) <> Bridge.Faulted) lines.

(** The executor of the call has thrown, or returned without dispatching. *)
Definition final (c : Bridge.call) : Prop :=
  Bridge.phase_of c = Bridge.Threw \/ Bridge.phase_of c = Bridge.Returned.

End Inv.

(** ** Traces used to instantiate the statements *)

Module Trace.

(** The sleep of call 0 elapsing fifteen times, a log line in between. *)
Definition polled15 : list Bridge.event :=
  replicate 7 (Bridge.PollTimer 0 1000 7)
  ++ [Bridge.StdoutData Sample.noise]
  ++ replicate 8 (Bridge.PollTimer 0 1000 7).

(** A call issued before readiness; the provider exits during the fifteenth
    sleep of the call. *)
Definition exit_in_last_sleep : list Bridge.event :=
  Bridge.CallTool "get_recent_emails" Sample.args 1000 7
  :: replicate 14 (Bridge.PollTimer 0 1000 7)
  ++ [Bridge.ProcessClose; Bridge.PollTimer 0 1000 7].

(** A call issued before readiness; the provider exits during its sleep. *)
Definition exit_while_polling : list Bridge.event :=
  [Bridge.CallTool "get_recent_emails" Sample.args 1000 7;
   Bridge.PollTimer 0 1500 7; Bridge.ProcessClose].

End Trace.

(** ** Further invariants and observations *)

Global Instance writer_eq_dec : EqDecision writer.
Proof. solve_decision. Defined.

Module Obs.

(** The bookkeeping of listeners, timers and buffers:
    - the listeners on stdout are pairwise distinct;
    - a registered call listener belongs to a dispatched call whose promise
      is unsettled;
    - the timer of a dispatched call is armed exactly while its listener has
      not completed, and until then the buffer holds no newline, the promise
      is unsettled and the listener is registered. *)
Definition tidy (s : Bridge.bridge) : Prop :=
  NoDup (Bridge.stdout_listeners s)
  /\ (forall k, InitListener k ∈ Bridge.stdout_listeners s ->
        exists h, Bridge.handshakes s !! k = Some (Bridge.Started h))
  /\ (forall i, CallListener i ∈ Bridge.stdout_listeners s ->
        exists c f, Bridge.calls s !! i = Some c
                    /\ Bridge.phase_of c = Bridge.Sent f
                    /\ Bridge.outcome c = Unsettled)
  /\ (forall i c f, Bridge.calls s !! i = Some c ->
        Bridge.phase_of c = Bridge.Sent f ->
        Bridge.timeout_armed f = negb (Bridge.isComplete f)
        /\ (Bridge.isComplete f = false ->
            Text.has_nl (Bridge.responseData f) = false
            /\ Bridge.outcome c = Unsettled
            /\ CallListener i ∈ Bridge.stdout_listeners s)).

(** The listener of a handshake stays registered while its promise is
    unsettled. *)
Definition listening (s : Bridge.bridge) : Prop :=
  forall k h, Bridge.handshakes s !! k = Some (Bridge.Started h) ->
    Bridge.h_promise h = Unsettled ->
    InitListener k ∈ Bridge.stdout_listeners s.

(** A resolved handshake has set the ready flag and cleared its timer. *)
Definition resolved_ok (s : Bridge.bridge) : Prop :=
  forall k h v, Bridge.handshakes s !! k = Some (Bridge.Started h) ->
    Bridge.h_promise h = Resolved v ->
    Bridge.serverReady s = true /\ v = Undefined /\ Bridge.h_timeout_armed h = false.

(** A call is pending: it is dispatched and its listener has not completed. *)
Definition is_pending (c : Bridge.call) : bool :=
  match Bridge.phase_of c with
  | Bridge.Sent f => negb (Bridge.isComplete f)
  | _ => false
  end.

Fixpoint pending_from (n : nat) (cs : list Bridge.call) : list nat :=
  match cs with
  | [] => []
  | c :: rest => (if is_pending c then [n] else []) ++ pending_from (S n) rest
  end.

(** The pending calls of a state, by their index in the table of calls. *)
Definition pending (s : Bridge.bridge) : list nat := pending_from 0 (Bridge.calls s).

(** Call [i] is dispatched and unsettled, and the handle is null. *)
Definition orphaned (i : nat) (s : Bridge.bridge) : Prop :=
  Bridge.mcpProcess s = false
  /\ exists c f, Bridge.calls s !! i = Some c /\ Bridge.phase_of c = Bridge.Sent f
                 /\ Bridge.outcome c = Unsettled.

(** Call [i] is lost: its listener has set [isComplete], cleared the timer
    and unregistered, and the promise is unsettled. *)
Definition lost (i : nat) (s : Bridge.bridge) : Prop :=
  (CallListener i ∉ Bridge.stdout_listeners s)
  /\ exists c f, Bridge.calls s !! i = Some c /\ Bridge.phase_of c = Bridge.Sent f
                 /\ Bridge.isComplete f = true /\ Bridge.timeout_armed f = false
                 /\ Bridge.outcome c = Unsettled.

(** The handle is null in every state the trace passes through. *)
Fixpoint null_along (parse : string -> option json) (s : Bridge.bridge)
    (trace : list Bridge.event) : Prop :=
  Bridge.mcpProcess s = false
  /\ match trace with
     | [] => True
     | e :: rest => null_along parse (Bridge.step parse s e) rest
     end.

(** The text an event delivers on stdout. *)
Definition chunk_of (e : Bridge.event) : string :=
  match e with
  | Bridge.StdoutData chunk => chunk
  | _ => EmptyString
  end.

(** The text stdout delivers over a trace. *)
Definition stdout_text (trace : list Bridge.event) : string :=
  Text.concat_all (chunk_of <$> trace).

(** How the promise of call [i], pending with the closure variables [f], may
    stand after the events [later]: unsettled, rejected by its own timer, or
    settled from a complete line, with its id, of the text that stdout has
    delivered since. *)
Definition settled_from (parse : string -> option json) (later : list Bridge.event)
    (i : nat) (f : Bridge.inflight) (c' : Bridge.call) : Prop :=
  Bridge.outcome c' = Unsettled
  \/ (Bridge.outcome c' = Rejected CallTimeoutError /\ Bridge.CallTimeout i ∈ later)
  \/ exists l response idv,
       l ∈ Text.complete_lines (Bridge.responseData f +:+ stdout_text later)
       /\ parse (Text.trim l) = Some response
       /\ Js.get (Val response) "id" = Some idv
       /\ Js.strict_eq_num idv (Bridge.reqid f) = true
       /\ Bridge.settlement response = Some (Bridge.outcome c').

(** The frames call [i] has written to stdin, in the order of writing. *)
Definition frames_of (i : nat) (s : Bridge.bridge) : list json :=
  (filter (fun w => w.1 = ByCall i) (Bridge.stdin s)).*2.

(** The request of a call, once it is dispatched. *)
Definition expected (c : Bridge.call) : list json :=
  match Bridge.phase_of c with
  | Bridge.Sent f => [Bridge.request (Bridge.reqid f) (Bridge.toolName c) (Bridge.params c)]
  | _ => []
  end.

(** The request call [i] should have on the wire. *)
Definition expected_at (i : nat) (s : Bridge.bridge) : list json :=
  match Bridge.calls s !! i with
  | Some c => expected c
  | None => []
  end.

(** What each call has written is its request, once, if it is dispatched,
    and nothing otherwise. *)
Definition framed (s : Bridge.bridge) : Prop :=
  forall i, frames_of i s = expected_at i s.

(** The number of stderr chunks of a trace that pass the banner test. *)
Fixpoint banners (trace : list Bridge.event) : nat :=
  match trace with
  | [] => 0
  | Bridge.StderrData chunk :: rest =>
      (if Bridge.is_banner chunk then 1 else 0) + banners rest
  | _ :: rest => banners rest
  end.

(** A handshake that can no longer set the ready flag: it was refused, or
    its promise is settled. *)
Definition spent (h : Bridge.handshake) : Prop :=
  match h with
  | Bridge.Scheduled => False
  | Bridge.Started h => is_settled (Bridge.h_promise h) = true
  | Bridge.Refused => True
  end.

(** The flag is unset and no handshake can set it. *)
Definition stuck (s : Bridge.bridge) : Prop :=
  Bridge.serverReady s = false /\ Forall spent (Bridge.handshakes s).

(** The buffer of handshake [k] holds a complete line at which its listener
    leaves the loop by an exception, and its promise is unsettled or rejected
    by the timer. *)
Definition poisoned (parse : string -> option json) (k : nat) (s : Bridge.bridge) : Prop :=
  exists h, Bridge.handshakes s !! k = Some (Bridge.Started h)
            /\ Bridge.init_lines parse true (Text.complete_lines (Bridge.h_responseData h))
               = Bridge.Aborted
            /\ (Bridge.h_promise h = Unsettled
                \/ Bridge.h_promise h = Rejected HandshakeTimeoutError).

(** The frames handshake [k] has written to stdin, in the order of
    writing. *)
Definition init_frames (k : nat) (s : Bridge.bridge) : list json :=
  (filter (fun w => w.1 = ByInit k) (Bridge.stdin s)).*2.

(** [initializeMCPServer] has run for handshake [k] with the handle set. *)
Definition has_started (k : nat) (s : Bridge.bridge) : bool :=
  match Bridge.handshakes s !! k with
  | Some (Bridge.Started _) => true
  | _ => false
  end.

(** What a handshake should have on the wire: the request once it has
    started, and the notification once its listener has unregistered. *)
Definition init_expected (k : nat) (s : Bridge.bridge) : list json :=
  if has_started k s then
    if decide (InitListener k ∈ Bridge.stdout_listeners s)
    then [Bridge.initRequest]
    else [Bridge.initRequest; Bridge.initNotification]
  else [].

(** What each handshake has written is what its state asks for. *)
Definition shaken (s : Bridge.bridge) : Prop :=
  forall k, init_frames k s = init_expected k s.

End Obs.

(** ** Events with the time at which they happen *)

Module Timed.

(** The times of the stderr chunks that pass the banner test, in order. *)
Fixpoint banner_times (tt : list (Z * Bridge.event)) : list Z :=
  match tt with
  | [] => []
  | (t, Bridge.StderrData chunk) :: rest =>
      (if Bridge.is_banner chunk then [t] else []) ++ banner_times rest
  | _ :: rest => banner_times rest
  end.

(** [setTimeout(..., 2000)] of the stderr listener: the timer set at the
    k-th banner chunk fires no earlier than [bannerDelay] after that chunk.
    [seen] holds the times of the banner chunks so far. *)
Fixpoint due (seen : list Z) (tt : list (Z * Bridge.event)) : bool :=
  match tt with
  | [] => true
  | (t, e) :: rest =>
      match e with
      | Bridge.StderrData chunk =>
          due (if Bridge.is_banner chunk then seen ++ [t] else seen) rest
      | Bridge.BannerTimer k =>
          match seen !! k with
          | Some t0 => (t0 + Bridge.bannerDelay <=? t)%Z
          | None => true
          end && due seen rest
      | _ => due seen rest
      end
  end.

(** The events of a trace happen one after the other: their times do not
    decrease. *)
Fixpoint ordered (tt : list (Z * Bridge.event)) : bool :=
  match tt with
  | [] => true
  | (t, _) :: rest =>
      match rest with
      | [] => true
      | (t', _) :: _ => (t <=? t')%Z && ordered rest
      end
  end.

End Timed.

(** ** Observations on the earlier implementation *)

Module ObsLegacy.

(** The listeners on stdout are pairwise distinct and belong to calls that
    were issued. *)
Definition tidy (s : Legacy.bridge) : Prop :=
  NoDup (Legacy.stdout_listeners s)
  /\ forall j, CallListener j ∈ Legacy.stdout_listeners s -> j < length (Legacy.calls s).

(** Call [i] has neither listener nor timer, and its promise is unsettled. *)
Definition dead (i : nat) (s : Legacy.bridge) : Prop :=
  (CallListener i ∉ Legacy.stdout_listeners s)
  /\ exists c, Legacy.calls s !! i = Some c
               /\ Legacy.timeout_armed c = false
               /\ Legacy.outcome c = Unsettled.

End ObsLegacy.
(** * Properties *)

(** ** Splitting a stream into lines *)

Lemma split_nl_nonempty (s : string) : Text.split_nl s <> [].
Proof.
  induction s as [|c s IH]; simpl; [discriminate|].
  destruct (Text.is_nl c); [discriminate|].
  destruct (Text.split_nl s); [contradiction | discriminate].
Qed.

Lemma split_nl_app (a b : string) :
  Text.split_nl (a +:+ b)
  = Text.complete_lines a ++ Text.split_nl (Text.fragment a +:+ b).
Proof.
  unfold Text.complete_lines, Text.fragment.
  induction a as [|c a IH]; simpl; [reflexivity|].
  destruct (Text.is_nl c) eqn:Hc.
  - rewrite IH. pose proof (split_nl_nonempty a) as Hne.
    destruct (Text.split_nl a) as [|l ls]; [contradiction|]. reflexivity.
  - rewrite IH. pose proof (split_nl_nonempty a) as Hne.
    destruct (Text.split_nl a) as [|l ls]; [contradiction|].
    destruct ls as [|l' ls]; simpl.
    + rewrite Hc. reflexivity.
    + reflexivity.
Qed.

Lemma complete_lines_app (a b : string) :
  Text.complete_lines (a +:+ b)
  = Text.complete_lines a ++ Text.complete_lines (Text.fragment a +:+ b).
Proof.
  unfold Text.complete_lines at 1. rewrite split_nl_app.
  rewrite removelast_app by apply split_nl_nonempty. reflexivity.
Qed.

Lemma last_app_nonempty {A} (l l' : list A) (d : A) :
  l' <> [] -> List.last (l ++ l') d = List.last l' d.
Proof.
  intros Hne. induction l as [|x l IH]; simpl; [reflexivity|].
  rewrite IH. destruct (l ++ l') eqn:E; [|reflexivity].
  destruct l, l'; simpl in E; congruence.
Qed.

Lemma fragment_app (a b : string) :
  Text.fragment (a +:+ b) = Text.fragment (Text.fragment a +:+ b).
Proof.
  unfold Text.fragment at 1. rewrite split_nl_app.
  rewrite last_app_nonempty by apply split_nl_nonempty. reflexivity.
Qed.

Lemma split_nl_no_nl (s : string) :
  Text.has_nl s = false -> Text.split_nl s = [s].
Proof.
  induction s as [|c s IH]; simpl; [reflexivity|].
  intros H. apply orb_false_iff in H as [Hc Hs].
  rewrite Hc, (IH Hs). reflexivity.
Qed.

Lemma fragment_no_nl (s : string) : Text.has_nl (Text.fragment s) = false.
Proof.
  unfold Text.fragment.
  induction s as [|c s IH]; simpl; [reflexivity|].
  pose proof (split_nl_nonempty s) as Hne.
  destruct (Text.is_nl c) eqn:Hc.
  - destruct (Text.split_nl s) as [|l ls]; [contradiction|]. exact IH.
  - destruct (Text.split_nl s) as [|l ls]; [contradiction|].
    destruct ls as [|l' ls]; simpl in *.
    + rewrite Hc. exact IH.
    + exact IH.
Qed.

Lemma append_empty_r (s : string) : s +:+ EmptyString = s.
Proof.
  induction s as [|c s IH]; [reflexivity|].
  change (String c (s +:+ EmptyString) = String c s). now rewrite IH.
Qed.

Lemma append_assoc (a b c : string) : (a +:+ b) +:+ c = a +:+ (b +:+ c).
Proof.
  induction a as [|x a IH]; [reflexivity|].
  change (String x ((a +:+ b) +:+ c) = String x (a +:+ (b +:+ c))). now rewrite IH.
Qed.

(** ** The response listener of [callMCPTool] *)

Section CallHandler.

Variable parse : string -> option json.

Lemma set_buffer_same (f : Bridge.inflight) :
  Bridge.set_buffer f (Bridge.responseData f) = f.
Proof. destruct f; reflexivity. Qed.

(** The loop leaves the closure variables alone until it finds the response,
    as long as no line makes it fault. *)
Lemma for_lines_state (f : Bridge.inflight) (lines : list string) :
  Inv.unfaulted parse (Bridge.reqid f) lines ->
  (Bridge.for_lines parse true f lines).1.1
  = match (Bridge.for_lines parse true f lines).1.2 with
    | Some _ => Bridge.completed f
    | None => f
    end.
Proof.
  unfold Inv.unfaulted.
  induction lines as [|l rest IH]; intros Hun; simpl; [reflexivity|].
  apply Forall_cons in Hun as [Hl Hrest]. specialize (IH Hrest).
  destruct (Text.is_empty (Text.trim l)); [exact IH|].
  destruct (Bridge.try_line parse true (Bridge.reqid f) (Text.trim l)) eqn:E;
    [| reflexivity | contradiction].
  destruct (Bridge.for_lines parse true f rest) as [[f' r] log]. exact IH.
Qed.

(** Settlement and parsed frames depend on the request id only. *)
Lemma for_lines_result (f g : Bridge.inflight) (lines : list string) :
  Bridge.reqid f = Bridge.reqid g ->
  (Bridge.for_lines parse true f lines).1.2 = (Bridge.for_lines parse true g lines).1.2
  /\ (Bridge.for_lines parse true f lines).2 = (Bridge.for_lines parse true g lines).2.
Proof.
  revert f g. induction lines as [|l rest IH]; intros f g Hid; simpl; [split; reflexivity|].
  destruct (Text.is_empty (Text.trim l)); [apply IH, Hid|].
  rewrite <- Hid.
  destruct (Bridge.try_line parse true (Bridge.reqid f) (Text.trim l)) eqn:E;
    [| split; reflexivity |].
  - specialize (IH f g Hid).
    destruct (Bridge.for_lines parse true f rest) as [[f' r] log].
    destruct (Bridge.for_lines parse true g rest) as [[g' r'] log'].
    simpl in *. destruct IH as [-> ->]. split; reflexivity.
  - specialize (IH (Bridge.completed f) (Bridge.completed g) Hid).
    destruct (Bridge.for_lines parse true (Bridge.completed f) rest) as [[f' r] log].
    destruct (Bridge.for_lines parse true (Bridge.completed g) rest) as [[g' r'] log'].
    simpl in *. destruct IH as [-> ->]. split; reflexivity.
Qed.

Lemma for_lines_app (live : bool) (f : Bridge.inflight) (l1 l2 : list string) :
  Bridge.for_lines parse live f (l1 ++ l2)
  = match Bridge.for_lines parse live f l1 with
    | (f', Some p, log) => (f', Some p, log)
    | (f', None, log) =>
        let '(f'', r, log') := Bridge.for_lines parse live f' l2 in
        (f'', r, log ++ log')
    end.
Proof.
  revert f. induction l1 as [|l rest IH]; intros f; simpl.
  - destruct (Bridge.for_lines parse live f l2) as [[f' r] log]. reflexivity.
  - destruct (Text.is_empty (Text.trim l)); [apply IH|].
    destruct (Bridge.try_line parse live (Bridge.reqid f) (Text.trim l)) eqn:E;
      [| reflexivity |].
    + rewrite IH.
      destruct (Bridge.for_lines parse live f rest) as [[f' [p|]] log]; [reflexivity|].
      destruct (Bridge.for_lines parse live f' l2) as [[f'' r] log'].
      rewrite app_assoc. reflexivity.
    + rewrite IH.
      destruct (Bridge.for_lines parse live (Bridge.completed f) rest)
        as [[f' [p|]] log]; [reflexivity|].
      destruct (Bridge.for_lines parse live f' l2) as [[f'' r] log'].
      rewrite app_assoc. reflexivity.
Qed.

Lemma unfaulted_app (id : Z) (l1 l2 : list string) :
  Inv.unfaulted parse id (l1 ++ l2) ->
  Inv.unfaulted parse id l1 /\ Inv.unfaulted parse id l2.
Proof. unfold Inv.unfaulted. apply Forall_app. Qed.

(** Feeding chunks to a listener whose buffer holds no newline amounts to one
    run of the loop over the complete lines of the whole text, when none of
    these lines makes the loop fault. *)
Lemma feed_whole (chunks : list string) (f : Bridge.inflight) :
  Bridge.isComplete f = false ->
  Text.has_nl (Bridge.responseData f) = false ->
  let whole := Bridge.responseData f +:+ Text.concat_all chunks in
  Inv.unfaulted parse (Bridge.reqid f) (Text.complete_lines whole) ->
  (Bridge.feed parse f chunks).1.2
  = (Bridge.for_lines parse true f (Text.complete_lines whole)).1.2
  /\ (Bridge.feed parse f chunks).2
     = (Bridge.for_lines parse true f (Text.complete_lines whole)).2
  /\ ((Bridge.feed parse f chunks).1.2 = None ->
      (Bridge.feed parse f chunks).1.1 = Bridge.set_buffer f (Text.fragment whole)).
Proof.
  revert f. induction chunks as [|c rest IH]; intros f Hc Hnl; cbn zeta.
  - simpl Text.concat_all. rewrite append_empty_r.
    unfold Text.complete_lines, Text.fragment.
    rewrite (split_nl_no_nl _ Hnl). simpl.
    repeat split. intros _. symmetry. apply set_buffer_same.
  - simpl Text.concat_all. rewrite <- append_assoc.
    set (buf := Bridge.responseData f +:+ c).
    rewrite (complete_lines_app buf), (fragment_app buf), for_lines_app.
    intros Hun. apply unfaulted_app in Hun as [Hun1 Hun2].
    simpl Bridge.feed. unfold Bridge.dataHandler. rewrite Hc.
    fold buf.
    change (Bridge.responseData (Bridge.set_buffer f buf)) with buf.
    pose proof (for_lines_result (Bridge.set_buffer f buf) f
                  (Text.complete_lines buf) eq_refl) as [Hr Hlog].
    pose proof (for_lines_state (Bridge.set_buffer f buf) (Text.complete_lines buf) Hun1)
      as Hst.
    pose proof (for_lines_state f (Text.complete_lines buf) Hun1) as Hst'.
    destruct (Bridge.for_lines parse true (Bridge.set_buffer f buf)
                (Text.complete_lines buf)) as [[f1 r1] log1].
    destruct (Bridge.for_lines parse true f (Text.complete_lines buf))
      as [[f2 r2] log2].
    simpl in Hr, Hlog, Hst, Hst'. subst r2 log2.
    destruct r1 as [p|].
    + simpl. repeat split. discriminate.
    + subst f1 f2.
      set (f' := Bridge.set_buffer (Bridge.set_buffer f buf) (Text.fragment buf)).
      assert (Hc' : Bridge.isComplete f' = false) by exact Hc.
      assert (Hnl' : Text.has_nl (Bridge.responseData f') = false)
        by apply fragment_no_nl.
      specialize (IH f' Hc' Hnl'). cbn zeta in IH.
      change (Bridge.responseData f') with (Text.fragment buf) in IH.
      specialize (IH Hun2).
      pose proof (for_lines_result f' f
        (Text.complete_lines (Text.fragment buf +:+ Text.concat_all rest)) eq_refl)
        as [Hr Hlog].
      destruct IH as (IH1 & IH2 & IH3).
      destruct (Bridge.feed parse f' rest) as [[g r] log].
      destruct (Bridge.for_lines parse true f'
        (Text.complete_lines (Text.fragment buf +:+ Text.concat_all rest)))
        as [[g1 r1] lg1].
      destruct (Bridge.for_lines parse true f
        (Text.complete_lines (Text.fragment buf +:+ Text.concat_all rest)))
        as [[g2 r2] lg2].
      simpl in *. subst. repeat split.
      intros Hn. rewrite (IH3 Hn). destruct f; reflexivity.
Qed.

End CallHandler.

(** ** How a step touches the table of calls *)

Section Steps.

Variable parse : string -> option json.

Lemma run_snoc (s : Bridge.bridge) (trace : list Bridge.event) (e : Bridge.event) :
  Bridge.run parse s (trace ++ [e]) = Bridge.step parse (Bridge.run parse s trace) e.
Proof. unfold Bridge.run. apply foldl_snoc. Qed.

Lemma run_app (s : Bridge.bridge) (t1 t2 : list Bridge.event) :
  Bridge.run parse s (t1 ++ t2) = Bridge.run parse (Bridge.run parse s t1) t2.
Proof. unfold Bridge.run. apply foldl_app. Qed.

(** Induction over the events of a trace, all of which satisfy [Q]. *)
Lemma run_invariant (Q : Bridge.event -> Prop) (P : Bridge.bridge -> Prop) :
  (forall s e, Q e -> P s -> P (Bridge.step parse s e)) ->
  forall trace s, Forall Q trace -> P s -> P (Bridge.run parse s trace).
Proof.
  intros Hstep trace. induction trace as [|e trace IH]; intros s HQ HP; [exact HP|].
  inversion HQ; subst. simpl. apply IH; [assumption|]. apply Hstep; assumption.
Qed.

Lemma emit_invariant (P : Bridge.bridge -> Prop) (data : string) :
  (forall s h, P s -> P (Bridge.deliver parse data s h)) ->
  forall s, P s -> P (Bridge.emit_stdout parse s data).
Proof.
  intros Hd s. unfold Bridge.emit_stdout.
  generalize (Bridge.stdout_listeners s).
  intros ls. revert s. induction ls as [|h ls IH]; intros s HP; [exact HP|].
  simpl. apply IH, Hd, HP.
Qed.

Lemma init_dataHandler_calls (k : nat) (s : Bridge.bridge) (data : string) :
  Bridge.calls (Bridge.init_dataHandler parse k s data) = Bridge.calls s.
Proof.
  unfold Bridge.init_dataHandler.
  destruct (Bridge.handshakes s !! k) as [[|h|]|]; try reflexivity.
  destruct (Bridge.init_lines parse (Bridge.mcpProcess s) _); try reflexivity.
  destruct (is_settled (Bridge.h_promise h)); reflexivity.
Qed.

Lemma banner_timer_calls (k : nat) (s : Bridge.bridge) :
  Bridge.calls (Bridge.banner_timer k s) = Bridge.calls s.
Proof.
  unfold Bridge.banner_timer, Bridge.initializeMCPServer.
  destruct (Bridge.handshakes s !! k) as [[|h|]|]; try reflexivity.
  destruct (Bridge.mcpProcess s); reflexivity.
Qed.

Lemma handshake_timeout_calls (k : nat) (s : Bridge.bridge) :
  Bridge.calls (Bridge.handshake_timeout k s) = Bridge.calls s.
Proof.
  unfold Bridge.handshake_timeout.
  destruct (Bridge.handshakes s !! k) as [[|h|]|]; try reflexivity.
  destruct (Bridge.h_timeout_armed h); reflexivity.
Qed.

Lemma put_call_ne (s : Bridge.bridge) (i j : nat) (c : Bridge.call) :
  i <> j -> Bridge.calls (Bridge.put_call s j c) !! i = Bridge.calls s !! i.
Proof. intros Hne. simpl. apply list_lookup_insert_ne. congruence. Qed.

Lemma put_call_eq (s : Bridge.bridge) (i : nat) (c c0 : Bridge.call) :
  Bridge.calls s !! i = Some c0 -> Bridge.calls (Bridge.put_call s i c) !! i = Some c.
Proof.
  intros H. simpl. apply list_lookup_insert_eq. eapply lookup_lt_Some, H.
Qed.

Lemma dispatch_calls (s : Bridge.bridge) (j : nat) (c : Bridge.call) (now rnd : Z) :
  Bridge.calls (Bridge.dispatch s j c now rnd)
  = <[j := Bridge.set_phase c
            (Bridge.Sent (Bridge.mkInflight (Bridge.request_id now rnd) EmptyString false true))]>
      (Bridge.calls s).
Proof. reflexivity. Qed.

(** The readiness loop of call [j] rewrites entry [j] only. *)
Lemma readiness_loop_ne (s : Bridge.bridge) (i j : nat) (c : Bridge.call) (now rnd : Z) :
  i <> j ->
  Bridge.calls (Bridge.readiness_loop s j c now rnd) !! i = Bridge.calls s !! i.
Proof.
  intros Hne. unfold Bridge.readiness_loop.
  destruct (negb (Bridge.mcpProcess s)); [apply put_call_ne, Hne|].
  destruct (negb (Bridge.serverReady s) && (Bridge.attempts c <? Bridge.maxAttempts));
    [apply put_call_ne, Hne|].
  destruct (negb (Bridge.serverReady s)); [apply put_call_ne, Hne|].
  rewrite dispatch_calls. apply list_lookup_insert_ne. congruence.
Qed.

Lemma deliver_ne (data : string) (s : Bridge.bridge) (h : listener) (i : nat) :
  h <> CallListener i ->
  Bridge.calls (Bridge.deliver parse data s h) !! i = Bridge.calls s !! i.
Proof.
  intros Hne. destruct h as [|k|j]; simpl; [reflexivity| |].
  - rewrite init_dataHandler_calls. reflexivity.
  - assert (i <> j) by congruence.
    destruct (Bridge.calls s !! j) as [c|]; [|reflexivity].
    destruct (Bridge.phase_of c); try reflexivity.
    destruct (Bridge.dataHandler parse (Bridge.mcpProcess s) f data) as [[f' r] log].
    destruct (Bridge.unregistered _ _ _); simpl; apply list_lookup_insert_ne; congruence.
Qed.

(** A call that was not dispatched is touched by its own poll timer only. *)
Lemma step_frame (s : Bridge.bridge) (e : Bridge.event) (i : nat) (c : Bridge.call) :
  Bridge.calls s !! i = Some c -> ~ Inv.is_sent c ->
  (forall now rnd, e = Bridge.PollTimer i now rnd -> Bridge.phase_of c <> Bridge.Polling) ->
  Bridge.calls (Bridge.step parse s e) !! i = Some c.
Proof.
  intros Hi Hns Hpoll.
  assert (Hnot : forall f, Bridge.phase_of c <> Bridge.Sent f).
  { intros f Hf. apply Hns. unfold Inv.is_sent. rewrite Hf. exact I. }
  destruct e as [chunk|chunk| |k|k|tool args now rnd|j now rnd|j]; simpl.
  - apply (emit_invariant (fun s => Bridge.calls s !! i = Some c)); [|exact Hi].
    clear s Hi. intros s h Hi.
    destruct (decide (h = CallListener i)) as [->|Hne].
    + simpl. rewrite Hi. destruct (Bridge.phase_of c) as [|f| |] eqn:E; try exact Hi.
      exfalso. exact (Hnot f eq_refl).
    + rewrite deliver_ne; assumption.
  - unfold Bridge.stderr_listener. destruct (Bridge.is_banner chunk); exact Hi.
  - exact Hi.
  - rewrite banner_timer_calls. exact Hi.
  - rewrite handshake_timeout_calls. exact Hi.
  - unfold Bridge.callMCPTool.
    pose proof (lookup_lt_Some _ _ _ Hi) as Hlt.
    destruct (negb (Bridge.mcpProcess s)); simpl.
    + rewrite lookup_app_l; assumption.
    + rewrite readiness_loop_ne by lia. simpl. rewrite lookup_app_l; assumption.
  - unfold Bridge.poll_timer.
    destruct (decide (j = i)) as [->|Hne].
    + rewrite Hi. destruct (Bridge.phase_of c) eqn:E; try exact Hi.
      exfalso. exact (Hpoll now rnd eq_refl eq_refl).
    + destruct (Bridge.calls s !! j) as [cj|]; [|exact Hi].
      destruct (Bridge.phase_of cj); try exact Hi.
      rewrite readiness_loop_ne by congruence. exact Hi.
  - unfold Bridge.call_timeout.
    destruct (decide (j = i)) as [->|Hne].
    + rewrite Hi. destruct (Bridge.phase_of c) as [|f| |] eqn:E; try exact Hi.
      exfalso. exact (Hnot f eq_refl).
    + destruct (Bridge.calls s !! j) as [cj|]; [|exact Hi].
      destruct (Bridge.phase_of cj); try exact Hi.
      destruct (Bridge.timeout_armed f); [|exact Hi].
      destruct (Bridge.isComplete f); [rewrite put_call_ne by congruence; exact Hi|].
      destruct (Bridge.mcpProcess s); simpl;
        rewrite list_lookup_insert_ne by congruence; exact Hi.
Qed.

(** Once the executor of a call has thrown or returned without dispatching,
    no event touches the call again. *)
Lemma step_final (s : Bridge.bridge) (e : Bridge.event) (i : nat) (c : Bridge.call) :
  Bridge.calls s !! i = Some c -> Inv.final c ->
  Bridge.calls (Bridge.step parse s e) !! i = Some c.
Proof.
  intros Hi Hf. apply step_frame; [exact Hi | |].
  - unfold Inv.is_sent. destruct Hf as [-> | ->]; tauto.
  - intros now rnd _. destruct Hf as [-> | ->]; discriminate.
Qed.

Lemma run_final (trace : list Bridge.event) (s : Bridge.bridge) (i : nat) (c : Bridge.call) :
  Bridge.calls s !! i = Some c -> Inv.final c ->
  Bridge.calls (Bridge.run parse s trace) !! i = Some c.
Proof.
  intros Hi Hf.
  apply (run_invariant (fun _ => True) (fun s => Bridge.calls s !! i = Some c));
    [| apply Forall_forall; intros; exact I | exact Hi].
  intros s' e _ Hs'. apply step_final; assumption.
Qed.

Lemma elem_of_snoc_l {A} (l : list A) (y x : A) : x ∈ l -> x ∈ l ++ [y].
Proof. intros H. apply elem_of_app. left. exact H. Qed.

Lemma readiness_loop_keeps (s : Bridge.bridge) (i : nat) (c : Bridge.call) (now rnd : Z) :
  let s' := Bridge.readiness_loop s i c now rnd in
  Bridge.handshakes s' = Bridge.handshakes s
  /\ Bridge.serverReady s' = Bridge.serverReady s
  /\ Bridge.mcpProcess s' = Bridge.mcpProcess s
  /\ (forall x, x ∈ Bridge.stdin s -> x ∈ Bridge.stdin s').
Proof.
  unfold Bridge.readiness_loop.
  destruct (negb (Bridge.mcpProcess s)); [repeat split; auto|].
  destruct (negb (Bridge.serverReady s) && (Bridge.attempts c <? Bridge.maxAttempts));
    [repeat split; auto|].
  destruct (negb (Bridge.serverReady s)); [repeat split; auto|].
  repeat split; try reflexivity. intros x Hx. simpl. apply elem_of_snoc_l, Hx.
Qed.

(** While the flag is unset the readiness loop only sleeps, gives up or
    throws. *)
Lemma readiness_loop_unready (s : Bridge.bridge) (i : nat) (c : Bridge.call) (now rnd : Z) :
  Bridge.serverReady s = false ->
  Bridge.readiness_loop s i c now rnd
  = Bridge.put_call s i
      (if Bridge.mcpProcess s then
         if Bridge.attempts c <? Bridge.maxAttempts then Bridge.set_phase c Bridge.Polling
         else Bridge.set_outcome (Bridge.set_phase c Bridge.Returned)
                (settle (Bridge.outcome c) (Rejected NotReadyError))
       else Bridge.set_phase c Bridge.Threw).
Proof.
  intros Hr. unfold Bridge.readiness_loop. rewrite Hr.
  destruct (Bridge.mcpProcess s); simpl; [|reflexivity].
  destruct (Bridge.attempts c <? Bridge.maxAttempts); reflexivity.
Qed.

End Steps.

(** ** The invariant of the table of calls *)

Section Wellformed.

Variable parse : string -> option json.

(** Whatever the loop settles with was computed, with the handle set, from a
    parsed line with the id of the call. *)
Lemma for_lines_settles_own (live : bool) (f : Bridge.inflight) (lines : list string)
      (p : promise) :
  (Bridge.for_lines parse live f lines).1.2 = Some p ->
  exists l response idv,
    l ∈ lines /\ parse (Text.trim l) = Some response
    /\ Js.get (Val response) "id" = Some idv
    /\ Js.strict_eq_num idv (Bridge.reqid f) = true
    /\ Bridge.settlement response = Some p
    /\ live = true.
Proof.
  revert f. induction lines as [|l rest IH]; intros f; simpl; [discriminate|].
  assert (Hrest : forall g, Bridge.reqid g = Bridge.reqid f ->
            (Bridge.for_lines parse live g rest).1.2 = Some p ->
            exists l0 response idv,
              l0 ∈ l :: rest /\ parse (Text.trim l0) = Some response
              /\ Js.get (Val response) "id" = Some idv
              /\ Js.strict_eq_num idv (Bridge.reqid f) = true
              /\ Bridge.settlement response = Some p
              /\ live = true).
  { intros g Hg H. destruct (IH g H) as (l0 & r & idv & Hin & Hp & Hid & Heq & Hs).
    exists l0, r, idv. rewrite <- Hg. repeat split; try tauto.
    apply elem_of_cons. right. exact Hin. }
  destruct (Text.is_empty (Text.trim l)); [apply Hrest; reflexivity|].
  unfold Bridge.try_line.
  assert (Hskip : (let '(f', r, log) := Bridge.for_lines parse live f rest in
                   (f', r, match parse (Text.trim l) with Some v => [v] | None => [] end
                           ++ log)).1.2 = Some p ->
            exists l0 response idv,
              l0 ∈ l :: rest /\ parse (Text.trim l0) = Some response
              /\ Js.get (Val response) "id" = Some idv
              /\ Js.strict_eq_num idv (Bridge.reqid f) = true
              /\ Bridge.settlement response = Some p
              /\ live = true).
  { destruct (Bridge.for_lines parse live f rest) as [[f' r] log] eqn:E.
    simpl. intros ->. apply (Hrest f); [reflexivity|]. rewrite E. reflexivity. }
  assert (Hfault : (let '(f', r, log) := Bridge.for_lines parse live (Bridge.completed f) rest in
                    (f', r, match parse (Text.trim l) with Some v => [v] | None => [] end
                            ++ log)).1.2 = Some p ->
            exists l0 response idv,
              l0 ∈ l :: rest /\ parse (Text.trim l0) = Some response
              /\ Js.get (Val response) "id" = Some idv
              /\ Js.strict_eq_num idv (Bridge.reqid f) = true
              /\ Bridge.settlement response = Some p
              /\ live = true).
  { destruct (Bridge.for_lines parse live (Bridge.completed f) rest) as [[f' r] log] eqn:E.
    simpl. intros ->. apply (Hrest (Bridge.completed f)); [reflexivity|].
    rewrite E. reflexivity. }
  destruct (parse (Text.trim l)) as [response|] eqn:Hp; [|exact Hskip].
  destruct (Js.get (Val response) "id") as [idv|] eqn:Hid; [|exact Hskip].
  destruct (Js.strict_eq_num idv (Bridge.reqid f)) eqn:Heq; [|exact Hskip].
  destruct live; [|exact Hfault].
  destruct (Bridge.settlement response) as [q|] eqn:Hs; [|exact Hfault].
  simpl. intros [= <-]. exists l, response, idv.
  repeat split; try assumption. apply elem_of_cons. left. reflexivity.
Qed.

Lemma dataHandler_settles_own (live : bool) (f : Bridge.inflight) (data : string)
      (p : promise) :
  (Bridge.dataHandler parse live f data).1.2 = Some p ->
  exists l response idv,
    l ∈ Text.complete_lines (Bridge.responseData f +:+ data)
    /\ parse (Text.trim l) = Some response
    /\ Js.get (Val response) "id" = Some idv
    /\ Js.strict_eq_num idv (Bridge.reqid f) = true
    /\ Bridge.settlement response = Some p
    /\ live = true.
Proof.
  unfold Bridge.dataHandler. destruct (Bridge.isComplete f); [discriminate|].
  set (f1 := Bridge.set_buffer f (Bridge.responseData f +:+ data)).
  change (Bridge.responseData f1) with (Bridge.responseData f +:+ data).
  intros H.
  apply (for_lines_settles_own live f1).
  destruct (Bridge.for_lines parse live f1 _) as [[f2 [q|]] log]; simpl in *;
    [exact H | discriminate].
Qed.

Lemma writes_ok_ext (s s' : Bridge.bridge) :
  Bridge.stdin s' = Bridge.stdin s -> Bridge.calls s' = Bridge.calls s ->
  Inv.writes_ok s -> Inv.writes_ok s'.
Proof. unfold Inv.writes_ok. intros -> ->. auto. Qed.

Lemma wf_ext (s s' : Bridge.bridge) :
  Bridge.stdin s' = Bridge.stdin s -> Bridge.calls s' = Bridge.calls s ->
  Inv.wf s -> Inv.wf s'.
Proof.
  intros Hin Hc [Hcalls Hw]. split; [rewrite Hc; exact Hcalls|].
  eapply writes_ok_ext; eassumption.
Qed.

(** Writes of the handshake do not concern the calls. *)
Lemma wf_init_write (s s' : Bridge.bridge) (k : nat) (frame : json) :
  Bridge.stdin s' = Bridge.stdin s ++ [(ByInit k, frame)] ->
  Bridge.calls s' = Bridge.calls s ->
  Inv.wf s -> Inv.wf s'.
Proof.
  intros Hin Hc [Hcalls Hw]. split; [rewrite Hc; exact Hcalls|].
  intros i fr Hel. rewrite Hin in Hel. rewrite Hc.
  apply elem_of_app in Hel as [Hel|Hel]; [apply Hw in Hel; exact Hel|].
  apply list_elem_of_singleton in Hel. discriminate.
Qed.

(** Replacing entry [i] by a call that is still sent if it was. *)
Lemma wf_put (s : Bridge.bridge) (i : nat) (c0 c : Bridge.call) :
  Bridge.calls s !! i = Some c0 ->
  Inv.call_ok c -> (Inv.is_sent c0 -> Inv.is_sent c) ->
  Inv.wf s -> Inv.wf (Bridge.put_call s i c).
Proof.
  intros Hi Hok Hsent [Hcalls Hw]. split.
  - simpl. apply Forall_insert; assumption.
  - intros j fr Hel. destruct (Hw j fr Hel) as (cj & Hj & Hsj).
    destruct (decide (j = i)) as [->|Hne].
    + exists c. split; [eapply put_call_eq; eassumption|].
      apply Hsent. rewrite Hi in Hj. injection Hj as ->. exact Hsj.
    + exists cj. split; [|exact Hsj]. rewrite put_call_ne by assumption. exact Hj.
Qed.

Lemma wf_dispatch (s : Bridge.bridge) (i : nat) (c0 c : Bridge.call) (now rnd : Z) :
  Bridge.calls s !! i = Some c0 ->
  Bridge.outcome c = Unsettled ->
  Inv.wf s -> Inv.wf (Bridge.dispatch s i c now rnd).
Proof.
  intros Hi Hout [Hcalls Hw]. split.
  - rewrite dispatch_calls. apply Forall_insert; [exact Hcalls|].
    exact I.
  - intros j fr Hel. rewrite dispatch_calls. simpl in Hel.
    destruct (decide (j = i)) as [->|Hne].
    + eexists. split; [apply list_lookup_insert_eq; eapply lookup_lt_Some, Hi|].
      exact I.
    + apply elem_of_app in Hel as [Hel|Hel].
      * destruct (Hw j fr Hel) as (cj & Hj & Hsj). exists cj. split; [|exact Hsj].
        rewrite list_lookup_insert_ne by congruence. exact Hj.
      * apply list_elem_of_singleton in Hel. congruence.
Qed.

Lemma wf_readiness_loop (s : Bridge.bridge) (i : nat) (c0 c : Bridge.call) (now rnd : Z) :
  Bridge.calls s !! i = Some c0 -> ~ Inv.is_sent c0 ->
  Bridge.outcome c = Unsettled ->
  Bridge.attempts c <= Bridge.maxAttempts ->
  (Bridge.mcpProcess s = false -> 1 <= Bridge.attempts c) ->
  Inv.wf s -> Inv.wf (Bridge.readiness_loop s i c now rnd).
Proof.
  intros Hi Hns Hout Hle Hnull Hwf. unfold Bridge.readiness_loop.
  destruct (Bridge.mcpProcess s) eqn:Hlive; simpl.
  - destruct (Bridge.serverReady s) eqn:Hready; simpl.
    + eapply wf_dispatch; eassumption.
    + destruct (Bridge.attempts c <? Bridge.maxAttempts) eqn:Hlt.
      * eapply wf_put; [eassumption | | tauto | assumption].
        unfold Inv.call_ok. simpl. apply Nat.ltb_lt in Hlt. split; assumption.
      * eapply wf_put; [eassumption | | tauto | assumption].
        unfold Inv.call_ok. simpl. apply Nat.ltb_ge in Hlt. right.
        rewrite Hout. split; [reflexivity | lia].
  - eapply wf_put; [eassumption | | tauto | assumption].
    unfold Inv.call_ok. simpl. split; [assumption | auto].
Qed.

Lemma deliver_wf (data : string) (s : Bridge.bridge) (h : listener) :
  Inv.wf s -> Inv.wf (Bridge.deliver parse data s h).
Proof.
  intros Hwf. destruct h as [|k|i]; simpl; [exact Hwf| |].
  - unfold Bridge.init_dataHandler.
    destruct (Bridge.handshakes s !! k) as [[|h|]|]; try exact Hwf.
    destruct (Bridge.init_lines parse (Bridge.mcpProcess s) _);
      try (eapply wf_ext; [| |exact Hwf]; reflexivity).
    destruct (is_settled (Bridge.h_promise h));
      (eapply wf_init_write; [| |exact Hwf]; reflexivity).
  - destruct (Bridge.calls s !! i) as [c|] eqn:Hi; [|exact Hwf].
    destruct (Bridge.phase_of c) as [|f| |] eqn:Hph; try exact Hwf.
    destruct (Bridge.dataHandler parse (Bridge.mcpProcess s) f data) as [[f' r] log].
    assert (Hput : Inv.wf (Bridge.put_call s i
                     (Bridge.set_outcome (Bridge.set_phase c (Bridge.Sent f'))
                        (settle_opt (Bridge.outcome c) r)))).
    { eapply wf_put; [eassumption | | intros _; exact I | assumption]. exact I. }
    destruct (Bridge.unregistered _ _ _); [|exact Hput].
    eapply wf_ext; [| |exact Hput]; reflexivity.
Qed.

Lemma step_wf (s : Bridge.bridge) (e : Bridge.event) :
  Inv.wf s -> Inv.wf (Bridge.step parse s e).
Proof.
  intros Hwf. destruct e as [chunk|chunk| |k|k|tool args now rnd|i now rnd|i]; simpl.
  - apply emit_invariant; [|exact Hwf]. intros; apply deliver_wf; assumption.
  - unfold Bridge.stderr_listener. destruct (Bridge.is_banner chunk); [|exact Hwf].
    eapply wf_ext; [| |exact Hwf]; reflexivity.
  - eapply wf_ext; [| |exact Hwf]; reflexivity.
  - unfold Bridge.banner_timer, Bridge.initializeMCPServer.
    destruct (Bridge.handshakes s !! k) as [[|h|]|]; try exact Hwf.
    destruct (Bridge.mcpProcess s).
    + eapply wf_init_write; [| |exact Hwf]; reflexivity.
    + eapply wf_ext; [| |exact Hwf]; reflexivity.
  - unfold Bridge.handshake_timeout.
    destruct (Bridge.handshakes s !! k) as [[|h|]|]; try exact Hwf.
    destruct (Bridge.h_timeout_armed h); exact Hwf.
  - unfold Bridge.callMCPTool.
    destruct Hwf as [Hcalls Hw].
    assert (Happ : forall c, Inv.call_ok c -> ~ Inv.is_sent c ->
              Inv.wf (Bridge.set_calls s (Bridge.calls s ++ [c]))).
    { intros c Hok Hns. split.
      - simpl. apply Forall_app. split; [exact Hcalls|]. apply Forall_singleton, Hok.
      - intros j fr Hel. destruct (Hw j fr Hel) as (cj & Hj & Hsj).
        exists cj. split; [|exact Hsj]. simpl.
        rewrite lookup_app_l; [exact Hj | eapply lookup_lt_Some, Hj]. }
    destruct (Bridge.mcpProcess s) eqn:Hlive; simpl.
    + eapply wf_readiness_loop with (c0 := Bridge.mkCall tool args 0 Bridge.Polling Unsettled).
      * simpl. rewrite lookup_app_r by lia. rewrite Nat.sub_diag. reflexivity.
      * simpl. tauto.
      * reflexivity.
      * simpl. unfold Bridge.maxAttempts. lia.
      * simpl. rewrite Hlive. discriminate.
      * apply Happ; [|simpl; tauto]. unfold Inv.call_ok. simpl.
        unfold Bridge.maxAttempts. split; [lia | reflexivity].
    + apply Happ; [|simpl; tauto]. unfold Inv.call_ok. simpl. left. split; reflexivity.
  - unfold Bridge.poll_timer.
    destruct (Bridge.calls s !! i) as [c|] eqn:Hi; [|exact Hwf].
    destruct (Bridge.phase_of c) eqn:Hph; try exact Hwf.
    assert (Hok : Inv.call_ok c).
    { destruct Hwf as [Hcalls _]. eapply Forall_lookup_1; eassumption. }
    unfold Inv.call_ok in Hok. rewrite Hph in Hok. destruct Hok as [Hlt Hout].
    eapply wf_readiness_loop; try eassumption; simpl; try lia.
    unfold Inv.is_sent. rewrite Hph. tauto.
  - unfold Bridge.call_timeout.
    destruct (Bridge.calls s !! i) as [c|] eqn:Hi; [|exact Hwf].
    destruct (Bridge.phase_of c) as [|f| |] eqn:Hph; try exact Hwf.
    destruct (Bridge.timeout_armed f); [|exact Hwf].
    destruct (Bridge.isComplete f).
    + eapply wf_put; [eassumption | | intros _; exact I | assumption]. exact I.
    + destruct (Bridge.mcpProcess s).
      * eapply wf_ext with (s := Bridge.put_call s i _); [reflexivity | reflexivity |].
        eapply wf_put; [eassumption | | intros _; exact I | assumption]. exact I.
      * eapply wf_put; [eassumption | | intros _; exact I | assumption]. exact I.
Qed.

Lemma started_wf : Inv.wf Bridge.startMCPServer.
Proof.
  split; [apply Forall_nil; exact I|].
  intros i fr Hel. simpl in Hel. apply elem_of_nil in Hel. contradiction.
Qed.

Lemma run_wf (trace : list Bridge.event) :
  Inv.wf (Bridge.run parse Bridge.startMCPServer trace).
Proof.
  apply (run_invariant parse (fun _ => True) Inv.wf).
  - intros s e _. apply step_wf.
  - apply Forall_forall. intros; exact I.
  - apply started_wf.
Qed.

End Wellformed.

(** ** Pairing of responses and calls in the current implementation *)

Section Pairing.

Variable parse : string -> option json.

Lemma for_lines_reqid (live : bool) (f : Bridge.inflight) (lines : list string) :
  Bridge.reqid (Bridge.for_lines parse live f lines).1.1 = Bridge.reqid f.
Proof.
  revert f. induction lines as [|l rest IH]; intros f; simpl; [reflexivity|].
  destruct (Text.is_empty (Text.trim l)); [apply IH|].
  destruct (Bridge.try_line parse live (Bridge.reqid f) (Text.trim l)).
  - specialize (IH f).
    destruct (Bridge.for_lines parse live f rest) as [[f' r] log]. exact IH.
  - reflexivity.
  - specialize (IH (Bridge.completed f)).
    destruct (Bridge.for_lines parse live (Bridge.completed f) rest) as [[f' r] log].
    exact IH.
Qed.

Lemma dataHandler_reqid (live : bool) (f : Bridge.inflight) (data : string) :
  Bridge.reqid (Bridge.dataHandler parse live f data).1.1 = Bridge.reqid f.
Proof.
  unfold Bridge.dataHandler. destruct (Bridge.isComplete f); [reflexivity|].
  pose proof (for_lines_reqid live
                (Bridge.set_buffer f (Bridge.responseData f +:+ data))
                (Text.complete_lines
                   (Bridge.responseData
                      (Bridge.set_buffer f (Bridge.responseData f +:+ data))))) as H.
  destruct (Bridge.for_lines parse live _ _) as [[f2 [p|]] log]; exact H.
Qed.

Lemma evolves_refl (c : Bridge.call) (f : Bridge.inflight) :
  Bridge.phase_of c = Bridge.Sent f -> Inv.evolves c c.
Proof. intros H. exists f, f. repeat split; auto. Qed.

Lemma settlement_settled (response : json) :
  Bridge.settlement response <> Some Unsettled.
Proof.
  unfold Bridge.settlement. destruct (Js.truthy _); [|discriminate].
  destruct (new_Error _); discriminate.
Qed.

Lemma evolves_trans (c1 c2 c3 : Bridge.call) :
  Inv.evolves c1 c2 -> Inv.evolves c2 c3 -> Inv.evolves c1 c3.
Proof.
  intros (f1 & f2 & H1 & H2 & Hid12 & Hout12) (f2' & f3 & H2' & H3 & Hid23 & Hout23).
  rewrite H2 in H2'. injection H2' as <-.
  exists f1, f3. split; [exact H1|]. split; [exact H3|]. split; [congruence|].
  destruct Hout12 as [Heq|[Hun Hset]].
  - destruct Hout23 as [Heq'|[Hun' Hset']]; [left; congruence|].
    right. split; [congruence|].
    destruct Hset' as [Ht|(r & idv & Hid & Hm & Hs)]; [left; exact Ht|].
    right. exists r, idv. rewrite <- Hid12. auto.
  - right. split; [exact Hun|].
    destruct Hout23 as [Heq'|[Hun' _]].
    + destruct Hset as [Ht|(r & idv & Hid & Hm & Hs)]; [left; congruence|].
      right. exists r, idv. rewrite Heq'. auto.
    + exfalso. destruct Hset as [Ht|(r & idv & _ & _ & Hs)]; [congruence|].
      rewrite Hun' in Hs. exact (settlement_settled r Hs).
Qed.

Lemma deliver_evolves (data : string) (s : Bridge.bridge) (h : listener)
      (i : nat) (c : Bridge.call) (f : Bridge.inflight) :
  Bridge.calls s !! i = Some c -> Bridge.phase_of c = Bridge.Sent f ->
  exists c', Bridge.calls (Bridge.deliver parse data s h) !! i = Some c'
             /\ Inv.evolves c c'.
Proof.
  intros Hi Hph.
  destruct (decide (h = CallListener i)) as [->|Hne].
  - simpl. rewrite Hi, Hph.
    pose proof (dataHandler_reqid (Bridge.mcpProcess s) f data) as Hid.
    pose proof (dataHandler_settles_own parse (Bridge.mcpProcess s) f data) as Hown.
    destruct (Bridge.dataHandler parse (Bridge.mcpProcess s) f data) as [[f' r] log];
      simpl in Hid.
    eexists. split.
    { destruct (Bridge.unregistered _ _ _); simpl;
        apply list_lookup_insert_eq; eapply lookup_lt_Some, Hi. }
    exists f, f'. repeat split; [exact Hph | exact Hid |].
    destruct r as [p|]; [|left; reflexivity].
    simpl. destruct (Hown p eq_refl) as (l & r & idv & _ & _ & Hgid & Hm & Hs & _).
    destruct (Bridge.outcome c) eqn:Hout; simpl; [|left; reflexivity ..].
    right. split; [reflexivity|]. right. exists r, idv. auto.
  - exists c. rewrite deliver_ne by exact Hne. split; [exact Hi|].
    eapply evolves_refl, Hph.
Qed.

(** Whatever the event, a dispatched call keeps its request id, and its
    promise changes at most once: by its own timer, or by a response whose
    id is its request id. *)
Lemma step_evolves (s : Bridge.bridge) (e : Bridge.event)
      (i : nat) (c : Bridge.call) (f : Bridge.inflight) :
  Bridge.calls s !! i = Some c -> Bridge.phase_of c = Bridge.Sent f ->
  exists c', Bridge.calls (Bridge.step parse s e) !! i = Some c' /\ Inv.evolves c c'.
Proof.
  intros Hi Hph.
  assert (Hsame : forall s', Bridge.calls s' !! i = Some c ->
            exists c', Bridge.calls s' !! i = Some c' /\ Inv.evolves c c').
  { intros s' H. exists c. split; [exact H | eapply evolves_refl, Hph]. }
  destruct e as [chunk|chunk| |k|k|tool args now rnd|j now rnd|j]; simpl.
  - unfold Bridge.emit_stdout. generalize (Bridge.stdout_listeners s). intros ls.
    revert s c f Hi Hph Hsame. induction ls as [|h ls IH]; intros s c f Hi Hph _.
    + exists c. split; [exact Hi | eapply evolves_refl, Hph].
    + simpl. destruct (deliver_evolves chunk s h i c f Hi Hph) as (c1 & Hc1 & Hev1).
      pose proof Hev1 as (f0 & f1 & _ & Hph1 & _).
      destruct (IH _ c1 f1 Hc1 Hph1) as (c2 & Hc2 & Hev2).
      { intros s' H. exists c1. split; [exact H | eapply evolves_refl, Hph1]. }
      exists c2. split; [exact Hc2 | eapply evolves_trans; eassumption].
  - apply Hsame. unfold Bridge.stderr_listener. destruct (Bridge.is_banner chunk); exact Hi.
  - apply Hsame. exact Hi.
  - apply Hsame. rewrite banner_timer_calls. exact Hi.
  - apply Hsame. rewrite handshake_timeout_calls. exact Hi.
  - apply Hsame. unfold Bridge.callMCPTool.
    pose proof (lookup_lt_Some _ _ _ Hi) as Hlt.
    destruct (negb (Bridge.mcpProcess s)); simpl.
    + rewrite lookup_app_l; assumption.
    + rewrite readiness_loop_ne by lia. simpl. rewrite lookup_app_l; assumption.
  - apply Hsame. unfold Bridge.poll_timer.
    destruct (decide (j = i)) as [->|Hne].
    + rewrite Hi, Hph. exact Hi.
    + destruct (Bridge.calls s !! j) as [cj|]; [|exact Hi].
      destruct (Bridge.phase_of cj); try exact Hi.
      rewrite readiness_loop_ne by congruence. exact Hi.
  - unfold Bridge.call_timeout.
    destruct (decide (j = i)) as [->|Hne].
    + rewrite Hi, Hph.
      destruct (Bridge.timeout_armed f); [|apply Hsame; exact Hi].
      assert (Hput : forall c',
                Bridge.calls (Bridge.put_call s i c') !! i = Some c')
        by (intros c'; eapply put_call_eq, Hi).
      destruct (Bridge.isComplete f).
      * eexists. split; [apply Hput|].
        exists f, (Bridge.completed f). repeat split; [exact Hph|]. left. reflexivity.
      * destruct (Bridge.mcpProcess s).
        -- eexists. split; [simpl; apply list_lookup_insert_eq; eapply lookup_lt_Some, Hi|].
           exists f, (Bridge.completed f). repeat split; [exact Hph|]. simpl.
           destruct (Bridge.outcome c); simpl; auto.
        -- eexists. split; [apply Hput|].
           exists f, (Bridge.completed f). repeat split; [exact Hph|]. left. reflexivity.
    + apply Hsame.
      destruct (Bridge.calls s !! j) as [cj|]; [|exact Hi].
      destruct (Bridge.phase_of cj) as [|fj| |]; try exact Hi.
      destruct (Bridge.timeout_armed fj); [|exact Hi].
      destruct (Bridge.isComplete fj); [rewrite put_call_ne by congruence; exact Hi|].
      destruct (Bridge.mcpProcess s); simpl;
        rewrite list_lookup_insert_ne by congruence; exact Hi.
Qed.

End Pairing.

(** ** Concurrent calls *)

(** The listener of the earlier implementation settles from whatever text
    parses: the request id of its call plays no part. *)
Lemma legacy_listener_ignores_id (parse : string -> option json)
      (c : Legacy.call) (id : Z) (data : string) :
  let c' := Legacy.mkCall id (Legacy.responseData c) (Legacy.timeout_armed c)
                          (Legacy.outcome c) in
  Legacy.outcome (Legacy.dataHandler parse c' data).1
  = Legacy.outcome (Legacy.dataHandler parse c data).1
  /\ (Legacy.dataHandler parse c' data).2 = (Legacy.dataHandler parse c data).2.
Proof.
  unfold Legacy.dataHandler. simpl.
  destruct (parse (Legacy.responseData c +:+ data)); split; reflexivity.
Qed.

(** C1 (the earlier implementation breaks it).  The claim: with several calls
    pending, each is resolved with the response carrying its own id, whatever
    the arrival order.  In [src/app/src/main.js] the listener of every
    pending call parses whatever arrives and never looks at the id: with
    calls 101 and 102 pending and the response to 102 arriving first, both
    promises resolve with the payload of 102, both listeners are removed, and
    the response to 101 that follows reaches no one. *)
Theorem legacy_pending_calls_take_first_response :
  let trace :=
    [Legacy.CallTool "get_recent_emails" Sample.args 101;
     Legacy.CallTool "get_upcoming_events" Sample.args 102;
     Legacy.StdoutData (Json.line (Sample.response 102 (JStr "events")))] in
  let s := Legacy.run Json.parse Legacy.startMCPServer trace in
  let s' := Legacy.step Json.parse s
              (Legacy.StdoutData (Json.line (Sample.response 101 (JStr "emails")))) in
  Legacy.reqid <$> Legacy.calls s !! 0 = Some 101%Z
  /\ Legacy.outcome <$> Legacy.calls s !! 0 = Some (Resolved (Val (JStr "events")))
  /\ Legacy.outcome <$> Legacy.calls s !! 1 = Some (Resolved (Val (JStr "events")))
  /\ Legacy.stdout_listeners s = [LogListener]
  /\ s' = s.
Proof. vm_compute. repeat split; reflexivity. Qed.

(** ** Process exit *)

Lemma step_keeps_null (parse : string -> option json) (s : Bridge.bridge) (e : Bridge.event) :
  Bridge.mcpProcess s = false -> Bridge.mcpProcess (Bridge.step parse s e) = false.
Proof.
  intros Hnull. destruct e as [chunk|chunk| |k|k|tool args now rnd|i now rnd|i]; simpl.
  - apply (emit_invariant parse (fun s => Bridge.mcpProcess s = false)); [|exact Hnull].
    clear s Hnull. intros s h Hnull. destruct h as [|k|i]; simpl; [exact Hnull| |].
    + unfold Bridge.init_dataHandler.
      destruct (Bridge.handshakes s !! k) as [[|h|]|]; try exact Hnull.
      destruct (Bridge.init_lines parse (Bridge.mcpProcess s) _); try exact Hnull.
      destruct (is_settled (Bridge.h_promise h)); exact Hnull.
    + destruct (Bridge.calls s !! i) as [c|]; [|exact Hnull].
      destruct (Bridge.phase_of c); try exact Hnull.
      destruct (Bridge.dataHandler parse (Bridge.mcpProcess s) f chunk) as [[f' r] log].
      destruct (Bridge.unregistered _ _ _); exact Hnull.
  - unfold Bridge.stderr_listener. destruct (Bridge.is_banner chunk); exact Hnull.
  - reflexivity.
  - unfold Bridge.banner_timer, Bridge.initializeMCPServer.
    destruct (Bridge.handshakes s !! k) as [[|h|]|]; try exact Hnull.
    rewrite Hnull. exact Hnull.
  - unfold Bridge.handshake_timeout.
    destruct (Bridge.handshakes s !! k) as [[|h|]|]; try exact Hnull.
    destruct (Bridge.h_timeout_armed h); exact Hnull.
  - unfold Bridge.callMCPTool. rewrite Hnull. exact Hnull.
  - unfold Bridge.poll_timer.
    destruct (Bridge.calls s !! i) as [c|]; [|exact Hnull].
    destruct (Bridge.phase_of c); try exact Hnull.
    destruct (readiness_loop_keeps s i (Bridge.incr_attempts c) now rnd) as (_ & _ & H3 & _).
    rewrite H3. exact Hnull.
  - unfold Bridge.call_timeout.
    destruct (Bridge.calls s !! i) as [c|]; [|exact Hnull].
    destruct (Bridge.phase_of c); try exact Hnull.
    destruct (Bridge.timeout_armed f); [|exact Hnull].
    destruct (Bridge.isComplete f); [exact Hnull|].
    rewrite Hnull. exact Hnull.
Qed.

(** C2 as stated fails: the close handler fails no call.  With one call
    pending when the provider exits, the call is still unsettled, its
    listener still registered and its timer still armed after the exit. *)
Lemma close_leaves_pending_call :
  let s := Bridge.run Json.parse Sample.ready
             [Bridge.CallTool "get_recent_emails" Sample.args 1000 7;
              Bridge.ProcessClose] in
  Bridge.calls s !! 0
  = Some (Bridge.mkCall "get_recent_emails" Sample.args 0
            (Bridge.Sent (Bridge.mkInflight 1007 EmptyString false true)) Unsettled)
  /\ Bridge.stdout_listeners s = [LogListener; CallListener 0].
Proof. vm_compute. split; reflexivity. Qed.

(** ** Chunk boundaries *)

Lemma join_split (s : string) :
  Text.join_lines (Text.complete_lines s) (Text.fragment s) = s.
Proof.
  unfold Text.complete_lines, Text.fragment.
  induction s as [|c s IH]; [reflexivity|].
  pose proof (split_nl_nonempty s) as Hne.
  simpl Text.split_nl. destruct (Text.is_nl c) eqn:Hc.
  - destruct (Text.split_nl s) as [|l ls] eqn:E; [contradiction|].
    change (String Text.nl (Text.join_lines (removelast (l :: ls)) (List.last (l :: ls) EmptyString))
            = String c s).
    rewrite IH. f_equal. unfold Text.is_nl in Hc.
    apply Ascii.eqb_eq in Hc. congruence.
  - destruct (Text.split_nl s) as [|l ls] eqn:E; [contradiction|].
    destruct ls as [|l' ls].
    + simpl in IH |- *. congruence.
    + change (String c (l +:+ String Text.nl
                (Text.join_lines (removelast (l' :: ls)) (List.last (l' :: ls) EmptyString)))
              = String c s).
      f_equal. exact IH.
Qed.

(** C3 (the earlier implementation breaks it).  The claim: the frames decoded
    from a stream do not depend on where it is cut into chunks, and after
    each pass the buffer holds only the text after the last newline.  The
    listener of [src/app/src/main.js] never splits its buffer: it hands the
    whole of it to [JSON.parse].  When the response to call 101 and a second
    frame arrive in one chunk, the buffer never parses: the call stays
    unsettled, its listener registered, and the buffer keeps both complete
    lines.  The same text cut at the frame boundary resolves the call.  The
    listener of the current [main.js] splits the buffer at the newlines and
    resolves the call either way. *)
Theorem legacy_decoding_depends_on_chunk_boundaries :
  let a := Json.line (Sample.response 101 (JStr "emails")) in
  let b := Json.line (Sample.response 102 (JStr "events")) in
  let issue := Legacy.CallTool "get_recent_emails" Sample.args 101 in
  let whole := Legacy.run Json.parse Legacy.startMCPServer [issue; Legacy.StdoutData (a +:+ b)] in
  let cut := Legacy.run Json.parse Legacy.startMCPServer
               [issue; Legacy.StdoutData a; Legacy.StdoutData b] in
  (Legacy.outcome <$> Legacy.calls whole !! 0 = Some Unsettled
   /\ Legacy.responseData <$> Legacy.calls whole !! 0 = Some (a +:+ b)
   /\ Text.complete_lines (a +:+ b) = [Json.stringify (Sample.response 101 (JStr "emails"));
                                       Json.stringify (Sample.response 102 (JStr "events"))]
   /\ Legacy.stdout_listeners whole = [LogListener; CallListener 0])
  /\ (Legacy.outcome <$> Legacy.calls cut !! 0 = Some (Resolved (Val (JStr "emails")))
      /\ Legacy.stdout_listeners cut = [LogListener])
  /\ ((Bridge.feed Json.parse (Bridge.fresh 101) [a +:+ b]).1.2
        = Some (Resolved (Val (JStr "emails")))
      /\ (Bridge.feed Json.parse (Bridge.fresh 101) [a; b]).1.2
        = Some (Resolved (Val (JStr "emails")))).
Proof. vm_compute. repeat split; reflexivity. Qed.

(** ** The handshake listener *)

Section Handshake.

Variable parse : string -> option json.

Lemma init_lines_app (live : bool) (l1 l2 : list string) :
  Bridge.init_lines parse live (l1 ++ l2)
  = match Bridge.init_lines parse live l1 with
    | Bridge.NoResponse => Bridge.init_lines parse live l2
    | r => r
    end.
Proof.
  induction l1 as [|l rest IH]; cbn [Bridge.init_lines app]; [reflexivity|].
  destruct (Text.is_empty (Text.trim l)); [exact IH|].
  destruct (parse (Text.trim l)) as [response|]; [|reflexivity].
  destruct (Js.get (Val response) "id") as [idv|]; [|reflexivity].
  destruct (Js.strict_eq_num idv 0); [destruct live; reflexivity | exact IH].
Qed.

(** Any response with id 0 completes the handshake: the listener never looks
    at [response.error]. *)
Lemma init_lines_any_id0 (l : string) (rest : list string) (response : json) (idv : jsval) :
  Text.is_empty (Text.trim l) = false ->
  parse (Text.trim l) = Some response ->
  Js.get (Val response) "id" = Some idv ->
  Js.strict_eq_num idv 0 = true ->
  Bridge.init_lines parse true (l :: rest) = Bridge.Completed.
Proof.
  intros He Hp Hid Heq. cbn [Bridge.init_lines]. rewrite He, Hp, Hid, Heq. reflexivity.
Qed.

(** Once a complete line of the buffer makes the loop abort, it does so on
    every later pass, whatever arrives: the buffer is never cut. *)
Lemma init_lines_aborts_forever (live : bool) (buf more : string) :
  Bridge.init_lines parse live (Text.complete_lines buf) = Bridge.Aborted ->
  Bridge.init_lines parse live (Text.split_nl (buf +:+ more)) = Bridge.Aborted.
Proof.
  intros H. rewrite split_nl_app, init_lines_app, H. reflexivity.
Qed.

(** The listener of a call skips a line that does not parse. *)
Lemma for_lines_skips_unparseable (live : bool) (f : Bridge.inflight)
      (l : string) (rest : list string) :
  parse (Text.trim l) = None ->
  Bridge.for_lines parse live f (l :: rest) = Bridge.for_lines parse live f rest.
Proof.
  intros Hp. simpl. destruct (Text.is_empty (Text.trim l)); [reflexivity|].
  unfold Bridge.try_line. rewrite Hp.
  destruct (Bridge.for_lines parse live f rest) as [[f' r] log]. reflexivity.
Qed.

End Handshake.

(** C4 (the handshake listener breaks it).  The claim: an id-0 response with
    an error object sends the state machine to Failed.  The listener of
    [initializeMCPServer] tests [response.id === 0] only: on an error
    response it still writes the completion notification and resolves, and
    the ready flag is set. *)
Theorem handshake_error_response_makes_ready :
  let s := Bridge.run Json.parse Bridge.startMCPServer
             [Bridge.StderrData Sample.banner; Bridge.BannerTimer 0;
              Bridge.StdoutData
                (Json.line (Sample.error_response 0 (-32602) "Unsupported protocol version"))] in
  Bridge.serverReady s = true
  /\ Bridge.handshake_promise <$> Bridge.handshakes s !! 0 = Some (Resolved Undefined)
  /\ Bridge.stdin s = [(ByInit 0, Bridge.initRequest); (ByInit 0, Bridge.initNotification)].
Proof. vm_compute. repeat split; reflexivity. Qed.

(** C5 (the handshake listener breaks it).  The claim: a line that fails to
    parse is dropped and later lines are still parsed.  In the listener of
    [initializeMCPServer] the [try] encloses the whole loop and the buffer is
    never cut: one log line on stdout ahead of the handshake response makes
    every later pass stop at that line, the response is never reached and the
    bridge stays not ready, until the 10000 ms timer rejects the handshake.
    The listener of [callMCPTool], whose [try] is inside the loop, skips the
    same line and resolves. *)
Theorem handshake_blocked_by_unparseable_line :
  let s := Bridge.run Json.parse Bridge.startMCPServer
             [Bridge.StderrData Sample.banner; Bridge.BannerTimer 0;
              Bridge.StdoutData Sample.noise;
              Bridge.StdoutData (Json.line (Sample.response 0 (JObj [])))] in
  let s' := Bridge.step Json.parse s (Bridge.HandshakeTimeout 0) in
  Bridge.serverReady s = false
  /\ Bridge.handshake_promise <$> Bridge.handshakes s !! 0 = Some Unsettled
  /\ Bridge.stdin s = [(ByInit 0, Bridge.initRequest)]
  /\ Bridge.serverReady s' = false
  /\ Bridge.handshake_promise <$> Bridge.handshakes s' !! 0 = Some (Rejected HandshakeTimeoutError)
  /\ (Bridge.feed Json.parse (Bridge.fresh 7)
        [Sample.noise; Json.line (Sample.response 7 (JStr "ok"))]).1.2
     = Some (Resolved (Val (JStr "ok"))).
Proof. vm_compute. repeat split; reflexivity. Qed.

(** ** Request ids *)

(** C6 as stated fails: nothing keeps the id of a new call apart from the
    ids of the pending ones.  Two calls dispatched one millisecond apart,
    with random offsets 1 and 0, are pending together under the same id
    1001, and a single response with that id settles both.  In
    [src/app/src/main.js] two calls dispatched in the same millisecond share
    their id. *)
Lemma pending_calls_share_an_id :
  let s := Bridge.run Json.parse Sample.ready
             [Bridge.CallTool "get_recent_emails" Sample.args 1000 1;
              Bridge.CallTool "get_upcoming_events" Sample.args 1001 0] in
  let s' := Bridge.step Json.parse s
              (Bridge.StdoutData (Json.line (Sample.response 1001 (JStr "emails")))) in
  let l := Legacy.run Json.parse Legacy.startMCPServer
             [Legacy.CallTool "get_recent_emails" Sample.args 1000;
              Legacy.CallTool "get_upcoming_events" Sample.args 1000] in
  (Bridge.phase_of <$> Bridge.calls s !! 0
     = Some (Bridge.Sent (Bridge.mkInflight 1001 EmptyString false true))
   /\ Bridge.phase_of <$> Bridge.calls s !! 1
     = Some (Bridge.Sent (Bridge.mkInflight 1001 EmptyString false true))
   /\ Bridge.outcome <$> Bridge.calls s !! 0 = Some Unsettled
   /\ Bridge.outcome <$> Bridge.calls s !! 1 = Some Unsettled)
  /\ (Bridge.outcome <$> Bridge.calls s' !! 0 = Some (Resolved (Val (JStr "emails")))
      /\ Bridge.outcome <$> Bridge.calls s' !! 1 = Some (Resolved (Val (JStr "emails"))))
  /\ (Legacy.reqid <$> Legacy.calls l !! 0 = Some 1000%Z
      /\ Legacy.reqid <$> Legacy.calls l !! 1 = Some 1000%Z
      /\ Legacy.outcome <$> Legacy.calls l !! 0 = Some Unsettled
      /\ Legacy.outcome <$> Legacy.calls l !! 1 = Some Unsettled).
Proof. vm_compute. repeat split; reflexivity. Qed.

(** C6, as the code implements it.  A call dispatched at time [now] gets the
    id [now + rnd], with [rnd] the random offset in [0, 999] (in
    [src/app/src/main.js] the id [now]).  Two calls dispatched one after the
    other while the bridge is ready are pending under these ids, and the ids
    differ whenever the two dispatch times are at least 1000 ms apart. *)
Theorem request_ids_differ_when_dispatched_apart
    (parse : string -> option json) (s : Bridge.bridge)
    (tool1 tool2 : string) (args1 args2 : json) (now1 rnd1 now2 rnd2 : Z) :
  let i := length (Bridge.calls s) in
  let s' := Bridge.run parse s [Bridge.CallTool tool1 args1 now1 rnd1;
                                Bridge.CallTool tool2 args2 now2 rnd2] in
  Bridge.mcpProcess s = true -> Bridge.serverReady s = true ->
  (0 <= rnd1 < 1000)%Z -> (0 <= rnd2 < 1000)%Z ->
  (1000 <= Z.abs (now1 - now2))%Z ->
  Bridge.calls s' !! i
  = Some (Bridge.mkCall tool1 args1 0
            (Bridge.Sent (Bridge.mkInflight (now1 + rnd1) EmptyString false true)) Unsettled)
  /\ Bridge.calls s' !! S i
     = Some (Bridge.mkCall tool2 args2 0
               (Bridge.Sent (Bridge.mkInflight (now2 + rnd2) EmptyString false true)) Unsettled)
  /\ (now1 + rnd1 <> now2 + rnd2)%Z
  /\ Legacy.request_id now1 <> Legacy.request_id now2.
Proof.
  intros i s' Hlive Hready Hr1 Hr2 Hapart.
  assert (Hissue : forall (s0 : Bridge.bridge) tool args now rnd,
            Bridge.mcpProcess s0 = true -> Bridge.serverReady s0 = true ->
            let s1 := Bridge.step parse s0 (Bridge.CallTool tool args now rnd) in
            Bridge.mcpProcess s1 = true /\ Bridge.serverReady s1 = true
            /\ Bridge.calls s1
               = Bridge.calls s0
                 ++ [Bridge.mkCall tool args 0
                       (Bridge.Sent (Bridge.mkInflight (now + rnd) EmptyString false true))
                       Unsettled]).
  { intros s0 tool args now rnd H1 H2. simpl. unfold Bridge.callMCPTool.
    rewrite H1. simpl. unfold Bridge.readiness_loop. simpl. rewrite H1, H2. simpl.
    repeat split; try assumption.
    rewrite insert_app_r_alt by lia. rewrite Nat.sub_diag. reflexivity. }
  destruct (Hissue s tool1 args1 now1 rnd1 Hlive Hready) as (Hlive1 & Hready1 & Hc1).
  destruct (Hissue _ tool2 args2 now2 rnd2 Hlive1 Hready1) as (_ & _ & Hc2).
  unfold s'.
  change (Bridge.run parse s [Bridge.CallTool tool1 args1 now1 rnd1;
                              Bridge.CallTool tool2 args2 now2 rnd2])
    with (Bridge.step parse (Bridge.step parse s (Bridge.CallTool tool1 args1 now1 rnd1))
            (Bridge.CallTool tool2 args2 now2 rnd2)).
  cbn zeta in Hc2. rewrite Hc2, Hc1.
  split; [|split; [|split]].
  - rewrite lookup_app_l by (rewrite length_app; simpl; lia).
    rewrite lookup_app_r by (unfold i; lia). unfold i. rewrite Nat.sub_diag. reflexivity.
  - rewrite lookup_app_r by (rewrite length_app; simpl; unfold i; lia).
    rewrite length_app. simpl. unfold i.
    replace (S (length (Bridge.calls s)) - (length (Bridge.calls s) + 1)) with 0 by lia.
    reflexivity.
  - lia.
  - unfold Legacy.request_id. lia.
Qed.

(** Two calls dispatched 1000 ms apart with the extreme offsets 999 and 0. *)
Lemma request_ids_differ_when_dispatched_apart_witness :
  let s' := Bridge.run Json.parse Sample.ready
              [Bridge.CallTool "get_recent_emails" Sample.args 1000 999;
               Bridge.CallTool "get_upcoming_events" Sample.args 2000 0] in
  (Bridge.mcpProcess Sample.ready = true /\ Bridge.serverReady Sample.ready = true
   /\ (0 <= 999 < 1000)%Z /\ (0 <= 0 < 1000)%Z /\ (1000 <= Z.abs (1000 - 2000))%Z)
  /\ Bridge.calls s' !! 0
     = Some (Bridge.mkCall "get_recent_emails" Sample.args 0
               (Bridge.Sent (Bridge.mkInflight (1000 + 999) EmptyString false true)) Unsettled)
  /\ Bridge.calls s' !! 1
     = Some (Bridge.mkCall "get_upcoming_events" Sample.args 0
               (Bridge.Sent (Bridge.mkInflight (2000 + 0) EmptyString false true)) Unsettled)
  /\ (1000 + 999 <> 2000 + 0)%Z
  /\ Legacy.request_id 1000 <> Legacy.request_id 2000.
Proof.
  intros s'.
  split; [repeat split; try reflexivity; try lia; discriminate|].
  apply (request_ids_differ_when_dispatched_apart Json.parse Sample.ready
           "get_recent_emails" "get_upcoming_events" Sample.args Sample.args
           1000 999 2000 0); try reflexivity; lia.
Defined.

(** ** Readiness polling *)

(** One elapsed sleep of a suspended call while the provider runs and the
    flag is unset: the counter advances; below the bound the call sleeps
    again, at the bound it is rejected. *)
Lemma poll_unready (parse : string -> option json) (s : Bridge.bridge) (i n : nat)
      (tool : string) (args : json) (now rnd : Z) :
  Bridge.calls s !! i = Some (Bridge.mkCall tool args n Bridge.Polling Unsettled) ->
  Bridge.mcpProcess s = true -> Bridge.serverReady s = false ->
  Bridge.calls (Bridge.step parse s (Bridge.PollTimer i now rnd)) !! i
  = Some (if S n <? Bridge.maxAttempts
          then Bridge.mkCall tool args (S n) Bridge.Polling Unsettled
          else Bridge.mkCall tool args (S n) Bridge.Returned (Rejected NotReadyError)).
Proof.
  intros Hi Hlive Hr. simpl. unfold Bridge.poll_timer. rewrite Hi. simpl.
  rewrite readiness_loop_unready by exact Hr. rewrite Hlive.
  erewrite put_call_eq by exact Hi. simpl.
  destruct (S n <? Bridge.maxAttempts); reflexivity.
Qed.

(** The wait of a call over a trace: as long as the provider runs and the
    flag is unset at its polls, the counter is the number of elapsed sleeps,
    up to the bound, at which the call is rejected for good. *)
Lemma wait_progress (parse : string -> option json) (later : list Bridge.event)
      (s : Bridge.bridge) (i n : nat) (tool : string) (args : json) :
  n < Bridge.maxAttempts ->
  Bridge.calls s !! i = Some (Bridge.mkCall tool args n Bridge.Polling Unsettled) ->
  Inv.unready_at_polls parse i s later ->
  Bridge.calls (Bridge.run parse s later) !! i
  = Some (if n + Inv.polls i later <? Bridge.maxAttempts
          then Bridge.mkCall tool args (n + Inv.polls i later) Bridge.Polling Unsettled
          else Bridge.mkCall tool args Bridge.maxAttempts Bridge.Returned
                 (Rejected NotReadyError)).
Proof.
  revert s n. induction later as [|e later IH]; intros s n Hn Hi Hun.
  - simpl. rewrite Nat.add_0_r. apply Nat.ltb_lt in Hn. rewrite Hn. exact Hi.
  - destruct Hun as [He Hun].
    change (Bridge.run parse s (e :: later))
      with (Bridge.run parse (Bridge.step parse s e) later).
    assert (Hother :
      (forall now rnd, e <> Bridge.PollTimer i now rnd) ->
      Inv.polls i (e :: later) = Inv.polls i later
      /\ Bridge.calls (Bridge.step parse s e) !! i
         = Some (Bridge.mkCall tool args n Bridge.Polling Unsettled)).
    { intros Hne. split.
      - destruct e; try reflexivity. simpl.
        destruct (Nat.eqb_spec i0 i) as [->|]; [|reflexivity].
        exfalso. eapply Hne. reflexivity.
      - apply step_frame; [exact Hi | unfold Inv.is_sent; simpl; tauto |].
        intros now rnd ->. exfalso. eapply Hne. reflexivity. }
    destruct e as [chunk|chunk| |k|k|tool' args' now rnd|j now rnd|j];
      try (destruct Hother as [-> Hi']; [intros; discriminate|];
           apply IH; assumption).
    destruct (decide (j = i)) as [->|Hji].
    + clear Hother. simpl Inv.polls. rewrite Nat.eqb_refl in He |- *.
      destruct He as [Hlive Hr].
      pose proof (poll_unready parse s i n tool args now rnd Hi Hlive Hr) as Hstep.
      destruct (S n <? Bridge.maxAttempts) eqn:Hb.
      * apply Nat.ltb_lt in Hb.
        rewrite (IH _ (S n) Hb Hstep Hun).
        replace (n + (1 + Inv.polls i later)) with (S n + Inv.polls i later) by lia.
        reflexivity.
      * apply Nat.ltb_ge in Hb.
        replace (n + (1 + Inv.polls i later) <? Bridge.maxAttempts) with false
          by (symmetry; apply Nat.ltb_ge; lia).
        replace (S n) with Bridge.maxAttempts in Hstep by lia.
        apply run_final; [exact Hstep|]. right. reflexivity.
    + destruct Hother as [-> Hi']; [intros ? ? [= ? ? ?]; congruence|].
      apply IH; assumption.
Qed.

(** C7 (the readiness loop breaks it).  The claim: a call issued before
    readiness polls, 500 ms apart and at most [maxAttempts] = 15 times, and
    when the bound is reached with the bridge still not ready it fails with
    NotReadyError; it never hangs.  The loop condition and the test after
    the loop call [mcpProcess.isReady()] with no guard on the handle, which
    the close handler sets to null.  When the provider exits during the
    fifteenth sleep, the flag was unset at every poll and the bound is
    reached, but the call is not rejected: the TypeError leaves the async
    executor, nothing is written, and the promise stays unsettled whatever
    happens afterwards.  With the provider running through the same fifteen
    sleeps the call is rejected with NotReadyError. *)
Theorem readiness_wait_hangs_when_provider_exits (later : list Bridge.event) :
  let s := Bridge.run Json.parse Bridge.startMCPServer Trace.exit_in_last_sleep in
  let hung := Bridge.mkCall "get_recent_emails" Sample.args 15 Bridge.Threw Unsettled in
  let issue := Bridge.CallTool "get_recent_emails" Sample.args 1000 7 in
  let running := Bridge.run Json.parse Bridge.startMCPServer
                   (issue :: replicate 15 (Bridge.PollTimer 0 1000 7)) in
  Inv.polls 0 Trace.exit_in_last_sleep = Bridge.maxAttempts
  /\ Bridge.serverReady s = false
  /\ Bridge.calls s !! 0 = Some hung
  /\ Bridge.stdin s = []
  /\ Bridge.calls (Bridge.run Json.parse s later) !! 0 = Some hung
  /\ Bridge.calls running !! 0
     = Some (Bridge.mkCall "get_recent_emails" Sample.args 15 Bridge.Returned
               (Rejected NotReadyError)).
Proof.
  intros s hung issue running.
  assert (Hs : Bridge.calls s !! 0 = Some hung) by (vm_compute; reflexivity).
  split; [reflexivity|]. split; [vm_compute; reflexivity|]. split; [exact Hs|].
  split; [vm_compute; reflexivity|]. split; [|vm_compute; reflexivity].
  apply run_final; [exact Hs|]. left. reflexivity.
Qed.

(** X25.  A call issued before readiness is reached, in any state the bridge
    reaches with the provider running, is suspended in a polling loop of
    sleeps of [pollInterval] = 500 ms, at most [maxAttempts] = 15 of them.
    Over any events that follow, as long as the provider is running and the
    ready flag is unset at each of its polls: while fewer than 15 sleeps
    have elapsed the call is suspended, unsettled, its counter being the
    number of elapsed sleeps; once 15 have elapsed (7500 ms) its promise is
    rejected with NotReadyError and stays so; and in either case no frame of
    that call has been written to the provider's stdin. *)
Theorem readiness_wait_bounded_then_not_ready
    (parse : string -> option json) (trace later : list Bridge.event)
    (tool : string) (args : json) (now rnd : Z) :
  let s := Bridge.run parse Bridge.startMCPServer trace in
  let i := length (Bridge.calls s) in
  let issued := Bridge.step parse s (Bridge.CallTool tool args now rnd) in
  let s' := Bridge.run parse issued later in
  let rejected :=
    Bridge.mkCall tool args Bridge.maxAttempts Bridge.Returned (Rejected NotReadyError) in
  Bridge.mcpProcess s = true ->
  Bridge.serverReady s = false ->
  Inv.unready_at_polls parse i issued later ->
  Bridge.calls s' !! i
  = Some (if Inv.polls i later <? Bridge.maxAttempts
          then Bridge.mkCall tool args (Inv.polls i later) Bridge.Polling Unsettled
          else rejected)
  /\ Bridge.waited rejected = 7500%Z
  /\ (forall frame, (ByCall i, frame) ∉ Bridge.stdin s').
Proof.
  intros s i issued s' rejected Hlive Hr Hun.
  assert (Hissue : Bridge.calls issued !! i
            = Some (Bridge.mkCall tool args 0 Bridge.Polling Unsettled)).
  { unfold issued. simpl. unfold Bridge.callMCPTool.
    rewrite Hlive. simpl. rewrite readiness_loop_unready by exact Hr.
    simpl. rewrite Hlive. simpl.
    apply list_lookup_insert_eq. rewrite length_app. simpl. unfold i. lia. }
  pose proof (wait_progress parse later issued i 0 tool args
                ltac:(unfold Bridge.maxAttempts; lia) Hissue Hun) as Hfin.
  simpl in Hfin. fold s' in Hfin.
  split; [exact Hfin|]. split; [reflexivity|].
  intros frame Hel.
  pose proof (run_wf parse (trace ++ Bridge.CallTool tool args now rnd :: later))
    as [_ Hw].
  rewrite run_app in Hw. fold s in Hw.
  change (Bridge.run parse s (Bridge.CallTool tool args now rnd :: later))
    with s' in Hw.
  destruct (Hw i frame Hel) as (c' & Hc' & Hsent).
  rewrite Hfin in Hc'. injection Hc' as <-.
  unfold Inv.is_sent in Hsent.
  destruct (Inv.polls i later <? Bridge.maxAttempts); exact Hsent.
Qed.

(** A call issued right after [startMCPServer], before any banner, whose
    sleep elapses fifteen times with a log line on stdout in between. *)
Lemma readiness_wait_bounded_then_not_ready_witness :
  let issued := Bridge.step Json.parse Bridge.startMCPServer
                  (Bridge.CallTool "get_recent_emails" Sample.args 1000 7) in
  let s' := Bridge.run Json.parse issued Trace.polled15 in
  (Bridge.mcpProcess Bridge.startMCPServer = true
   /\ Bridge.serverReady Bridge.startMCPServer = false
   /\ Inv.unready_at_polls Json.parse 0 issued Trace.polled15)
  /\ Bridge.calls s' !! 0
     = Some (Bridge.mkCall "get_recent_emails" Sample.args 15 Bridge.Returned
               (Rejected NotReadyError))
  /\ Bridge.waited (Bridge.mkCall "get_recent_emails" Sample.args 15 Bridge.Returned
                      (Rejected NotReadyError)) = 7500%Z
  /\ (forall frame, (ByCall 0, frame) ∉ Bridge.stdin s').
Proof.
  intros issued s'.
  assert (Hun : Inv.unready_at_polls Json.parse 0 issued Trace.polled15)
    by (vm_compute; repeat split).
  split; [repeat split; try reflexivity; exact Hun|].
  apply (readiness_wait_bounded_then_not_ready Json.parse [] Trace.polled15
           "get_recent_emails" Sample.args 1000 7); [reflexivity | reflexivity | exact Hun].
Defined.

(** C9.  If the provider exits, which clears the module-level handle, while a
    caller is suspended in the readiness loop of [callMCPTool], the next poll
    calls [isReady()] on the null handle: the TypeError leaves the async
    executor, nothing is written, and the promise of the call stays unsettled
    whatever happens afterwards. *)
Theorem poll_after_exit_never_settles
    (parse : string -> option json) (trace later : list Bridge.event)
    (i : nat) (c : Bridge.call) (now rnd : Z) :
  let s := Bridge.run parse Bridge.startMCPServer trace in
  let s' := Bridge.step parse s (Bridge.PollTimer i now rnd) in
  let thrown :=
    Bridge.mkCall (Bridge.toolName c) (Bridge.params c) (S (Bridge.attempts c))
                  Bridge.Threw Unsettled in
  Bridge.calls s !! i = Some c ->
  Bridge.phase_of c = Bridge.Polling ->
  Bridge.mcpProcess s = false ->
  Bridge.calls s' !! i = Some thrown
  /\ Bridge.stdin s' = Bridge.stdin s
  /\ Bridge.calls (Bridge.run parse s' later) !! i = Some thrown.
Proof.
  intros s s' thrown Hi Hph Hnull.
  pose proof (run_wf parse trace) as [Hcalls _]. fold s in Hcalls.
  pose proof (Forall_lookup_1 _ _ _ _ Hcalls Hi) as Hok.
  unfold Inv.call_ok in Hok. rewrite Hph in Hok. destruct Hok as [_ Hout].
  assert (Hs' : s' = Bridge.put_call s i (Bridge.set_phase (Bridge.incr_attempts c) Bridge.Threw)).
  { unfold s'. simpl. unfold Bridge.poll_timer. rewrite Hi, Hph.
    unfold Bridge.readiness_loop. rewrite Hnull. reflexivity. }
  assert (Hthrown : Bridge.calls s' !! i = Some thrown).
  { rewrite Hs'. erewrite put_call_eq by eassumption.
    unfold thrown, Bridge.set_phase, Bridge.incr_attempts. simpl. rewrite Hout. reflexivity. }
  split; [exact Hthrown|]. split; [rewrite Hs'; reflexivity|].
  apply run_final; [exact Hthrown|]. left. reflexivity.
Qed.

(** A call issued before readiness whose provider exits during the second
    sleep: the statement at [Trace.exit_while_polling]. *)
Lemma poll_after_exit_never_settles_witness :
  let s := Bridge.run Json.parse Bridge.startMCPServer Trace.exit_while_polling in
  let s' := Bridge.step Json.parse s (Bridge.PollTimer 0 2000 7) in
  let c := Bridge.mkCall "get_recent_emails" Sample.args 1 Bridge.Polling Unsettled in
  let thrown := Bridge.mkCall "get_recent_emails" Sample.args 2 Bridge.Threw Unsettled in
  (Bridge.calls s !! 0 = Some c /\ Bridge.mcpProcess s = false)
  /\ Bridge.calls s' !! 0 = Some thrown
  /\ Bridge.stdin s' = Bridge.stdin s
  /\ Bridge.calls (Bridge.run Json.parse s' [Bridge.CallTimeout 0]) !! 0 = Some thrown.
Proof.
  intros s s' c thrown.
  split; [split; reflexivity|].
  apply (poll_after_exit_never_settles Json.parse Trace.exit_while_polling
           [Bridge.CallTimeout 0] 0 c 2000 7); reflexivity.
Defined.

(** ** The timer of a call while the provider runs *)

Section CallTimer.

Variable parse : string -> option json.

Lemma emit_ne (data : string) (s : Bridge.bridge) (i : nat) :
  CallListener i ∉ Bridge.stdout_listeners s ->
  Bridge.calls (Bridge.emit_stdout parse s data) !! i = Bridge.calls s !! i.
Proof.
  unfold Bridge.emit_stdout. generalize (Bridge.stdout_listeners s). intros ls.
  revert s. induction ls as [|h ls IH]; intros s Hnot; [reflexivity|].
  simpl. rewrite IH.
  - apply deliver_ne. intros ->. apply Hnot. apply elem_of_cons. left. reflexivity.
  - intros Hin. apply Hnot. apply elem_of_cons. right. exact Hin.
Qed.

Lemma remove_listener_gone (h : listener) (ls : list listener) :
  h ∉ remove_listener h ls.
Proof.
  unfold remove_listener. intros Hin. apply list_elem_of_filter in Hin as [Hne _].
  apply Hne. reflexivity.
Qed.

(** With the handle in place, the timer of a pending call rejects it with
    CallTimeoutError and unregisters its listener; the other calls are as
    before, and a chunk that arrives later does not reach the call. *)
Lemma call_timeout_live (s : Bridge.bridge) (i : nat) (c : Bridge.call)
      (f : Bridge.inflight) (late : string) :
  Bridge.calls s !! i = Some c -> Bridge.phase_of c = Bridge.Sent f ->
  Bridge.timeout_armed f = true -> Bridge.isComplete f = false ->
  Bridge.outcome c = Unsettled -> Bridge.mcpProcess s = true ->
  let s' := Bridge.step parse s (Bridge.CallTimeout i) in
  let failed := Bridge.mkCall (Bridge.toolName c) (Bridge.params c) (Bridge.attempts c)
                  (Bridge.Sent (Bridge.completed f)) (Rejected CallTimeoutError) in
  Bridge.calls s' !! i = Some failed
  /\ (CallListener i ∉ Bridge.stdout_listeners s')
  /\ (forall j, j <> i -> Bridge.calls s' !! j = Bridge.calls s !! j)
  /\ Bridge.calls (Bridge.step parse s' (Bridge.StdoutData late)) !! i = Some failed.
Proof.
  intros Hi Hph Harmed Hinc Hout Hlive s' failed.
  assert (Hs' : s' = Bridge.set_listeners
                       (Bridge.put_call s i
                          (Bridge.set_outcome (Bridge.set_phase c (Bridge.Sent (Bridge.completed f)))
                             (settle (Bridge.outcome c) (Rejected CallTimeoutError))))
                       (remove_listener (CallListener i) (Bridge.stdout_listeners s))).
  { unfold s'. simpl. unfold Bridge.call_timeout.
    rewrite Hi, Hph, Harmed, Hinc, Hlive. reflexivity. }
  assert (Hfailed : Bridge.calls s' !! i = Some failed).
  { rewrite Hs'. simpl. rewrite list_lookup_insert_eq by (eapply lookup_lt_Some, Hi).
    unfold failed, Bridge.set_outcome, Bridge.set_phase. simpl. rewrite Hout. reflexivity. }
  assert (Hgone : CallListener i ∉ Bridge.stdout_listeners s').
  { rewrite Hs'. simpl. apply remove_listener_gone. }
  split; [exact Hfailed|]. split; [exact Hgone|]. split.
  - intros j Hne. rewrite Hs'. simpl. apply list_lookup_insert_ne. congruence.
  - simpl. rewrite emit_ne by exact Hgone. exact Hfailed.
Qed.

(** With the handle null the timer callback throws before it rejects: the
    promise and the listeners are as before. *)
Lemma call_timeout_null (s : Bridge.bridge) (i : nat) (c : Bridge.call)
      (f : Bridge.inflight) :
  Bridge.calls s !! i = Some c -> Bridge.phase_of c = Bridge.Sent f ->
  Bridge.timeout_armed f = true -> Bridge.isComplete f = false ->
  Bridge.mcpProcess s = false ->
  let s' := Bridge.step parse s (Bridge.CallTimeout i) in
  Bridge.outcome <$> Bridge.calls s' !! i = Some (Bridge.outcome c)
  /\ Bridge.stdout_listeners s' = Bridge.stdout_listeners s.
Proof.
  intros Hi Hph Harmed Hinc Hnull. simpl. unfold Bridge.call_timeout.
  rewrite Hi, Hph, Harmed, Hinc, Hnull. simpl.
  rewrite list_lookup_insert_eq by (eapply lookup_lt_Some, Hi). split; reflexivity.
Qed.

(** The timer of the earlier implementation never touches the listeners. *)
Lemma legacy_timeout_keeps_listeners (s : Legacy.bridge) (i : nat) :
  Legacy.stdout_listeners (Legacy.step parse s (Legacy.CallTimeout i))
  = Legacy.stdout_listeners s.
Proof.
  simpl. unfold Legacy.call_timeout.
  destruct (Legacy.calls s !! i) as [c|]; [|reflexivity].
  destruct (Legacy.timeout_armed c); reflexivity.
Qed.

End CallTimer.

(** C8 (both implementations break it).  The claim: on timeout the call
    fails with CallTimeoutError and its listener is removed.  In
    [src/app/src/main.js] the timer only rejects: the listener stays
    registered and consumes the late response.  In the current [main.js] the
    timer callback dereferences the process handle before it rejects: after
    the provider has exited the handle is null, the callback throws, and the
    call is never failed. *)
Theorem call_timeout_leaves_listener_or_promise :
  let l1 := Legacy.run Json.parse Legacy.startMCPServer
              [Legacy.CallTool "get_recent_emails" Sample.args 101;
               Legacy.CallTimeout 0] in
  let l2 := Legacy.step Json.parse l1
              (Legacy.StdoutData (Json.line (Sample.response 101 (JStr "emails")))) in
  let b := Bridge.run Json.parse Sample.ready
              [Bridge.CallTool "get_recent_emails" Sample.args 101 0;
               Bridge.ProcessClose; Bridge.CallTimeout 0] in
  Legacy.outcome <$> Legacy.calls l1 !! 0 = Some (Rejected CallTimeoutError)
  /\ Legacy.stdout_listeners l1 = [LogListener; CallListener 0]
  /\ Legacy.responseData <$> Legacy.calls l2 !! 0
     = Some (Json.line (Sample.response 101 (JStr "emails")))
  /\ Legacy.stdout_listeners l2 = [LogListener]
  /\ Bridge.outcome <$> Bridge.calls b !! 0 = Some Unsettled
  /\ Bridge.stdout_listeners b = [LogListener; CallListener 0].
Proof. vm_compute. repeat split; reflexivity. Qed.

(** ** Readiness is backed by a banner and a completed handshake *)

Section Readiness.

Variable parse : string -> option json.

(** Steps that keep the handshakes and the flag, and only add to stdin. *)
Lemma backed_mono (s s' : Bridge.bridge) :
  Bridge.handshakes s' = Bridge.handshakes s ->
  Bridge.serverReady s' = Bridge.serverReady s ->
  (forall x, x ∈ Bridge.stdin s -> x ∈ Bridge.stdin s') ->
  Inv.backed s -> Inv.backed s'.
Proof.
  intros Hh Hr Hin [Hst Hrd]. split.
  - intros k h Hk. rewrite Hh in Hk. apply Hin, (Hst k h Hk).
  - intros Hready. rewrite Hr in Hready.
    destruct (Hrd Hready) as (k & h & Hk & Hp & H1 & H2).
    exists k, h. rewrite Hh. auto.
Qed.

(** Steps that rewrite one started handshake without losing its resolution. *)
Lemma backed_update (s s' : Bridge.bridge) (k : nat) (h h' : Bridge.handshaking) :
  Bridge.handshakes s !! k = Some (Bridge.Started h) ->
  (Bridge.h_promise h = Resolved Undefined -> Bridge.h_promise h' = Resolved Undefined) ->
  Bridge.handshakes s' = <[k := Bridge.Started h']> (Bridge.handshakes s) ->
  Bridge.serverReady s' = Bridge.serverReady s ->
  (forall x, x ∈ Bridge.stdin s -> x ∈ Bridge.stdin s') ->
  Inv.backed s -> Inv.backed s'.
Proof.
  intros Hk Hkeep Hh Hr Hin [Hst Hrd].
  pose proof (lookup_lt_Some _ _ _ Hk) as Hlt. split.
  - intros k0 h0 Hk0. rewrite Hh in Hk0. apply Hin.
    destruct (decide (k0 = k)) as [->|Hne].
    + apply (Hst k h Hk).
    + rewrite list_lookup_insert_ne in Hk0 by congruence. apply (Hst k0 h0 Hk0).
  - intros Hready. rewrite Hr in Hready.
    destruct (Hrd Hready) as (k0 & h0 & Hk0 & Hp & H1 & H2).
    destruct (decide (k0 = k)) as [->|Hne].
    + exists k, h'. rewrite Hh, list_lookup_insert_eq by assumption.
      rewrite Hk in Hk0. injection Hk0 as ->. auto.
    + exists k0, h0. rewrite Hh, list_lookup_insert_ne by congruence. auto.
Qed.

Lemma deliver_backed (data : string) (s : Bridge.bridge) (h : listener) :
  Inv.backed s -> Inv.backed (Bridge.deliver parse data s h).
Proof.
  intros HG. destruct h as [|k|i]; simpl; [exact HG| |].
  - unfold Bridge.init_dataHandler.
    destruct (Bridge.handshakes s !! k) as [[|h|]|] eqn:Hk; try exact HG.
    destruct (Bridge.init_lines parse (Bridge.mcpProcess s) _).
    + eapply backed_update; [exact Hk | | reflexivity | reflexivity | auto | exact HG]. auto.
    + eapply backed_update; [exact Hk | | reflexivity | reflexivity | auto | exact HG]. auto.
    + eapply backed_update; [exact Hk | | reflexivity | reflexivity | auto | exact HG]. auto.
    + destruct (is_settled (Bridge.h_promise h)) eqn:Hs.
      * eapply backed_update; [exact Hk | | reflexivity | reflexivity | | exact HG].
        -- simpl. intros ->. reflexivity.
        -- intros x Hx. simpl. apply elem_of_snoc_l, Hx.
      * destruct HG as [Hst Hrd].
        pose proof (lookup_lt_Some _ _ _ Hk) as Hlt.
        assert (Hp : Bridge.h_promise h = Unsettled)
          by (destruct (Bridge.h_promise h); simpl in Hs; congruence).
        split.
        -- intros k0 h0 Hk0. simpl in Hk0 |- *. apply elem_of_snoc_l.
           destruct (decide (k0 = k)) as [->|Hne].
           ++ apply (Hst k h Hk).
           ++ rewrite list_lookup_insert_ne in Hk0 by congruence. apply (Hst k0 h0 Hk0).
        -- intros _. simpl.
           eexists k, _. rewrite list_lookup_insert_eq by assumption.
           split; [reflexivity|]. simpl. rewrite Hp. split; [reflexivity|]. split.
           ++ apply elem_of_snoc_l, (Hst k h Hk).
           ++ apply elem_of_app. right. apply list_elem_of_singleton. reflexivity.
  - destruct (Bridge.calls s !! i) as [c|]; [|exact HG].
    destruct (Bridge.phase_of c); try exact HG.
    destruct (Bridge.dataHandler parse (Bridge.mcpProcess s) f data) as [[f' r] log].
    destruct (Bridge.unregistered _ _ _);
      (eapply backed_mono; [| | |exact HG]; [reflexivity | reflexivity | auto]).
Qed.

Lemma step_backed (s : Bridge.bridge) (e : Bridge.event) :
  Inv.backed s -> Inv.backed (Bridge.step parse s e).
Proof.
  intros HG. destruct e as [chunk|chunk| |k|k|tool args now rnd|i now rnd|i]; simpl.
  - apply emit_invariant; [|exact HG]. intros; apply deliver_backed; assumption.
  - unfold Bridge.stderr_listener. destruct (Bridge.is_banner chunk); [|exact HG].
    destruct HG as [Hst Hrd]. split.
    + intros k h Hk. simpl in Hk |- *.
      apply lookup_app_Some in Hk as [Hk|[_ Hk]]; [apply (Hst k h Hk)|].
      destruct (k - length (Bridge.handshakes s)) as [|n]; simpl in Hk; discriminate.
    + intros Hready. destruct (Hrd Hready) as (k & h & Hk & Hp & H1 & H2).
      exists k, h. simpl. rewrite lookup_app_l by (eapply lookup_lt_Some, Hk). auto.
  - eapply backed_mono; [| | |exact HG]; [reflexivity | reflexivity | auto].
  - unfold Bridge.banner_timer, Bridge.initializeMCPServer.
    destruct (Bridge.handshakes s !! k) as [[|h|]|] eqn:Hk; try exact HG.
    pose proof (lookup_lt_Some _ _ _ Hk) as Hlt.
    destruct HG as [Hst Hrd].
    destruct (Bridge.mcpProcess s); split.
    + intros k0 h0 Hk0. simpl in Hk0 |- *.
      destruct (decide (k0 = k)) as [->|Hne].
      * apply elem_of_app. right. apply list_elem_of_singleton. reflexivity.
      * rewrite list_lookup_insert_ne in Hk0 by congruence.
        apply elem_of_snoc_l, (Hst k0 h0 Hk0).
    + intros Hready. destruct (Hrd Hready) as (k0 & h0 & Hk0 & Hp & H1 & H2).
      assert (k0 <> k) by (intros ->; rewrite Hk in Hk0; discriminate).
      exists k0, h0. simpl. rewrite list_lookup_insert_ne by congruence.
      repeat split; try assumption; apply elem_of_snoc_l; assumption.
    + intros k0 h0 Hk0. simpl in Hk0 |- *.
      destruct (decide (k0 = k)) as [->|Hne].
      * rewrite list_lookup_insert_eq in Hk0 by assumption. discriminate.
      * rewrite list_lookup_insert_ne in Hk0 by congruence. apply (Hst k0 h0 Hk0).
    + intros Hready. destruct (Hrd Hready) as (k0 & h0 & Hk0 & Hp & H1 & H2).
      assert (k0 <> k) by (intros ->; rewrite Hk in Hk0; discriminate).
      exists k0, h0. simpl. rewrite list_lookup_insert_ne by congruence. auto.
  - unfold Bridge.handshake_timeout.
    destruct (Bridge.handshakes s !! k) as [[|h|]|] eqn:Hk; try exact HG.
    destruct (Bridge.h_timeout_armed h); [|exact HG].
    eapply backed_update; [exact Hk | | reflexivity | reflexivity | auto | exact HG].
    simpl. intros ->. reflexivity.
  - unfold Bridge.callMCPTool.
    destruct (negb (Bridge.mcpProcess s)).
    + eapply backed_mono; [| | |exact HG]; [reflexivity | reflexivity | auto].
    + match goal with |- Inv.backed (Bridge.readiness_loop ?s0 ?i ?c ?n ?r) =>
        destruct (readiness_loop_keeps s0 i c n r) as (H1 & H2 & _ & H4) end.
      eapply backed_mono; [exact H1 | exact H2 | exact H4 |].
      eapply backed_mono; [| | |exact HG]; [reflexivity | reflexivity | auto].
  - unfold Bridge.poll_timer.
    destruct (Bridge.calls s !! i) as [c|]; [|exact HG].
    destruct (Bridge.phase_of c); try exact HG.
    destruct (readiness_loop_keeps s i (Bridge.incr_attempts c) now rnd) as (H1 & H2 & _ & H4).
    eapply backed_mono; [exact H1 | exact H2 | exact H4 | exact HG].
  - unfold Bridge.call_timeout.
    destruct (Bridge.calls s !! i) as [c|]; [|exact HG].
    destruct (Bridge.phase_of c); try exact HG.
    destruct (Bridge.timeout_armed f); [|exact HG].
    destruct (Bridge.isComplete f);
      [eapply backed_mono; [| | |exact HG]; [reflexivity | reflexivity | auto]|].
    destruct (Bridge.mcpProcess s);
      (eapply backed_mono; [| | |exact HG]; [reflexivity | reflexivity | auto]).
Qed.

Lemma run_backed (trace : list Bridge.event) :
  Inv.backed (Bridge.run parse Bridge.startMCPServer trace).
Proof.
  apply (run_invariant parse (fun _ => True) Inv.backed).
  - intros s e _. apply step_backed.
  - apply Forall_forall. intros; exact I.
  - split.
    + intros k h Hk. simpl in Hk. discriminate.
    + intros Hr. simpl in Hr. discriminate.
Qed.

End Readiness.

(** ** Without a banner the bridge stays quiet *)

Section Quiet.

Variable parse : string -> option json.

Lemma quiet_deliver (data : string) (s : Bridge.bridge) (h : listener) :
  Inv.quiet s -> Bridge.deliver parse data s h = s.
Proof.
  intros (Hh & _ & _ & Hcalls). destruct h as [|k|i]; simpl; [reflexivity| |].
  - unfold Bridge.init_dataHandler. rewrite Hh. reflexivity.
  - destruct (Bridge.calls s !! i) as [c|] eqn:Hi; [|reflexivity].
    pose proof (Forall_lookup_1 _ _ _ _ Hcalls Hi) as [Hns _].
    unfold Inv.is_sent in Hns.
    destruct (Bridge.phase_of c); try reflexivity. exfalso. apply Hns. exact I.
Qed.

Lemma quiet_emit (data : string) (s : Bridge.bridge) :
  Inv.quiet s -> Bridge.emit_stdout parse s data = s.
Proof.
  intros Hq. unfold Bridge.emit_stdout.
  induction (Bridge.stdout_listeners s) as [|h ls IH]; [reflexivity|].
  simpl. rewrite quiet_deliver by exact Hq. exact IH.
Qed.

Lemma never_dispatched_loop (live : bool) (c : Bridge.call) :
  (forall v, Bridge.outcome c <> Resolved v) ->
  Inv.never_dispatched
    (if live then
       if Bridge.attempts c <? Bridge.maxAttempts then Bridge.set_phase c Bridge.Polling
       else Bridge.set_outcome (Bridge.set_phase c Bridge.Returned)
              (settle (Bridge.outcome c) (Rejected NotReadyError))
     else Bridge.set_phase c Bridge.Threw).
Proof.
  intros Hout. unfold Inv.never_dispatched, Inv.is_sent.
  destruct live; [destruct (Bridge.attempts c <? Bridge.maxAttempts)|]; simpl;
    (split; [tauto|]); try exact Hout.
  intros v. specialize (Hout v). destruct (Bridge.outcome c); simpl; congruence.
Qed.

Lemma quiet_put (s : Bridge.bridge) (i : nat) (c : Bridge.call) :
  Inv.quiet s -> Inv.never_dispatched c -> Inv.quiet (Bridge.put_call s i c).
Proof.
  intros (Hh & Hr & Hin & Hcalls) Hc. repeat split; try assumption.
  simpl. apply Forall_insert; assumption.
Qed.

Lemma alive_put (s : Bridge.bridge) (i : nat) (c : Bridge.call) :
  Inv.alive s -> Inv.waiting_or_not_ready c -> Inv.alive (Bridge.put_call s i c).
Proof.
  intros (Hlive & Hcalls) Hc. split; [exact Hlive|].
  simpl. apply Forall_insert; assumption.
Qed.

Lemma quiet_step (s : Bridge.bridge) (e : Bridge.event) :
  Inv.no_banner e -> Inv.quiet s -> Inv.quiet (Bridge.step parse s e).
Proof.
  intros Hnb Hq. pose proof Hq as (Hh & Hr & Hin & Hcalls).
  destruct e as [chunk|chunk| |k|k|tool args now rnd|i now rnd|i]; simpl.
  - rewrite quiet_emit; assumption.
  - unfold Bridge.stderr_listener. simpl in Hnb. rewrite Hnb. exact Hq.
  - exact Hq.
  - unfold Bridge.banner_timer, Bridge.initializeMCPServer. rewrite Hh. exact Hq.
  - unfold Bridge.handshake_timeout. rewrite Hh. exact Hq.
  - unfold Bridge.callMCPTool.
    destruct (Bridge.mcpProcess s) eqn:Hlive; simpl.
    + rewrite readiness_loop_unready by exact Hr. simpl. rewrite Hlive.
      repeat split; try assumption. simpl.
      apply Forall_insert.
      * apply Forall_app. split; [exact Hcalls|]. apply Forall_singleton.
        split; [unfold Inv.is_sent; simpl; tauto | discriminate].
      * split; [unfold Inv.is_sent; simpl; tauto | simpl; discriminate].
    + repeat split; try assumption. simpl.
      apply Forall_app. split; [exact Hcalls|]. apply Forall_singleton.
      split; [unfold Inv.is_sent; simpl; tauto | discriminate].
  - unfold Bridge.poll_timer.
    destruct (Bridge.calls s !! i) as [c|] eqn:Hi; [|exact Hq].
    destruct (Bridge.phase_of c) eqn:Hph; try exact Hq.
    pose proof (Forall_lookup_1 _ _ _ _ Hcalls Hi) as [_ Hout].
    rewrite readiness_loop_unready by exact Hr.
    apply quiet_put; [exact Hq|].
    apply never_dispatched_loop. exact Hout.
  - unfold Bridge.call_timeout.
    destruct (Bridge.calls s !! i) as [c|] eqn:Hi; [|exact Hq].
    pose proof (Forall_lookup_1 _ _ _ _ Hcalls Hi) as [Hns _].
    unfold Inv.is_sent in Hns.
    destruct (Bridge.phase_of c); try exact Hq. exfalso. apply Hns. exact I.
Qed.

Lemma waiting_loop (c : Bridge.call) :
  Bridge.phase_of c = Bridge.Polling ->
  Bridge.attempts c < Bridge.maxAttempts ->
  Bridge.outcome c = Unsettled ->
  let c1 := Bridge.incr_attempts c in
  Inv.waiting_or_not_ready
    (if Bridge.attempts c1 <? Bridge.maxAttempts then Bridge.set_phase c1 Bridge.Polling
     else Bridge.set_outcome (Bridge.set_phase c1 Bridge.Returned)
            (settle (Bridge.outcome c1) (Rejected NotReadyError))).
Proof.
  intros Hph Hlt Hout c1. unfold Inv.waiting_or_not_ready.
  destruct (Bridge.attempts c1 <? Bridge.maxAttempts) eqn:Hb.
  - left. apply Nat.ltb_lt in Hb. simpl. auto.
  - right. apply Nat.ltb_ge in Hb. simpl in *. rewrite Hout. simpl.
    repeat split; try reflexivity. lia.
Qed.

Lemma alive_step (s : Bridge.bridge) (e : Bridge.event) :
  Inv.no_banner e -> Inv.no_close e ->
  Inv.quiet s /\ Inv.alive s ->
  Inv.quiet (Bridge.step parse s e) /\ Inv.alive (Bridge.step parse s e).
Proof.
  intros Hnb Hnc [Hq Ha]. split; [apply quiet_step; assumption|].
  pose proof Hq as (Hh & Hr & Hin & Hnd). destruct Ha as [Hlive Hcalls].
  destruct e as [chunk|chunk| |k|k|tool args now rnd|i now rnd|i]; simpl.
  - rewrite quiet_emit by assumption. split; assumption.
  - unfold Bridge.stderr_listener. simpl in Hnb. rewrite Hnb. split; assumption.
  - contradiction.
  - unfold Bridge.banner_timer, Bridge.initializeMCPServer. rewrite Hh. split; assumption.
  - unfold Bridge.handshake_timeout. rewrite Hh. split; assumption.
  - unfold Bridge.callMCPTool. rewrite Hlive. simpl.
    rewrite readiness_loop_unready by exact Hr. simpl. rewrite Hlive.
    split; [exact Hlive|]. simpl.
    apply Forall_insert.
    + apply Forall_app. split; [exact Hcalls|]. apply Forall_singleton.
      left. simpl. unfold Bridge.maxAttempts. repeat split; lia.
    + left. simpl. unfold Bridge.maxAttempts. repeat split; lia.
  - unfold Bridge.poll_timer.
    destruct (Bridge.calls s !! i) as [c|] eqn:Hi; [|split; assumption].
    destruct (Bridge.phase_of c) eqn:Hph; try (split; assumption).
    pose proof (Forall_lookup_1 _ _ _ _ Hcalls Hi) as Hw.
    destruct Hw as [(_ & Hlt & Hout)|(Hret & _)]; [|congruence].
    rewrite readiness_loop_unready by exact Hr. rewrite Hlive.
    apply alive_put; [split; assumption|].
    apply waiting_loop; assumption.
  - unfold Bridge.call_timeout.
    destruct (Bridge.calls s !! i) as [c|] eqn:Hi; [|split; assumption].
    pose proof (Forall_lookup_1 _ _ _ _ Hnd Hi) as [Hns _].
    unfold Inv.is_sent in Hns.
    destruct (Bridge.phase_of c); try (split; assumption). exfalso. apply Hns. exact I.
Qed.

Lemma started_quiet : Inv.quiet Bridge.startMCPServer /\ Inv.alive Bridge.startMCPServer.
Proof.
  repeat split; try reflexivity; apply Forall_nil; exact I.
Qed.

Lemma run_quiet (trace : list Bridge.event) (s : Bridge.bridge) :
  Forall Inv.no_banner trace -> Inv.quiet s -> Inv.quiet (Bridge.run parse s trace).
Proof.
  intros Hnb Hq. apply (run_invariant parse Inv.no_banner Inv.quiet); try assumption.
  intros s' e He Hs'. apply quiet_step; assumption.
Qed.

Lemma run_alive (trace : list Bridge.event) (s : Bridge.bridge) :
  Forall Inv.no_banner trace -> Forall Inv.no_close trace ->
  Inv.quiet s /\ Inv.alive s ->
  Inv.quiet (Bridge.run parse s trace) /\ Inv.alive (Bridge.run parse s trace).
Proof.
  intros Hnb Hnc HP.
  apply (run_invariant parse (fun e => Inv.no_banner e /\ Inv.no_close e)
           (fun s => Inv.quiet s /\ Inv.alive s)); try assumption.
  - intros s' e [He1 He2] Hs'. apply alive_step; assumption.
  - apply Forall_forall. intros e He. split.
    + eapply Forall_forall in Hnb; eassumption.
    + eapply Forall_forall in Hnc; eassumption.
Qed.

(** Without banner and without exit, every poll finds the provider running
    and the flag unset. *)
Lemma quiet_unready (later : list Bridge.event) (s : Bridge.bridge) (i : nat) :
  Forall Inv.no_banner later -> Forall Inv.no_close later ->
  Inv.quiet s -> Inv.alive s ->
  Inv.unready_at_polls parse i s later.
Proof.
  revert s. induction later as [|e later IH]; intros s Hnb Hnc Hq Ha; [exact I|].
  inversion Hnb as [|? ? He1 Hnb']; subst. inversion Hnc as [|? ? He2 Hnc']; subst.
  destruct (alive_step s e He1 He2 (conj Hq Ha)) as [Hq' Ha'].
  split; [|apply IH; assumption].
  destruct e; try exact I. destruct (Nat.eqb i0 i); [|exact I].
  destruct Hq as (_ & Hr & _). destruct Ha as [Hlive _]. split; assumption.
Qed.

End Quiet.

(** ** The claims about readiness *)

Section ReadyFlag.

Variable parse : string -> option json.

Lemma unstarted_keep (s s' : Bridge.bridge) :
  Bridge.handshakes s' = Bridge.handshakes s ->
  Bridge.serverReady s' = Bridge.serverReady s ->
  Inv.unstarted s -> Inv.unstarted s'.
Proof. unfold Inv.unstarted. intros -> ->. auto. Qed.

Lemma unstarted_deliver (data : string) (s : Bridge.bridge) (h : listener) :
  Inv.unstarted s -> Inv.unstarted (Bridge.deliver parse data s h).
Proof.
  intros Hu. destruct h as [|k|i]; simpl; [exact Hu| |].
  - unfold Bridge.init_dataHandler.
    destruct (Bridge.handshakes s !! k) as [h|] eqn:Hk; [|exact Hu].
    destruct Hu as [Hr Hall].
    rewrite (Forall_lookup_1 _ _ _ _ Hall Hk). split; assumption.
  - destruct (Bridge.calls s !! i) as [c|]; [|exact Hu].
    destruct (Bridge.phase_of c); try exact Hu.
    destruct (Bridge.dataHandler parse (Bridge.mcpProcess s) f data) as [[f' r] log].
    destruct (Bridge.unregistered _ _ _); exact Hu.
Qed.

Lemma unstarted_step (s : Bridge.bridge) (e : Bridge.event) :
  Inv.no_banner_timer e -> Inv.unstarted s -> Inv.unstarted (Bridge.step parse s e).
Proof.
  intros He Hu. destruct e as [chunk|chunk| |k|k|tool args now rnd|i now rnd|i]; simpl.
  - apply emit_invariant; [|exact Hu]. intros; apply unstarted_deliver; assumption.
  - unfold Bridge.stderr_listener. destruct (Bridge.is_banner chunk); [|exact Hu].
    destruct Hu as [Hr Hall]. split; [exact Hr|]. simpl.
    apply Forall_app. split; [exact Hall|]. apply Forall_singleton. reflexivity.
  - exact Hu.
  - contradiction.
  - unfold Bridge.handshake_timeout.
    destruct (Bridge.handshakes s !! k) as [h|] eqn:Hk; [|exact Hu].
    destruct Hu as [Hr Hall].
    rewrite (Forall_lookup_1 _ _ _ _ Hall Hk). split; assumption.
  - unfold Bridge.callMCPTool.
    destruct (negb (Bridge.mcpProcess s)); [exact Hu|].
    match goal with |- Inv.unstarted (Bridge.readiness_loop ?s0 ?i ?c ?n ?r) =>
      destruct (readiness_loop_keeps s0 i c n r) as (H1 & H2 & _) end.
    eapply unstarted_keep; [exact H1 | exact H2 | exact Hu].
  - unfold Bridge.poll_timer.
    destruct (Bridge.calls s !! i) as [c|]; [|exact Hu].
    destruct (Bridge.phase_of c); try exact Hu.
    destruct (readiness_loop_keeps s i (Bridge.incr_attempts c) now rnd) as (H1 & H2 & _).
    eapply unstarted_keep; [exact H1 | exact H2 | exact Hu].
  - unfold Bridge.call_timeout.
    destruct (Bridge.calls s !! i) as [c|]; [|exact Hu].
    destruct (Bridge.phase_of c); try exact Hu.
    destruct (Bridge.timeout_armed f); [|exact Hu].
    destruct (Bridge.isComplete f); [exact Hu|].
    destruct (Bridge.mcpProcess s); exact Hu.
Qed.

Lemma banner_or_not (e : Bridge.event) :
  {Inv.no_banner e}
  + {exists chunk, e = Bridge.StderrData chunk /\ Bridge.is_banner chunk = true}.
Proof.
  destruct e as [chunk|chunk| |k|k|tool args now rnd|i now rnd|i];
    try (left; exact I).
  destruct (Bridge.is_banner chunk) eqn:Hb; [right | left; exact Hb].
  exists chunk. split; [reflexivity | exact Hb].
Qed.

Lemma banner_timer_or_not (e : Bridge.event) :
  {Inv.no_banner_timer e} + {exists k, e = Bridge.BannerTimer k}.
Proof.
  destruct e as [chunk|chunk| |k|k|tool args now rnd|i now rnd|i];
    try (left; exact I).
  right. exists k. reflexivity.
Qed.

(** A set ready flag has a banner chunk and a fired banner timer behind it. *)
Lemma ready_has_banner (trace : list Bridge.event) :
  Bridge.serverReady (Bridge.run parse Bridge.startMCPServer trace) = true ->
  (exists chunk, Bridge.StderrData chunk ∈ trace /\ Bridge.is_banner chunk = true)
  /\ (exists k, Bridge.BannerTimer k ∈ trace).
Proof.
  intros Hready. split.
  - destruct (Forall_Exists_dec _ _ banner_or_not trace) as [Hall|Hex].
    + pose proof (run_quiet parse trace Bridge.startMCPServer Hall (proj1 started_quiet))
        as (_ & Hr & _).
      congruence.
    + apply Exists_exists in Hex as (e & Hin & chunk & -> & Hb).
      exists chunk. split; assumption.
  - destruct (Forall_Exists_dec _ _ banner_timer_or_not trace) as [Hall|Hex].
    + assert (Hu : Inv.unstarted (Bridge.run parse Bridge.startMCPServer trace)).
      { apply (run_invariant parse Inv.no_banner_timer Inv.unstarted); try assumption.
        - intros s e He Hs. apply unstarted_step; assumption.
        - split; [reflexivity | apply Forall_nil; exact I]. }
      destruct Hu as [Hr _]. congruence.
    + apply Exists_exists in Hex as (e & Hin & k & ->).
      exists k. exact Hin.
Qed.

End ReadyFlag.

(** ** Scenarios *)

(** The handshake response arriving in two chunks makes the bridge ready. *)
Example handshake_response_in_two_chunks :
  let r := Json.line (Sample.response 0 (JObj [])) in
  let s := Bridge.run Json.parse Bridge.startMCPServer
             [Bridge.StderrData Sample.banner; Bridge.BannerTimer 0;
              Bridge.StdoutData (String.substring 0 9 r);
              Bridge.StdoutData (String.substring 9 (String.length r) r)] in
  Bridge.serverReady s = true
  /\ Bridge.stdin s = [(ByInit 0, Bridge.initRequest); (ByInit 0, Bridge.initNotification)]
  /\ Bridge.stdout_listeners s = [LogListener].
Proof. vm_compute. repeat split; reflexivity. Qed.

(** In the current implementation two pending calls with ids 101 and 102,
    answered in the order 102, 101, each get their own result. *)
Example current_calls_get_their_own_result :
  let s := Bridge.run Json.parse Sample.ready
             [Bridge.CallTool "get_recent_emails" Sample.args 101 0;
              Bridge.CallTool "get_upcoming_events" Sample.args 102 0;
              Bridge.StdoutData (Json.line (Sample.response 102 (JStr "events")));
              Bridge.StdoutData (Json.line (Sample.response 101 (JStr "emails")))] in
  Bridge.outcome <$> Bridge.calls s !! 0 = Some (Resolved (Val (JStr "emails")))
  /\ Bridge.outcome <$> Bridge.calls s !! 1 = Some (Resolved (Val (JStr "events")))
  /\ Bridge.stdout_listeners s = [LogListener].
Proof. vm_compute. repeat split; reflexivity. Qed.

(** An error response whose message is an object with an own key
    [toString]: in either implementation [new Error] throws inside the [try]
    of the listener, after the timer was cleared and the listener removed,
    and the call is left unsettled. *)
Example error_without_text_loses_the_call :
  let r := Json.line (Sample.opaque_error_response 101) in
  let s := Bridge.run Json.parse Sample.ready
             [Bridge.CallTool "get_recent_emails" Sample.args 101 0; Bridge.StdoutData r] in
  let l := Legacy.run Json.parse Legacy.startMCPServer
             [Legacy.CallTool "get_recent_emails" Sample.args 101; Legacy.StdoutData r] in
  (Bridge.calls s !! 0
   = Some (Bridge.mkCall "get_recent_emails" Sample.args 0
             (Bridge.Sent (Bridge.mkInflight 101 EmptyString true false)) Unsettled)
   /\ Bridge.stdout_listeners s = [LogListener])
  /\ (Legacy.calls l !! 0 = Some (Legacy.mkCall 101 r false Unsettled)
      /\ Legacy.stdout_listeners l = [LogListener]).
Proof. vm_compute. repeat split; reflexivity. Qed.

(** [ToString] of the values an error message can hold. *)
Example to_string_samples :
  to_string (JArr [JNum 1; JNull; JArr [JStr "a"; JBool true]]) = Some "1,,a,true"
  /\ to_string (JObj [("code", JNum 1)]) = Some "[object Object]"
  /\ to_string (JObj [("toString", JStr "x")]) = None
  /\ to_string (JArr [JNum 1; JObj [("toString", JNull)]]) = None
  /\ new_Error Undefined = Some (mkError EmptyString)
  /\ new_Error (Val JNull) = Some (mkError "null").
Proof. vm_compute. repeat split; reflexivity. Qed.

(** An error is its text: a dispatched call answered with the error message
    "MCP server not running" is rejected with the same error as a call
    refused on entry. *)
Example remote_error_with_the_text_of_a_refusal :
  let s := Bridge.run Json.parse Sample.ready
             [Bridge.CallTool "get_recent_emails" Sample.args 101 0;
              Bridge.StdoutData
                (Json.line (Sample.error_response 101 (-32000) "MCP server not running"))] in
  Bridge.outcome <$> Bridge.calls s !! 0 = Some (Rejected NotRunning)
  /\ Bridge.phase_of <$> Bridge.calls s !! 0
     = Some (Bridge.Sent
               (Bridge.mkInflight 101
                  (Json.line (Sample.error_response 101 (-32000) "MCP server not running"))
                  true false)).
Proof. vm_compute. split; reflexivity. Qed.

(** An error response rejects the call with the message of the provider. *)
Example current_call_error_response :
  let s := Bridge.run Json.parse Sample.ready
             [Bridge.CallTool "get_recent_emails" Sample.args 101 0;
              Bridge.StdoutData (Json.line (Sample.error_response 101 (-32000) "quota"))] in
  Bridge.outcome <$> Bridge.calls s !! 0
  = Some (Rejected (RemoteToolError "quota")).
Proof. vm_compute. reflexivity. Qed.

Example parse_stringify_sample :
  Json.parse (Json.stringify (Bridge.request 1007 "get_recent_emails" Sample.args))
  = Some (Bridge.request 1007 "get_recent_emails" Sample.args).
Proof. vm_compute. reflexivity. Qed.

Example banner_detected :
  Bridge.is_banner Sample.banner = true
  /\ Bridge.is_banner "Starting MCP server" = false
  /\ Bridge.is_banner "Starting MCP server 'Simple Test Server'" = true.
Proof. vm_compute. repeat split; reflexivity. Qed.

(** * Further properties of the bridge *)

(** ** Dispatched calls over a trace *)

Lemma run_evolves (parse : string -> option json) (trace : list Bridge.event)
      (s : Bridge.bridge) (i : nat) (c : Bridge.call) (f : Bridge.inflight) :
  Bridge.calls s !! i = Some c -> Bridge.phase_of c = Bridge.Sent f ->
  exists c', Bridge.calls (Bridge.run parse s trace) !! i = Some c' /\ Inv.evolves c c'.
Proof.
  revert s c f. induction trace as [|e trace IH]; intros s c f Hi Hph.
  - exists c. split; [exact Hi | eapply evolves_refl, Hph].
  - destruct (step_evolves parse s e i c f Hi Hph) as (c1 & Hc1 & Hev1).
    pose proof Hev1 as (f0 & f1 & _ & Hph1 & _).
    destruct (IH _ c1 f1 Hc1 Hph1) as (c2 & Hc2 & Hev2).
    exists c2. split; [exact Hc2 | eapply evolves_trans; eassumption].
Qed.

(** ** Listeners, timers and buffers *)

Section Tidy.

Variable parse : string -> option json.

Lemma for_lines_flags (live : bool) (lines : list string) (f : Bridge.inflight) :
  Bridge.timeout_armed f = negb (Bridge.isComplete f) ->
  let f' := (Bridge.for_lines parse live f lines).1.1 in
  let r := (Bridge.for_lines parse live f lines).1.2 in
  Bridge.timeout_armed f' = negb (Bridge.isComplete f')
  /\ Bridge.responseData f' = Bridge.responseData f
  /\ (r <> None -> Bridge.isComplete f' = true)
  /\ (Bridge.isComplete f' = false -> r = None).
Proof.
  revert f. induction lines as [|l rest IH]; intros f Hf; simpl.
  - repeat split; auto; intros H; contradiction.
  - destruct (Text.is_empty (Text.trim l)); [apply IH, Hf|].
    destruct (Bridge.try_line parse live (Bridge.reqid f) (Text.trim l)).
    + specialize (IH f Hf).
      destruct (Bridge.for_lines parse live f rest) as [[f' r] log]. exact IH.
    + simpl. repeat split; auto. discriminate.
    + specialize (IH (Bridge.completed f) eq_refl).
      destruct (Bridge.for_lines parse live (Bridge.completed f) rest) as [[f' r] log].
      exact IH.
Qed.

(** One pass of the listener of a pending call whose buffer holds no
    newline. *)
Lemma dataHandler_flags (live : bool) (f : Bridge.inflight) (data : string) :
  Bridge.timeout_armed f = negb (Bridge.isComplete f) ->
  let f' := (Bridge.dataHandler parse live f data).1.1 in
  let r := (Bridge.dataHandler parse live f data).1.2 in
  Bridge.timeout_armed f' = negb (Bridge.isComplete f')
  /\ (r <> None -> Bridge.isComplete f' = true)
  /\ (Bridge.isComplete f' = false ->
      r = None /\ Bridge.isComplete f = false
      /\ Text.has_nl (Bridge.responseData f') = false).
Proof.
  intros Hf. cbv zeta. unfold Bridge.dataHandler.
  destruct (Bridge.isComplete f) eqn:Hc.
  - simpl. rewrite Hc. split; [exact Hf|]. split; [intros H; contradiction|].
    intros H; discriminate.
  - set (f1 := Bridge.set_buffer f (Bridge.responseData f +:+ data)).
    assert (Hf1 : Bridge.timeout_armed f1 = negb (Bridge.isComplete f1)).
    { unfold f1. simpl. rewrite Hf, Hc. reflexivity. }
    pose proof (for_lines_flags live (Text.complete_lines (Bridge.responseData f1)) f1 Hf1)
      as (H1 & H2 & H3 & H4).
    destruct (Bridge.for_lines parse live f1 (Text.complete_lines (Bridge.responseData f1)))
      as [[f2 [p|]] log]; simpl in H1, H2, H3, H4 |- *.
    + assert (Hc2 : Bridge.isComplete f2 = true) by (apply H3; discriminate).
      split; [exact H1|]. split; [intros _; exact Hc2|].
      intros H. congruence.
    + split; [exact H1|]. split; [intros H; contradiction|].
      intros _. split; [reflexivity|]. split; [reflexivity|]. apply fragment_no_nl.
Qed.

(** A pass that settles the promise has removed the listener. *)
Lemma dataHandler_removes (live : bool) (f : Bridge.inflight) (data : string) (p : promise) :
  Bridge.timeout_armed f = negb (Bridge.isComplete f) ->
  (Bridge.dataHandler parse live f data).1.2 = Some p ->
  Bridge.unregistered live f (Bridge.dataHandler parse live f data).1.1 = true.
Proof.
  intros Hf Hp.
  destruct (dataHandler_settles_own parse live f data p Hp)
    as (_ & _ & _ & _ & _ & _ & _ & _ & ->).
  destruct (dataHandler_flags true f data Hf) as (_ & H2 & _).
  unfold Bridge.unregistered. rewrite H2 by (rewrite Hp; discriminate).
  destruct (Bridge.isComplete f) eqn:Hc; [|reflexivity].
  unfold Bridge.dataHandler in Hp. rewrite Hc in Hp. discriminate.
Qed.

Lemma elem_of_remove_listener (h x : listener) (ls : list listener) :
  x ∈ remove_listener h ls <-> x <> h /\ x ∈ ls.
Proof. unfold remove_listener. rewrite list_elem_of_filter. reflexivity. Qed.

Lemma NoDup_remove_listener (h : listener) (ls : list listener) :
  NoDup ls -> NoDup (remove_listener h ls).
Proof. unfold remove_listener. apply NoDup_filter. Qed.

(** The invariant survives a change to one entry of the table of calls and
    to the registration of that call's listener. *)
Lemma tidy_update (s s' : Bridge.bridge) (i : nat) (c0 c : Bridge.call) :
  Bridge.calls s !! i = Some c0 ->
  Bridge.calls s' = <[i := c]> (Bridge.calls s) ->
  Bridge.handshakes s' = Bridge.handshakes s ->
  NoDup (Bridge.stdout_listeners s') ->
  (forall x, x ∈ Bridge.stdout_listeners s' ->
     x ∈ Bridge.stdout_listeners s \/ x = CallListener i) ->
  (forall x, x <> CallListener i -> x ∈ Bridge.stdout_listeners s ->
     x ∈ Bridge.stdout_listeners s') ->
  (CallListener i ∈ Bridge.stdout_listeners s' ->
     exists f, Bridge.phase_of c = Bridge.Sent f /\ Bridge.outcome c = Unsettled) ->
  (forall f, Bridge.phase_of c = Bridge.Sent f ->
     Bridge.timeout_armed f = negb (Bridge.isComplete f)
     /\ (Bridge.isComplete f = false ->
         Text.has_nl (Bridge.responseData f) = false
         /\ Bridge.outcome c = Unsettled
         /\ CallListener i ∈ Bridge.stdout_listeners s')) ->
  Obs.tidy s -> Obs.tidy s'.
Proof.
  intros Hi Hcalls Hhs HN' Hsub Hkeep Hreg Hc (HN & HI & HA & HB).
  assert (Hlt : i < length (Bridge.calls s)) by (eapply lookup_lt_Some, Hi).
  split; [exact HN'|]. split; [|split].
  - intros k Hk. rewrite Hhs. destruct (Hsub _ Hk) as [Hin|Heq]; [|discriminate].
    apply HI, Hin.
  - intros j Hj. rewrite Hcalls. destruct (decide (j = i)) as [->|Hne].
    + destruct (Hreg Hj) as (f & Hp & Ho). exists c, f.
      rewrite list_lookup_insert_eq by exact Hlt. auto.
    + rewrite list_lookup_insert_ne by congruence.
      destruct (Hsub _ Hj) as [Hin|Heq]; [apply HA, Hin|congruence].
  - intros j cj fj Hcj Hpj. rewrite Hcalls in Hcj.
    destruct (decide (j = i)) as [->|Hne].
    + rewrite list_lookup_insert_eq in Hcj by exact Hlt. injection Hcj as <-.
      apply Hc, Hpj.
    + rewrite list_lookup_insert_ne in Hcj by congruence.
      destruct (HB j cj fj Hcj Hpj) as (H1 & H2). split; [exact H1|].
      intros Hinc. destruct (H2 Hinc) as (Ha & Hb & Hd).
      split; [exact Ha|]. split; [exact Hb|]. apply Hkeep; [congruence|exact Hd].
Qed.

(** The invariant survives a change to the handshakes and to the
    registration of one handshake listener. *)
Lemma tidy_handshake (s s' : Bridge.bridge) (k : nat) :
  Bridge.calls s' = Bridge.calls s ->
  NoDup (Bridge.stdout_listeners s') ->
  (forall x, x ∈ Bridge.stdout_listeners s' ->
     x ∈ Bridge.stdout_listeners s \/ x = InitListener k) ->
  (forall x, x <> InitListener k -> x ∈ Bridge.stdout_listeners s ->
     x ∈ Bridge.stdout_listeners s') ->
  (forall j h, Bridge.handshakes s !! j = Some (Bridge.Started h) ->
     exists h', Bridge.handshakes s' !! j = Some (Bridge.Started h')) ->
  (InitListener k ∈ Bridge.stdout_listeners s' ->
     exists h, Bridge.handshakes s' !! k = Some (Bridge.Started h)) ->
  Obs.tidy s -> Obs.tidy s'.
Proof.
  intros Hcalls HN' Hsub Hkeep Hhs Hreg (HN & HI & HA & HB).
  split; [exact HN'|]. split; [|split].
  - intros j Hj. destruct (Hsub _ Hj) as [Hin|Heq].
    + destruct (HI j Hin) as (h & Hh). eapply Hhs, Hh.
    + injection Heq as ->. apply Hreg, Hj.
  - intros j Hj. rewrite Hcalls. destruct (Hsub _ Hj) as [Hin|Heq]; [|discriminate].
    apply HA, Hin.
  - intros j cj fj Hcj Hpj. rewrite Hcalls in Hcj.
    destruct (HB j cj fj Hcj Hpj) as (H1 & H2). split; [exact H1|].
    intros Hinc. destruct (H2 Hinc) as (Ha & Hb & Hd).
    split; [exact Ha|]. split; [exact Hb|]. apply Hkeep; [discriminate|exact Hd].
Qed.

Lemma started_insert (hs : list Bridge.handshake) (k : nat) (h0 : Bridge.handshaking)
      (j : nat) (h : Bridge.handshaking) :
  hs !! j = Some (Bridge.Started h) ->
  exists h', <[k := Bridge.Started h0]> hs !! j = Some (Bridge.Started h').
Proof.
  intros Hj. destruct (decide (j = k)) as [->|Hne].
  - exists h0. apply list_lookup_insert_eq. eapply lookup_lt_Some, Hj.
  - exists h. rewrite list_lookup_insert_ne by congruence. exact Hj.
Qed.

(** A call that is not dispatched has no listener. *)
Lemma tidy_unregistered (s : Bridge.bridge) (i : nat) :
  Obs.tidy s ->
  (forall c, Bridge.calls s !! i = Some c -> ~ Inv.is_sent c) ->
  CallListener i ∉ Bridge.stdout_listeners s.
Proof.
  intros (_ & _ & HA & _) Hns Hin. destruct (HA i Hin) as (c & f & Hc & Hp & _).
  apply (Hns c Hc). unfold Inv.is_sent. rewrite Hp. exact I.
Qed.

Lemma tidy_put_undispatched (s : Bridge.bridge) (i : nat) (c0 c : Bridge.call) :
  Bridge.calls s !! i = Some c0 -> ~ Inv.is_sent c0 -> ~ Inv.is_sent c ->
  Obs.tidy s -> Obs.tidy (Bridge.put_call s i c).
Proof.
  intros Hi Hns0 Hns Ht.
  assert (Hnot : CallListener i ∉ Bridge.stdout_listeners s).
  { apply tidy_unregistered; [exact Ht|]. intros c1 Hc1. congruence. }
  apply (tidy_update s (Bridge.put_call s i c) i c0 c Hi); try reflexivity.
  - apply Ht.
  - intros x Hx. left. exact Hx.
  - intros x _ Hx. exact Hx.
  - intros Hin. contradiction.
  - intros f Hp. exfalso. apply Hns. unfold Inv.is_sent. rewrite Hp. exact I.
  - exact Ht.
Qed.

Lemma tidy_dispatch (s : Bridge.bridge) (i : nat) (c0 c : Bridge.call) (now rnd : Z) :
  Bridge.calls s !! i = Some c0 -> ~ Inv.is_sent c0 -> Bridge.outcome c = Unsettled ->
  Obs.tidy s -> Obs.tidy (Bridge.dispatch s i c now rnd).
Proof.
  intros Hi Hns0 Hout Ht.
  assert (Hnot : CallListener i ∉ Bridge.stdout_listeners s).
  { apply tidy_unregistered; [exact Ht|]. intros c1 Hc1. congruence. }
  eapply (tidy_update s _ i c0 _ Hi); try reflexivity; simpl.
  - apply NoDup_app. split; [apply Ht|]. split; [|apply NoDup_singleton].
    intros x Hx Hx'. apply list_elem_of_singleton in Hx'. subst x. contradiction.
  - intros x Hx. apply elem_of_app in Hx as [Hx|Hx]; [left; exact Hx|].
    right. apply list_elem_of_singleton in Hx. exact Hx.
  - intros x _ Hx. apply elem_of_app. left. exact Hx.
  - intros _. eexists. split; [reflexivity|exact Hout].
  - intros f Hp. injection Hp as <-. simpl. split; [reflexivity|].
    intros _. split; [reflexivity|]. split; [exact Hout|].
    apply elem_of_app. right. apply list_elem_of_singleton. reflexivity.
  - exact Ht.
Qed.

Lemma tidy_readiness_loop (s : Bridge.bridge) (i : nat) (c0 c : Bridge.call) (now rnd : Z) :
  Bridge.calls s !! i = Some c0 -> ~ Inv.is_sent c0 -> Bridge.outcome c = Unsettled ->
  Obs.tidy s -> Obs.tidy (Bridge.readiness_loop s i c now rnd).
Proof.
  intros Hi Hns0 Hout Ht. unfold Bridge.readiness_loop.
  destruct (negb (Bridge.mcpProcess s)).
  { eapply tidy_put_undispatched; eauto. }
  destruct (negb (Bridge.serverReady s) && (Bridge.attempts c <? Bridge.maxAttempts)).
  { eapply tidy_put_undispatched; eauto. }
  destruct (negb (Bridge.serverReady s)).
  { eapply tidy_put_undispatched; eauto. }
  eapply tidy_dispatch; eauto.
Qed.

(** Appending a call that is not dispatched. *)
Lemma tidy_new_call (s : Bridge.bridge) (c : Bridge.call) :
  ~ Inv.is_sent c -> Obs.tidy s -> Obs.tidy (Bridge.set_calls s (Bridge.calls s ++ [c])).
Proof.
  intros Hns (HN & HI & HA & HB). split; [exact HN|]. split; [exact HI|]. split.
  - intros j Hj. destruct (HA j Hj) as (cj & fj & Hcj & Hpj & Hoj).
    exists cj, fj. simpl. rewrite lookup_app_l by (eapply lookup_lt_Some, Hcj). auto.
  - intros j cj fj Hcj Hpj. simpl in Hcj.
    apply lookup_app_Some in Hcj as [Hcj|[_ Hcj]]; [exact (HB j cj fj Hcj Hpj)|].
    exfalso. apply list_lookup_singleton_Some in Hcj as [_ <-].
    apply Hns. unfold Inv.is_sent. rewrite Hpj. exact I.
Qed.

Lemma deliver_tidy (data : string) (s : Bridge.bridge) (h : listener) :
  Obs.tidy s -> Obs.tidy (Bridge.deliver parse data s h).
Proof.
  intros Ht. destruct h as [|k|i]; simpl; [exact Ht| |].
  - unfold Bridge.init_dataHandler.
    destruct (Bridge.handshakes s !! k) as [[|h|]|] eqn:Hk; try exact Ht.
    destruct (Bridge.init_lines parse (Bridge.mcpProcess s)
                (Text.split_nl (Bridge.h_responseData h +:+ data))).
    1-3: eapply (tidy_handshake s _ k); try exact Ht; try reflexivity; simpl;
         [apply Ht | intros x Hx; left; exact Hx | intros x _ Hx; exact Hx
         | intros j hj Hj; eapply started_insert, Hj
         | intros _; eexists; apply list_lookup_insert_eq; eapply lookup_lt_Some, Hk].
    assert (Ht' : Obs.tidy
              (Bridge.write_stdin
                 (Bridge.set_listeners
                    (Bridge.set_handshakes s
                       (<[k := Bridge.Started
                                 (Bridge.mkHandshaking (Bridge.h_responseData h +:+ data) false
                                    (settle (Bridge.h_promise h) (Resolved Undefined)))]>
                          (Bridge.handshakes s)))
                    (remove_listener (InitListener k) (Bridge.stdout_listeners s)))
                 (ByInit k) Bridge.initNotification)).
    { eapply (tidy_handshake s _ k); try exact Ht; try reflexivity; simpl.
      - apply NoDup_remove_listener, Ht.
      - intros x Hx. left. apply elem_of_remove_listener in Hx. apply Hx.
      - intros x Hne Hx. apply elem_of_remove_listener. auto.
      - intros j hj Hj. eapply started_insert, Hj.
      - intros Hin. exfalso. eapply remove_listener_gone, Hin. }
    destruct (is_settled (Bridge.h_promise h)); exact Ht'.
  - destruct (Bridge.calls s !! i) as [c|] eqn:Hi; [|exact Ht].
    destruct (Bridge.phase_of c) as [|f| |] eqn:Hp; try exact Ht.
    pose proof Ht as (HN & HI & HA & HB).
    destruct (HB i c f Hi Hp) as (Harm & Hpend).
    pose proof (dataHandler_flags (Bridge.mcpProcess s) f data Harm) as (H1 & H2 & H3).
    pose proof (dataHandler_removes (Bridge.mcpProcess s) f data) as Hrm.
    destruct (Bridge.dataHandler parse (Bridge.mcpProcess s) f data) as [[f' r] log];
      simpl in H1, H2, H3, Hrm.
    destruct (Bridge.unregistered (Bridge.mcpProcess s) f f') eqn:Hun.
    + assert (Hc' : Bridge.isComplete f' = true).
      { unfold Bridge.unregistered in Hun. apply andb_true_iff in Hun. apply Hun. }
      eapply (tidy_update s _ i c _ Hi); try exact Ht; try reflexivity; simpl.
      * apply NoDup_remove_listener, HN.
      * intros x Hx. left. apply elem_of_remove_listener in Hx. apply Hx.
      * intros x Hne Hx. apply elem_of_remove_listener. auto.
      * intros Hin. exfalso. eapply remove_listener_gone, Hin.
      * intros f0 Hf0. injection Hf0 as <-. split; [exact H1|]. congruence.
    + assert (Hr : r = None).
      { destruct r as [p|]; [|reflexivity].
        pose proof (Hrm p Harm eq_refl) as Hrm'. congruence. }
      subst r.
      eapply (tidy_update s _ i c _ Hi); try exact Ht; try reflexivity; simpl.
      * exact HN.
      * intros x Hx. left. exact Hx.
      * intros x _ Hx. exact Hx.
      * intros Hin. destruct (HA i Hin) as (c1 & f1 & Hc1 & Hp1 & Ho1).
        rewrite Hi in Hc1. injection Hc1 as <-. eexists. split; [reflexivity|exact Ho1].
      * intros f0 Hf0. injection Hf0 as <-. split; [exact H1|].
        intros Hinc. destruct (H3 Hinc) as (_ & Hcf & Hnl).
        destruct (Hpend Hcf) as (_ & Ho & Hl). auto.
Qed.

Lemma emit_tidy (data : string) (s : Bridge.bridge) :
  Obs.tidy s -> Obs.tidy (Bridge.emit_stdout parse s data).
Proof. apply emit_invariant. intros s0 h. apply deliver_tidy. Qed.

Lemma call_timeout_tidy (i : nat) (s : Bridge.bridge) :
  Obs.tidy s -> Obs.tidy (Bridge.call_timeout i s).
Proof.
  intros Ht. unfold Bridge.call_timeout.
  destruct (Bridge.calls s !! i) as [c|] eqn:Hi; [|exact Ht].
  destruct (Bridge.phase_of c) as [|f| |] eqn:Hp; try exact Ht.
  destruct (Bridge.timeout_armed f) eqn:Harm; [|exact Ht].
  pose proof Ht as (HN & HI & HA & HB).
  assert (Hkeep : Obs.tidy (Bridge.put_call s i (Bridge.set_phase c (Bridge.Sent (Bridge.completed f))))).
  { eapply (tidy_update s _ i c _ Hi); try exact Ht; try reflexivity; simpl.
    - exact HN.
    - intros x Hx. left. exact Hx.
    - intros x _ Hx. exact Hx.
    - intros Hin. destruct (HA i Hin) as (c1 & f1 & Hc1 & Hp1 & Ho1).
      rewrite Hi in Hc1. injection Hc1 as <-. eexists. split; [reflexivity|exact Ho1].
    - intros f0 Hf0. injection Hf0 as <-. simpl. split; [reflexivity|discriminate]. }
  destruct (Bridge.isComplete f); [exact Hkeep|].
  destruct (Bridge.mcpProcess s); [|exact Hkeep].
  eapply (tidy_update s _ i c _ Hi); try exact Ht; try reflexivity; simpl.
  - apply NoDup_remove_listener, HN.
  - intros x Hx. left. apply elem_of_remove_listener in Hx. apply Hx.
  - intros x Hne Hx. apply elem_of_remove_listener. auto.
  - intros Hin. exfalso. eapply remove_listener_gone, Hin.
  - intros f0 Hf0. injection Hf0 as <-. simpl. split; [reflexivity|discriminate].
Qed.

Lemma step_tidy (s : Bridge.bridge) (e : Bridge.event) :
  Inv.wf s -> Obs.tidy s -> Obs.tidy (Bridge.step parse s e).
Proof.
  intros Hwf Ht. destruct e as [chunk|chunk| |k|k|tool args now rnd|i now rnd|i]; simpl.
  - apply emit_tidy, Ht.
  - unfold Bridge.stderr_listener. destruct (Bridge.is_banner chunk); [|exact Ht].
    eapply (tidy_handshake s _ 0); try exact Ht; try reflexivity; simpl.
    + apply Ht.
    + intros x Hx. left. exact Hx.
    + intros x _ Hx. exact Hx.
    + intros j h Hj. exists h. rewrite lookup_app_l by (eapply lookup_lt_Some, Hj). exact Hj.
    + intros Hin. destruct Ht as (_ & HI & _). destruct (HI 0 Hin) as (h & Hh).
      exists h. rewrite lookup_app_l by (eapply lookup_lt_Some, Hh). exact Hh.
  - exact Ht.
  - unfold Bridge.banner_timer.
    destruct (Bridge.handshakes s !! k) as [[|h|]|] eqn:Hk; try exact Ht.
    unfold Bridge.initializeMCPServer. destruct (Bridge.mcpProcess s).
    + assert (Hnot : InitListener k ∉ Bridge.stdout_listeners s).
      { intros Hin. destruct Ht as (_ & HI & _). destruct (HI k Hin) as (h & Hh). congruence. }
      eapply (tidy_handshake s _ k); try exact Ht; try reflexivity; simpl.
      * apply NoDup_app. split; [apply Ht|]. split; [|apply NoDup_singleton].
        intros x Hx Hx'. apply list_elem_of_singleton in Hx'. subst x. contradiction.
      * intros x Hx. apply elem_of_app in Hx as [Hx|Hx]; [left; exact Hx|].
        right. apply list_elem_of_singleton in Hx. exact Hx.
      * intros x _ Hx. apply elem_of_app. left. exact Hx.
      * intros j hj Hj. eapply started_insert, Hj.
      * intros _. eexists. apply list_lookup_insert_eq. eapply lookup_lt_Some, Hk.
    + eapply (tidy_handshake s _ k); try exact Ht; try reflexivity; simpl.
      * apply Ht.
      * intros x Hx. left. exact Hx.
      * intros x _ Hx. exact Hx.
      * intros j hj Hj. exists hj. rewrite list_lookup_insert_ne by congruence. exact Hj.
      * intros Hin. destruct Ht as (_ & HI & _). destruct (HI k Hin) as (h & Hh). congruence.
  - unfold Bridge.handshake_timeout.
    destruct (Bridge.handshakes s !! k) as [[|h|]|] eqn:Hk; try exact Ht.
    destruct (Bridge.h_timeout_armed h); [|exact Ht].
    eapply (tidy_handshake s _ k); try exact Ht; try reflexivity; simpl.
    + apply Ht.
    + intros x Hx. left. exact Hx.
    + intros x _ Hx. exact Hx.
    + intros j hj Hj. eapply started_insert, Hj.
    + intros _. eexists. apply list_lookup_insert_eq. eapply lookup_lt_Some, Hk.
  - unfold Bridge.callMCPTool. destruct (negb (Bridge.mcpProcess s)).
    + apply tidy_new_call; [|exact Ht]. intros H. exact H.
    + eapply tidy_readiness_loop.
      * simpl. apply list_lookup_middle. reflexivity.
      * intros H. exact H.
      * reflexivity.
      * apply tidy_new_call; [|exact Ht]. intros H. exact H.
  - unfold Bridge.poll_timer.
    destruct (Bridge.calls s !! i) as [c|] eqn:Hi; [|exact Ht].
    destruct (Bridge.phase_of c) eqn:Hp; try exact Ht.
    eapply tidy_readiness_loop; [exact Hi| | |exact Ht].
    + unfold Inv.is_sent. rewrite Hp. intros H. exact H.
    + destruct Hwf as (Hok & _). rewrite Forall_lookup in Hok.
      specialize (Hok i c Hi). unfold Inv.call_ok in Hok. rewrite Hp in Hok.
      simpl. apply Hok.
  - apply call_timeout_tidy, Ht.
Qed.

End Tidy.

Lemma started_tidy : Obs.tidy Bridge.startMCPServer.
Proof.
  split; [|split; [|split]]; simpl.
  - apply NoDup_singleton.
  - intros k Hk. apply list_elem_of_singleton in Hk. discriminate.
  - intros i Hi. apply list_elem_of_singleton in Hi. discriminate.
  - intros i c f Hc. rewrite lookup_nil in Hc. discriminate.
Qed.

Lemma run_tidy (parse : string -> option json) (trace : list Bridge.event) :
  Obs.tidy (Bridge.run parse Bridge.startMCPServer trace).
Proof.
  assert (H : Inv.wf (Bridge.run parse Bridge.startMCPServer trace)
              /\ Obs.tidy (Bridge.run parse Bridge.startMCPServer trace)).
  { apply (run_invariant parse (fun _ => True) (fun s => Inv.wf s /\ Obs.tidy s)).
    - intros s e _ (Hwf & Ht). split; [apply step_wf, Hwf | apply step_tidy; assumption].
    - apply Forall_forall. intros; exact I.
    - split; [apply started_wf | apply started_tidy]. }
  apply H.
Qed.

(** X2.  In every state the [main.js] with the handshake can reach, no
    listener is registered twice on stdout, and a call whose promise has
    settled (by its response, or by its timer) has no listener left: the
    listener of a call is registered only while the call is dispatched and
    its promise is unsettled. *)
Theorem settled_call_has_no_listener
    (parse : string -> option json) (trace : list Bridge.event)
    (i : nat) (c : Bridge.call) :
  let s := Bridge.run parse Bridge.startMCPServer trace in
  Bridge.calls s !! i = Some c ->
  Bridge.outcome c <> Unsettled ->
  NoDup (Bridge.stdout_listeners s)
  /\ CallListener i ∉ Bridge.stdout_listeners s.
Proof.
  intros s Hi Hout. destruct (run_tidy parse trace) as (HN & _ & HA & _).
  split; [exact HN|]. intros Hin.
  destruct (HA i Hin) as (c1 & f1 & Hc1 & _ & Ho1).
  fold s in Hc1. rewrite Hi in Hc1. injection Hc1 as <-. contradiction.
Qed.

(** A call answered, a second call timed out. *)
Lemma settled_call_has_no_listener_witness :
  let trace :=
    Sample.handshake_ok
    ++ [Bridge.CallTool "get_recent_emails" Sample.args 101 0;
        Bridge.CallTool "get_upcoming_events" Sample.args 102 0;
        Bridge.CallTimeout 1] in
  let s := Bridge.run Json.parse Bridge.startMCPServer trace in
  let c := Bridge.mkCall "get_upcoming_events" Sample.args 0
             (Bridge.Sent (Bridge.mkInflight 102 EmptyString true false))
             (Rejected CallTimeoutError) in
  Bridge.calls s !! 1 = Some c
  /\ NoDup (Bridge.stdout_listeners s)
  /\ CallListener 1 ∉ Bridge.stdout_listeners s.
Proof.
  intros trace s c. split; [reflexivity|].
  apply (settled_call_has_no_listener Json.parse trace 1 c); [reflexivity|discriminate].
Defined.

(** X3.  In every reachable state, a dispatched call whose listener has not
    completed has its 45000 ms timer armed, an unsettled promise, its
    listener registered, and a buffer without a newline: the listener keeps
    only the fragment after the last newline between chunks. *)
Theorem pending_call_bookkeeping
    (parse : string -> option json) (trace : list Bridge.event)
    (i : nat) (c : Bridge.call) (f : Bridge.inflight) :
  let s := Bridge.run parse Bridge.startMCPServer trace in
  Bridge.calls s !! i = Some c ->
  Bridge.phase_of c = Bridge.Sent f ->
  Bridge.isComplete f = false ->
  Bridge.timeout_armed f = true
  /\ Bridge.outcome c = Unsettled
  /\ CallListener i ∈ Bridge.stdout_listeners s
  /\ Text.has_nl (Bridge.responseData f) = false.
Proof.
  intros s Hi Hp Hinc. destruct (run_tidy parse trace) as (_ & _ & _ & HB).
  destruct (HB i c f Hi Hp) as (Harm & Hpend).
  destruct (Hpend Hinc) as (Hnl & Ho & Hl).
  rewrite Hinc in Harm. auto.
Qed.

(** A pending call that has received a response to another call and half a
    line. *)
Lemma pending_call_bookkeeping_witness :
  let trace :=
    Sample.handshake_ok
    ++ [Bridge.CallTool "get_recent_emails" Sample.args 101 0;
        Bridge.StdoutData (Json.line (Sample.response 102 (JStr "events")) +:+ "{")] in
  let s := Bridge.run Json.parse Bridge.startMCPServer trace in
  let f := Bridge.mkInflight 101 "{" false true in
  let c := Bridge.mkCall "get_recent_emails" Sample.args 0 (Bridge.Sent f) Unsettled in
  Bridge.calls s !! 0 = Some c
  /\ Bridge.timeout_armed f = true
  /\ Bridge.outcome c = Unsettled
  /\ CallListener 0 ∈ Bridge.stdout_listeners s
  /\ Text.has_nl (Bridge.responseData f) = false.
Proof.
  intros trace s f c. split; [reflexivity|].
  apply (pending_call_bookkeeping Json.parse trace 0 c f); reflexivity.
Defined.

(** ** A response reaches its call *)

Lemma has_nl_app (a b : string) :
  Text.has_nl (a +:+ b) = Text.has_nl a || Text.has_nl b.
Proof.
  induction a as [|c a IH]; [reflexivity|].
  change (Text.is_nl c || Text.has_nl (a +:+ b)
          = Text.is_nl c || Text.has_nl a || Text.has_nl b).
  rewrite IH. apply orb_assoc.
Qed.

Lemma split_nl_line (a rest : string) :
  Text.has_nl a = false ->
  Text.split_nl (a +:+ String Text.nl rest) = a :: Text.split_nl rest.
Proof.
  induction a as [|c a IH]; intros Hnl.
  - reflexivity.
  - simpl in Hnl. apply orb_false_iff in Hnl as [Hc Ha].
    change (Text.split_nl (String c (a +:+ String Text.nl rest))
            = String c a :: Text.split_nl rest).
    simpl. rewrite Hc, (IH Ha). reflexivity.
Qed.

Lemma complete_lines_line (a rest : string) :
  Text.has_nl a = false ->
  Text.complete_lines (a +:+ String Text.nl rest) = a :: Text.complete_lines rest.
Proof.
  intros Hnl. unfold Text.complete_lines. rewrite (split_nl_line a rest Hnl).
  pose proof (split_nl_nonempty rest) as Hne.
  simpl. destruct (Text.split_nl rest); [contradiction|reflexivity].
Qed.

Lemma fragment_line (a rest : string) :
  Text.has_nl a = false ->
  Text.fragment (a +:+ String Text.nl rest) = Text.fragment rest.
Proof.
  intros Hnl. unfold Text.fragment. rewrite (split_nl_line a rest Hnl).
  pose proof (split_nl_nonempty rest) as Hne.
  simpl. destruct (Text.split_nl rest); [contradiction|reflexivity].
Qed.

Section Delivery.

Variable parse : string -> option json.

(** The listener of a pending call on a chunk that completes a line holding
    a response with the id of the call. *)
Lemma dataHandler_own_line (f : Bridge.inflight) (line rest : string)
      (response : json) (idv : jsval) :
  Bridge.isComplete f = false ->
  Text.has_nl (Bridge.responseData f) = false ->
  Text.has_nl line = false ->
  Text.is_empty (Text.trim (Bridge.responseData f +:+ line)) = false ->
  parse (Text.trim (Bridge.responseData f +:+ line)) = Some response ->
  Js.get (Val response) "id" = Some idv ->
  Js.strict_eq_num idv (Bridge.reqid f) = true ->
  Bridge.dataHandler parse true f (line +:+ String Text.nl rest)
  = match Bridge.settlement response with
    | Some p =>
        (Bridge.completed
           (Bridge.set_buffer f (Bridge.responseData f +:+ line +:+ String Text.nl rest)),
         Some p, [response])
    | None =>
        let f1 := Bridge.completed
                    (Bridge.set_buffer f (Bridge.responseData f +:+ line
                                          +:+ String Text.nl rest)) in
        match Bridge.for_lines parse true f1 (Text.complete_lines rest) with
        | (f2, Some p, log) => (f2, Some p, response :: log)
        | (f2, None, log) => (Bridge.set_buffer f2 (Text.fragment rest), None, response :: log)
        end
    end.
Proof.
  intros Hinc Hbuf Hline Hne Hparse Hid Heq.
  unfold Bridge.dataHandler. rewrite Hinc.
  cbn [Bridge.set_buffer Bridge.responseData].
  rewrite <- append_assoc.
  assert (Hnl : Text.has_nl (Bridge.responseData f +:+ line) = false)
    by (rewrite has_nl_app, Hbuf, Hline; reflexivity).
  rewrite complete_lines_line by exact Hnl.
  rewrite (fragment_line _ rest Hnl).
  cbn [Bridge.for_lines]. rewrite Hne.
  unfold Bridge.try_line. cbn [Bridge.reqid Bridge.set_buffer].
  rewrite Hparse, Hid, Heq.
  destruct (Bridge.settlement response) as [p|]; [reflexivity|].
  cbv zeta.
  destruct (Bridge.for_lines parse true _ (Text.complete_lines rest)) as [[f2 [p|]] log];
    reflexivity.
Qed.

Lemma deliver_process (data : string) (s : Bridge.bridge) (h : listener) :
  Bridge.mcpProcess (Bridge.deliver parse data s h) = Bridge.mcpProcess s.
Proof.
  destruct h as [|k|i]; simpl; [reflexivity| |].
  - unfold Bridge.init_dataHandler.
    destruct (Bridge.handshakes s !! k) as [[|h|]|]; try reflexivity.
    destruct (Bridge.init_lines parse (Bridge.mcpProcess s)
                (Text.split_nl (Bridge.h_responseData h +:+ data))); try reflexivity.
    destruct (is_settled (Bridge.h_promise h)); reflexivity.
  - destruct (Bridge.calls s !! i) as [c|]; [|reflexivity].
    destruct (Bridge.phase_of c); try reflexivity.
    destruct (Bridge.dataHandler parse (Bridge.mcpProcess s) f data) as [[f' r] log].
    destruct (Bridge.unregistered _ _ _); reflexivity.
Qed.

(** A listener registers no listener. *)
Lemma deliver_listeners (data : string) (s : Bridge.bridge) (h x : listener) :
  x ∈ Bridge.stdout_listeners (Bridge.deliver parse data s h) ->
  x ∈ Bridge.stdout_listeners s.
Proof.
  destruct h as [|k|i]; simpl; [auto| |].
  - unfold Bridge.init_dataHandler.
    destruct (Bridge.handshakes s !! k) as [[|h|]|]; auto.
    destruct (Bridge.init_lines parse (Bridge.mcpProcess s)
                (Text.split_nl (Bridge.h_responseData h +:+ data))); auto.
    destruct (is_settled (Bridge.h_promise h)); simpl; intros Hx;
      apply elem_of_remove_listener in Hx; apply Hx.
  - destruct (Bridge.calls s !! i) as [c|]; auto.
    destruct (Bridge.phase_of c); auto.
    destruct (Bridge.dataHandler parse (Bridge.mcpProcess s) f data) as [[f' r] log].
    destruct (Bridge.unregistered _ _ _); simpl; auto.
    intros Hx. apply elem_of_remove_listener in Hx. apply Hx.
Qed.

Lemma foldl_deliver_process (data : string) (ls : list listener) (s : Bridge.bridge) :
  Bridge.mcpProcess (foldl (Bridge.deliver parse data) s ls) = Bridge.mcpProcess s.
Proof.
  revert s. induction ls as [|h ls IH]; intros s; [reflexivity|].
  simpl. rewrite IH. apply deliver_process.
Qed.

Lemma foldl_deliver_listeners (data : string) (ls : list listener) (s : Bridge.bridge)
      (x : listener) :
  x ∈ Bridge.stdout_listeners (foldl (Bridge.deliver parse data) s ls) ->
  x ∈ Bridge.stdout_listeners s.
Proof.
  revert s. induction ls as [|h ls IH]; intros s; [auto|].
  simpl. intros Hx. eapply deliver_listeners, IH, Hx.
Qed.

Lemma foldl_deliver_ne (data : string) (ls : list listener) (s : Bridge.bridge) (i : nat) :
  CallListener i ∉ ls ->
  Bridge.calls (foldl (Bridge.deliver parse data) s ls) !! i = Bridge.calls s !! i.
Proof.
  revert s. induction ls as [|h ls IH]; intros s Hnot; [reflexivity|].
  simpl. rewrite IH.
  - apply deliver_ne. intros ->. apply Hnot. apply elem_of_cons. left. reflexivity.
  - intros Hin. apply Hnot. apply elem_of_cons. right. exact Hin.
Qed.

(** A chunk on stdout, seen from a call whose listener is registered once:
    the call is rewritten by its own listener, run on the state the earlier
    listeners left. *)
Lemma emit_own (data : string) (s : Bridge.bridge) (i : nat) :
  NoDup (Bridge.stdout_listeners s) ->
  CallListener i ∈ Bridge.stdout_listeners s ->
  exists s1 s2,
    Bridge.calls s1 !! i = Bridge.calls s !! i
    /\ Bridge.mcpProcess s1 = Bridge.mcpProcess s
    /\ s2 = Bridge.deliver parse data s1 (CallListener i)
    /\ Bridge.calls (Bridge.emit_stdout parse s data) !! i = Bridge.calls s2 !! i
    /\ (forall x, x ∈ Bridge.stdout_listeners (Bridge.emit_stdout parse s data) ->
          x ∈ Bridge.stdout_listeners s2).
Proof.
  intros HN Hin. unfold Bridge.emit_stdout.
  apply list_elem_of_split in Hin as (l1 & l2 & Hl). rewrite Hl in HN |- *.
  apply NoDup_app in HN as (_ & Hdisj & HN2). apply NoDup_cons in HN2 as (Hn2 & _).
  assert (Hn1 : CallListener i ∉ l1).
  { intros Hx. apply (Hdisj _ Hx). apply elem_of_cons. left. reflexivity. }
  rewrite foldl_app. simpl.
  exists (foldl (Bridge.deliver parse data) s l1). eexists.
  split; [apply foldl_deliver_ne, Hn1|].
  split; [apply foldl_deliver_process|].
  split; [reflexivity|].
  split; [apply foldl_deliver_ne, Hn2|].
  intros x. apply foldl_deliver_listeners.
Qed.

End Delivery.

(** A chunk on stdout, seen from a pending call in a state where the
    bookkeeping of listeners holds: one pass of its listener. *)
Lemma emit_pending
    (parse : string -> option json) (s : Bridge.bridge)
    (i : nat) (c : Bridge.call) (f : Bridge.inflight) (data : string) :
  Obs.tidy s ->
  Bridge.calls s !! i = Some c ->
  Bridge.phase_of c = Bridge.Sent f ->
  Bridge.isComplete f = false ->
  let res := Bridge.dataHandler parse (Bridge.mcpProcess s) f data in
  let s' := Bridge.step parse s (Bridge.StdoutData data) in
  Bridge.calls s' !! i
  = Some (Bridge.set_outcome (Bridge.set_phase c (Bridge.Sent res.1.1))
            (settle_opt (Bridge.outcome c) res.1.2))
  /\ (Bridge.unregistered (Bridge.mcpProcess s) f res.1.1 = true ->
      CallListener i ∉ Bridge.stdout_listeners s').
Proof.
  intros (HN & _ & _ & HB) Hi Hp Hinc res s'.
  destruct (HB i c f Hi Hp) as (_ & Hpend).
  destruct (Hpend Hinc) as (Hbuf & Hout & Hreg).
  destruct (emit_own parse data s i HN Hreg) as (s1 & s2 & Hc1 & Hl1 & Hs2 & Hcalls & Hsub).
  assert (Hlt : i < length (Bridge.calls s1)).
  { eapply lookup_lt_Some. rewrite Hc1. exact Hi. }
  unfold s'.
  change (Bridge.step parse s (Bridge.StdoutData data))
    with (Bridge.emit_stdout parse s data).
  assert (Hs2' : s2 = let '(f', r, _) := res in
                      let s3 := Bridge.put_call s1 i
                        (Bridge.set_outcome (Bridge.set_phase c (Bridge.Sent f'))
                           (settle_opt (Bridge.outcome c) r)) in
                      if Bridge.unregistered (Bridge.mcpProcess s) f f'
                      then Bridge.set_listeners s3
                             (remove_listener (CallListener i) (Bridge.stdout_listeners s3))
                      else s3).
  { rewrite Hs2. cbn [Bridge.deliver]. rewrite Hc1, Hi, Hp, Hl1. reflexivity. }
  clear Hs2. destruct res as [[f' r] log]. cbn [fst snd].
  split.
  - rewrite Hcalls, Hs2'.
    destruct (Bridge.unregistered (Bridge.mcpProcess s) f f'); simpl;
      apply list_lookup_insert_eq; exact Hlt.
  - intros Hun Hin. apply Hsub in Hin. rewrite Hs2', Hun in Hin. simpl in Hin.
    eapply remove_listener_gone, Hin.
Qed.

(** A chunk that completes a line with the response to a pending call. *)
Lemma emit_settles_pending
    (parse : string -> option json) (s : Bridge.bridge)
    (i : nat) (c : Bridge.call) (f : Bridge.inflight)
    (line rest : string) (response : json) (idv : jsval) (p : promise) :
  Obs.tidy s ->
  Bridge.calls s !! i = Some c ->
  Bridge.phase_of c = Bridge.Sent f ->
  Bridge.isComplete f = false ->
  Bridge.mcpProcess s = true ->
  Text.has_nl line = false ->
  Text.is_empty (Text.trim (Bridge.responseData f +:+ line)) = false ->
  parse (Text.trim (Bridge.responseData f +:+ line)) = Some response ->
  Js.get (Val response) "id" = Some idv ->
  Js.strict_eq_num idv (Bridge.reqid f) = true ->
  Bridge.settlement response = Some p ->
  let s' := Bridge.step parse s (Bridge.StdoutData (line +:+ String Text.nl rest)) in
  Bridge.calls s' !! i
  = Some (Bridge.mkCall (Bridge.toolName c) (Bridge.params c) (Bridge.attempts c)
            (Bridge.Sent
               (Bridge.mkInflight (Bridge.reqid f)
                  (Bridge.responseData f +:+ line +:+ String Text.nl rest) true false))
            p)
  /\ CallListener i ∉ Bridge.stdout_listeners s'.
Proof.
  intros Ht Hi Hp Hinc Hlive Hline Hne Hparse Hid Heq Hset s'.
  pose proof Ht as (_ & _ & _ & HB).
  destruct (HB i c f Hi Hp) as (_ & Hpend).
  destruct (Hpend Hinc) as (Hbuf & Hout & Hreg).
  destruct (emit_pending parse s i c f (line +:+ String Text.nl rest) Ht Hi Hp Hinc)
    as [Hcall Hgone].
  rewrite Hlive in Hcall, Hgone.
  rewrite (dataHandler_own_line parse f line rest response idv) in Hcall, Hgone
    by assumption.
  rewrite Hset in Hcall, Hgone. cbn [fst snd] in Hcall, Hgone.
  split.
  - unfold s'. rewrite Hcall, Hout. reflexivity.
  - apply Hgone. unfold Bridge.unregistered. rewrite Hinc. reflexivity.
Qed.

(** A call that is lost: its listener has set [isComplete], cleared the timer
    and unregistered, and the promise was left unsettled.  Nothing refers to
    the call any more. *)
Lemma step_lost (parse : string -> option json) (i : nat) (s : Bridge.bridge)
      (e : Bridge.event) (c : Bridge.call) :
  Obs.lost i s -> Bridge.calls s !! i = Some c ->
  Obs.lost i (Bridge.step parse s e) /\ Bridge.calls (Bridge.step parse s e) !! i = Some c.
Proof.
  intros (Hnot & c0 & f & Hi0 & Hp & Hc & Harm & Hout) Hi.
  rewrite Hi in Hi0. injection Hi0 as <-.
  assert (Hkeep : forall s', Bridge.calls s' !! i = Some c ->
            (forall x, x ∈ Bridge.stdout_listeners s' -> x ∈ Bridge.stdout_listeners s
                       \/ (x <> CallListener i)) ->
            Obs.lost i s' /\ Bridge.calls s' !! i = Some c).
  { intros s' Hi' Hsub. split; [|exact Hi']. split.
    - intros Hin. destruct (Hsub _ Hin) as [H|H]; [contradiction|congruence].
    - exists c, f. auto. }
  destruct e as [chunk|chunk| |k|k|tool args now rnd|j now rnd|j];
    apply Hkeep; cbn [Bridge.step].
  - unfold Bridge.emit_stdout. rewrite foldl_deliver_ne; assumption.
  - intros x Hx. left. eapply foldl_deliver_listeners, Hx.
  - unfold Bridge.stderr_listener. destruct (Bridge.is_banner chunk); exact Hi.
  - intros x Hx. left.
    unfold Bridge.stderr_listener in Hx. destruct (Bridge.is_banner chunk); exact Hx.
  - exact Hi.
  - intros x Hx. left. exact Hx.
  - rewrite banner_timer_calls. exact Hi.
  - intros x. unfold Bridge.banner_timer, Bridge.initializeMCPServer.
    destruct (Bridge.handshakes s !! k) as [[|h|]|]; auto.
    destruct (Bridge.mcpProcess s); simpl; auto.
    intros Hx. apply elem_of_app in Hx as [Hx|Hx]; [auto|].
    right. apply list_elem_of_singleton in Hx. subst x. discriminate.
  - rewrite handshake_timeout_calls. exact Hi.
  - intros x. unfold Bridge.handshake_timeout.
    destruct (Bridge.handshakes s !! k) as [[|h|]|]; auto.
    destruct (Bridge.h_timeout_armed h); auto.
  - pose proof (lookup_lt_Some _ _ _ Hi) as Hlt.
    unfold Bridge.callMCPTool. destruct (negb (Bridge.mcpProcess s)); simpl.
    + rewrite lookup_app_l; assumption.
    + rewrite readiness_loop_ne by lia. simpl. rewrite lookup_app_l; assumption.
  - pose proof (lookup_lt_Some _ _ _ Hi) as Hlt.
    intros x. unfold Bridge.callMCPTool.
    destruct (negb (Bridge.mcpProcess s)); [auto|].
    unfold Bridge.readiness_loop.
    cbn [Bridge.mcpProcess Bridge.set_calls Bridge.serverReady].
    destruct (negb (Bridge.mcpProcess s)); [auto|].
    destruct (negb (Bridge.serverReady s) && _); [auto|].
    destruct (negb (Bridge.serverReady s)); [auto|].
    simpl. intros Hx. apply elem_of_app in Hx as [Hx|Hx]; [auto|].
    right. apply list_elem_of_singleton in Hx. subst x. intros [= Heq]. lia.
  - unfold Bridge.poll_timer.
    destruct (decide (j = i)) as [->|Hne].
    + rewrite Hi, Hp. exact Hi.
    + destruct (Bridge.calls s !! j) as [cj|]; [|exact Hi].
      destruct (Bridge.phase_of cj); try exact Hi.
      rewrite readiness_loop_ne by congruence. exact Hi.
  - intros x. unfold Bridge.poll_timer.
    destruct (Bridge.calls s !! j) as [cj|] eqn:Hj; [|auto].
    destruct (Bridge.phase_of cj) eqn:Hpj; auto.
    unfold Bridge.readiness_loop.
    destruct (negb (Bridge.mcpProcess s)); [auto|].
    destruct (negb (Bridge.serverReady s) && _); [auto|].
    destruct (negb (Bridge.serverReady s)); [auto|].
    simpl. intros Hx. apply elem_of_app in Hx as [Hx|Hx]; [auto|].
    right. apply list_elem_of_singleton in Hx. subst x. intros [= ->]. congruence.
  - unfold Bridge.call_timeout.
    destruct (decide (j = i)) as [->|Hne].
    + rewrite Hi, Hp, Harm. exact Hi.
    + destruct (Bridge.calls s !! j) as [cj|]; [|exact Hi].
      destruct (Bridge.phase_of cj) as [|fj| |]; try exact Hi.
      destruct (Bridge.timeout_armed fj); [|exact Hi].
      destruct (Bridge.isComplete fj); [rewrite put_call_ne by congruence; exact Hi|].
      destruct (Bridge.mcpProcess s); simpl;
        rewrite list_lookup_insert_ne by congruence; exact Hi.
  - intros x. unfold Bridge.call_timeout.
    destruct (Bridge.calls s !! j) as [cj|]; [|auto].
    destruct (Bridge.phase_of cj) as [|fj| |]; auto.
    destruct (Bridge.timeout_armed fj); [|auto].
    destruct (Bridge.isComplete fj); [auto|].
    destruct (Bridge.mcpProcess s); simpl; auto.
    intros Hx. apply elem_of_remove_listener in Hx. left. apply Hx.
Qed.

Lemma run_lost (parse : string -> option json) (i : nat) (later : list Bridge.event)
      (s : Bridge.bridge) (c : Bridge.call) :
  Obs.lost i s -> Bridge.calls s !! i = Some c ->
  Obs.lost i (Bridge.run parse s later) /\ Bridge.calls (Bridge.run parse s later) !! i = Some c.
Proof.
  intros H Hi.
  apply (run_invariant parse (fun _ => True)
           (fun s => Obs.lost i s /\ Bridge.calls s !! i = Some c)); [| |split; assumption].
  - intros s' e _ [H1 H2]. apply step_lost; assumption.
  - apply Forall_forall. intros; exact I.
Qed.

(** X4.  In every reachable state with the provider running, a pending call
    is settled by the chunk that completes a line holding a response with
    its id, when that response has a settlement (its result, or an [Error]
    with the text of the remote error): the promise takes that settlement,
    the timer is cleared and the listener is unregistered, whatever else the
    chunk holds after that line and whichever other listeners are
    registered. *)
Theorem pending_call_settled_by_its_response
    (parse : string -> option json) (trace : list Bridge.event)
    (i : nat) (c : Bridge.call) (f : Bridge.inflight)
    (line rest : string) (response : json) (idv : jsval) (p : promise) :
  let s := Bridge.run parse Bridge.startMCPServer trace in
  let s' := Bridge.step parse s (Bridge.StdoutData (line +:+ String Text.nl rest)) in
  Bridge.calls s !! i = Some c ->
  Bridge.phase_of c = Bridge.Sent f ->
  Bridge.isComplete f = false ->
  Bridge.mcpProcess s = true ->
  Text.has_nl line = false ->
  Text.is_empty (Text.trim (Bridge.responseData f +:+ line)) = false ->
  parse (Text.trim (Bridge.responseData f +:+ line)) = Some response ->
  Js.get (Val response) "id" = Some idv ->
  Js.strict_eq_num idv (Bridge.reqid f) = true ->
  Bridge.settlement response = Some p ->
  Bridge.calls s' !! i
  = Some (Bridge.mkCall (Bridge.toolName c) (Bridge.params c) (Bridge.attempts c)
            (Bridge.Sent
               (Bridge.mkInflight (Bridge.reqid f)
                  (Bridge.responseData f +:+ line +:+ String Text.nl rest) true false))
            p)
  /\ CallListener i ∉ Bridge.stdout_listeners s'.
Proof.
  intros s s' Hi Hp Hinc Hlive Hline Hne Hparse Hid Heq Hset.
  apply (emit_settles_pending parse s i c f line rest response idv p
           (run_tidy parse trace)); assumption.
Qed.

(** Two pending calls, the second holding the first nine characters of its
    response; the chunk brings the remainder of the line and the start of
    another one. *)
Lemma pending_call_settled_by_its_response_witness :
  let r := Json.stringify (Sample.response 102 (JStr "events")) in
  let head := String.substring 0 9 r in
  let line := String.substring 9 (String.length r) r in
  let trace :=
    Sample.handshake_ok
    ++ [Bridge.CallTool "get_recent_emails" Sample.args 101 0;
        Bridge.CallTool "get_upcoming_events" Sample.args 102 0;
        Bridge.StdoutData head] in
  let s := Bridge.run Json.parse Bridge.startMCPServer trace in
  let s' := Bridge.step Json.parse s (Bridge.StdoutData (line +:+ String Text.nl "{")) in
  let f := Bridge.mkInflight 102 head false true in
  let c := Bridge.mkCall "get_upcoming_events" Sample.args 0 (Bridge.Sent f) Unsettled in
  Bridge.calls s !! 1 = Some c
  /\ Bridge.calls s' !! 1
     = Some (Bridge.mkCall "get_upcoming_events" Sample.args 0
               (Bridge.Sent (Bridge.mkInflight 102 (r +:+ String Text.nl "{") true false))
               (Resolved (Val (JStr "events"))))
  /\ CallListener 1 ∉ Bridge.stdout_listeners s'.
Proof.
  intros r head line trace s s' f c. split; [reflexivity|].
  apply (pending_call_settled_by_its_response Json.parse trace 1 c f line "{"
           (Sample.response 102 (JStr "events")) (Val (JNum 102))
           (Resolved (Val (JStr "events")))); reflexivity.
Defined.

(** X24.  A call is lost to an error response whose message has no text.
    In every reachable state with the provider running, when a chunk
    completes a line
    holding a response with the id of a pending call, and [new Error] throws
    on the message of its error (an object with an own key [toString]), and
    no further line is complete in the chunk: the TypeError is caught inside
    the loop after [isComplete] was set, the timer cleared and the listener
    unregistered, before [reject] is reached.  The promise is unsettled and
    stays so whatever happens later, also when a well-formed response with
    its id follows. *)
Theorem call_lost_to_error_without_text
    (parse : string -> option json) (trace later : list Bridge.event)
    (i : nat) (c : Bridge.call) (f : Bridge.inflight)
    (line rest : string) (response : json) (idv : jsval) :
  let s := Bridge.run parse Bridge.startMCPServer trace in
  let s' := Bridge.step parse s (Bridge.StdoutData (line +:+ String Text.nl rest)) in
  let lost :=
    Bridge.mkCall (Bridge.toolName c) (Bridge.params c) (Bridge.attempts c)
      (Bridge.Sent (Bridge.mkInflight (Bridge.reqid f) rest true false)) Unsettled in
  Bridge.calls s !! i = Some c ->
  Bridge.phase_of c = Bridge.Sent f ->
  Bridge.isComplete f = false ->
  Bridge.mcpProcess s = true ->
  Text.has_nl line = false ->
  Text.has_nl rest = false ->
  Text.is_empty (Text.trim (Bridge.responseData f +:+ line)) = false ->
  parse (Text.trim (Bridge.responseData f +:+ line)) = Some response ->
  Js.get (Val response) "id" = Some idv ->
  Js.strict_eq_num idv (Bridge.reqid f) = true ->
  Bridge.settlement response = None ->
  Bridge.calls s' !! i = Some lost
  /\ (CallListener i ∉ Bridge.stdout_listeners s')
  /\ Bridge.calls (Bridge.run parse s' later) !! i = Some lost
  /\ Ipc.reply (Bridge.run parse s' later) (Ipc.Awaiting i) = None.
Proof.
  intros s s' lost Hi Hp Hinc Hlive Hline Hrest Hne Hparse Hid Heq Hset.
  pose proof (run_tidy parse trace) as Ht. fold s in Ht.
  pose proof Ht as (_ & _ & _ & HB).
  destruct (HB i c f Hi Hp) as (_ & Hpend).
  destruct (Hpend Hinc) as (Hbuf & Hout & Hreg).
  destruct (emit_pending parse s i c f (line +:+ String Text.nl rest) Ht Hi Hp Hinc)
    as [Hcall Hgone].
  rewrite Hlive in Hcall, Hgone.
  rewrite (dataHandler_own_line parse f line rest response idv) in Hcall, Hgone
    by assumption.
  rewrite Hset in Hcall, Hgone. cbv zeta in Hcall, Hgone.
  unfold Text.complete_lines, Text.fragment in Hcall, Hgone.
  rewrite (split_nl_no_nl rest Hrest) in Hcall, Hgone.
  cbn [removelast List.last Bridge.for_lines fst snd] in Hcall, Hgone.
  fold s' in Hcall, Hgone. rewrite Hout in Hcall.
  assert (Hlost : Obs.lost i s').
  { split; [apply Hgone; unfold Bridge.unregistered; rewrite Hinc; reflexivity|].
    exists lost. eexists. split; [exact Hcall|]. repeat split; reflexivity. }
  split; [exact Hcall|]. split; [apply Hlost|].
  destruct (run_lost parse i later s' lost Hlost Hcall) as [_ Hfin].
  split; [exact Hfin|].
  simpl. rewrite Hfin. reflexivity.
Qed.

(** A call answered with an error whose message is an object with an own
    key [toString]; a well-formed response with its id and its timer come
    afterwards. *)
Lemma call_lost_to_error_without_text_witness :
  let trace :=
    Sample.handshake_ok ++ [Bridge.CallTool "get_recent_emails" Sample.args 101 0] in
  let s := Bridge.run Json.parse Bridge.startMCPServer trace in
  let line := Json.stringify (Sample.opaque_error_response 101) in
  let s' := Bridge.step Json.parse s (Bridge.StdoutData (line +:+ String Text.nl EmptyString)) in
  let later :=
    [Bridge.StdoutData (Json.line (Sample.response 101 (JStr "emails")));
     Bridge.CallTimeout 0] in
  let c := Bridge.mkCall "get_recent_emails" Sample.args 0
             (Bridge.Sent (Bridge.fresh 101)) Unsettled in
  let lost := Bridge.mkCall "get_recent_emails" Sample.args 0
                (Bridge.Sent (Bridge.mkInflight 101 EmptyString true false)) Unsettled in
  (Bridge.calls s !! 0 = Some c
   /\ Json.parse (Text.trim line) = Some (Sample.opaque_error_response 101)
   /\ Bridge.settlement (Sample.opaque_error_response 101) = None)
  /\ Bridge.calls s' !! 0 = Some lost
  /\ (CallListener 0 ∉ Bridge.stdout_listeners s')
  /\ Bridge.calls (Bridge.run Json.parse s' later) !! 0 = Some lost
  /\ Ipc.reply (Bridge.run Json.parse s' later) (Ipc.Awaiting 0) = None.
Proof.
  intros trace s line s' later c lost.
  split; [repeat split; reflexivity|].
  apply (call_lost_to_error_without_text Json.parse trace later 0 c (Bridge.fresh 101)
           line EmptyString (Sample.opaque_error_response 101) (Val (JNum 101)));
    reflexivity.
Defined.

(** ** What settles a pending call *)

Lemma concat_all_app (a b : list string) :
  Text.concat_all (a ++ b) = Text.concat_all a +:+ Text.concat_all b.
Proof.
  unfold Text.concat_all. induction a as [|x a IH]; [reflexivity|].
  simpl. rewrite IH. symmetry. apply append_assoc.
Qed.

Lemma stdout_text_snoc (t : list Bridge.event) (e : Bridge.event) :
  Obs.stdout_text (t ++ [e]) = Obs.stdout_text t +:+ Obs.chunk_of e.
Proof.
  unfold Obs.stdout_text. rewrite fmap_app, concat_all_app.
  change (Text.concat_all (Obs.chunk_of <$> [e])) with (Obs.chunk_of e +:+ EmptyString).
  rewrite append_empty_r. reflexivity.
Qed.

(** X26.  The listener of the current [callMCPTool] on a stream of text
    chunks cut at any offsets, delivered while the provider runs, when no
    complete line of the stream is a response with the id of the call on
    which [new Error] throws: the listener settles as it does on the whole
    stream in one chunk and hands the same frames, in the same order, to
    the caller of [JSON.parse]; after any number of passes that did not
    complete the call, the buffer is the text after the last newline
    received, which holds no newline, and that fragment together with the
    complete lines is the text received. *)
Theorem call_listener_chunk_invariant
    (parse : string -> option json) (id : Z) (chunks : list string) (n : nat) :
  let whole := Text.concat_all chunks in
  let split := Bridge.feed parse (Bridge.fresh id) chunks in
  let once := Bridge.dataHandler parse true (Bridge.fresh id) whole in
  let received := Text.concat_all (take n chunks) in
  let passes := Bridge.feed parse (Bridge.fresh id) (take n chunks) in
  Inv.unfaulted parse id (Text.complete_lines whole) ->
  split.1.2 = once.1.2
  /\ split.2 = once.2
  /\ (passes.1.2 = None ->
      Bridge.responseData passes.1.1 = Text.fragment received
      /\ Text.has_nl (Bridge.responseData passes.1.1) = false
      /\ Text.join_lines (Text.complete_lines received) (Bridge.responseData passes.1.1)
         = received).
Proof.
  intros whole split once received passes Hun.
  assert (Hun' : Inv.unfaulted parse id (Text.complete_lines received)).
  { unfold whole in Hun. rewrite <- (take_drop n chunks), concat_all_app in Hun.
    rewrite complete_lines_app in Hun. apply unfaulted_app in Hun as [Hun _]. exact Hun. }
  destruct (feed_whole parse chunks (Bridge.fresh id) eq_refl eq_refl Hun) as (H1 & H2 & _).
  destruct (feed_whole parse (take n chunks) (Bridge.fresh id) eq_refl eq_refl Hun')
    as (_ & _ & H3).
  cbn zeta in H1, H2, H3.
  change (Bridge.responseData (Bridge.fresh id) +:+ Text.concat_all chunks)
    with whole in H1, H2.
  change (Bridge.responseData (Bridge.fresh id) +:+ Text.concat_all (take n chunks))
    with received in H3.
  fold split in H1, H2. fold passes in H3.
  assert (Honce : once.1.2 = (Bridge.for_lines parse true (Bridge.fresh id)
                                (Text.complete_lines whole)).1.2
                  /\ once.2 = (Bridge.for_lines parse true (Bridge.fresh id)
                                 (Text.complete_lines whole)).2).
  { unfold once, Bridge.dataHandler. simpl Bridge.isComplete. cbv iota.
    change (Bridge.responseData (Bridge.fresh id) +:+ whole) with whole.
    change (Bridge.responseData (Bridge.set_buffer (Bridge.fresh id) whole)) with whole.
    pose proof (for_lines_result parse (Bridge.set_buffer (Bridge.fresh id) whole)
                  (Bridge.fresh id) (Text.complete_lines whole) eq_refl) as [Hr Hl].
    destruct (Bridge.for_lines parse true (Bridge.set_buffer (Bridge.fresh id) whole)
                (Text.complete_lines whole)) as [[f r] log].
    simpl in Hr, Hl. destruct r; simpl; split; assumption. }
  destruct Honce as [Ho1 Ho2].
  split; [congruence|]. split; [congruence|].
  intros Hnone. rewrite (H3 Hnone). simpl.
  split; [reflexivity|]. split; [apply fragment_no_nl | apply join_split].
Qed.

(** A log line, then the response to call 7 cut after nine characters, then
    the start of another line. *)
Lemma call_listener_chunk_invariant_witness :
  let r := Json.line (Sample.response 7 (JStr "ok")) in
  let chunks := [Sample.noise; String.substring 0 9 r;
                 String.substring 9 (String.length r) r +:+ "{"] in
  let whole := Text.concat_all chunks in
  let split := Bridge.feed Json.parse (Bridge.fresh 7) chunks in
  let once := Bridge.dataHandler Json.parse true (Bridge.fresh 7) whole in
  let received := Text.concat_all (take 2 chunks) in
  let passes := Bridge.feed Json.parse (Bridge.fresh 7) (take 2 chunks) in
  Inv.unfaulted Json.parse 7 (Text.complete_lines whole)
  /\ split.1.2 = Some (Resolved (Val (JStr "ok")))
  /\ split.1.2 = once.1.2
  /\ split.2 = once.2
  /\ (passes.1.2 = None ->
      Bridge.responseData passes.1.1 = Text.fragment received
      /\ Text.has_nl (Bridge.responseData passes.1.1) = false
      /\ Text.join_lines (Text.complete_lines received) (Bridge.responseData passes.1.1)
         = received).
Proof.
  intros r chunks whole split once received passes.
  assert (Hun : Inv.unfaulted Json.parse 7 (Text.complete_lines whole)).
  { unfold Inv.unfaulted.
    replace (Text.complete_lines whole)
      with ["INFO  Starting provider"; Json.stringify (Sample.response 7 (JStr "ok"))]
      by (vm_compute; reflexivity).
    repeat constructor; intros H; vm_compute in H; discriminate H. }
  split; [exact Hun|]. split; [reflexivity|].
  apply (call_listener_chunk_invariant Json.parse 7 chunks 2 Hun).
Defined.

Section Settling.

Variable parse : string -> option json.

(** A pass that leaves the call pending keeps the text after the last
    newline. *)
Lemma dataHandler_fragment (live : bool) (f : Bridge.inflight) (data : string) :
  Bridge.timeout_armed f = negb (Bridge.isComplete f) ->
  Bridge.isComplete f = false ->
  Bridge.isComplete (Bridge.dataHandler parse live f data).1.1 = false ->
  Bridge.responseData (Bridge.dataHandler parse live f data).1.1
  = Text.fragment (Bridge.responseData f +:+ data).
Proof.
  intros Hf Hc. unfold Bridge.dataHandler. rewrite Hc.
  set (f1 := Bridge.set_buffer f (Bridge.responseData f +:+ data)).
  assert (Hf1 : Bridge.timeout_armed f1 = negb (Bridge.isComplete f1)).
  { unfold f1. simpl. rewrite Hf, Hc. reflexivity. }
  pose proof (for_lines_flags parse live (Text.complete_lines (Bridge.responseData f1)) f1 Hf1)
    as (_ & _ & H3 & _).
  destruct (Bridge.for_lines parse live f1 (Text.complete_lines (Bridge.responseData f1)))
    as [[f2 [p|]] log]; simpl in H3 |- *.
  - intros Hc2. rewrite H3 in Hc2 by discriminate. discriminate.
  - intros _. reflexivity.
Qed.

(** Events other than a chunk on stdout and its own timer leave a dispatched
    call as it is. *)
Lemma step_sent_keep (s : Bridge.bridge) (e : Bridge.event) (i : nat) (c : Bridge.call)
      (f : Bridge.inflight) :
  Bridge.calls s !! i = Some c -> Bridge.phase_of c = Bridge.Sent f ->
  Obs.chunk_of e = EmptyString ->
  (forall data, e <> Bridge.StdoutData data) -> e <> Bridge.CallTimeout i ->
  Bridge.calls (Bridge.step parse s e) !! i = Some c.
Proof.
  intros Hi Hp _ Hno Hnt.
  destruct e as [chunk|chunk| |k|k|tool args now rnd|j now rnd|j]; simpl.
  - exfalso. eapply Hno. reflexivity.
  - unfold Bridge.stderr_listener. destruct (Bridge.is_banner chunk); exact Hi.
  - exact Hi.
  - rewrite banner_timer_calls. exact Hi.
  - rewrite handshake_timeout_calls. exact Hi.
  - unfold Bridge.callMCPTool.
    pose proof (lookup_lt_Some _ _ _ Hi) as Hlt.
    destruct (negb (Bridge.mcpProcess s)); simpl.
    + rewrite lookup_app_l; assumption.
    + rewrite readiness_loop_ne by lia. simpl. rewrite lookup_app_l; assumption.
  - unfold Bridge.poll_timer.
    destruct (decide (j = i)) as [->|Hne].
    + rewrite Hi, Hp. exact Hi.
    + destruct (Bridge.calls s !! j) as [cj|]; [|exact Hi].
      destruct (Bridge.phase_of cj); try exact Hi.
      rewrite readiness_loop_ne by congruence. exact Hi.
  - unfold Bridge.call_timeout.
    assert (Hne : j <> i) by congruence.
    destruct (Bridge.calls s !! j) as [cj|]; [|exact Hi].
    destruct (Bridge.phase_of cj) as [|fj| |]; try exact Hi.
    destruct (Bridge.timeout_armed fj); [|exact Hi].
    destruct (Bridge.isComplete fj); [rewrite put_call_ne by congruence; exact Hi|].
    destruct (Bridge.mcpProcess s); simpl;
      rewrite list_lookup_insert_ne by congruence; exact Hi.
Qed.

(** Once [isComplete] is set, no event changes the call: its listener
    returns at once and its timer is cleared. *)
Lemma step_complete_keep (s : Bridge.bridge) (e : Bridge.event) (i : nat) (c : Bridge.call)
      (f : Bridge.inflight) :
  Bridge.calls s !! i = Some c -> Bridge.phase_of c = Bridge.Sent f ->
  Bridge.isComplete f = true -> Bridge.timeout_armed f = false ->
  Bridge.calls (Bridge.step parse s e) !! i = Some c.
Proof.
  intros Hi Hp Hc Harm.
  destruct e as [chunk|chunk| |k|k|tool args now rnd|j now rnd|j];
    try (eapply step_sent_keep;
           [exact Hi | exact Hp | reflexivity | discriminate | discriminate]).
  - simpl. apply (emit_invariant parse (fun s => Bridge.calls s !! i = Some c)); [|exact Hi].
    clear s Hi. intros s h Hi.
    destruct (decide (h = CallListener i)) as [->|Hne]; [|rewrite deliver_ne; assumption].
    simpl. rewrite Hi, Hp. unfold Bridge.dataHandler. rewrite Hc.
    unfold Bridge.unregistered. rewrite Hc, andb_false_r. simpl.
    rewrite list_lookup_insert_eq by (eapply lookup_lt_Some, Hi).
    destruct c as [t a n ph o]. simpl in Hp. subst ph. reflexivity.
  - destruct (decide (j = i)) as [->|Hne].
    + simpl. unfold Bridge.call_timeout. rewrite Hi, Hp, Harm. exact Hi.
    + eapply step_sent_keep; [exact Hi | exact Hp | reflexivity | discriminate | congruence].
Qed.

Lemma settled_from_snoc (later : list Bridge.event) (e : Bridge.event) (i : nat)
      (f : Bridge.inflight) (c' : Bridge.call) :
  Obs.settled_from parse later i f c' -> Obs.settled_from parse (later ++ [e]) i f c'.
Proof.
  intros [H|[[H1 H2]|(l & r & idv & Hl & H)]]; [left; exact H | right; left | right; right].
  - split; [exact H1|]. apply elem_of_app. left. exact H2.
  - exists l, r, idv. split; [|exact H].
    rewrite stdout_text_snoc, <- append_assoc, complete_lines_app.
    apply elem_of_app. left. exact Hl.
Qed.

Lemma run_settles (trace later : list Bridge.event)
      (i : nat) (c : Bridge.call) (f : Bridge.inflight) :
  let s := Bridge.run parse Bridge.startMCPServer trace in
  Bridge.calls s !! i = Some c ->
  Bridge.phase_of c = Bridge.Sent f ->
  Bridge.isComplete f = false ->
  exists c' f',
    Bridge.calls (Bridge.run parse s later) !! i = Some c'
    /\ Bridge.phase_of c' = Bridge.Sent f'
    /\ Bridge.reqid f' = Bridge.reqid f
    /\ Obs.settled_from parse later i f c'
    /\ (Bridge.isComplete f' = false ->
        Bridge.responseData f'
        = Text.fragment (Bridge.responseData f +:+ Obs.stdout_text later)).
Proof.
  intros s Hi Hp Hinc.
  induction later as [|e later IH] using rev_ind.
  - exists c, f. split; [exact Hi|]. split; [exact Hp|]. split; [reflexivity|].
    destruct (run_tidy parse trace) as (_ & _ & _ & HB). fold s in HB.
    destruct (HB i c f Hi Hp) as (_ & Hpend).
    destruct (Hpend Hinc) as (Hnl & Hout & _).
    split; [left; exact Hout|]. intros _.
    change (Obs.stdout_text []) with EmptyString. rewrite append_empty_r.
    unfold Text.fragment. rewrite (split_nl_no_nl _ Hnl). reflexivity.
  - destruct IH as (c1 & f1 & Hc1 & Hp1 & Hid1 & Hset1 & Hbuf1).
    rewrite run_snoc.
    set (s1 := Bridge.run parse s later) in *.
    assert (Ht : Obs.tidy s1).
    { unfold s1, s. rewrite <- run_app. apply run_tidy. }
    pose proof Ht as (_ & _ & _ & HB).
    destruct (HB i c1 f1 Hc1 Hp1) as (Harm & Hpend).
    assert (Hsame : Bridge.calls (Bridge.step parse s1 e) !! i = Some c1 ->
              Obs.chunk_of e = EmptyString \/ Bridge.isComplete f1 = true ->
              exists c' f',
                Bridge.calls (Bridge.step parse s1 e) !! i = Some c'
                /\ Bridge.phase_of c' = Bridge.Sent f'
                /\ Bridge.reqid f' = Bridge.reqid f
                /\ Obs.settled_from parse (later ++ [e]) i f c'
                /\ (Bridge.isComplete f' = false ->
                    Bridge.responseData f'
                    = Text.fragment (Bridge.responseData f +:+ Obs.stdout_text (later ++ [e])))).
    { intros Hkeep Hwhy. exists c1, f1. split; [exact Hkeep|]. split; [exact Hp1|].
      split; [exact Hid1|]. split; [apply settled_from_snoc, Hset1|].
      intros Hc. destruct Hwhy as [He|Hc']; [|congruence].
      rewrite stdout_text_snoc, He, append_empty_r. apply Hbuf1, Hc. }
    destruct (Bridge.isComplete f1) eqn:Hcm.
    { apply Hsame; [|right; reflexivity].
      eapply step_complete_keep; [exact Hc1 | exact Hp1 | exact Hcm |].
      rewrite Harm. reflexivity. }
    destruct (Hpend eq_refl) as (Hnl1 & Hout1 & Hreg1).
    specialize (Hbuf1 eq_refl).
    assert (Harm' : Bridge.timeout_armed f1 = negb (Bridge.isComplete f1))
      by (rewrite Hcm; exact Harm).
    destruct e as [data|chunk| |k|k|tool args now rnd|j now rnd|j];
      try (apply Hsame; [|left; reflexivity];
           eapply step_sent_keep;
             [exact Hc1 | exact Hp1 | reflexivity | discriminate | discriminate]).
    + destruct (emit_pending parse s1 i c1 f1 data Ht Hc1 Hp1 Hcm) as [Hcall _].
      pose proof (dataHandler_reqid parse (Bridge.mcpProcess s1) f1 data) as Hid.
      pose proof (dataHandler_settles_own parse (Bridge.mcpProcess s1) f1 data) as Hown.
      pose proof (dataHandler_flags parse (Bridge.mcpProcess s1) f1 data Harm') as (_ & H2 & _).
      pose proof (dataHandler_fragment (Bridge.mcpProcess s1) f1 data Harm' Hcm) as Hfr.
      destruct (Bridge.dataHandler parse (Bridge.mcpProcess s1) f1 data) as [[f2 r] log].
      cbn [fst snd] in Hcall, Hid, Hown, H2, Hfr.
      eexists. exists f2. split; [exact Hcall|]. split; [reflexivity|].
      split; [congruence|]. rewrite Hout1.
      assert (Htext : Bridge.responseData f +:+ Obs.stdout_text (later ++ [Bridge.StdoutData data])
                      = (Bridge.responseData f +:+ Obs.stdout_text later) +:+ data).
      { rewrite stdout_text_snoc. symmetry. apply append_assoc. }
      split.
      * destruct r as [p|]; [|left; reflexivity].
        right. right.
        destruct (Hown p eq_refl) as (l & resp & idv & Hl & Hparse & Hgid & Heq & Hs & _).
        exists l, resp, idv. rewrite Htext, complete_lines_app, <- Hbuf1.
        split; [apply elem_of_app; right; exact Hl|].
        split; [exact Hparse|]. split; [exact Hgid|]. split; [congruence|exact Hs].
      * intros Hc2. simpl. rewrite (Hfr Hc2), Htext, Hbuf1. symmetry. apply fragment_app.
    + destruct (decide (j = i)) as [->|Hne].
      * assert (Ha : Bridge.timeout_armed f1 = true) by (rewrite Harm; reflexivity).
        destruct (Bridge.mcpProcess s1) eqn:Hlive.
        -- destruct (call_timeout_live parse s1 i c1 f1 EmptyString Hc1 Hp1 Ha Hcm Hout1 Hlive)
             as (Hfailed & _).
           eexists. exists (Bridge.completed f1). split; [exact Hfailed|].
           split; [reflexivity|]. split; [exact Hid1|]. split; [|discriminate].
           right. left. split; [reflexivity|].
           apply elem_of_app. right. apply list_elem_of_singleton. reflexivity.
        -- exists (Bridge.set_phase c1 (Bridge.Sent (Bridge.completed f1))),
                  (Bridge.completed f1).
           split.
           { simpl. unfold Bridge.call_timeout. rewrite Hc1, Hp1, Ha, Hcm, Hlive.
             eapply put_call_eq, Hc1. }
           split; [reflexivity|]. split; [exact Hid1|]. split; [|discriminate].
           left. exact Hout1.
      * apply Hsame; [|left; reflexivity].
        eapply step_sent_keep; [exact Hc1 | exact Hp1 | reflexivity | discriminate |].
        congruence.
Qed.

End Settling.

(** X1.  What settles a pending call of the [main.js] with the handshake.
    From any reachable state in which call [i] is pending, and whatever
    events follow: the call keeps its request id, and afterwards its promise
    is unsettled, or rejected with CallTimeoutError by its own timer, which
    is among the events, or is the settlement of a complete line of the
    text that stdout has delivered since (after the fragment its listener
    held) which parses to a response whose id is the request id.  So the
    response to another call never settles it: when no complete line of that
    text parses to a response with its id and its timer does not fire, the
    promise stays unsettled. *)
Theorem dispatched_call_settled_by_own_response_only
    (parse : string -> option json) (trace later : list Bridge.event)
    (i : nat) (c : Bridge.call) (f : Bridge.inflight) :
  let s := Bridge.run parse Bridge.startMCPServer trace in
  let received := Bridge.responseData f +:+ Obs.stdout_text later in
  Bridge.calls s !! i = Some c ->
  Bridge.phase_of c = Bridge.Sent f ->
  Bridge.isComplete f = false ->
  exists c' f',
    Bridge.calls (Bridge.run parse s later) !! i = Some c'
    /\ Bridge.phase_of c' = Bridge.Sent f'
    /\ Bridge.reqid f' = Bridge.reqid f
    /\ (Bridge.outcome c' = Unsettled
        \/ (Bridge.outcome c' = Rejected CallTimeoutError /\ Bridge.CallTimeout i ∈ later)
        \/ exists l response idv,
             l ∈ Text.complete_lines received
             /\ parse (Text.trim l) = Some response
             /\ Js.get (Val response) "id" = Some idv
             /\ Js.strict_eq_num idv (Bridge.reqid f) = true
             /\ Bridge.settlement response = Some (Bridge.outcome c'))
    /\ ((forall l response idv,
           l ∈ Text.complete_lines received ->
           parse (Text.trim l) = Some response ->
           Js.get (Val response) "id" = Some idv ->
           Js.strict_eq_num idv (Bridge.reqid f) = false) ->
        Bridge.CallTimeout i ∉ later ->
        Bridge.outcome c' = Unsettled).
Proof.
  intros s received Hi Hp Hinc.
  destruct (run_settles parse trace later i c f Hi Hp Hinc)
    as (c' & f' & Hc' & Hp' & Hid & Hset & _).
  exists c', f'. split; [exact Hc'|]. split; [exact Hp'|]. split; [exact Hid|].
  split; [exact Hset|].
  intros Hother Hnt.
  destruct Hset as [H|[[_ H]|(l & r & idv & Hl & Hparse & Hgid & Heq & _)]];
    [exact H | contradiction |].
  rewrite (Hother l r idv Hl Hparse Hgid) in Heq. discriminate.
Qed.

(** Two calls pending under ids 101 and 102; the responses arrive in the
    order 102, 101, followed by the timer of the first call. *)
Lemma dispatched_call_settled_by_own_response_only_witness :
  let trace :=
    Sample.handshake_ok
    ++ [Bridge.CallTool "get_recent_emails" Sample.args 101 0;
        Bridge.CallTool "get_upcoming_events" Sample.args 102 0] in
  let s := Bridge.run Json.parse Bridge.startMCPServer trace in
  let f := Bridge.fresh 101 in
  let c := Bridge.mkCall "get_recent_emails" Sample.args 0 (Bridge.Sent f) Unsettled in
  let later :=
    [Bridge.StdoutData (Json.line (Sample.response 102 (JStr "events")));
     Bridge.StdoutData (Json.line (Sample.response 101 (JStr "emails")));
     Bridge.CallTimeout 0] in
  let received := Bridge.responseData f +:+ Obs.stdout_text later in
  Bridge.calls s !! 0 = Some c
  /\ Bridge.outcome <$> Bridge.calls (Bridge.run Json.parse s later) !! 0
     = Some (Resolved (Val (JStr "emails")))
  /\ exists c' f',
       Bridge.calls (Bridge.run Json.parse s later) !! 0 = Some c'
       /\ Bridge.phase_of c' = Bridge.Sent f'
       /\ Bridge.reqid f' = Bridge.reqid f
       /\ (Bridge.outcome c' = Unsettled
           \/ (Bridge.outcome c' = Rejected CallTimeoutError /\ Bridge.CallTimeout 0 ∈ later)
           \/ exists l response idv,
                l ∈ Text.complete_lines received
                /\ Json.parse (Text.trim l) = Some response
                /\ Js.get (Val response) "id" = Some idv
                /\ Js.strict_eq_num idv (Bridge.reqid f) = true
                /\ Bridge.settlement response = Some (Bridge.outcome c'))
       /\ ((forall l response idv,
              l ∈ Text.complete_lines received ->
              Json.parse (Text.trim l) = Some response ->
              Js.get (Val response) "id" = Some idv ->
              Js.strict_eq_num idv (Bridge.reqid f) = false) ->
           Bridge.CallTimeout 0 ∉ later ->
           Bridge.outcome c' = Unsettled).
Proof.
  intros trace s f c later received. split; [reflexivity|]. split; [reflexivity|].
  apply (dispatched_call_settled_by_own_response_only Json.parse trace later 0 c f);
    reflexivity.
Defined.

(** ** Timers and the exit of the provider *)

(** X5.  In every reachable state with the provider running, the 45000 ms
    timer of a pending call rejects it with CallTimeoutError, unregisters its
    listener and leaves the other calls and stdin as they are; whatever
    happens later, also a late response with its id, the promise stays
    rejected with CallTimeoutError. *)
Theorem call_timer_rejects_pending_call_for_good
    (parse : string -> option json) (trace later : list Bridge.event)
    (i : nat) (c : Bridge.call) (f : Bridge.inflight) :
  let s := Bridge.run parse Bridge.startMCPServer trace in
  let s' := Bridge.step parse s (Bridge.CallTimeout i) in
  let failed := Bridge.mkCall (Bridge.toolName c) (Bridge.params c) (Bridge.attempts c)
                  (Bridge.Sent (Bridge.completed f)) (Rejected CallTimeoutError) in
  Bridge.calls s !! i = Some c ->
  Bridge.phase_of c = Bridge.Sent f ->
  Bridge.isComplete f = false ->
  Bridge.mcpProcess s = true ->
  Bridge.calls s' !! i = Some failed
  /\ (CallListener i ∉ Bridge.stdout_listeners s')
  /\ (forall j, j <> i -> Bridge.calls s' !! j = Bridge.calls s !! j)
  /\ Bridge.stdin s' = Bridge.stdin s
  /\ Bridge.outcome <$> Bridge.calls (Bridge.run parse s' later) !! i
     = Some (Rejected CallTimeoutError).
Proof.
  intros s s' failed Hi Hp Hinc Hlive.
  destruct (run_tidy parse trace) as (_ & _ & _ & HB). fold s in HB.
  destruct (HB i c f Hi Hp) as (Harm & Hpend).
  destruct (Hpend Hinc) as (_ & Hout & _). rewrite Hinc in Harm.
  destruct (call_timeout_live parse s i c f EmptyString Hi Hp Harm Hinc Hout Hlive)
    as (Hfailed & Hgone & Hothers & _).
  fold s' in Hfailed, Hgone, Hothers. fold failed in Hfailed.
  split; [exact Hfailed|]. split; [exact Hgone|]. split; [exact Hothers|]. split.
  - unfold s'. simpl. unfold Bridge.call_timeout.
    rewrite Hi, Hp, Harm, Hinc, Hlive. reflexivity.
  - destruct (run_evolves parse later s' i failed (Bridge.completed f) Hfailed eq_refl)
      as (c' & Hc' & (f0 & f' & _ & _ & _ & Hev)).
    rewrite Hc'. simpl. destruct Hev as [-> | (Hu & _)]; [reflexivity|discriminate].
Qed.

Lemma call_timer_rejects_pending_call_for_good_witness :
  let trace :=
    Sample.handshake_ok
    ++ [Bridge.CallTool "get_recent_emails" Sample.args 101 0;
        Bridge.CallTool "get_upcoming_events" Sample.args 102 0] in
  let later :=
    [Bridge.StdoutData (Json.line (Sample.response 101 (JStr "emails")));
     Bridge.ProcessClose; Bridge.CallTimeout 0] in
  let s := Bridge.run Json.parse Bridge.startMCPServer trace in
  let s' := Bridge.step Json.parse s (Bridge.CallTimeout 0) in
  let c := Bridge.mkCall "get_recent_emails" Sample.args 0
             (Bridge.Sent (Bridge.fresh 101)) Unsettled in
  let failed := Bridge.mkCall "get_recent_emails" Sample.args 0
                  (Bridge.Sent (Bridge.completed (Bridge.fresh 101)))
                  (Rejected CallTimeoutError) in
  (Bridge.calls s !! 0 = Some c /\ Bridge.mcpProcess s = true)
  /\ Bridge.calls s' !! 0 = Some failed
  /\ (CallListener 0 ∉ Bridge.stdout_listeners s')
  /\ (forall j, j <> 0 -> Bridge.calls s' !! j = Bridge.calls s !! j)
  /\ Bridge.stdin s' = Bridge.stdin s
  /\ Bridge.outcome <$> Bridge.calls (Bridge.run Json.parse s' later) !! 0
     = Some (Rejected CallTimeoutError).
Proof.
  intros trace later s s' c failed. split; [split; reflexivity|].
  apply (call_timer_rejects_pending_call_for_good Json.parse trace later 0 c
           (Bridge.fresh 101)); reflexivity.
Defined.

Section Exit.

Variable parse : string -> option json.

(** With the handle null no line settles: the access to [mcpProcess.stdout]
    throws before [resolve] or [reject]. *)
Lemma for_lines_null (f : Bridge.inflight) (lines : list string) :
  (Bridge.for_lines parse false f lines).1.2 = None.
Proof.
  revert f. induction lines as [|l rest IH]; intros f; simpl; [reflexivity|].
  destruct (Text.is_empty (Text.trim l)); [apply IH|].
  unfold Bridge.try_line.
  destruct (parse (Text.trim l)) as [response|].
  - destruct (Js.get (Val response) "id") as [idv|].
    + destruct (Js.strict_eq_num idv (Bridge.reqid f)).
      * specialize (IH (Bridge.completed f)).
        destruct (Bridge.for_lines parse false (Bridge.completed f) rest) as [[f' r] log].
        exact IH.
      * specialize (IH f).
        destruct (Bridge.for_lines parse false f rest) as [[f' r] log]. exact IH.
    + specialize (IH f).
      destruct (Bridge.for_lines parse false f rest) as [[f' r] log]. exact IH.
  - specialize (IH f).
    destruct (Bridge.for_lines parse false f rest) as [[f' r] log]. exact IH.
Qed.

Lemma dataHandler_null (f : Bridge.inflight) (data : string) :
  (Bridge.dataHandler parse false f data).1.2 = None.
Proof.
  unfold Bridge.dataHandler. destruct (Bridge.isComplete f); [reflexivity|].
  pose proof (for_lines_null (Bridge.set_buffer f (Bridge.responseData f +:+ data))
                (Text.complete_lines
                   (Bridge.responseData
                      (Bridge.set_buffer f (Bridge.responseData f +:+ data))))) as H.
  destruct (Bridge.for_lines parse false
              (Bridge.set_buffer f (Bridge.responseData f +:+ data))
              (Text.complete_lines
                 (Bridge.responseData
                    (Bridge.set_buffer f (Bridge.responseData f +:+ data)))))
    as [[f2 [p|]] log]; simpl in H; [discriminate|reflexivity].
Qed.

Lemma deliver_orphaned (data : string) (i : nat) (s : Bridge.bridge) (h : listener) :
  Obs.orphaned i s -> Obs.orphaned i (Bridge.deliver parse data s h).
Proof.
  intros (Hnull & c & f & Hi & Hp & Hout).
  split; [rewrite deliver_process; exact Hnull|].
  destruct (decide (h = CallListener i)) as [->|Hne].
  - simpl. rewrite Hi, Hp, Hnull.
    pose proof (dataHandler_null f data) as Hr.
    destruct (Bridge.dataHandler parse false f data) as [[f' r] log];
      simpl in Hr. subst r. cbn [Bridge.unregistered andb].
    exists (Bridge.set_outcome (Bridge.set_phase c (Bridge.Sent f')) (Bridge.outcome c)), f'.
    split; [eapply put_call_eq, Hi|]. split; [reflexivity|exact Hout].
  - exists c, f. rewrite deliver_ne by exact Hne. auto.
Qed.

(** With the handle null, no event settles a dispatched call whose promise
    is unsettled. *)
Lemma step_unsettled_null (i : nat) (s : Bridge.bridge) (e : Bridge.event) :
  Obs.orphaned i s ->
  exists c f, Bridge.calls (Bridge.step parse s e) !! i = Some c
              /\ Bridge.phase_of c = Bridge.Sent f
              /\ Bridge.outcome c = Unsettled.
Proof.
  intros Ho. pose proof Ho as (Hnull & c & f & Hi & Hp & Hout).
  destruct e as [chunk|chunk| |k|k|tool args now rnd|j now rnd|j].
  - simpl.
    apply (emit_invariant parse (Obs.orphaned i)); [|exact Ho].
    intros s0 h. apply deliver_orphaned.
  - exists c, f. simpl.
    unfold Bridge.stderr_listener. destruct (Bridge.is_banner chunk); auto.
  - exists c, f. auto.
  - exists c, f. simpl. rewrite banner_timer_calls. auto.
  - exists c, f. simpl. rewrite handshake_timeout_calls. auto.
  - exists c, f. simpl.
    unfold Bridge.callMCPTool. rewrite Hnull. simpl.
    rewrite lookup_app_l by (eapply lookup_lt_Some, Hi). auto.
  - exists c, f. simpl.
    unfold Bridge.poll_timer. destruct (decide (j = i)) as [->|Hne].
    + rewrite Hi, Hp. auto.
    + destruct (Bridge.calls s !! j) as [cj|]; [|auto].
      destruct (Bridge.phase_of cj); auto.
      rewrite readiness_loop_ne by congruence. auto.
  - simpl.
    unfold Bridge.call_timeout. destruct (decide (j = i)) as [->|Hne].
    + rewrite Hi, Hp, Hnull.
      destruct (Bridge.timeout_armed f); [|exists c, f; auto].
      exists (Bridge.set_phase c (Bridge.Sent (Bridge.completed f))), (Bridge.completed f).
      destruct (Bridge.isComplete f);
        (split; [eapply put_call_eq, Hi|]; split; [reflexivity|exact Hout]).
    + exists c, f.
      destruct (Bridge.calls s !! j) as [cj|]; [|auto].
      destruct (Bridge.phase_of cj) as [|fj| |]; auto.
      destruct (Bridge.timeout_armed fj); auto.
      destruct (Bridge.isComplete fj); [rewrite put_call_ne by congruence; auto|].
      rewrite Hnull. rewrite put_call_ne by congruence. auto.
Qed.

End Exit.

(** X6.  While the handle is null, a dispatched call whose promise is
    unsettled is not settled: its timer throws on [mcpProcess.stdout] before
    it rejects, and its listener throws before it resolves or rejects.  So
    over any events along which the handle stays null (after the exit of the
    provider, for as long as [startMCPServer] has not run again) the promise
    stays unsettled. *)
Theorem pending_call_not_settled_while_handle_is_null
    (parse : string -> option json) (later : list Bridge.event)
    (s : Bridge.bridge) (i : nat) (c : Bridge.call) (f : Bridge.inflight) :
  Bridge.calls s !! i = Some c ->
  Bridge.phase_of c = Bridge.Sent f ->
  Bridge.outcome c = Unsettled ->
  Obs.null_along parse s later ->
  Bridge.outcome <$> Bridge.calls (Bridge.run parse s later) !! i = Some Unsettled.
Proof.
  revert s c f. induction later as [|e later IH]; intros s c f Hi Hp Hout Hnull.
  - simpl. rewrite Hi. simpl. rewrite Hout. reflexivity.
  - destruct Hnull as [Hnull Hrest].
    destruct (step_unsettled_null parse i s e) as (c1 & f1 & Hc1 & Hp1 & Hout1).
    { split; [exact Hnull|]. exists c, f. auto. }
    exact (IH _ c1 f1 Hc1 Hp1 Hout1 Hrest).
Qed.

(** The provider exits with a call pending; the response and the timer of
    the call come afterwards. *)
Lemma pending_call_not_settled_while_handle_is_null_witness :
  let s := Bridge.run Json.parse Sample.ready
             [Bridge.CallTool "get_recent_emails" Sample.args 101 0;
              Bridge.ProcessClose] in
  let later :=
    [Bridge.StdoutData (Json.line (Sample.response 101 (JStr "emails")));
     Bridge.CallTimeout 0;
     Bridge.StdoutData (Json.line (Sample.response 101 (JStr "emails")))] in
  let c := Bridge.mkCall "get_recent_emails" Sample.args 0
             (Bridge.Sent (Bridge.fresh 101)) Unsettled in
  (Bridge.calls s !! 0 = Some c /\ Obs.null_along Json.parse s later)
  /\ Bridge.outcome <$> Bridge.calls (Bridge.run Json.parse s later) !! 0 = Some Unsettled.
Proof.
  intros s later c.
  assert (Hnull : Obs.null_along Json.parse s later) by (vm_compute; repeat split).
  split; [split; [reflexivity|exact Hnull]|].
  apply (pending_call_not_settled_while_handle_is_null Json.parse later s 0 c
           (Bridge.fresh 101)); [reflexivity | reflexivity | reflexivity | exact Hnull].
Defined.

(** ** What the calls write to stdin *)

Section Frames.

Variable parse : string -> option json.

Lemma framed_keep (s s' : Bridge.bridge) :
  Bridge.stdin s' = Bridge.stdin s ->
  (forall i, Obs.expected_at i s' = Obs.expected_at i s) ->
  Obs.framed s -> Obs.framed s'.
Proof.
  intros Hin Hex Hf i. unfold Obs.frames_of. rewrite Hin, Hex. apply Hf.
Qed.

Lemma frames_of_init (s s' : Bridge.bridge) (k : nat) (frame : json) (i : nat) :
  Bridge.stdin s' = Bridge.stdin s ++ [(ByInit k, frame)] ->
  Obs.frames_of i s' = Obs.frames_of i s.
Proof.
  intros Hin. unfold Obs.frames_of. rewrite Hin, filter_app.
  rewrite filter_cons_False by (simpl; discriminate).
  rewrite filter_nil, app_nil_r. reflexivity.
Qed.

Lemma framed_init_write (s s' : Bridge.bridge) (k : nat) (frame : json) :
  Bridge.stdin s' = Bridge.stdin s ++ [(ByInit k, frame)] ->
  Bridge.calls s' = Bridge.calls s ->
  Obs.framed s -> Obs.framed s'.
Proof.
  intros Hin Hcalls Hf i. rewrite (frames_of_init s s' k frame i Hin).
  unfold Obs.expected_at. rewrite Hcalls. apply Hf.
Qed.

Lemma expected_at_put (s : Bridge.bridge) (j : nat) (c0 c : Bridge.call) (i : nat) :
  Bridge.calls s !! j = Some c0 -> Obs.expected c = Obs.expected c0 ->
  Obs.expected_at i (Bridge.put_call s j c) = Obs.expected_at i s.
Proof.
  intros Hj Hex. unfold Obs.expected_at. destruct (decide (i = j)) as [->|Hne].
  - erewrite put_call_eq by exact Hj. rewrite Hj. exact Hex.
  - rewrite put_call_ne by exact Hne. reflexivity.
Qed.

Lemma framed_put (s : Bridge.bridge) (j : nat) (c0 c : Bridge.call) :
  Bridge.calls s !! j = Some c0 -> Obs.expected c = Obs.expected c0 ->
  Obs.framed s -> Obs.framed (Bridge.put_call s j c).
Proof.
  intros Hj Hex. apply framed_keep; [reflexivity|].
  intros i. eapply expected_at_put; eassumption.
Qed.

Lemma expected_unsent (c : Bridge.call) : ~ Inv.is_sent c -> Obs.expected c = [].
Proof.
  unfold Inv.is_sent, Obs.expected. destruct (Bridge.phase_of c); [auto| |auto|auto].
  intros H. exfalso. apply H. exact I.
Qed.

Lemma framed_dispatch (s : Bridge.bridge) (j : nat) (c0 c : Bridge.call) (now rnd : Z) :
  Bridge.calls s !! j = Some c0 -> ~ Inv.is_sent c0 ->
  Obs.framed s -> Obs.framed (Bridge.dispatch s j c now rnd).
Proof.
  intros Hj Hns Hf i.
  assert (Hin : Bridge.stdin (Bridge.dispatch s j c now rnd)
                = Bridge.stdin s
                  ++ [(ByCall j, Bridge.request (Bridge.request_id now rnd)
                                   (Bridge.toolName c) (Bridge.params c))])
    by reflexivity.
  pose proof (Hf i) as Hi. unfold Obs.frames_of in Hi |- *.
  rewrite Hin, filter_app, fmap_app, Hi.
  unfold Obs.expected_at. rewrite dispatch_calls.
  destruct (decide (i = j)) as [->|Hne].
  - rewrite list_lookup_insert_eq by (eapply lookup_lt_Some, Hj).
    rewrite Hj, (expected_unsent c0 Hns).
    rewrite filter_cons_True by reflexivity. reflexivity.
  - rewrite list_lookup_insert_ne by congruence.
    rewrite filter_cons_False by (simpl; congruence).
    rewrite filter_nil. simpl. apply app_nil_r.
Qed.

Lemma framed_readiness_loop (s : Bridge.bridge) (j : nat) (c0 c : Bridge.call) (now rnd : Z) :
  Bridge.calls s !! j = Some c0 -> ~ Inv.is_sent c0 -> ~ Inv.is_sent c ->
  Obs.framed s -> Obs.framed (Bridge.readiness_loop s j c now rnd).
Proof.
  intros Hj Hns0 Hns Hf. unfold Bridge.readiness_loop.
  assert (Hput : forall c1, ~ Inv.is_sent c1 -> Obs.framed (Bridge.put_call s j c1)).
  { intros c1 H1. eapply framed_put; [exact Hj| |exact Hf].
    rewrite (expected_unsent c0 Hns0). apply expected_unsent, H1. }
  destruct (negb (Bridge.mcpProcess s)); [apply Hput; intros H; exact H|].
  destruct (negb (Bridge.serverReady s) && (Bridge.attempts c <? Bridge.maxAttempts));
    [apply Hput; intros H; exact H|].
  destruct (negb (Bridge.serverReady s)); [apply Hput; intros H; exact H|].
  eapply framed_dispatch; eassumption.
Qed.

Lemma framed_new_call (s : Bridge.bridge) (c : Bridge.call) :
  ~ Inv.is_sent c -> Obs.framed s ->
  Obs.framed (Bridge.set_calls s (Bridge.calls s ++ [c])).
Proof.
  intros Hns. apply framed_keep; [reflexivity|].
  intros i. unfold Obs.expected_at. simpl.
  destruct (Bridge.calls s !! i) as [ci|] eqn:Hi.
  - rewrite lookup_app_l by (eapply lookup_lt_Some, Hi). rewrite Hi. reflexivity.
  - apply lookup_ge_None in Hi.
    destruct ((Bridge.calls s ++ [c]) !! i) as [c1|] eqn:H1; [|reflexivity].
    rewrite lookup_app_r in H1 by exact Hi.
    apply list_lookup_singleton_Some in H1 as [_ <-]. apply expected_unsent, Hns.
Qed.

Lemma deliver_framed (data : string) (s : Bridge.bridge) (h : listener) :
  Obs.framed s -> Obs.framed (Bridge.deliver parse data s h).
Proof.
  intros Hf. destruct h as [|k|j]; simpl; [exact Hf| |].
  - unfold Bridge.init_dataHandler.
    destruct (Bridge.handshakes s !! k) as [[|h|]|]; try exact Hf.
    destruct (Bridge.init_lines parse (Bridge.mcpProcess s)
                (Text.split_nl (Bridge.h_responseData h +:+ data))); try exact Hf.
    destruct (is_settled (Bridge.h_promise h));
      (eapply (framed_init_write s _ k); [reflexivity|reflexivity|exact Hf]).
  - destruct (Bridge.calls s !! j) as [c|] eqn:Hj; [|exact Hf].
    destruct (Bridge.phase_of c) as [|f| |] eqn:Hp; try exact Hf.
    pose proof (dataHandler_reqid parse (Bridge.mcpProcess s) f data) as Hid.
    destruct (Bridge.dataHandler parse (Bridge.mcpProcess s) f data) as [[f' r] log];
      simpl in Hid.
    destruct (Bridge.unregistered _ _ _).
    + eapply (framed_keep s); [reflexivity| |exact Hf].
      intros i. simpl. eapply (expected_at_put s j c _ i Hj).
      unfold Obs.expected. simpl. rewrite Hp, Hid. reflexivity.
    + eapply framed_put; [exact Hj| |exact Hf].
      unfold Obs.expected. simpl. rewrite Hp, Hid. reflexivity.
Qed.

Lemma step_framed (s : Bridge.bridge) (e : Bridge.event) :
  Obs.framed s -> Obs.framed (Bridge.step parse s e).
Proof.
  intros Hf. destruct e as [chunk|chunk| |k|k|tool args now rnd|j now rnd|j]; simpl.
  - apply emit_invariant; [|exact Hf]. intros s0 h. apply deliver_framed.
  - unfold Bridge.stderr_listener. destruct (Bridge.is_banner chunk); exact Hf.
  - exact Hf.
  - unfold Bridge.banner_timer.
    destruct (Bridge.handshakes s !! k) as [[|h|]|]; try exact Hf.
    unfold Bridge.initializeMCPServer. destruct (Bridge.mcpProcess s); [|exact Hf].
    eapply (framed_init_write s _ k); [reflexivity|reflexivity|exact Hf].
  - unfold Bridge.handshake_timeout.
    destruct (Bridge.handshakes s !! k) as [[|h|]|]; try exact Hf.
    destruct (Bridge.h_timeout_armed h); exact Hf.
  - unfold Bridge.callMCPTool. destruct (negb (Bridge.mcpProcess s)).
    + apply framed_new_call; [|exact Hf]. intros H. exact H.
    + eapply framed_readiness_loop.
      * simpl. apply list_lookup_middle. reflexivity.
      * intros H. exact H.
      * intros H. exact H.
      * apply framed_new_call; [|exact Hf]. intros H. exact H.
  - unfold Bridge.poll_timer.
    destruct (Bridge.calls s !! j) as [c|] eqn:Hj; [|exact Hf].
    destruct (Bridge.phase_of c) eqn:Hp; try exact Hf.
    eapply framed_readiness_loop; [exact Hj| | |exact Hf];
      unfold Inv.is_sent; simpl; rewrite Hp; intros H; exact H.
  - unfold Bridge.call_timeout.
    destruct (Bridge.calls s !! j) as [c|] eqn:Hj; [|exact Hf].
    destruct (Bridge.phase_of c) as [|f| |] eqn:Hp; try exact Hf.
    destruct (Bridge.timeout_armed f); [|exact Hf].
    assert (Hex : Obs.expected (Bridge.set_phase c (Bridge.Sent (Bridge.completed f)))
                  = Obs.expected c).
    { unfold Obs.expected. simpl. rewrite Hp. reflexivity. }
    destruct (Bridge.isComplete f); [eapply framed_put; eassumption|].
    destruct (Bridge.mcpProcess s); [|eapply framed_put; eassumption].
    eapply (framed_keep s); [reflexivity| |exact Hf].
    intros i. simpl. eapply (expected_at_put s j c _ i Hj). exact Hex.
Qed.

End Frames.

(** X7.  In every reachable state, what a call has written to stdin is
    determined by its phase: a dispatched call has written exactly one
    frame, the [tools/call] request with its request id, tool name and
    arguments; a call that is waiting for readiness, has failed the wait or
    was refused has written nothing.  No request is written twice and none
    is rewritten when the response, the timer or the exit of the provider
    comes. *)
Theorem call_writes_its_request_once
    (parse : string -> option json) (trace : list Bridge.event) (i : nat) :
  let s := Bridge.run parse Bridge.startMCPServer trace in
  Obs.frames_of i s
  = match Bridge.calls s !! i with
    | Some c =>
        match Bridge.phase_of c with
        | Bridge.Sent f =>
            [Bridge.request (Bridge.reqid f) (Bridge.toolName c) (Bridge.params c)]
        | _ => []
        end
    | None => []
    end.
Proof.
  intros s.
  assert (H : Obs.framed s).
  { apply (run_invariant parse (fun _ => True) Obs.framed).
    - intros s0 e _. apply step_framed.
    - apply Forall_forall. intros; exact I.
    - intros j. reflexivity. }
  apply (H i).
Qed.

(** ** Banners, handshakes and the ready flag *)

Section Handshakes.

Variable parse : string -> option json.

Lemma deliver_handshakes_length (data : string) (s : Bridge.bridge) (h : listener) :
  length (Bridge.handshakes (Bridge.deliver parse data s h))
  = length (Bridge.handshakes s).
Proof.
  destruct h as [|k|i]; simpl; [reflexivity| |].
  - unfold Bridge.init_dataHandler.
    destruct (Bridge.handshakes s !! k) as [[|h|]|]; try reflexivity.
    destruct (Bridge.init_lines parse (Bridge.mcpProcess s)
                (Text.split_nl (Bridge.h_responseData h +:+ data)));
      try (simpl; apply length_insert).
    destruct (is_settled (Bridge.h_promise h)); simpl; apply length_insert.
  - destruct (Bridge.calls s !! i) as [c|]; [|reflexivity].
    destruct (Bridge.phase_of c); try reflexivity.
    destruct (Bridge.dataHandler parse (Bridge.mcpProcess s) f data) as [[f' r] log].
    destruct (Bridge.unregistered _ _ _); reflexivity.
Qed.

Lemma step_handshakes_length (s : Bridge.bridge) (e : Bridge.event) :
  length (Bridge.handshakes (Bridge.step parse s e))
  = length (Bridge.handshakes s) + Obs.banners [e].
Proof.
  destruct e as [chunk|chunk| |k|k|tool args now rnd|i now rnd|i]; simpl;
    rewrite ?Nat.add_0_r.
  - apply (emit_invariant parse
             (fun s' => length (Bridge.handshakes s') = length (Bridge.handshakes s)));
      [|reflexivity].
    intros s0 h H0. rewrite deliver_handshakes_length. exact H0.
  - unfold Bridge.stderr_listener. destruct (Bridge.is_banner chunk); simpl.
    + rewrite length_app. reflexivity.
    + lia.
  - reflexivity.
  - unfold Bridge.banner_timer.
    destruct (Bridge.handshakes s !! k) as [[|h|]|]; try reflexivity.
    unfold Bridge.initializeMCPServer.
    destruct (Bridge.mcpProcess s); simpl; apply length_insert.
  - unfold Bridge.handshake_timeout.
    destruct (Bridge.handshakes s !! k) as [[|h|]|]; try reflexivity.
    destruct (Bridge.h_timeout_armed h); [simpl; apply length_insert|reflexivity].
  - unfold Bridge.callMCPTool. destruct (negb (Bridge.mcpProcess s)); [reflexivity|].
    match goal with
    | |- context [Bridge.readiness_loop ?s0 ?i ?c ?n ?r] =>
        destruct (readiness_loop_keeps s0 i c n r) as (Hh & _); rewrite Hh
    end.
    reflexivity.
  - unfold Bridge.poll_timer.
    destruct (Bridge.calls s !! i) as [c|]; [|reflexivity].
    destruct (Bridge.phase_of c); try reflexivity.
    match goal with
    | |- context [Bridge.readiness_loop ?s0 ?i ?c ?n ?r] =>
        destruct (readiness_loop_keeps s0 i c n r) as (Hh & _); rewrite Hh
    end.
    reflexivity.
  - unfold Bridge.call_timeout.
    destruct (Bridge.calls s !! i) as [c|]; [|reflexivity].
    destruct (Bridge.phase_of c); try reflexivity.
    destruct (Bridge.timeout_armed f); [|reflexivity].
    destruct (Bridge.isComplete f); [reflexivity|].
    destruct (Bridge.mcpProcess s); reflexivity.
Qed.

Lemma run_handshakes_length (trace : list Bridge.event) (s : Bridge.bridge) :
  length (Bridge.handshakes (Bridge.run parse s trace))
  = length (Bridge.handshakes s) + Obs.banners trace.
Proof.
  revert s. induction trace as [|e trace IH]; intros s; [simpl; lia|].
  change (Bridge.run parse s (e :: trace))
    with (Bridge.run parse (Bridge.step parse s e) trace).
  rewrite IH, step_handshakes_length.
  destruct e as [chunk|chunk| |k|k|tool args now rnd|i now rnd|i]; simpl; lia.
Qed.

End Handshakes.

(** X8.  Every stderr chunk that passes the banner test schedules a
    handshake of its own, whatever the state of the bridge: after any trace
    the number of handshakes equals the number of banner chunks seen.  No
    event removes a handshake, and a banner seen while a handshake is
    pending or after the bridge is ready schedules another one. *)
Theorem every_banner_schedules_a_handshake
    (parse : string -> option json) (trace : list Bridge.event) :
  length (Bridge.handshakes (Bridge.run parse Bridge.startMCPServer trace))
  = Obs.banners trace.
Proof. rewrite run_handshakes_length. reflexivity. Qed.

(** *** The banner test *)

Lemma substring_none (m : nat) (s : string) : String.substring m 0 s = EmptyString.
Proof.
  revert m. induction s as [|c s IH]; intros [|m]; simpl; auto.
Qed.

Lemma substring_app_l (hay post x : string) (m : nat) :
  String.substring m (String.length x) hay = x ->
  String.substring m (String.length x) (hay +:+ post) = x.
Proof.
  revert m x. induction hay as [|c hay IH]; intros m x Hx.
  - assert (x = EmptyString) as ->.
    { destruct m, x; simpl in Hx; congruence. }
    apply substring_none.
  - destruct m as [|m].
    + destruct x as [|d x]; [reflexivity|].
      simpl in Hx. injection Hx as -> Hx.
      change (String d (String.substring 0 (String.length x) (hay +:+ post)) = String d x).
      f_equal. apply IH, Hx.
    + change (String.substring m (String.length x) (hay +:+ post) = x).
      apply IH. exact Hx.
Qed.

Lemma substring_app_r (pre s : string) (m n : nat) :
  String.substring (String.length pre + m) n (pre +:+ s) = String.substring m n s.
Proof.
  induction pre as [|c pre IH]; [reflexivity|]. exact IH.
Qed.

(** [hay.includes(needle)] holds exactly when [needle] occurs at some
    position of [hay]. *)
Lemma includes_substring (hay needle : string) :
  needle <> EmptyString ->
  Text.includes hay needle = true
  <-> exists m, String.substring m (String.length needle) hay = needle.
Proof.
  intros Hne. unfold Text.includes. split.
  - destruct (String.index 0 needle hay) as [m|] eqn:Hi; [|discriminate].
    intros _. exists m. eapply String.index_correct1, Hi.
  - intros (m & Hm). destruct (String.index 0 needle hay) as [k|] eqn:Hi; [reflexivity|].
    exfalso. apply (String.index_correct3 0 m needle hay Hi Hne); [lia|exact Hm].
Qed.

Lemma includes_context (pre hay post needle : string) :
  needle <> EmptyString ->
  Text.includes hay needle = true ->
  Text.includes (pre +:+ hay +:+ post) needle = true.
Proof.
  intros Hne Hin. apply (includes_substring _ _ Hne).
  apply (includes_substring _ _ Hne) in Hin as (m & Hm).
  exists (String.length pre + m). rewrite substring_app_r.
  apply substring_app_l, Hm.
Qed.

(** X9.  The banner test looks for its markers anywhere in the chunk: a
    text that passes the test still passes it with any text before and
    after it in the same stderr chunk (a log prefix, colour codes, further
    lines), and the chunk schedules a handshake. *)
Theorem banner_detected_inside_longer_chunk
    (parse : string -> option json) (s : Bridge.bridge) (pre output post : string) :
  Bridge.is_banner output = true ->
  Bridge.is_banner (pre +:+ output +:+ post) = true
  /\ Bridge.handshakes (Bridge.step parse s (Bridge.StderrData (pre +:+ output +:+ post)))
     = Bridge.handshakes s ++ [Bridge.Scheduled].
Proof.
  intros H.
  assert (Hb : Bridge.is_banner (pre +:+ output +:+ post) = true).
  { unfold Bridge.is_banner in *.
    apply andb_true_iff in H as (H1 & H2). apply andb_true_iff. split.
    - apply orb_true_iff in H1 as [H1|H1]; apply orb_true_iff; [left|right];
        (apply includes_context; [discriminate|exact H1]).
    - apply orb_true_iff in H2 as [H2|H2]; apply orb_true_iff.
      + apply orb_true_iff in H2 as [H2|H2]; left; apply orb_true_iff; [left|right];
          (apply includes_context; [discriminate|exact H2]).
      + right. apply includes_context; [discriminate|exact H2]. }
  split; [exact Hb|].
  simpl. unfold Bridge.stderr_listener. rewrite Hb. reflexivity.
Qed.

Lemma banner_detected_inside_longer_chunk_witness :
  let pre := "[05/12/25 10:00:01] INFO  " in
  let post := String Text.nl "Transport: STDIO" in
  Bridge.is_banner Sample.banner = true
  /\ Bridge.is_banner (pre +:+ Sample.banner +:+ post) = true
  /\ Bridge.handshakes
       (Bridge.step Json.parse Sample.ready
          (Bridge.StderrData (pre +:+ Sample.banner +:+ post)))
     = Bridge.handshakes Sample.ready ++ [Bridge.Scheduled].
Proof.
  intros pre post. split; [reflexivity|].
  apply (banner_detected_inside_longer_chunk Json.parse Sample.ready pre Sample.banner post).
  reflexivity.
Defined.

Section ReadyMonotone.

Variable parse : string -> option json.

Lemma deliver_ready (data : string) (s : Bridge.bridge) (h : listener) :
  Bridge.serverReady s = true ->
  Bridge.serverReady (Bridge.deliver parse data s h) = true.
Proof.
  intros Hr. destruct h as [|k|i]; simpl; [exact Hr| |].
  - unfold Bridge.init_dataHandler.
    destruct (Bridge.handshakes s !! k) as [[|h|]|]; try exact Hr.
    destruct (Bridge.init_lines parse (Bridge.mcpProcess s)
                (Text.split_nl (Bridge.h_responseData h +:+ data))); try exact Hr.
    destruct (is_settled (Bridge.h_promise h)); [exact Hr|reflexivity].
  - destruct (Bridge.calls s !! i) as [c|]; [|exact Hr].
    destruct (Bridge.phase_of c); try exact Hr.
    destruct (Bridge.dataHandler parse (Bridge.mcpProcess s) f data) as [[f' r] log].
    destruct (Bridge.unregistered _ _ _); exact Hr.
Qed.

Lemma step_ready (s : Bridge.bridge) (e : Bridge.event) :
  Bridge.serverReady s = true -> Bridge.serverReady (Bridge.step parse s e) = true.
Proof.
  intros Hr. destruct e as [chunk|chunk| |k|k|tool args now rnd|i now rnd|i]; simpl.
  - apply emit_invariant; [|exact Hr]. intros s0 h. apply deliver_ready.
  - unfold Bridge.stderr_listener. destruct (Bridge.is_banner chunk); exact Hr.
  - exact Hr.
  - unfold Bridge.banner_timer.
    destruct (Bridge.handshakes s !! k) as [[|h|]|]; try exact Hr.
    unfold Bridge.initializeMCPServer. destruct (Bridge.mcpProcess s); exact Hr.
  - unfold Bridge.handshake_timeout.
    destruct (Bridge.handshakes s !! k) as [[|h|]|]; try exact Hr.
    destruct (Bridge.h_timeout_armed h); exact Hr.
  - unfold Bridge.callMCPTool. destruct (negb (Bridge.mcpProcess s)); [exact Hr|].
    match goal with
    | |- context [Bridge.readiness_loop ?s0 ?i ?c ?n ?r] =>
        destruct (readiness_loop_keeps s0 i c n r) as (_ & Hh & _); rewrite Hh
    end.
    exact Hr.
  - unfold Bridge.poll_timer.
    destruct (Bridge.calls s !! i) as [c|]; [|exact Hr].
    destruct (Bridge.phase_of c); try exact Hr.
    match goal with
    | |- context [Bridge.readiness_loop ?s0 ?i ?c ?n ?r] =>
        destruct (readiness_loop_keeps s0 i c n r) as (_ & Hh & _); rewrite Hh
    end.
    exact Hr.
  - unfold Bridge.call_timeout.
    destruct (Bridge.calls s !! i) as [c|]; [|exact Hr].
    destruct (Bridge.phase_of c); try exact Hr.
    destruct (Bridge.timeout_armed f); [|exact Hr].
    destruct (Bridge.isComplete f); [exact Hr|].
    destruct (Bridge.mcpProcess s); exact Hr.
Qed.

End ReadyMonotone.

(** X10.  The ready flag is never reset: once a handshake has set it, it
    stays set whatever follows, also after the provider has exited and after
    a later handshake has timed out. *)
Theorem ready_flag_is_never_reset
    (parse : string -> option json) (later : list Bridge.event) (s : Bridge.bridge) :
  Bridge.serverReady s = true ->
  Bridge.serverReady (Bridge.run parse s later) = true.
Proof.
  intros Hr.
  apply (run_invariant parse (fun _ => True) (fun s0 => Bridge.serverReady s0 = true)).
  - intros s0 e _. apply step_ready.
  - apply Forall_forall. intros; exact I.
  - exact Hr.
Qed.

(** Ready, then a second banner whose handshake times out, then the exit of
    the provider. *)
Lemma ready_flag_is_never_reset_witness :
  let later := [Bridge.StderrData Sample.banner; Bridge.BannerTimer 1;
                Bridge.HandshakeTimeout 1; Bridge.ProcessClose] in
  Bridge.serverReady Sample.ready = true
  /\ Bridge.mcpProcess (Bridge.run Json.parse Sample.ready later) = false
  /\ Bridge.serverReady (Bridge.run Json.parse Sample.ready later) = true.
Proof.
  intros later. split; [reflexivity|]. split; [reflexivity|].
  apply (ready_flag_is_never_reset Json.parse later Sample.ready). reflexivity.
Defined.

Section Spent.

Variable parse : string -> option json.

Lemma spent_insert (hs : list Bridge.handshake) (k : nat) (h : Bridge.handshake) :
  Obs.spent h -> Forall Obs.spent hs -> Forall Obs.spent (<[k := h]> hs).
Proof. intros Hh Hs. apply Forall_insert; assumption. Qed.

Lemma settle_settled (p q : promise) :
  is_settled p = true -> is_settled (settle p q) = true.
Proof. destruct p; simpl; auto. discriminate. Qed.

Lemma deliver_stuck (data : string) (s : Bridge.bridge) (h : listener) :
  Obs.stuck s -> Obs.stuck (Bridge.deliver parse data s h).
Proof.
  intros (Hr & Hs). destruct h as [|k|i]; simpl; [split; assumption| |].
  - unfold Bridge.init_dataHandler.
    destruct (Bridge.handshakes s !! k) as [[|h|]|] eqn:Hk; try (split; assumption).
    assert (Hh : is_settled (Bridge.h_promise h) = true).
    { rewrite Forall_lookup in Hs. apply (Hs k _ Hk). }
    destruct (Bridge.init_lines parse (Bridge.mcpProcess s)
                (Text.split_nl (Bridge.h_responseData h +:+ data)));
      try (split; [exact Hr|]; apply spent_insert; [exact Hh|exact Hs]).
    rewrite Hh. split; [exact Hr|]. simpl.
    apply spent_insert; [|exact Hs]. simpl. apply settle_settled, Hh.
  - destruct (Bridge.calls s !! i) as [c|]; [|split; assumption].
    destruct (Bridge.phase_of c); try (split; assumption).
    destruct (Bridge.dataHandler parse (Bridge.mcpProcess s) f data) as [[f' r] log].
    destruct (Bridge.unregistered _ _ _); split; assumption.
Qed.

Lemma step_stuck (s : Bridge.bridge) (e : Bridge.event) :
  Inv.no_banner e -> Obs.stuck s -> Obs.stuck (Bridge.step parse s e).
Proof.
  intros He Hst. pose proof Hst as (Hr & Hs).
  destruct e as [chunk|chunk| |k|k|tool args now rnd|i now rnd|i]; simpl.
  - apply emit_invariant; [|exact Hst]. intros s0 h. apply deliver_stuck.
  - unfold Bridge.stderr_listener. simpl in He. rewrite He. exact Hst.
  - exact Hst.
  - unfold Bridge.banner_timer.
    destruct (Bridge.handshakes s !! k) as [[|h|]|] eqn:Hk; try exact Hst.
    rewrite Forall_lookup in Hs. destruct (Hs k _ Hk).
  - unfold Bridge.handshake_timeout.
    destruct (Bridge.handshakes s !! k) as [[|h|]|] eqn:Hk; try exact Hst.
    destruct (Bridge.h_timeout_armed h); [|exact Hst].
    split; [exact Hr|]. simpl. apply spent_insert; [|exact Hs]. simpl.
    apply settle_settled. rewrite Forall_lookup in Hs. apply (Hs k _ Hk).
  - unfold Bridge.callMCPTool. destruct (negb (Bridge.mcpProcess s)); [exact Hst|].
    match goal with
    | |- context [Bridge.readiness_loop ?s0 ?i ?c ?n ?r] =>
        destruct (readiness_loop_keeps s0 i c n r) as (Hh & Hy & _)
    end.
    split; [rewrite Hy; exact Hr | rewrite Hh; exact Hs].
  - unfold Bridge.poll_timer.
    destruct (Bridge.calls s !! i) as [c|]; [|exact Hst].
    destruct (Bridge.phase_of c); try exact Hst.
    match goal with
    | |- context [Bridge.readiness_loop ?s0 ?i ?c ?n ?r] =>
        destruct (readiness_loop_keeps s0 i c n r) as (Hh & Hy & _)
    end.
    split; [rewrite Hy; exact Hr | rewrite Hh; exact Hs].
  - unfold Bridge.call_timeout.
    destruct (Bridge.calls s !! i) as [c|]; [|exact Hst].
    destruct (Bridge.phase_of c); try exact Hst.
    destruct (Bridge.timeout_armed f); [|exact Hst].
    destruct (Bridge.isComplete f); [exact Hst|].
    destruct (Bridge.mcpProcess s); exact Hst.
Qed.

End Spent.

(** X11.  A handshake is not retried.  Once every handshake has been refused
    or has a settled promise (its 10000 ms timer has rejected it) and the
    flag is unset, the flag stays unset until a new banner is seen: the
    response to the [initialize] request arriving after the timeout does not
    set it, although the listener is still registered and handles it. *)
Theorem failed_handshake_is_not_retried
    (parse : string -> option json) (later : list Bridge.event) (s : Bridge.bridge) :
  Bridge.serverReady s = false ->
  Forall Obs.spent (Bridge.handshakes s) ->
  Forall Inv.no_banner later ->
  Bridge.serverReady (Bridge.run parse s later) = false.
Proof.
  intros Hr Hs Hl.
  apply (run_invariant parse Inv.no_banner Obs.stuck (step_stuck parse) later s Hl).
  split; assumption.
Qed.

(** The handshake times out; its response arrives afterwards and is answered
    with the notification. *)
Lemma failed_handshake_is_not_retried_witness :
  let s := Bridge.run Json.parse Bridge.startMCPServer
             [Bridge.StderrData Sample.banner; Bridge.BannerTimer 0;
              Bridge.HandshakeTimeout 0] in
  let later := [Bridge.StdoutData (Json.line (Sample.response 0 (JObj [])));
                Bridge.CallTool "get_recent_emails" Sample.args 101 0] in
  (Bridge.serverReady s = false
   /\ Forall Obs.spent (Bridge.handshakes s)
   /\ Forall Inv.no_banner later)
  /\ Bridge.stdin (Bridge.run Json.parse s later)
     = [(ByInit 0, Bridge.initRequest); (ByInit 0, Bridge.initNotification)]
  /\ Bridge.serverReady (Bridge.run Json.parse s later) = false.
Proof.
  intros s later.
  assert (Hs : Forall Obs.spent (Bridge.handshakes s)).
  { apply Forall_cons. split; [reflexivity|apply Forall_nil_2]. }
  assert (Hl : Forall Inv.no_banner later).
  { apply Forall_cons. split; [exact I|].
    apply Forall_cons. split; [exact I|apply Forall_nil_2]. }
  split; [split; [reflexivity|split; [exact Hs|exact Hl]]|].
  split; [reflexivity|].
  apply (failed_handshake_is_not_retried Json.parse later s eq_refl Hs Hl).
Defined.

Section Poisoned.

Variable parse : string -> option json.

(** Whether the loop is left by an exception does not depend on the
    handle. *)
Lemma init_lines_aborted_live (live live' : bool) (lines : list string) :
  Bridge.init_lines parse live lines = Bridge.Aborted ->
  Bridge.init_lines parse live' lines = Bridge.Aborted.
Proof.
  induction lines as [|l rest IH]; cbn [Bridge.init_lines]; [discriminate|].
  destruct (Text.is_empty (Text.trim l)); [exact IH|].
  destruct (parse (Text.trim l)) as [response|]; [|reflexivity].
  destruct (Js.get (Val response) "id") as [idv|]; [|reflexivity].
  destruct (Js.strict_eq_num idv 0); [|exact IH].
  destruct live; discriminate.
Qed.

Lemma init_dataHandler_ne (k' k : nat) (s : Bridge.bridge) (data : string) :
  k' <> k ->
  Bridge.handshakes (Bridge.init_dataHandler parse k' s data) !! k
  = Bridge.handshakes s !! k.
Proof.
  intros Hne. unfold Bridge.init_dataHandler.
  destruct (Bridge.handshakes s !! k') as [[|h|]|]; try reflexivity.
  destruct (Bridge.init_lines parse (Bridge.mcpProcess s)
              (Text.split_nl (Bridge.h_responseData h +:+ data)));
    try (simpl; apply list_lookup_insert_ne; congruence).
  destruct (is_settled (Bridge.h_promise h)); simpl;
    apply list_lookup_insert_ne; congruence.
Qed.

Lemma deliver_poisoned (data : string) (k : nat) (s : Bridge.bridge) (h : listener) :
  Obs.poisoned parse k s -> Obs.poisoned parse k (Bridge.deliver parse data s h).
Proof.
  intros (h0 & Hk & Hab & Hpr). destruct h as [|k'|i]; simpl.
  - exists h0. auto.
  - destruct (decide (k' = k)) as [->|Hne].
    + unfold Bridge.init_dataHandler. rewrite Hk.
      rewrite (init_lines_aborts_forever parse (Bridge.mcpProcess s)
                 (Bridge.h_responseData h0) data)
        by (eapply init_lines_aborted_live, Hab).
      eexists. split; [simpl; apply list_lookup_insert_eq; eapply lookup_lt_Some, Hk|].
      simpl. split; [|exact Hpr].
      rewrite complete_lines_app, init_lines_app, Hab. reflexivity.
    + exists h0. rewrite init_dataHandler_ne by exact Hne. auto.
  - exists h0.
    destruct (Bridge.calls s !! i) as [c|]; [|auto].
    destruct (Bridge.phase_of c); auto.
    destruct (Bridge.dataHandler parse (Bridge.mcpProcess s) f data) as [[f' r] log].
    destruct (Bridge.unregistered _ _ _); auto.
Qed.

Lemma step_poisoned (k : nat) (s : Bridge.bridge) (e : Bridge.event) :
  Obs.poisoned parse k s -> Obs.poisoned parse k (Bridge.step parse s e).
Proof.
  intros Hp. pose proof Hp as (h0 & Hk & Hab & Hpr).
  destruct e as [chunk|chunk| |k'|k'|tool args now rnd|i now rnd|i]; simpl.
  - apply emit_invariant; [|exact Hp]. intros s0 h. apply deliver_poisoned.
  - unfold Bridge.stderr_listener. destruct (Bridge.is_banner chunk); [|exact Hp].
    exists h0. simpl. rewrite lookup_app_l by (eapply lookup_lt_Some, Hk). auto.
  - exact Hp.
  - unfold Bridge.banner_timer. destruct (decide (k' = k)) as [->|Hne].
    + rewrite Hk. exact Hp.
    + destruct (Bridge.handshakes s !! k') as [[|h|]|]; try exact Hp.
      exists h0. unfold Bridge.initializeMCPServer.
      destruct (Bridge.mcpProcess s); simpl;
        (rewrite list_lookup_insert_ne by congruence); auto.
  - unfold Bridge.handshake_timeout. destruct (decide (k' = k)) as [->|Hne].
    + rewrite Hk. destruct (Bridge.h_timeout_armed h0); [|exact Hp].
      eexists. split; [simpl; apply list_lookup_insert_eq; eapply lookup_lt_Some, Hk|].
      simpl. split; [exact Hab|].
      destruct Hpr as [-> | ->]; simpl; auto.
    + destruct (Bridge.handshakes s !! k') as [[|h|]|]; try exact Hp.
      destruct (Bridge.h_timeout_armed h); [|exact Hp].
      exists h0. simpl. rewrite list_lookup_insert_ne by congruence. auto.
  - unfold Bridge.callMCPTool. destruct (negb (Bridge.mcpProcess s)); [exact Hp|].
    match goal with
    | |- context [Bridge.readiness_loop ?s0 ?i ?c ?n ?r] =>
        destruct (readiness_loop_keeps s0 i c n r) as (Hh & _)
    end.
    exists h0. rewrite Hh. auto.
  - unfold Bridge.poll_timer.
    destruct (Bridge.calls s !! i) as [c|]; [|exact Hp].
    destruct (Bridge.phase_of c); try exact Hp.
    match goal with
    | |- context [Bridge.readiness_loop ?s0 ?i ?c ?n ?r] =>
        destruct (readiness_loop_keeps s0 i c n r) as (Hh & _)
    end.
    exists h0. rewrite Hh. auto.
  - unfold Bridge.call_timeout.
    destruct (Bridge.calls s !! i) as [c|]; [|exact Hp].
    destruct (Bridge.phase_of c); try exact Hp.
    destruct (Bridge.timeout_armed f); [|exact Hp].
    destruct (Bridge.isComplete f); [exact Hp|].
    destruct (Bridge.mcpProcess s); exact Hp.
Qed.

End Poisoned.

(** X12.  The handshake listener does not recover from a line it cannot
    handle.  Once the buffer of a handshake holds a complete line that is
    not JSON, or is the JSON [null], before any line with id 0, every later
    pass of its listener parses the whole buffer again and leaves the loop at
    that line: whatever events follow, the promise of this handshake is
    never resolved. *)
Theorem handshake_never_recovers_from_bad_line
    (parse : string -> option json) (later : list Bridge.event)
    (s : Bridge.bridge) (k : nat) (h : Bridge.handshaking) :
  Bridge.handshakes s !! k = Some (Bridge.Started h) ->
  Bridge.init_lines parse true (Text.complete_lines (Bridge.h_responseData h))
  = Bridge.Aborted ->
  Bridge.h_promise h = Unsettled ->
  exists h', Bridge.handshakes (Bridge.run parse s later) !! k = Some (Bridge.Started h')
             /\ (Bridge.h_promise h' = Unsettled
                 \/ Bridge.h_promise h' = Rejected HandshakeTimeoutError).
Proof.
  intros Hk Hab Hpr.
  assert (H : Obs.poisoned parse k (Bridge.run parse s later)).
  { apply (run_invariant parse (fun _ => True) (Obs.poisoned parse k)).
    - intros s0 e _. apply step_poisoned.
    - apply Forall_forall. intros; exact I.
    - exists h. auto. }
  destruct H as (h' & Hk' & _ & Hpr'). exists h'. auto.
Qed.

(** A log line reaches the handshake listener before the response; the
    response, the timer and a second response follow. *)
Lemma handshake_never_recovers_from_bad_line_witness :
  let s := Bridge.run Json.parse Bridge.startMCPServer
             [Bridge.StderrData Sample.banner; Bridge.BannerTimer 0;
              Bridge.StdoutData Sample.noise] in
  let later := [Bridge.StdoutData (Json.line (Sample.response 0 (JObj [])));
                Bridge.HandshakeTimeout 0;
                Bridge.StdoutData (Json.line (Sample.response 0 (JObj [])))] in
  let h := Bridge.mkHandshaking Sample.noise true Unsettled in
  Bridge.handshakes s !! 0 = Some (Bridge.Started h)
  /\ exists h', Bridge.handshakes (Bridge.run Json.parse s later) !! 0
                = Some (Bridge.Started h')
                /\ (Bridge.h_promise h' = Unsettled
                    \/ Bridge.h_promise h' = Rejected HandshakeTimeoutError).
Proof.
  intros s later h. split; [reflexivity|].
  apply (handshake_never_recovers_from_bad_line Json.parse later s 0 h); reflexivity.
Defined.

(** ** The end of the readiness wait *)

(** X13.  A call that has found the bridge unready at each of its polls so
    far is dispatched by the first poll that finds the ready flag set, also
    when this is the fifteenth: the request id is drawn at that moment, from
    the clock and the random number of the dispatch and not of the
    invocation, the request is appended to stdin and the listener of the
    call is appended to the listeners on stdout. *)
Theorem call_dispatched_by_first_ready_poll
    (parse : string -> option json) (later : list Bridge.event)
    (s : Bridge.bridge) (i n : nat) (tool : string) (args : json) (now rnd : Z) :
  let s1 := Bridge.run parse s later in
  let s2 := Bridge.step parse s1 (Bridge.PollTimer i now rnd) in
  Bridge.calls s !! i = Some (Bridge.mkCall tool args n Bridge.Polling Unsettled) ->
  Inv.unready_at_polls parse i s later ->
  n + Inv.polls i later < Bridge.maxAttempts ->
  Bridge.mcpProcess s1 = true ->
  Bridge.serverReady s1 = true ->
  Bridge.calls s2 !! i
  = Some (Bridge.mkCall tool args (S (n + Inv.polls i later))
            (Bridge.Sent (Bridge.fresh (now + rnd))) Unsettled)
  /\ Bridge.stdin s2
     = Bridge.stdin s1 ++ [(ByCall i, Bridge.request (now + rnd) tool args)]
  /\ Bridge.stdout_listeners s2 = Bridge.stdout_listeners s1 ++ [CallListener i].
Proof.
  intros s1 s2 Hi Hun Hlt Hlive Hready.
  assert (Hn : n < Bridge.maxAttempts) by lia.
  pose proof (wait_progress parse later s i n tool args Hn Hi Hun) as Hc.
  fold s1 in Hc.
  assert (Hb : (n + Inv.polls i later <? Bridge.maxAttempts) = true)
    by (apply Nat.ltb_lt, Hlt).
  rewrite Hb in Hc.
  unfold s2. simpl. unfold Bridge.poll_timer. rewrite Hc. simpl.
  unfold Bridge.readiness_loop. simpl. rewrite Hlive, Hready. simpl.
  split; [|split; reflexivity].
  rewrite list_lookup_insert_eq by (eapply lookup_lt_Some, Hc). reflexivity.
Qed.

(** A call made before the banner: two polls find the bridge unready, the
    handshake completes, the third poll dispatches. *)
Lemma call_dispatched_by_first_ready_poll_witness :
  let s := Bridge.run Json.parse Bridge.startMCPServer
             [Bridge.CallTool "get_recent_emails" Sample.args 1000 7] in
  let later := [Bridge.PollTimer 0 1500 1; Bridge.StderrData Sample.banner;
                Bridge.PollTimer 0 2000 2; Bridge.BannerTimer 0;
                Bridge.StdoutData (Json.line (Sample.response 0 (JObj [])))] in
  let s1 := Bridge.run Json.parse s later in
  let s2 := Bridge.step Json.parse s1 (Bridge.PollTimer 0 2500 3) in
  (Bridge.calls s !! 0
   = Some (Bridge.mkCall "get_recent_emails" Sample.args 0 Bridge.Polling Unsettled)
   /\ Inv.unready_at_polls Json.parse 0 s later)
  /\ Bridge.calls s2 !! 0
     = Some (Bridge.mkCall "get_recent_emails" Sample.args 3
               (Bridge.Sent (Bridge.fresh 2503)) Unsettled)
  /\ Bridge.stdin s2
     = Bridge.stdin s1
       ++ [(ByCall 0, Bridge.request 2503 "get_recent_emails" Sample.args)]
  /\ Bridge.stdout_listeners s2 = Bridge.stdout_listeners s1 ++ [CallListener 0].
Proof.
  intros s later s1 s2.
  assert (Hun : Inv.unready_at_polls Json.parse 0 s later).
  { vm_compute. repeat split. }
  split; [split; [reflexivity|exact Hun]|].
  apply (call_dispatched_by_first_ready_poll Json.parse later s 0 0
           "get_recent_emails" Sample.args 2500 3);
    [reflexivity | exact Hun | vm_compute; lia | reflexivity | reflexivity].
Defined.

(** ** The handshake listener *)

Section Listening.

Variable parse : string -> option json.

Lemma listening_keep (s s' : Bridge.bridge) :
  Bridge.handshakes s' = Bridge.handshakes s ->
  (forall k, InitListener k ∈ Bridge.stdout_listeners s ->
     InitListener k ∈ Bridge.stdout_listeners s') ->
  Obs.listening s -> Obs.listening s'.
Proof.
  intros Hh Hl H k h Hk Hp. apply Hl. rewrite Hh in Hk. apply (H k h Hk Hp).
Qed.

Lemma listening_insert (s s' : Bridge.bridge) (k : nat) (h' : Bridge.handshake) :
  Bridge.handshakes s' = <[k := h']> (Bridge.handshakes s) ->
  (forall j, j <> k -> InitListener j ∈ Bridge.stdout_listeners s ->
     InitListener j ∈ Bridge.stdout_listeners s') ->
  (forall h, h' = Bridge.Started h -> Bridge.h_promise h = Unsettled ->
     InitListener k ∈ Bridge.stdout_listeners s') ->
  Obs.listening s -> Obs.listening s'.
Proof.
  intros Hh Hl Hnew H j h Hj Hp. rewrite Hh in Hj.
  destruct (decide (j = k)) as [->|Hne].
  - apply list_lookup_insert_Some in Hj as [(_ & Heq & _) | (Hne & _)]; [|congruence].
    apply (Hnew h); [exact Heq|exact Hp].
  - rewrite list_lookup_insert_ne in Hj by congruence.
    apply Hl; [exact Hne|]. apply (H j h Hj Hp).
Qed.

Lemma remove_listener_keeps (h x : listener) (ls : list listener) :
  x <> h -> x ∈ ls -> x ∈ remove_listener h ls.
Proof. intros Hne Hx. apply elem_of_remove_listener. auto. Qed.

Lemma readiness_loop_listeners (s : Bridge.bridge) (i : nat) (c : Bridge.call)
      (now rnd : Z) (x : listener) :
  x ∈ Bridge.stdout_listeners s ->
  x ∈ Bridge.stdout_listeners (Bridge.readiness_loop s i c now rnd).
Proof.
  intros Hx. unfold Bridge.readiness_loop.
  destruct (negb (Bridge.mcpProcess s)); [exact Hx|].
  destruct (negb (Bridge.serverReady s) && (Bridge.attempts c <? Bridge.maxAttempts));
    [exact Hx|].
  destruct (negb (Bridge.serverReady s)); [exact Hx|].
  simpl. apply elem_of_app. left. exact Hx.
Qed.

Lemma deliver_listening (data : string) (s : Bridge.bridge) (h : listener) :
  Obs.listening s -> Obs.listening (Bridge.deliver parse data s h).
Proof.
  intros H. destruct h as [|k|i]; simpl; [exact H| |].
  - unfold Bridge.init_dataHandler.
    destruct (Bridge.handshakes s !! k) as [[|h|]|] eqn:Hk; try exact H.
    destruct (Bridge.init_lines parse (Bridge.mcpProcess s)
                (Text.split_nl (Bridge.h_responseData h +:+ data))).
    1-3: eapply (listening_insert s _ k); [reflexivity| | |exact H]; simpl;
         [intros j _ Hj; exact Hj
         |intros h1 Heq Hp1; injection Heq as <-; simpl in Hp1; apply (H k h Hk Hp1)].
    destruct (is_settled (Bridge.h_promise h)) eqn:Hs;
      (eapply (listening_insert s _ k); [reflexivity| | |exact H]; simpl;
       [intros j Hne Hj; apply remove_listener_keeps; [congruence|exact Hj]
       |intros h1 Heq Hp1; injection Heq as <-; simpl in Hp1;
        destruct (Bridge.h_promise h); discriminate]).
  - destruct (Bridge.calls s !! i) as [c|]; [|exact H].
    destruct (Bridge.phase_of c); try exact H.
    destruct (Bridge.dataHandler parse (Bridge.mcpProcess s) f data) as [[f' r] log].
    destruct (Bridge.unregistered _ _ _).
    + eapply (listening_keep s); [reflexivity| |exact H]. simpl.
      intros k Hk. apply remove_listener_keeps; [discriminate|exact Hk].
    + exact H.
Qed.

Lemma step_listening (s : Bridge.bridge) (e : Bridge.event) :
  Obs.listening s -> Obs.listening (Bridge.step parse s e).
Proof.
  intros H. destruct e as [chunk|chunk| |k|k|tool args now rnd|i now rnd|i]; simpl.
  - apply emit_invariant; [|exact H]. intros s0 h. apply deliver_listening.
  - unfold Bridge.stderr_listener. destruct (Bridge.is_banner chunk); [|exact H].
    intros j h Hj Hp. simpl in Hj |- *.
    apply lookup_app_Some in Hj as [Hj|[_ Hj]]; [apply (H j h Hj Hp)|].
    apply list_lookup_singleton_Some in Hj as [_ Hj]. discriminate.
  - exact H.
  - unfold Bridge.banner_timer.
    destruct (Bridge.handshakes s !! k) as [[|h|]|] eqn:Hk; try exact H.
    unfold Bridge.initializeMCPServer. destruct (Bridge.mcpProcess s).
    + eapply (listening_insert s _ k); [reflexivity| | |exact H]; simpl.
      * intros j _ Hj. apply elem_of_app. left. exact Hj.
      * intros h1 _ _. apply elem_of_app. right. apply list_elem_of_singleton. reflexivity.
    + eapply (listening_insert s _ k); [reflexivity| | |exact H]; simpl.
      * intros j _ Hj. exact Hj.
      * intros h1 Heq. discriminate.
  - unfold Bridge.handshake_timeout.
    destruct (Bridge.handshakes s !! k) as [[|h|]|] eqn:Hk; try exact H.
    destruct (Bridge.h_timeout_armed h); [|exact H].
    eapply (listening_insert s _ k); [reflexivity| | |exact H]; simpl.
    + intros j _ Hj. exact Hj.
    + intros h1 Heq Hp1. injection Heq as <-. simpl in Hp1.
      destruct (Bridge.h_promise h); discriminate.
  - unfold Bridge.callMCPTool. destruct (negb (Bridge.mcpProcess s)); [exact H|].
    match goal with
    | |- context [Bridge.readiness_loop ?s0 ?i ?c ?n ?r] =>
        destruct (readiness_loop_keeps s0 i c n r) as (Hh & _);
        eapply (listening_keep s0); [exact Hh| |exact H]
    end.
    intros k Hk. apply readiness_loop_listeners, Hk.
  - unfold Bridge.poll_timer.
    destruct (Bridge.calls s !! i) as [c|]; [|exact H].
    destruct (Bridge.phase_of c); try exact H.
    match goal with
    | |- context [Bridge.readiness_loop ?s0 ?i ?c ?n ?r] =>
        destruct (readiness_loop_keeps s0 i c n r) as (Hh & _);
        eapply (listening_keep s0); [exact Hh| |exact H]
    end.
    intros k Hk. apply readiness_loop_listeners, Hk.
  - unfold Bridge.call_timeout.
    destruct (Bridge.calls s !! i) as [c|]; [|exact H].
    destruct (Bridge.phase_of c); try exact H.
    destruct (Bridge.timeout_armed f); [|exact H].
    destruct (Bridge.isComplete f); [exact H|].
    destruct (Bridge.mcpProcess s); [|exact H].
    eapply (listening_keep s); [reflexivity| |exact H]. simpl.
    intros k Hk. apply remove_listener_keeps; [discriminate|exact Hk].
Qed.

Lemma run_listening (trace : list Bridge.event) :
  Obs.listening (Bridge.run parse Bridge.startMCPServer trace).
Proof.
  apply (run_invariant parse (fun _ => True) Obs.listening).
  - intros s e _. apply step_listening.
  - apply Forall_forall. intros; exact I.
  - intros k h Hk. simpl in Hk. rewrite lookup_nil in Hk. discriminate.
Qed.

End Listening.

Section HandshakeDelivery.

Variable parse : string -> option json.

Lemma deliver_handshake_ne (data : string) (s : Bridge.bridge) (h : listener) (k : nat) :
  h <> InitListener k ->
  Bridge.handshakes (Bridge.deliver parse data s h) !! k = Bridge.handshakes s !! k.
Proof.
  intros Hne. destruct h as [|k'|i]; simpl; [reflexivity| |].
  - apply init_dataHandler_ne. congruence.
  - destruct (Bridge.calls s !! i) as [c|]; [|reflexivity].
    destruct (Bridge.phase_of c); try reflexivity.
    destruct (Bridge.dataHandler parse (Bridge.mcpProcess s) f data) as [[f' r] log].
    destruct (Bridge.unregistered _ _ _); reflexivity.
Qed.

Lemma foldl_deliver_handshake_ne (data : string) (ls : list listener) (s : Bridge.bridge)
      (k : nat) :
  InitListener k ∉ ls ->
  Bridge.handshakes (foldl (Bridge.deliver parse data) s ls) !! k
  = Bridge.handshakes s !! k.
Proof.
  revert s. induction ls as [|h ls IH]; intros s Hnot; [reflexivity|].
  simpl. rewrite IH.
  - apply deliver_handshake_ne. intros ->. apply Hnot. apply elem_of_cons. left. reflexivity.
  - intros Hin. apply Hnot. apply elem_of_cons. right. exact Hin.
Qed.

(** A listener writes to stdin by appending. *)
Lemma deliver_stdin (data : string) (s : Bridge.bridge) (h : listener)
      (x : writer * json) :
  x ∈ Bridge.stdin s -> x ∈ Bridge.stdin (Bridge.deliver parse data s h).
Proof.
  intros Hx. destruct h as [|k|i]; simpl; [exact Hx| |].
  - unfold Bridge.init_dataHandler.
    destruct (Bridge.handshakes s !! k) as [[|h|]|]; try exact Hx.
    destruct (Bridge.init_lines parse (Bridge.mcpProcess s)
                (Text.split_nl (Bridge.h_responseData h +:+ data))); try exact Hx.
    destruct (is_settled (Bridge.h_promise h)); simpl; apply elem_of_app; left; exact Hx.
  - destruct (Bridge.calls s !! i) as [c|]; [|exact Hx].
    destruct (Bridge.phase_of c); try exact Hx.
    destruct (Bridge.dataHandler parse (Bridge.mcpProcess s) f data) as [[f' r] log].
    destruct (Bridge.unregistered _ _ _); exact Hx.
Qed.

Lemma foldl_deliver_stdin (data : string) (ls : list listener) (s : Bridge.bridge)
      (x : writer * json) :
  x ∈ Bridge.stdin s -> x ∈ Bridge.stdin (foldl (Bridge.deliver parse data) s ls).
Proof.
  revert s. induction ls as [|h ls IH]; intros s Hx; [exact Hx|].
  simpl. apply IH, deliver_stdin, Hx.
Qed.

Lemma foldl_deliver_ready (data : string) (ls : list listener) (s : Bridge.bridge) :
  Bridge.serverReady s = true ->
  Bridge.serverReady (foldl (Bridge.deliver parse data) s ls) = true.
Proof.
  revert s. induction ls as [|h ls IH]; intros s Hr; [exact Hr|].
  simpl. apply IH, deliver_ready, Hr.
Qed.

(** A chunk on which the loop of a pending handshake listener finds a line
    with id 0, in a state where the bookkeeping of listeners holds. *)
Lemma emit_completes_handshake (s : Bridge.bridge) (k : nat) (h : Bridge.handshaking)
      (data : string) :
  Obs.tidy s -> Obs.listening s ->
  Bridge.handshakes s !! k = Some (Bridge.Started h) ->
  Bridge.h_promise h = Unsettled ->
  Bridge.mcpProcess s = true ->
  Bridge.init_lines parse true (Text.split_nl (Bridge.h_responseData h +:+ data))
  = Bridge.Completed ->
  let s' := Bridge.emit_stdout parse s data in
  Bridge.serverReady s' = true
  /\ Bridge.handshakes s' !! k
     = Some (Bridge.Started
               (Bridge.mkHandshaking (Bridge.h_responseData h +:+ data) false
                  (Resolved Undefined)))
  /\ (ByInit k, Bridge.initNotification) ∈ Bridge.stdin s'
  /\ InitListener k ∉ Bridge.stdout_listeners s'.
Proof.
  intros (HN & _) Hlis Hk Hp Hlive Hdone. unfold Bridge.emit_stdout.
  pose proof (Hlis k h Hk Hp) as Hin.
  apply list_elem_of_split in Hin as (l1 & l2 & Hl). rewrite Hl in HN |- *.
  apply NoDup_app in HN as (_ & Hdisj & HN2). apply NoDup_cons in HN2 as (Hn2 & _).
  assert (Hn1 : InitListener k ∉ l1).
  { intros Hx. apply (Hdisj _ Hx). apply elem_of_cons. left. reflexivity. }
  rewrite foldl_app. cbn [foldl].
  set (s1 := foldl (Bridge.deliver parse data) s l1).
  assert (Hk1 : Bridge.handshakes s1 !! k = Some (Bridge.Started h)).
  { unfold s1. rewrite foldl_deliver_handshake_ne by exact Hn1. exact Hk. }
  assert (Hl1 : Bridge.mcpProcess s1 = true).
  { unfold s1. rewrite foldl_deliver_process. exact Hlive. }
  set (s2 := Bridge.deliver parse data s1 (InitListener k)).
  assert (Hs2 : s2 = Bridge.set_ready
                       (Bridge.write_stdin
                          (Bridge.set_listeners
                             (Bridge.set_handshakes s1
                                (<[k := Bridge.Started
                                          (Bridge.mkHandshaking
                                             (Bridge.h_responseData h +:+ data) false
                                             (Resolved Undefined))]>
                                   (Bridge.handshakes s1)))
                             (remove_listener (InitListener k)
                                (Bridge.stdout_listeners s1)))
                          (ByInit k) Bridge.initNotification) true).
  { unfold s2. simpl. unfold Bridge.init_dataHandler.
    rewrite Hk1, Hl1, Hdone, Hp. reflexivity. }
  split; [|split; [|split]].
  - apply foldl_deliver_ready. rewrite Hs2. reflexivity.
  - rewrite foldl_deliver_handshake_ne by exact Hn2. rewrite Hs2. simpl.
    apply list_lookup_insert_eq. eapply lookup_lt_Some, Hk1.
  - apply foldl_deliver_stdin. rewrite Hs2. simpl.
    apply elem_of_app. right. apply list_elem_of_singleton. reflexivity.
  - intros Hx. apply foldl_deliver_listeners in Hx. rewrite Hs2 in Hx. simpl in Hx.
    eapply remove_listener_gone, Hx.
Qed.

End HandshakeDelivery.

(** X14.  In every reachable state with the provider running, a handshake
    whose promise is unsettled still has its listener registered, and the
    chunk on which the loop of that listener reaches a line with id 0
    completes it: the ready flag is set, the promise is resolved, the
    [notifications/initialized] frame is written and the listener is
    unregistered, whichever other listeners receive the chunk. *)
Theorem pending_handshake_completed_by_its_response
    (parse : string -> option json) (trace : list Bridge.event)
    (k : nat) (h : Bridge.handshaking) (data : string) :
  let s := Bridge.run parse Bridge.startMCPServer trace in
  let s' := Bridge.step parse s (Bridge.StdoutData data) in
  Bridge.handshakes s !! k = Some (Bridge.Started h) ->
  Bridge.h_promise h = Unsettled ->
  Bridge.mcpProcess s = true ->
  Bridge.init_lines parse true (Text.split_nl (Bridge.h_responseData h +:+ data))
  = Bridge.Completed ->
  InitListener k ∈ Bridge.stdout_listeners s
  /\ Bridge.serverReady s' = true
  /\ Bridge.handshakes s' !! k
     = Some (Bridge.Started
               (Bridge.mkHandshaking (Bridge.h_responseData h +:+ data) false
                  (Resolved Undefined)))
  /\ (ByInit k, Bridge.initNotification) ∈ Bridge.stdin s'
  /\ InitListener k ∉ Bridge.stdout_listeners s'.
Proof.
  intros s s' Hk Hp Hlive Hdone.
  split; [apply (run_listening parse trace k h Hk Hp)|].
  apply (emit_completes_handshake parse s k h data
           (run_tidy parse trace) (run_listening parse trace) Hk Hp Hlive Hdone).
Qed.

(** A call waits for readiness; the response reaches the handshake listener
    in two chunks, the second one followed by the start of another line. *)
Lemma pending_handshake_completed_by_its_response_witness :
  let r := Json.line (Sample.response 0 (JObj [])) in
  let trace := [Bridge.StderrData Sample.banner;
                Bridge.CallTool "get_recent_emails" Sample.args 1000 7;
                Bridge.BannerTimer 0;
                Bridge.StdoutData (String.substring 0 9 r)] in
  let data := String.substring 9 (String.length r) r +:+ "{" in
  let s := Bridge.run Json.parse Bridge.startMCPServer trace in
  let s' := Bridge.step Json.parse s (Bridge.StdoutData data) in
  let h := Bridge.mkHandshaking (String.substring 0 9 r) true Unsettled in
  Bridge.handshakes s !! 0 = Some (Bridge.Started h)
  /\ InitListener 0 ∈ Bridge.stdout_listeners s
  /\ Bridge.serverReady s' = true
  /\ Bridge.handshakes s' !! 0
     = Some (Bridge.Started (Bridge.mkHandshaking (r +:+ "{") false (Resolved Undefined)))
  /\ (ByInit 0, Bridge.initNotification) ∈ Bridge.stdin s'
  /\ InitListener 0 ∉ Bridge.stdout_listeners s'.
Proof.
  intros r trace data s s' h. split; [reflexivity|].
  apply (pending_handshake_completed_by_its_response Json.parse trace 0 h data);
    reflexivity.
Defined.

(** ** What the handshakes write to stdin *)

Section InitFrames.

Variable parse : string -> option json.

(** A listener unregisters no listener but itself. *)
Lemma deliver_listeners_keep (data : string) (s : Bridge.bridge) (h x : listener) :
  x <> h -> x ∈ Bridge.stdout_listeners s ->
  x ∈ Bridge.stdout_listeners (Bridge.deliver parse data s h).
Proof.
  intros Hne Hx. destruct h as [|k|i]; simpl; [exact Hx| |].
  - unfold Bridge.init_dataHandler.
    destruct (Bridge.handshakes s !! k) as [[|h|]|]; try exact Hx.
    destruct (Bridge.init_lines parse (Bridge.mcpProcess s)
                (Text.split_nl (Bridge.h_responseData h +:+ data))); try exact Hx.
    destruct (is_settled (Bridge.h_promise h)); simpl;
      apply remove_listener_keeps; assumption.
  - destruct (Bridge.calls s !! i) as [c|]; [|exact Hx].
    destruct (Bridge.phase_of c); try exact Hx.
    destruct (Bridge.dataHandler parse (Bridge.mcpProcess s) f data) as [[f' r] log].
    destruct (Bridge.unregistered _ _ _);
      simpl; [apply remove_listener_keeps; assumption|exact Hx].
Qed.

(** An invariant kept by every listener that is registered when it is
    called is kept by a chunk on stdout. *)
Lemma emit_invariant_registered (P : Bridge.bridge -> Prop) (data : string) :
  (forall s h, h ∈ Bridge.stdout_listeners s -> P s -> P (Bridge.deliver parse data s h)) ->
  forall s, NoDup (Bridge.stdout_listeners s) -> P s -> P (Bridge.emit_stdout parse s data).
Proof.
  intros Hstep s HN. unfold Bridge.emit_stdout.
  assert (Hsub : forall x, x ∈ Bridge.stdout_listeners s -> x ∈ Bridge.stdout_listeners s)
    by auto.
  revert HN Hsub. generalize (Bridge.stdout_listeners s) at 1 2 4. intros ls.
  revert s. induction ls as [|h ls IH]; intros s HN Hsub HP; [exact HP|].
  apply NoDup_cons in HN as (Hnot & HN). simpl. apply IH.
  - exact HN.
  - intros x Hx. apply deliver_listeners_keep.
    + intros ->. contradiction.
    + apply Hsub. apply elem_of_cons. right. exact Hx.
  - apply Hstep; [|exact HP]. apply Hsub. apply elem_of_cons. left. reflexivity.
Qed.

Lemma shaken_other (s s' : Bridge.bridge) :
  (forall k, Obs.init_frames k s' = Obs.init_frames k s) ->
  (forall k, Obs.has_started k s' = Obs.has_started k s) ->
  (forall k, InitListener k ∈ Bridge.stdout_listeners s'
             <-> InitListener k ∈ Bridge.stdout_listeners s) ->
  Obs.shaken s -> Obs.shaken s'.
Proof.
  intros Hf Hs Hl H k. rewrite Hf, (H k). unfold Obs.init_expected. rewrite Hs.
  destruct (Obs.has_started k s); [|reflexivity].
  destruct (decide (InitListener k ∈ Bridge.stdout_listeners s')) as [Hin|Hnot];
    destruct (decide (InitListener k ∈ Bridge.stdout_listeners s)) as [Hin'|Hnot'];
    try reflexivity.
  - exfalso. apply Hnot', Hl, Hin.
  - exfalso. apply Hnot, Hl, Hin'.
Qed.

Lemma init_frames_write (s s' : Bridge.bridge) (w : writer) (frame : json) (k : nat) :
  Bridge.stdin s' = Bridge.stdin s ++ [(w, frame)] ->
  Obs.init_frames k s'
  = Obs.init_frames k s ++ (if decide (w = ByInit k) then [frame] else []).
Proof.
  intros Hin. unfold Obs.init_frames. rewrite Hin, filter_app, fmap_app.
  destruct (decide (w = ByInit k)) as [->|Hne].
  - rewrite filter_cons_True by reflexivity. reflexivity.
  - rewrite filter_cons_False by (simpl; congruence). reflexivity.
Qed.

Lemma has_started_insert (s s' : Bridge.bridge) (k0 : nat) (h' : Bridge.handshaking) :
  Bridge.handshakes s' = <[k0 := Bridge.Started h']> (Bridge.handshakes s) ->
  Obs.has_started k0 s = true ->
  forall k, Obs.has_started k s' = Obs.has_started k s.
Proof.
  intros Hh H0 k. unfold Obs.has_started in *. rewrite Hh.
  destruct (decide (k = k0)) as [->|Hne].
  - destruct (Bridge.handshakes s !! k0) as [h0|] eqn:Hk; [|discriminate].
    rewrite list_lookup_insert_eq by (eapply lookup_lt_Some, Hk).
    destruct h0; try discriminate. reflexivity.
  - rewrite list_lookup_insert_ne by congruence. reflexivity.
Qed.

Lemma shaken_restarted (s s' : Bridge.bridge) (k0 : nat) (h' : Bridge.handshaking) :
  Bridge.handshakes s' = <[k0 := Bridge.Started h']> (Bridge.handshakes s) ->
  Obs.has_started k0 s = true ->
  Bridge.stdin s' = Bridge.stdin s ->
  Bridge.stdout_listeners s' = Bridge.stdout_listeners s ->
  Obs.shaken s -> Obs.shaken s'.
Proof.
  intros Hh H0 Hin Hl. apply shaken_other.
  - intros k. unfold Obs.init_frames. rewrite Hin. reflexivity.
  - eapply has_started_insert; eassumption.
  - intros k. rewrite Hl. reflexivity.
Qed.

Lemma shaken_completed (s s' : Bridge.bridge) (k0 : nat) (h' : Bridge.handshaking) :
  Bridge.handshakes s' = <[k0 := Bridge.Started h']> (Bridge.handshakes s) ->
  Obs.has_started k0 s = true ->
  InitListener k0 ∈ Bridge.stdout_listeners s ->
  Bridge.stdin s' = Bridge.stdin s ++ [(ByInit k0, Bridge.initNotification)] ->
  Bridge.stdout_listeners s' = remove_listener (InitListener k0) (Bridge.stdout_listeners s) ->
  Obs.shaken s -> Obs.shaken s'.
Proof.
  intros Hh H0 Hreg Hin Hl H k.
  rewrite (init_frames_write s s' _ _ k Hin), (H k).
  destruct (decide (k = k0)) as [->|Hne].
  - rewrite (decide_True (P := ByInit k0 = ByInit k0)) by reflexivity.
    unfold Obs.init_expected. rewrite (has_started_insert s s' k0 h' Hh H0 k0), H0.
    rewrite decide_True by exact Hreg.
    rewrite decide_False by (rewrite Hl; apply remove_listener_gone). reflexivity.
  - rewrite (decide_False (P := ByInit k0 = ByInit k)) by congruence. rewrite app_nil_r.
    unfold Obs.init_expected. rewrite (has_started_insert s s' k0 h' Hh H0 k).
    destruct (Obs.has_started k s); [|reflexivity].
    destruct (decide (InitListener k ∈ Bridge.stdout_listeners s)) as [Hi|Hn].
    + rewrite decide_True; [reflexivity|].
      rewrite Hl. apply remove_listener_keeps; [congruence|exact Hi].
    + rewrite decide_False; [reflexivity|].
      rewrite Hl. intros Hx. apply elem_of_remove_listener in Hx. apply Hn, Hx.
Qed.

Lemma shaken_call (s s' : Bridge.bridge) (i : nat) :
  Bridge.handshakes s' = Bridge.handshakes s ->
  (Bridge.stdin s' = Bridge.stdin s
   \/ exists frame, Bridge.stdin s' = Bridge.stdin s ++ [(ByCall i, frame)]) ->
  (forall k, InitListener k ∈ Bridge.stdout_listeners s'
             <-> InitListener k ∈ Bridge.stdout_listeners s) ->
  Obs.shaken s -> Obs.shaken s'.
Proof.
  intros Hh Hin Hl. apply shaken_other; [| |exact Hl].
  - intros k. destruct Hin as [Hin|(frame & Hin)].
    + unfold Obs.init_frames. rewrite Hin. reflexivity.
    + rewrite (init_frames_write s s' _ _ k Hin).
      rewrite (decide_False (P := ByCall i = ByInit k)) by discriminate. apply app_nil_r.
  - intros k. unfold Obs.has_started. rewrite Hh. reflexivity.
Qed.

Lemma remove_call_listener_init (i k : nat) (ls : list listener) :
  InitListener k ∈ remove_listener (CallListener i) ls <-> InitListener k ∈ ls.
Proof.
  rewrite elem_of_remove_listener. split; [intros (_ & H); exact H|].
  intros H. split; [discriminate|exact H].
Qed.

Lemma snoc_call_listener_init (i k : nat) (ls : list listener) :
  InitListener k ∈ ls ++ [CallListener i] <-> InitListener k ∈ ls.
Proof.
  rewrite elem_of_app. split; [|auto].
  intros [H|H]; [exact H|]. apply list_elem_of_singleton in H. discriminate.
Qed.

Lemma deliver_shaken (data : string) (s : Bridge.bridge) (h : listener) :
  h ∈ Bridge.stdout_listeners s ->
  Obs.shaken s -> Obs.shaken (Bridge.deliver parse data s h).
Proof.
  intros Hreg H. destruct h as [|k|i]; simpl; [exact H| |].
  - unfold Bridge.init_dataHandler.
    destruct (Bridge.handshakes s !! k) as [[|h|]|] eqn:Hk; try exact H.
    assert (H0 : Obs.has_started k s = true).
    { unfold Obs.has_started. rewrite Hk. reflexivity. }
    destruct (Bridge.init_lines parse (Bridge.mcpProcess s)
                (Text.split_nl (Bridge.h_responseData h +:+ data))).
    1-3: eapply (shaken_restarted s _ k); [reflexivity|exact H0|reflexivity|reflexivity
                                          |exact H].
    destruct (is_settled (Bridge.h_promise h));
      (eapply (shaken_completed s _ k);
       [reflexivity|exact H0|exact Hreg|reflexivity|reflexivity|exact H]).
  - destruct (Bridge.calls s !! i) as [c|]; [|exact H].
    destruct (Bridge.phase_of c); try exact H.
    destruct (Bridge.dataHandler parse (Bridge.mcpProcess s) f data) as [[f' r] log].
    destruct (Bridge.unregistered _ _ _).
    + eapply (shaken_call s _ i); [reflexivity|left; reflexivity| |exact H].
      intros k. simpl. apply remove_call_listener_init.
    + eapply (shaken_call s _ i); [reflexivity|left; reflexivity| |exact H].
      intros k. reflexivity.
Qed.

Lemma readiness_loop_shaken (s : Bridge.bridge) (i : nat) (c : Bridge.call) (now rnd : Z) :
  Obs.shaken s -> Obs.shaken (Bridge.readiness_loop s i c now rnd).
Proof.
  intros H. unfold Bridge.readiness_loop.
  assert (Hput : forall c1, Obs.shaken (Bridge.put_call s i c1)).
  { intros c1. eapply (shaken_call s _ i); [reflexivity|left; reflexivity| |exact H].
    intros k. reflexivity. }
  destruct (negb (Bridge.mcpProcess s)); [apply Hput|].
  destruct (negb (Bridge.serverReady s) && (Bridge.attempts c <? Bridge.maxAttempts));
    [apply Hput|].
  destruct (negb (Bridge.serverReady s)); [apply Hput|].
  eapply (shaken_call s _ i); [reflexivity|right; eexists; reflexivity| |exact H].
  intros k. simpl. apply snoc_call_listener_init.
Qed.

Lemma step_shaken (s : Bridge.bridge) (e : Bridge.event) :
  Obs.tidy s -> Obs.shaken s -> Obs.shaken (Bridge.step parse s e).
Proof.
  intros Ht H. destruct e as [chunk|chunk| |k|k|tool args now rnd|i now rnd|i]; simpl.
  - apply emit_invariant_registered; [|apply Ht|exact H].
    intros s0 h. apply deliver_shaken.
  - unfold Bridge.stderr_listener. destruct (Bridge.is_banner chunk); [|exact H].
    apply (shaken_other s); [reflexivity| |reflexivity|exact H].
    intros k. unfold Obs.has_started. simpl.
    destruct (Bridge.handshakes s !! k) as [h|] eqn:Hk.
    + rewrite lookup_app_l by (eapply lookup_lt_Some, Hk). rewrite Hk. reflexivity.
    + apply lookup_ge_None in Hk.
      destruct ((Bridge.handshakes s ++ [Bridge.Scheduled]) !! k) as [h|] eqn:Hk';
        [|reflexivity].
      rewrite lookup_app_r in Hk' by exact Hk.
      apply list_lookup_singleton_Some in Hk' as [_ <-]. reflexivity.
  - exact H.
  - unfold Bridge.banner_timer.
    destruct (Bridge.handshakes s !! k) as [[|h|]|] eqn:Hk; try exact H.
    assert (Hnot : InitListener k ∉ Bridge.stdout_listeners s).
    { intros Hin. destruct Ht as (_ & HI & _). destruct (HI k Hin) as (h & Hh). congruence. }
    assert (Hlt : k < length (Bridge.handshakes s)) by (eapply lookup_lt_Some, Hk).
    assert (H0 : Obs.has_started k s = false).
    { unfold Obs.has_started. rewrite Hk. reflexivity. }
    unfold Bridge.initializeMCPServer. destruct (Bridge.mcpProcess s).
    + intros j.
      match goal with
      | |- Obs.init_frames j ?s1 = _ =>
          rewrite (init_frames_write s s1 (ByInit k) Bridge.initRequest j eq_refl)
      end.
      rewrite (H j).
      destruct (decide (j = k)) as [->|Hne].
      * rewrite (decide_True (P := ByInit k = ByInit k)) by reflexivity.
        unfold Obs.init_expected. rewrite H0.
        unfold Obs.has_started. simpl.
        rewrite list_lookup_insert_eq by exact Hlt.
        rewrite decide_True; [reflexivity|].
        apply elem_of_app. right. apply list_elem_of_singleton. reflexivity.
      * rewrite (decide_False (P := ByInit k = ByInit j)) by congruence.
        rewrite app_nil_r.
        unfold Obs.init_expected, Obs.has_started. simpl.
        rewrite list_lookup_insert_ne by congruence.
        destruct (Bridge.handshakes s !! j) as [[|hj|]|]; try reflexivity.
        destruct (decide (InitListener j ∈ Bridge.stdout_listeners s)) as [Hi|Hn].
        -- rewrite decide_True; [reflexivity|]. apply elem_of_app. left. exact Hi.
        -- rewrite decide_False; [reflexivity|]. intros Hx.
           apply elem_of_app in Hx as [Hx|Hx]; [contradiction|].
           apply list_elem_of_singleton in Hx. congruence.
    + apply (shaken_other s); [reflexivity| |reflexivity|exact H].
      intros j. unfold Obs.has_started. simpl.
      destruct (decide (j = k)) as [->|Hne].
      * rewrite list_lookup_insert_eq by exact Hlt. rewrite Hk. reflexivity.
      * rewrite list_lookup_insert_ne by congruence. reflexivity.
  - unfold Bridge.handshake_timeout.
    destruct (Bridge.handshakes s !! k) as [[|h|]|] eqn:Hk; try exact H.
    destruct (Bridge.h_timeout_armed h); [|exact H].
    eapply (shaken_restarted s _ k); [reflexivity| |reflexivity|reflexivity|exact H].
    unfold Obs.has_started. rewrite Hk. reflexivity.
  - unfold Bridge.callMCPTool. destruct (negb (Bridge.mcpProcess s)).
    + apply (shaken_other s); [reflexivity|reflexivity|reflexivity|exact H].
    + apply readiness_loop_shaken.
      apply (shaken_other s); [reflexivity|reflexivity|reflexivity|exact H].
  - unfold Bridge.poll_timer.
    destruct (Bridge.calls s !! i) as [c|]; [|exact H].
    destruct (Bridge.phase_of c); try exact H.
    apply readiness_loop_shaken, H.
  - unfold Bridge.call_timeout.
    destruct (Bridge.calls s !! i) as [c|]; [|exact H].
    destruct (Bridge.phase_of c); try exact H.
    destruct (Bridge.timeout_armed f); [|exact H].
    destruct (Bridge.isComplete f).
    + eapply (shaken_call s _ i); [reflexivity|left; reflexivity| |exact H].
      intros k. reflexivity.
    + destruct (Bridge.mcpProcess s).
      * eapply (shaken_call s _ i); [reflexivity|left; reflexivity| |exact H].
        intros k. simpl. apply remove_call_listener_init.
      * eapply (shaken_call s _ i); [reflexivity|left; reflexivity| |exact H].
        intros k. reflexivity.
Qed.

End InitFrames.

(** X15.  In every reachable state, what a handshake has written to stdin
    is determined by its state: nothing while it waits for its 2000 ms timer
    and nothing when it was refused for the missing handle; the
    [initialize] request, once, from the moment it has started; and after
    it the [notifications/initialized] frame, once, from the moment its
    listener has unregistered.  The request is never repeated, not even
    after the timeout, and the notification is never sent twice. *)
Theorem handshake_writes_request_and_notification_once
    (parse : string -> option json) (trace : list Bridge.event) (k : nat) :
  let s := Bridge.run parse Bridge.startMCPServer trace in
  Obs.init_frames k s
  = match Bridge.handshakes s !! k with
    | Some (Bridge.Started _) =>
        if decide (InitListener k ∈ Bridge.stdout_listeners s)
        then [Bridge.initRequest]
        else [Bridge.initRequest; Bridge.initNotification]
    | _ => []
    end.
Proof.
  intros s.
  assert (H : Inv.wf s /\ Obs.tidy s /\ Obs.shaken s).
  { apply (run_invariant parse (fun _ => True)
             (fun s0 => Inv.wf s0 /\ Obs.tidy s0 /\ Obs.shaken s0)).
    - intros s0 e _ (Hwf & Ht & Hs).
      split; [apply step_wf, Hwf|]. split; [apply step_tidy; assumption|].
      apply step_shaken; assumption.
    - apply Forall_forall. intros; exact I.
    - split; [apply started_wf|]. split; [apply started_tidy|].
      intros j. reflexivity. }
  destruct H as (_ & _ & H). rewrite (H k).
  unfold Obs.init_expected, Obs.has_started.
  destruct (Bridge.handshakes s !! k) as [[|h|]|]; reflexivity.
Qed.

(** ** What the promise of a handshake and of a call tell *)

Section Resolved.

Variable parse : string -> option json.

Lemma resolved_ok_keep (s s' : Bridge.bridge) :
  Bridge.handshakes s' = Bridge.handshakes s ->
  Bridge.serverReady s' = Bridge.serverReady s ->
  Obs.resolved_ok s -> Obs.resolved_ok s'.
Proof.
  intros Hh Hr H k h v Hk Hp. rewrite Hh in Hk. rewrite Hr. apply (H k h v Hk Hp).
Qed.

Lemma resolved_ok_insert (s s' : Bridge.bridge) (k0 : nat) (h0 h' : Bridge.handshaking) :
  Bridge.handshakes s !! k0 = Some (Bridge.Started h0) ->
  Bridge.handshakes s' = <[k0 := Bridge.Started h']> (Bridge.handshakes s) ->
  (Bridge.serverReady s = true -> Bridge.serverReady s' = true) ->
  (forall v, Bridge.h_promise h' = Resolved v ->
     Bridge.serverReady s' = true /\ v = Undefined /\ Bridge.h_timeout_armed h' = false) ->
  Obs.resolved_ok s -> Obs.resolved_ok s'.
Proof.
  intros H0 Hh Hr Hnew H k h v Hk Hp. rewrite Hh in Hk.
  destruct (decide (k = k0)) as [->|Hne].
  - rewrite list_lookup_insert_eq in Hk by (eapply lookup_lt_Some, H0).
    injection Hk as <-. apply Hnew, Hp.
  - rewrite list_lookup_insert_ne in Hk by congruence.
    destruct (H k h v Hk Hp) as (Ha & Hb & Hc). auto.
Qed.

Lemma deliver_resolved_ok (data : string) (s : Bridge.bridge) (h : listener) :
  Obs.resolved_ok s -> Obs.resolved_ok (Bridge.deliver parse data s h).
Proof.
  intros H. destruct h as [|k|i]; simpl; [exact H| |].
  - unfold Bridge.init_dataHandler.
    destruct (Bridge.handshakes s !! k) as [[|h|]|] eqn:Hk; try exact H.
    destruct (Bridge.init_lines parse (Bridge.mcpProcess s)
                (Text.split_nl (Bridge.h_responseData h +:+ data))).
    + eapply (resolved_ok_insert s _ k h _ Hk); [reflexivity|auto| |exact H].
      simpl. intros v Hv. apply (H k h v Hk Hv).
    + eapply (resolved_ok_insert s _ k h _ Hk); [reflexivity|auto| |exact H].
      simpl. intros v Hv. apply (H k h v Hk Hv).
    + eapply (resolved_ok_insert s _ k h _ Hk); [reflexivity|auto| |exact H].
      simpl. intros v Hv. destruct (H k h v Hk Hv) as (Ha & Hb & _). auto.
    + destruct (Bridge.h_promise h) as [|v0|e0] eqn:Hp; simpl.
      * eapply (resolved_ok_insert s _ k h _ Hk); [reflexivity|auto| |exact H].
        simpl. intros v Hv. injection Hv as <-. auto.
      * destruct (H k h v0 Hk Hp) as (Ha & Hb & _).
        eapply (resolved_ok_insert s _ k h _ Hk); [reflexivity|auto| |exact H].
        simpl. intros v Hv. injection Hv as <-. auto.
      * eapply (resolved_ok_insert s _ k h _ Hk); [reflexivity|auto| |exact H].
        simpl. intros v Hv. discriminate.
  - destruct (Bridge.calls s !! i) as [c|]; [|exact H].
    destruct (Bridge.phase_of c); try exact H.
    destruct (Bridge.dataHandler parse (Bridge.mcpProcess s) f data) as [[f' r] log].
    destruct (Bridge.unregistered _ _ _); exact H.
Qed.

Lemma step_resolved_ok (s : Bridge.bridge) (e : Bridge.event) :
  Obs.resolved_ok s -> Obs.resolved_ok (Bridge.step parse s e).
Proof.
  intros H. destruct e as [chunk|chunk| |k|k|tool args now rnd|i now rnd|i]; simpl.
  - apply emit_invariant; [|exact H]. intros s0 h. apply deliver_resolved_ok.
  - unfold Bridge.stderr_listener. destruct (Bridge.is_banner chunk); [|exact H].
    intros k h v Hk Hp. simpl in Hk |- *.
    apply lookup_app_Some in Hk as [Hk|[_ Hk]]; [apply (H k h v Hk Hp)|].
    apply list_lookup_singleton_Some in Hk as [_ Hk]. discriminate.
  - exact H.
  - unfold Bridge.banner_timer.
    destruct (Bridge.handshakes s !! k) as [[|h|]|] eqn:Hk; try exact H.
    unfold Bridge.initializeMCPServer.
    destruct (Bridge.mcpProcess s); intros j h v Hj Hp; simpl in Hj |- *;
      (destruct (decide (j = k)) as [->|Hne];
       [rewrite list_lookup_insert_eq in Hj by (eapply lookup_lt_Some, Hk);
        inversion Hj; subst; discriminate
       |rewrite list_lookup_insert_ne in Hj by congruence; apply (H j h v Hj Hp)]).
  - unfold Bridge.handshake_timeout.
    destruct (Bridge.handshakes s !! k) as [[|h|]|] eqn:Hk; try exact H.
    destruct (Bridge.h_timeout_armed h); [|exact H].
    eapply (resolved_ok_insert s _ k h _ Hk); [reflexivity|auto| |exact H].
    simpl. intros v Hv. destruct (Bridge.h_promise h) as [|v0|e0] eqn:Hp; try discriminate.
    simpl in Hv. injection Hv as <-.
    destruct (H k h v0 Hk Hp) as (Ha & Hb & _). auto.
  - unfold Bridge.callMCPTool. destruct (negb (Bridge.mcpProcess s)); [exact H|].
    match goal with
    | |- context [Bridge.readiness_loop ?s0 ?i ?c ?n ?r] =>
        destruct (readiness_loop_keeps s0 i c n r) as (Hh & Hy & _);
        apply (resolved_ok_keep s0 _ Hh Hy)
    end.
    exact H.
  - unfold Bridge.poll_timer.
    destruct (Bridge.calls s !! i) as [c|]; [|exact H].
    destruct (Bridge.phase_of c); try exact H.
    match goal with
    | |- context [Bridge.readiness_loop ?s0 ?i ?c ?n ?r] =>
        destruct (readiness_loop_keeps s0 i c n r) as (Hh & Hy & _);
        apply (resolved_ok_keep s0 _ Hh Hy)
    end.
    exact H.
  - unfold Bridge.call_timeout.
    destruct (Bridge.calls s !! i) as [c|]; [|exact H].
    destruct (Bridge.phase_of c); try exact H.
    destruct (Bridge.timeout_armed f); [|exact H].
    destruct (Bridge.isComplete f); [exact H|].
    destruct (Bridge.mcpProcess s); exact H.
Qed.

End Resolved.

(** X16.  In every reachable state, a handshake whose promise is resolved
    has set the ready flag and cleared its 10000 ms timer, and it is
    resolved with [undefined]: its timer, firing afterwards, finds nothing
    to do. *)
Theorem resolved_handshake_means_ready
    (parse : string -> option json) (trace : list Bridge.event)
    (k : nat) (h : Bridge.handshaking) (v : jsval) :
  let s := Bridge.run parse Bridge.startMCPServer trace in
  Bridge.handshakes s !! k = Some (Bridge.Started h) ->
  Bridge.h_promise h = Resolved v ->
  Bridge.serverReady s = true
  /\ v = Undefined
  /\ Bridge.h_timeout_armed h = false
  /\ Bridge.handshakes (Bridge.step parse s (Bridge.HandshakeTimeout k)) !! k
     = Some (Bridge.Started h).
Proof.
  intros s Hk Hp.
  assert (H : Obs.resolved_ok s).
  { apply (run_invariant parse (fun _ => True) Obs.resolved_ok).
    - intros s0 e _. apply step_resolved_ok.
    - apply Forall_forall. intros; exact I.
    - intros j hj vj Hj. simpl in Hj. rewrite lookup_nil in Hj. discriminate. }
  destruct (H k h v Hk Hp) as (Ha & Hb & Hc).
  split; [exact Ha|]. split; [exact Hb|]. split; [exact Hc|].
  simpl. unfold Bridge.handshake_timeout. rewrite Hk, Hc. exact Hk.
Qed.

Lemma resolved_handshake_means_ready_witness :
  let trace := Sample.handshake_ok ++ [Bridge.ProcessClose] in
  let s := Bridge.run Json.parse Bridge.startMCPServer trace in
  let h := Bridge.mkHandshaking (Json.line (Sample.response 0 (JObj []))) false
             (Resolved Undefined) in
  Bridge.handshakes s !! 0 = Some (Bridge.Started h)
  /\ Bridge.serverReady s = true
  /\ Undefined = Undefined
  /\ Bridge.h_timeout_armed h = false
  /\ Bridge.handshakes (Bridge.step Json.parse s (Bridge.HandshakeTimeout 0)) !! 0
     = Some (Bridge.Started h).
Proof.
  intros trace s h. split; [reflexivity|].
  apply (resolved_handshake_means_ready Json.parse trace 0 h Undefined); reflexivity.
Defined.

(** X17.  In every reachable state: a call whose promise is resolved was
    dispatched, and its request is on stdin, once; a call that was not
    dispatched has written nothing, and its promise is unsettled, or
    rejected with "MCP server not running" without a sleep, or rejected with
    "MCP server not ready" after all fifteen sleeps, 7500 ms. *)
Theorem resolved_call_was_dispatched
    (parse : string -> option json) (trace : list Bridge.event)
    (i : nat) (c : Bridge.call) :
  let s := Bridge.run parse Bridge.startMCPServer trace in
  Bridge.calls s !! i = Some c ->
  (forall v, Bridge.outcome c = Resolved v ->
     exists f, Bridge.phase_of c = Bridge.Sent f
               /\ Obs.frames_of i s
                  = [Bridge.request (Bridge.reqid f) (Bridge.toolName c) (Bridge.params c)])
  /\ (~ Inv.is_sent c ->
      Obs.frames_of i s = []
      /\ (Bridge.outcome c = Unsettled
          \/ (Bridge.outcome c = Rejected NotRunning /\ Bridge.attempts c = 0)
          \/ (Bridge.outcome c = Rejected NotReadyError
              /\ Bridge.attempts c = Bridge.maxAttempts /\ Bridge.waited c = 7500%Z))).
Proof.
  intros s Hi.
  destruct (run_wf parse trace) as (Hok & _). fold s in Hok.
  rewrite Forall_lookup in Hok. specialize (Hok i c Hi). unfold Inv.call_ok in Hok.
  assert (Hfr : Obs.framed s).
  { apply (run_invariant parse (fun _ => True) Obs.framed).
    - intros s0 e _. apply step_framed.
    - apply Forall_forall. intros; exact I.
    - intros j. reflexivity. }
  specialize (Hfr i). unfold Obs.expected_at in Hfr. rewrite Hi in Hfr.
  unfold Obs.expected, Inv.is_sent in *.
  destruct (Bridge.phase_of c) as [|f| |] eqn:Hp.
  - destruct Hok as (_ & Hu). split; [intros v Hv; congruence|].
    intros _. split; [exact Hfr|]. left. exact Hu.
  - split; [intros v _; exists f; auto|]. intros Hns. exfalso. apply Hns. exact I.
  - split.
    + intros v Hv. destruct Hok as [(Ho & _) | (Ho & _)]; rewrite Ho in Hv; discriminate.
    + intros _. split; [exact Hfr|]. right.
      destruct Hok as [(Ho & Ha) | (Ho & Ha)]; [left; auto|].
      right. split; [exact Ho|]. split; [exact Ha|].
      unfold Bridge.waited. rewrite Ha. reflexivity.
  - destruct Hok as (Hu & _). split; [intros v Hv; congruence|].
    intros _. split; [exact Hfr|]. left. exact Hu.
Qed.

(** A call that gave up the wait. *)
Lemma resolved_call_was_dispatched_witness :
  let issued := [Bridge.CallTool "get_recent_emails" Sample.args 1000 7] in
  let s := Bridge.run Json.parse Bridge.startMCPServer (issued ++ Trace.polled15) in
  let c := Bridge.mkCall "get_recent_emails" Sample.args 15 Bridge.Returned
             (Rejected NotReadyError) in
  Bridge.calls s !! 0 = Some c
  /\ (forall v, Bridge.outcome c = Resolved v ->
        exists f, Bridge.phase_of c = Bridge.Sent f
                  /\ Obs.frames_of 0 s
                     = [Bridge.request (Bridge.reqid f) (Bridge.toolName c) (Bridge.params c)])
  /\ (~ Inv.is_sent c ->
      Obs.frames_of 0 s = []
      /\ (Bridge.outcome c = Unsettled
          \/ (Bridge.outcome c = Rejected NotRunning /\ Bridge.attempts c = 0)
          \/ (Bridge.outcome c = Rejected NotReadyError
              /\ Bridge.attempts c = Bridge.maxAttempts /\ Bridge.waited c = 7500%Z))).
Proof.
  intros issued s c. split; [reflexivity|].
  apply (resolved_call_was_dispatched Json.parse (issued ++ Trace.polled15) 0 c).
  reflexivity.
Defined.

(** * Further properties of the earlier implementation *)

Section LegacyListeners.

Variable parse : string -> option json.

Lemma legacy_deliver_ne (data : string) (s : Legacy.bridge) (h : listener) (i : nat) :
  h <> CallListener i ->
  Legacy.calls (Legacy.deliver parse data s h) !! i = Legacy.calls s !! i.
Proof.
  intros Hne. destruct h as [|k|j]; simpl; try reflexivity.
  destruct (Legacy.calls s !! j) as [c|]; [|reflexivity].
  destruct (Legacy.dataHandler parse c data) as [c' removed]. simpl.
  apply list_lookup_insert_ne. congruence.
Qed.

Lemma legacy_deliver_listeners (data : string) (s : Legacy.bridge) (h x : listener) :
  x ∈ Legacy.stdout_listeners (Legacy.deliver parse data s h) ->
  x ∈ Legacy.stdout_listeners s.
Proof.
  destruct h as [|k|j]; simpl; auto.
  destruct (Legacy.calls s !! j) as [c|]; auto.
  destruct (Legacy.dataHandler parse c data) as [c' [|]]; simpl; auto.
  intros Hx. apply elem_of_remove_listener in Hx. apply Hx.
Qed.

Lemma legacy_deliver_length (data : string) (s : Legacy.bridge) (h : listener) :
  length (Legacy.calls (Legacy.deliver parse data s h)) = length (Legacy.calls s).
Proof.
  destruct h as [|k|j]; simpl; auto.
  destruct (Legacy.calls s !! j) as [c|]; auto.
  destruct (Legacy.dataHandler parse c data) as [c' removed]. simpl.
  apply length_insert.
Qed.

Lemma legacy_foldl_ne (data : string) (ls : list listener) (s : Legacy.bridge) (i : nat) :
  CallListener i ∉ ls ->
  Legacy.calls (foldl (Legacy.deliver parse data) s ls) !! i = Legacy.calls s !! i.
Proof.
  revert s. induction ls as [|h ls IH]; intros s Hnot; [reflexivity|].
  simpl. rewrite IH.
  - apply legacy_deliver_ne. intros ->. apply Hnot. apply elem_of_cons. left. reflexivity.
  - intros Hin. apply Hnot. apply elem_of_cons. right. exact Hin.
Qed.

Lemma legacy_foldl_listeners (data : string) (ls : list listener) (s : Legacy.bridge)
      (x : listener) :
  x ∈ Legacy.stdout_listeners (foldl (Legacy.deliver parse data) s ls) ->
  x ∈ Legacy.stdout_listeners s.
Proof.
  revert s. induction ls as [|h ls IH]; intros s; [auto|].
  simpl. intros Hx. eapply legacy_deliver_listeners, IH, Hx.
Qed.

Lemma legacy_foldl_length (data : string) (ls : list listener) (s : Legacy.bridge) :
  length (Legacy.calls (foldl (Legacy.deliver parse data) s ls))
  = length (Legacy.calls s).
Proof.
  revert s. induction ls as [|h ls IH]; intros s; [reflexivity|].
  simpl. rewrite IH. apply legacy_deliver_length.
Qed.

Lemma legacy_deliver_NoDup (data : string) (s : Legacy.bridge) (h : listener) :
  NoDup (Legacy.stdout_listeners s) ->
  NoDup (Legacy.stdout_listeners (Legacy.deliver parse data s h)).
Proof.
  intros HN. destruct h as [|k|j]; simpl; auto.
  destruct (Legacy.calls s !! j) as [c|]; auto.
  destruct (Legacy.dataHandler parse c data) as [c' [|]]; simpl; auto.
  apply NoDup_remove_listener, HN.
Qed.

Lemma legacy_foldl_NoDup (data : string) (ls : list listener) (s : Legacy.bridge) :
  NoDup (Legacy.stdout_listeners s) ->
  NoDup (Legacy.stdout_listeners (foldl (Legacy.deliver parse data) s ls)).
Proof.
  revert s. induction ls as [|h ls IH]; intros s HN; [exact HN|].
  simpl. apply IH, legacy_deliver_NoDup, HN.
Qed.

Lemma legacy_step_tidy (s : Legacy.bridge) (e : Legacy.event) :
  ObsLegacy.tidy s -> ObsLegacy.tidy (Legacy.step parse s e).
Proof.
  intros (HN & Hlt). destruct e as [chunk|tool args now|i]; simpl.
  - unfold Legacy.emit_stdout. split.
    + apply legacy_foldl_NoDup, HN.
    + intros j Hj. rewrite legacy_foldl_length. apply Hlt.
      eapply legacy_foldl_listeners, Hj.
  - unfold Legacy.callMCPTool.
    destruct (negb (Legacy.mcpProcess s)); cbn [Legacy.calls Legacy.stdout_listeners].
    + split; [exact HN|]. intros j Hj. specialize (Hlt j Hj).
      cbn [Legacy.calls]. rewrite length_app. lia.
    + split.
      * apply NoDup_app. split; [exact HN|]. split; [|apply NoDup_singleton].
        intros x Hx Hx'. apply list_elem_of_singleton in Hx'. subst x.
        specialize (Hlt _ Hx). lia.
      * intros j Hj. cbn [Legacy.calls Legacy.stdout_listeners] in Hj |- *.
        rewrite length_app. cbn [length].
        apply elem_of_app in Hj as [Hj|Hj]; [specialize (Hlt j Hj); lia|].
        apply list_elem_of_singleton in Hj. injection Hj as ->. lia.
  - unfold Legacy.call_timeout.
    destruct (Legacy.calls s !! i) as [c|]; [|split; assumption].
    destruct (Legacy.timeout_armed c); [|split; assumption].
    split; [exact HN|]. intros j Hj. cbn [Legacy.calls Legacy.stdout_listeners] in Hj |- *.
    rewrite length_insert. apply Hlt, Hj.
Qed.

Lemma legacy_run_tidy (trace : list Legacy.event) :
  ObsLegacy.tidy (Legacy.run parse Legacy.startMCPServer trace).
Proof.
  unfold Legacy.run.
  assert (H0 : ObsLegacy.tidy Legacy.startMCPServer).
  { split; simpl; [apply NoDup_singleton|].
    intros j Hj. apply list_elem_of_singleton in Hj. discriminate. }
  revert H0. generalize Legacy.startMCPServer.
  induction trace as [|e trace IH]; intros s Hs; [exact Hs|].
  simpl. apply IH, legacy_step_tidy, Hs.
Qed.

Lemma legacy_step_dead (i : nat) (s : Legacy.bridge) (e : Legacy.event) :
  ObsLegacy.dead i s -> ObsLegacy.dead i (Legacy.step parse s e).
Proof.
  intros (Hnot & c & Hi & Harm & Hout). destruct e as [chunk|tool args now|j]; simpl.
  - unfold Legacy.emit_stdout. split.
    + intros Hin. apply Hnot. eapply legacy_foldl_listeners, Hin.
    + exists c. rewrite legacy_foldl_ne by exact Hnot. auto.
  - assert (Hlt : i < length (Legacy.calls s)) by (eapply lookup_lt_Some, Hi).
    unfold Legacy.callMCPTool, ObsLegacy.dead.
    destruct (negb (Legacy.mcpProcess s)); cbn [Legacy.calls Legacy.stdout_listeners].
    + split; [exact Hnot|]. exists c. rewrite lookup_app_l by exact Hlt. auto.
    + split.
      * intros Hin. apply elem_of_app in Hin as [Hin|Hin]; [contradiction|].
        apply list_elem_of_singleton in Hin. injection Hin as ->. lia.
      * exists c. rewrite lookup_app_l by exact Hlt. auto.
  - unfold Legacy.call_timeout. destruct (decide (j = i)) as [->|Hne].
    + rewrite Hi, Harm. split; [exact Hnot|]. exists c. auto.
    + destruct (Legacy.calls s !! j) as [cj|]; [|split; [exact Hnot|exists c; auto]].
      destruct (Legacy.timeout_armed cj); [|split; [exact Hnot|exists c; auto]].
      unfold ObsLegacy.dead. cbn [Legacy.calls Legacy.stdout_listeners].
      split; [exact Hnot|]. exists c.
      rewrite list_lookup_insert_ne by congruence. auto.
Qed.

Lemma legacy_run_dead (i : nat) (later : list Legacy.event) (s : Legacy.bridge) :
  ObsLegacy.dead i s -> ObsLegacy.dead i (Legacy.run parse s later).
Proof.
  unfold Legacy.run. revert s. induction later as [|e later IH]; intros s Hs; [exact Hs|].
  simpl. apply IH, legacy_step_dead, Hs.
Qed.

Lemma legacy_foldl_own (data : string) (s : Legacy.bridge) (i : nat) (c : Legacy.call)
      (l1 l2 : list listener) :
  CallListener i ∉ l1 -> CallListener i ∉ l2 ->
  Legacy.calls s !! i = Some c ->
  let s' := foldl (Legacy.deliver parse data) s (l1 ++ CallListener i :: l2) in
  Legacy.calls s' !! i = Some (Legacy.dataHandler parse c data).1
  /\ ((Legacy.dataHandler parse c data).2 = true ->
      CallListener i ∉ Legacy.stdout_listeners s').
Proof.
  intros Hn1 Hn2 Hi. cbv zeta. rewrite foldl_app. cbn [foldl].
  set (s1 := foldl (Legacy.deliver parse data) s l1).
  assert (H1 : Legacy.calls s1 !! i = Some c).
  { unfold s1. rewrite legacy_foldl_ne by exact Hn1. exact Hi. }
  assert (Hd : Legacy.deliver parse data s1 (CallListener i)
               = Legacy.mkBridge (Legacy.mcpProcess s1)
                   (if (Legacy.dataHandler parse c data).2
                    then remove_listener (CallListener i) (Legacy.stdout_listeners s1)
                    else Legacy.stdout_listeners s1)
                   (Legacy.stdin s1)
                   (<[i := (Legacy.dataHandler parse c data).1]> (Legacy.calls s1))).
  { unfold Legacy.deliver. rewrite H1.
    destruct (Legacy.dataHandler parse c data) as [c' removed]. reflexivity. }
  rewrite Hd. split.
  - rewrite legacy_foldl_ne by exact Hn2. cbn [Legacy.calls].
    apply list_lookup_insert_eq. eapply lookup_lt_Some, H1.
  - intros Hr Hx. apply legacy_foldl_listeners in Hx.
    cbn [Legacy.stdout_listeners] in Hx. rewrite Hr in Hx.
    eapply remove_listener_gone, Hx.
Qed.

(** A chunk on stdout, seen from a call whose listener is registered. *)
Lemma legacy_emit_own (data : string) (s : Legacy.bridge) (i : nat) (c : Legacy.call) :
  ObsLegacy.tidy s ->
  CallListener i ∈ Legacy.stdout_listeners s ->
  Legacy.calls s !! i = Some c ->
  let s' := Legacy.emit_stdout parse s data in
  Legacy.calls s' !! i = Some (Legacy.dataHandler parse c data).1
  /\ ((Legacy.dataHandler parse c data).2 = true ->
      CallListener i ∉ Legacy.stdout_listeners s').
Proof.
  intros (HN & _) Hin Hi. unfold Legacy.emit_stdout.
  apply list_elem_of_split in Hin as (l1 & l2 & Hl). rewrite Hl in HN.
  apply NoDup_app in HN as (_ & Hdisj & HN2). apply NoDup_cons in HN2 as (Hn2 & _).
  assert (Hn1 : CallListener i ∉ l1).
  { intros Hx. apply (Hdisj _ Hx). apply elem_of_cons. left. reflexivity. }
  pose proof (legacy_foldl_own data s i c l1 l2 Hn1 Hn2 Hi) as H.
  rewrite <- Hl in H. exact H.
Qed.

(** A listener unregisters no listener but itself, and itself only when the
    buffer parses. *)
Lemma legacy_deliver_keep (data : string) (s : Legacy.bridge) (h x : listener) :
  x <> h -> x ∈ Legacy.stdout_listeners s ->
  x ∈ Legacy.stdout_listeners (Legacy.deliver parse data s h).
Proof.
  intros Hne Hx. destruct h as [|k|j]; simpl; auto.
  destruct (Legacy.calls s !! j) as [c|]; auto.
  destruct (Legacy.dataHandler parse c data) as [c' [|]]; simpl; auto.
  apply elem_of_remove_listener. auto.
Qed.

Lemma legacy_foldl_keep (data : string) (ls : list listener) (s : Legacy.bridge)
      (x : listener) :
  x ∉ ls -> x ∈ Legacy.stdout_listeners s ->
  x ∈ Legacy.stdout_listeners (foldl (Legacy.deliver parse data) s ls).
Proof.
  revert s. induction ls as [|h ls IH]; intros s Hnot Hx; [exact Hx|].
  simpl. apply IH.
  - intros Hin. apply Hnot. apply elem_of_cons. right. exact Hin.
  - apply legacy_deliver_keep; [|exact Hx].
    intros ->. apply Hnot. apply elem_of_cons. left. reflexivity.
Qed.

Lemma legacy_emit_keep (data : string) (s : Legacy.bridge) (i : nat) (c : Legacy.call) :
  ObsLegacy.tidy s ->
  CallListener i ∈ Legacy.stdout_listeners s ->
  Legacy.calls s !! i = Some c ->
  (Legacy.dataHandler parse c data).2 = false ->
  CallListener i ∈ Legacy.stdout_listeners (Legacy.emit_stdout parse s data).
Proof.
  intros (HN & _) Hin Hi Hkeep. unfold Legacy.emit_stdout.
  pose proof Hin as Hreg.
  apply list_elem_of_split in Hin as (l1 & l2 & Hl). rewrite Hl in HN.
  apply NoDup_app in HN as (_ & Hdisj & HN2). apply NoDup_cons in HN2 as (Hn2 & _).
  assert (Hn1 : CallListener i ∉ l1).
  { intros Hx. apply (Hdisj _ Hx). apply elem_of_cons. left. reflexivity. }
  assert (Hgen : forall ls, ls = l1 ++ CallListener i :: l2 ->
            CallListener i ∈ Legacy.stdout_listeners (foldl (Legacy.deliver parse data) s ls)).
  { intros ls ->. rewrite foldl_app. cbn [foldl].
    apply legacy_foldl_keep; [exact Hn2|].
    set (s1 := foldl (Legacy.deliver parse data) s l1).
    assert (H1 : Legacy.calls s1 !! i = Some c).
    { unfold s1. rewrite legacy_foldl_ne by exact Hn1. exact Hi. }
    assert (Hr1 : CallListener i ∈ Legacy.stdout_listeners s1).
    { unfold s1. apply legacy_foldl_keep; assumption. }
    unfold Legacy.deliver. rewrite H1.
    destruct (Legacy.dataHandler parse c data) as [c' removed]. simpl in Hkeep.
    subst removed. exact Hr1. }
  apply Hgen, Hl.
Qed.

End LegacyListeners.

(** X18.  In [src/app/src/main.js] a response that parses but cannot be
    used leaves its call hanging.  The listener clears the timer and
    unregisters itself before it reads the response; when reading it throws
    (the response is [null], or the text of the first content item is not
    JSON), the exception is swallowed by the handler meant for incomplete
    data.  The promise is then unsettled with neither timer nor listener
    left, and stays unsettled whatever events follow. *)
Theorem legacy_call_hangs_on_unusable_response
    (parse : string -> option json) (trace later : list Legacy.event)
    (i : nat) (c : Legacy.call) (data : string) (response : json) :
  let s := Legacy.run parse Legacy.startMCPServer trace in
  let s' := Legacy.run parse (Legacy.step parse s (Legacy.StdoutData data)) later in
  Legacy.calls s !! i = Some c ->
  CallListener i ∈ Legacy.stdout_listeners s ->
  Legacy.outcome c = Unsettled ->
  parse (Legacy.responseData c +:+ data) = Some response ->
  Legacy.settlement parse response = None ->
  (exists c', Legacy.calls s' !! i = Some c'
              /\ Legacy.timeout_armed c' = false
              /\ Legacy.outcome c' = Unsettled)
  /\ CallListener i ∉ Legacy.stdout_listeners s'.
Proof.
  intros s s' Hi Hin Hout Hparse Hset.
  assert (Hd : Legacy.dataHandler parse c data
               = (Legacy.mkCall (Legacy.reqid c) (Legacy.responseData c +:+ data) false
                    Unsettled, true)).
  { unfold Legacy.dataHandler. rewrite Hparse, Hset, Hout. reflexivity. }
  destruct (legacy_emit_own parse data s i c (legacy_run_tidy parse trace) Hin Hi)
    as (Hc1 & Hgone).
  rewrite Hd in Hc1, Hgone. simpl in Hc1, Hgone.
  assert (Hdead : ObsLegacy.dead i (Legacy.step parse s (Legacy.StdoutData data))).
  { split; [apply Hgone; reflexivity|]. eexists. split; [exact Hc1|]. auto. }
  apply (legacy_run_dead parse i later) in Hdead as (Hnot & c' & Hc' & Harm & Hout').
  split; [exists c'; auto|exact Hnot].
Qed.

(** The tool answers with a text that is not JSON; the timer of the call
    and a second copy of the response come afterwards. *)
Lemma legacy_call_hangs_on_unusable_response_witness :
  let r := Sample.response 101
             (JObj [("content", JArr [JObj [("type", JStr "text");
                                           ("text", JStr "Done")]])]) in
  let trace := [Legacy.CallTool "get_recent_emails" Sample.args 101] in
  let later := [Legacy.CallTimeout 0; Legacy.StdoutData (Json.line r)] in
  let s := Legacy.run Json.parse Legacy.startMCPServer trace in
  let s' := Legacy.run Json.parse
              (Legacy.step Json.parse s (Legacy.StdoutData (Json.line r))) later in
  (Legacy.calls s !! 0 = Some (Legacy.mkCall 101 EmptyString true Unsettled)
   /\ Json.parse (Json.line r) = Some r
   /\ Legacy.settlement Json.parse r = None)
  /\ (exists c', Legacy.calls s' !! 0 = Some c'
                 /\ Legacy.timeout_armed c' = false
                 /\ Legacy.outcome c' = Unsettled)
  /\ CallListener 0 ∉ Legacy.stdout_listeners s'.
Proof.
  intros r trace later s s'.
  split; [split; [reflexivity|split; reflexivity]|].
  apply (legacy_call_hangs_on_unusable_response Json.parse trace later 0
           (Legacy.mkCall 101 EmptyString true Unsettled) (Json.line r) r);
    try reflexivity.
  apply elem_of_cons. right. apply elem_of_cons. left. reflexivity.
Defined.

Section LegacyChunks.

Variable parse : string -> option json.

Lemma legacy_dataHandler_app (c : Legacy.call) (d x : string) :
  parse (Legacy.responseData c +:+ d) = None ->
  Legacy.dataHandler parse (Legacy.dataHandler parse c d).1 x
  = Legacy.dataHandler parse c (d +:+ x).
Proof.
  intros Hnone. unfold Legacy.dataHandler at 2. rewrite Hnone.
  unfold Legacy.dataHandler. cbn [fst Legacy.responseData Legacy.reqid
                                  Legacy.timeout_armed Legacy.outcome].
  rewrite append_assoc. reflexivity.
Qed.

Lemma legacy_chunks_whole (chunks : list string) (s : Legacy.bridge)
      (i : nat) (c : Legacy.call) :
  ObsLegacy.tidy s ->
  Legacy.calls s !! i = Some c ->
  CallListener i ∈ Legacy.stdout_listeners s ->
  chunks <> [] ->
  (forall k, 0 < k < length chunks ->
     parse (Legacy.responseData c +:+ Text.concat_all (take k chunks)) = None) ->
  Legacy.calls (Legacy.run parse s (map Legacy.StdoutData chunks)) !! i
  = Some (Legacy.dataHandler parse c (Text.concat_all chunks)).1.
Proof.
  revert s c. induction chunks as [|d rest IH]; intros s c Ht Hi Hreg Hne Hnone;
    [contradiction|].
  destruct (legacy_emit_own parse d s i c Ht Hreg Hi) as (Hown & _).
  destruct rest as [|d' rest].
  - simpl. rewrite append_empty_r. exact Hown.
  - assert (H1 : parse (Legacy.responseData c +:+ d) = None).
    { specialize (Hnone 1). simpl in Hnone. rewrite append_empty_r in Hnone.
      apply Hnone. lia. }
    assert (Hd : Legacy.dataHandler parse c d
                 = (Legacy.mkCall (Legacy.reqid c) (Legacy.responseData c +:+ d)
                      (Legacy.timeout_armed c) (Legacy.outcome c), false)).
    { unfold Legacy.dataHandler. rewrite H1. reflexivity. }
    change (Legacy.run parse s (map Legacy.StdoutData (d :: d' :: rest)))
      with (Legacy.run parse (Legacy.step parse s (Legacy.StdoutData d))
              (map Legacy.StdoutData (d' :: rest))).
    change (Text.concat_all (d :: d' :: rest))
      with (d +:+ Text.concat_all (d' :: rest)).
    rewrite <- (legacy_dataHandler_app c d _ H1).
    apply IH.
    + apply legacy_step_tidy, Ht.
    + exact Hown.
    + simpl. apply (legacy_emit_keep parse d s i c Ht Hreg Hi). rewrite Hd. reflexivity.
    + discriminate.
    + intros k Hk. rewrite Hd. cbn [fst Legacy.responseData]. rewrite append_assoc.
      specialize (Hnone (S k)). simpl in Hnone. apply Hnone. simpl in Hk |- *. lia.
Qed.

End LegacyChunks.

(** X19.  The listener of [src/app/src/main.js] parses everything received
    since the call was issued, at every chunk.  In every reachable state, as
    long as the text received by a listening call does not parse at an
    earlier chunk boundary, cutting the stream into chunks changes nothing:
    after the chunks the call is in the state, and has the settlement, of
    one pass of its listener over their concatenation, whichever other calls
    are listening. *)
Theorem legacy_chunks_equal_whole_until_first_parse
    (parse : string -> option json) (trace : list Legacy.event)
    (i : nat) (c : Legacy.call) (chunks : list string) :
  let s := Legacy.run parse Legacy.startMCPServer trace in
  Legacy.calls s !! i = Some c ->
  CallListener i ∈ Legacy.stdout_listeners s ->
  chunks <> [] ->
  (forall k, 0 < k < length chunks ->
     parse (Legacy.responseData c +:+ Text.concat_all (take k chunks)) = None) ->
  Legacy.calls (Legacy.run parse s (map Legacy.StdoutData chunks)) !! i
  = Some (Legacy.dataHandler parse c (Text.concat_all chunks)).1.
Proof.
  intros s Hi Hreg Hne Hnone.
  apply legacy_chunks_whole; [apply legacy_run_tidy|assumption..].
Qed.

(** A response in three chunks. *)
Lemma legacy_chunks_equal_whole_until_first_parse_witness :
  let r := Json.line (Sample.response 101 (JStr "emails")) in
  let chunks := [String.substring 0 9 r; String.substring 9 20 r;
                 String.substring 29 (String.length r) r] in
  let trace := [Legacy.CallTool "get_recent_emails" Sample.args 101] in
  let s := Legacy.run Json.parse Legacy.startMCPServer trace in
  let c := Legacy.mkCall 101 EmptyString true Unsettled in
  (Legacy.calls s !! 0 = Some c /\ Text.concat_all chunks = r)
  /\ Legacy.calls (Legacy.run Json.parse s (map Legacy.StdoutData chunks)) !! 0
     = Some (Legacy.dataHandler Json.parse c (Text.concat_all chunks)).1.
Proof.
  intros r chunks trace s c. split; [split; reflexivity|].
  apply (legacy_chunks_equal_whole_until_first_parse Json.parse trace 0 c chunks).
  - reflexivity.
  - apply elem_of_cons. right. apply elem_of_cons. left. reflexivity.
  - discriminate.
  - intros k Hk. simpl in Hk.
    assert (Hk' : k = 1 \/ k = 2) by lia.
    destruct Hk' as [-> | ->]; reflexivity.
Defined.

Section LegacyAlike.

Variable parse : string -> option json.

Lemma legacy_dataHandler_alike (c d : Legacy.call) (data : string) :
  Legacy.responseData c = Legacy.responseData d ->
  Legacy.outcome c = Legacy.outcome d ->
  Legacy.responseData (Legacy.dataHandler parse c data).1
  = Legacy.responseData (Legacy.dataHandler parse d data).1
  /\ Legacy.outcome (Legacy.dataHandler parse c data).1
     = Legacy.outcome (Legacy.dataHandler parse d data).1
  /\ (Legacy.dataHandler parse c data).2 = (Legacy.dataHandler parse d data).2.
Proof.
  intros Hb Ho. unfold Legacy.dataHandler. rewrite Hb, Ho.
  destruct (parse (Legacy.responseData d +:+ data)); simpl; auto.
Qed.

End LegacyAlike.

(** X20.  In [src/app/src/main.js] the listeners do not look at ids, and
    every listener receives every chunk.  In every reachable state, two
    calls whose listeners are registered and whose buffers and promises are
    equal (as they are when both were issued with no output in between) are
    treated alike by every chunk: their buffers stay equal, their promises
    are settled in the same way, and their listeners are unregistered
    together. *)
Theorem legacy_pending_calls_settle_alike
    (parse : string -> option json) (trace : list Legacy.event)
    (i j : nat) (ci cj : Legacy.call) (data : string) :
  let s := Legacy.run parse Legacy.startMCPServer trace in
  let s' := Legacy.step parse s (Legacy.StdoutData data) in
  Legacy.calls s !! i = Some ci ->
  Legacy.calls s !! j = Some cj ->
  CallListener i ∈ Legacy.stdout_listeners s ->
  CallListener j ∈ Legacy.stdout_listeners s ->
  Legacy.responseData ci = Legacy.responseData cj ->
  Legacy.outcome ci = Legacy.outcome cj ->
  exists ci' cj',
    Legacy.calls s' !! i = Some ci' /\ Legacy.calls s' !! j = Some cj'
    /\ Legacy.responseData ci' = Legacy.responseData cj'
    /\ Legacy.outcome ci' = Legacy.outcome cj'
    /\ (parse (Legacy.responseData ci +:+ data) <> None ->
        (CallListener i ∉ Legacy.stdout_listeners s')
        /\ CallListener j ∉ Legacy.stdout_listeners s').
Proof.
  intros s s' Hi Hj Hli Hlj Hb Ho.
  pose proof (legacy_run_tidy parse trace) as Ht. fold s in Ht.
  destruct (legacy_emit_own parse data s i ci Ht Hli Hi) as (Hi' & Hgi).
  destruct (legacy_emit_own parse data s j cj Ht Hlj Hj) as (Hj' & Hgj).
  destruct (legacy_dataHandler_alike parse ci cj data Hb Ho) as (Hb' & Ho' & Hr').
  exists (Legacy.dataHandler parse ci data).1, (Legacy.dataHandler parse cj data).1.
  split; [exact Hi'|]. split; [exact Hj'|]. split; [exact Hb'|]. split; [exact Ho'|].
  intros Hparse.
  assert (Hrem : (Legacy.dataHandler parse ci data).2 = true).
  { unfold Legacy.dataHandler.
    destruct (parse (Legacy.responseData ci +:+ data)); [reflexivity|contradiction]. }
  split; [apply Hgi, Hrem|]. apply Hgj. rewrite <- Hr'. exact Hrem.
Qed.

(** Three calls issued in a row; the response to the third arrives. *)
Lemma legacy_pending_calls_settle_alike_witness :
  let trace := [Legacy.CallTool "get_recent_emails" Sample.args 101;
                Legacy.CallTool "get_upcoming_events" Sample.args 102;
                Legacy.CallTool "search_web_insights" Sample.args 103] in
  let data := Json.line (Sample.response 103 (JStr "insights")) in
  let s := Legacy.run Json.parse Legacy.startMCPServer trace in
  let s' := Legacy.step Json.parse s (Legacy.StdoutData data) in
  (Legacy.calls s !! 0 = Some (Legacy.mkCall 101 EmptyString true Unsettled)
   /\ Legacy.calls s !! 1 = Some (Legacy.mkCall 102 EmptyString true Unsettled))
  /\ Legacy.outcome <$> Legacy.calls s' !! 0 = Some (Resolved (Val (JStr "insights")))
  /\ exists ci' cj',
       Legacy.calls s' !! 0 = Some ci' /\ Legacy.calls s' !! 1 = Some cj'
       /\ Legacy.responseData ci' = Legacy.responseData cj'
       /\ Legacy.outcome ci' = Legacy.outcome cj'
       /\ (Json.parse (EmptyString +:+ data) <> None ->
           (CallListener 0 ∉ Legacy.stdout_listeners s')
           /\ CallListener 1 ∉ Legacy.stdout_listeners s').
Proof.
  intros trace data s s'. split; [split; reflexivity|]. split; [reflexivity|].
  apply (legacy_pending_calls_settle_alike Json.parse trace 0 1
           (Legacy.mkCall 101 EmptyString true Unsettled)
           (Legacy.mkCall 102 EmptyString true Unsettled) data); try reflexivity.
  - apply elem_of_cons. right. apply elem_of_cons. left. reflexivity.
  - apply elem_of_cons. right. apply elem_of_cons. right.
    apply elem_of_cons. left. reflexivity.
Defined.

(** * The IPC handlers *)

Lemma invoke_cases (s : Bridge.bridge) (ch : Ipc.channel) (a b : jsval) (now rnd : Z) :
  (exists msg, Ipc.guard ch = Some msg /\ Ipc.no_items a = true
               /\ Ipc.invoke s ch a b now rnd = (s, Ipc.Replied (Val (Ipc.failure msg))))
  \/ ((forall msg, Ipc.guard ch = Some msg -> Ipc.no_items a = false)
      /\ Ipc.invoke s ch a b now rnd
         = (Bridge.callMCPTool s (Ipc.tool ch) (Ipc.arguments ch a b) now rnd,
            Ipc.Awaiting (length (Bridge.calls s)))).
Proof.
  unfold Ipc.invoke. destruct (Ipc.guard ch) as [msg|] eqn:Hg.
  - destruct (Ipc.no_items a) eqn:Hn.
    + left. exists msg. auto.
    + right. split; [intros; reflexivity|reflexivity].
  - right. split; [intros msg Hmsg; discriminate|reflexivity].
Qed.

(** X21.  With the provider gone, every handler answers with a failure
    object and nothing else happens: the handler of a guarded channel refuses
    an empty argument with its own text, every other invocation is answered
    with the text of the refused call, "MCP server not running"; nothing is
    written to stdin, no listener is registered, and the reply is not
    changed by anything that follows. *)
Theorem ipc_failure_reply_when_provider_is_gone
    (parse : string -> option json) (later : list Bridge.event) (s : Bridge.bridge)
    (ch : Ipc.channel) (a b : jsval) (now rnd : Z) :
  Bridge.mcpProcess s = false ->
  let s' := (Ipc.invoke s ch a b now rnd).1 in
  let r := (Ipc.invoke s ch a b now rnd).2 in
  Bridge.stdin s' = Bridge.stdin s
  /\ Bridge.stdout_listeners s' = Bridge.stdout_listeners s
  /\ exists msg,
       (msg = "MCP server not running"
        \/ (Ipc.guard ch = Some msg /\ Ipc.no_items a = true))
       /\ Ipc.reply (Bridge.run parse s' later) r = Some (Val (Ipc.failure msg)).
Proof.
  intros Hnull s' r. unfold s', r.
  destruct (invoke_cases s ch a b now rnd) as [(msg & Hg & Hn & ->) | (_ & ->)]; simpl.
  - split; [reflexivity|]. split; [reflexivity|]. exists msg. auto.
  - unfold Bridge.callMCPTool. rewrite Hnull. simpl.
    split; [reflexivity|]. split; [reflexivity|].
    exists "MCP server not running". split; [left; reflexivity|].
    rewrite (run_final parse later _ (length (Bridge.calls s))
               (Bridge.mkCall (Ipc.tool ch) (Ipc.arguments ch a b) 0 Bridge.Returned
                  (Rejected NotRunning))).
    + reflexivity.
    + simpl. apply list_lookup_middle. reflexivity.
    + right. reflexivity.
Qed.

Lemma ipc_failure_reply_when_provider_is_gone_witness :
  let s := Bridge.run Json.parse Sample.ready [Bridge.ProcessClose] in
  let later := [Bridge.StdoutData (Json.line (Sample.response 101 (JStr "emails")));
                Bridge.CallTimeout 0] in
  let s' := (Ipc.invoke s Ipc.GetRecentEmails Undefined Undefined 101 0).1 in
  let r := (Ipc.invoke s Ipc.GetRecentEmails Undefined Undefined 101 0).2 in
  Bridge.mcpProcess s = false
  /\ Bridge.stdin s' = Bridge.stdin s
  /\ Bridge.stdout_listeners s' = Bridge.stdout_listeners s
  /\ exists msg,
       (msg = "MCP server not running"
        \/ (Ipc.guard Ipc.GetRecentEmails = Some msg /\ Ipc.no_items Undefined = true))
       /\ Ipc.reply (Bridge.run Json.parse s' later) r = Some (Val (Ipc.failure msg)).
Proof.
  intros s later s' r. split; [reflexivity|].
  apply (ipc_failure_reply_when_provider_is_gone Json.parse later s
           Ipc.GetRecentEmails Undefined Undefined 101 0).
  reflexivity.
Defined.

(** X22.  With the bridge ready and the provider running, an invocation
    that passes the guard writes one request, with the tool of the channel
    and the arguments object built from the invocation, and has no reply
    while the call is pending.  The chunk that completes the line of the
    response with the id of the request, when that response has a
    settlement, produces the reply: the [structuredContent] of the result
    when it has a truthy one, else the result itself, and a failure object
    with the text of the error for an error response. *)
Theorem ipc_reply_from_response
    (parse : string -> option json) (trace : list Bridge.event)
    (ch : Ipc.channel) (a b : jsval) (now rnd : Z)
    (line rest : string) (response : json) (idv : jsval) (p : promise) :
  let s := Bridge.run parse Bridge.startMCPServer trace in
  let s1 := (Ipc.invoke s ch a b now rnd).1 in
  let r := (Ipc.invoke s ch a b now rnd).2 in
  let s2 := Bridge.step parse s1 (Bridge.StdoutData (line +:+ String Text.nl rest)) in
  Bridge.mcpProcess s = true ->
  Bridge.serverReady s = true ->
  (forall msg, Ipc.guard ch = Some msg -> Ipc.no_items a = false) ->
  Text.has_nl line = false ->
  Text.is_empty (Text.trim line) = false ->
  parse (Text.trim line) = Some response ->
  Js.get (Val response) "id" = Some idv ->
  Js.strict_eq_num idv (now + rnd) = true ->
  Bridge.settlement response = Some p ->
  Bridge.stdin s1
  = Bridge.stdin s
    ++ [(ByCall (length (Bridge.calls s)),
         Bridge.request (now + rnd) (Ipc.tool ch) (Ipc.arguments ch a b))]
  /\ Ipc.reply s1 r = None
  /\ Ipc.reply s2 r = Ipc.answer p.
Proof.
  intros s s1 r s2 Hlive Hready Hguard Hline Hne Hparse Hid Heq Hset.
  assert (Hinv : Ipc.invoke s ch a b now rnd
                 = (Bridge.callMCPTool s (Ipc.tool ch) (Ipc.arguments ch a b) now rnd,
                    Ipc.Awaiting (length (Bridge.calls s)))).
  { destruct (invoke_cases s ch a b now rnd) as [(msg & Hg & Hn & _) | (_ & H)];
      [|exact H].
    rewrite (Hguard msg Hg) in Hn. discriminate. }
  unfold s2, s1, r. rewrite Hinv. cbn [fst snd].
  set (i := length (Bridge.calls s)).
  set (c := Bridge.mkCall (Ipc.tool ch) (Ipc.arguments ch a b) 0
              (Bridge.Sent (Bridge.fresh (now + rnd))) Unsettled).
  assert (Hs1 : Bridge.callMCPTool s (Ipc.tool ch) (Ipc.arguments ch a b) now rnd
                = Bridge.run parse Bridge.startMCPServer
                    (trace ++ [Bridge.CallTool (Ipc.tool ch) (Ipc.arguments ch a b) now rnd])).
  { rewrite run_snoc. reflexivity. }
  assert (Hc : Bridge.calls
                 (Bridge.callMCPTool s (Ipc.tool ch) (Ipc.arguments ch a b) now rnd) !! i
               = Some c).
  { unfold Bridge.callMCPTool, Bridge.readiness_loop. rewrite Hlive. simpl.
    rewrite Hlive, Hready. simpl.
    apply list_lookup_insert_eq. rewrite length_app. simpl. unfold i. lia. }
  split; [|split].
  - unfold Bridge.callMCPTool, Bridge.readiness_loop. rewrite Hlive. simpl.
    rewrite Hlive, Hready. reflexivity.
  - simpl. rewrite Hc. reflexivity.
  - assert (Ht : Obs.tidy
                   (Bridge.callMCPTool s (Ipc.tool ch) (Ipc.arguments ch a b) now rnd)).
    { rewrite Hs1. apply run_tidy. }
    assert (Hl1 : Bridge.mcpProcess
                    (Bridge.callMCPTool s (Ipc.tool ch) (Ipc.arguments ch a b) now rnd)
                  = true).
    { unfold Bridge.callMCPTool, Bridge.readiness_loop. rewrite Hlive. simpl.
      rewrite Hlive, Hready. simpl. exact Hlive. }
    destruct (emit_settles_pending parse _ i c (Bridge.fresh (now + rnd)) line rest
                response idv p Ht Hc eq_refl eq_refl Hl1 Hline Hne Hparse Hid Heq Hset)
      as (Hc2 & _).
    unfold Ipc.reply. rewrite Hc2. reflexivity.
Qed.

(** The handler of "get-recent-emails" invoked without argument; the
    provider answers with a result that carries [structuredContent]. *)
Lemma ipc_reply_from_response_witness :
  let content := JObj [("success", JBool true); ("count", JNum 3)] in
  let response :=
    Sample.response 1007
      (JObj [("content", JArr []); ("structuredContent", content)]) in
  let s1 := (Ipc.invoke Sample.ready Ipc.GetRecentEmails Undefined Undefined 1000 7).1 in
  let r := (Ipc.invoke Sample.ready Ipc.GetRecentEmails Undefined Undefined 1000 7).2 in
  let s2 := Bridge.step Json.parse s1
              (Bridge.StdoutData (Json.stringify response +:+ String Text.nl EmptyString)) in
  Bridge.stdin s1
  = Bridge.stdin Sample.ready
    ++ [(ByCall 0, Bridge.request 1007 "get_recent_emails" (JObj [("maxResults", JNum 50)]))]
  /\ Ipc.reply s1 r = None
  /\ Ipc.reply s2 r = Some (Val content).
Proof.
  intros content response s1 r s2.
  apply (ipc_reply_from_response Json.parse Sample.handshake_ok Ipc.GetRecentEmails
           Undefined Undefined 1000 7 (Json.stringify response) EmptyString response
           (Val (JNum 1007)) (Resolved (Val (JObj [("content", JArr []);
                                                   ("structuredContent", content)]))));
    try reflexivity.
  intros msg Hmsg. discriminate.
Defined.


Section LegacyIpc.

Variable parse : string -> option json.

Lemma legacy_deliver_process (data : string) (s : Legacy.bridge) (h : listener) :
  Legacy.mcpProcess (Legacy.deliver parse data s h) = Legacy.mcpProcess s.
Proof.
  destruct h as [|k|j]; simpl; try reflexivity.
  destruct (Legacy.calls s !! j) as [c|]; [|reflexivity].
  destruct (Legacy.dataHandler parse c data) as [c' removed]. reflexivity.
Qed.

(** The handle is set by [startMCPServer] and never cleared. *)
Lemma legacy_run_process (trace : list Legacy.event) :
  Legacy.mcpProcess (Legacy.run parse Legacy.startMCPServer trace) = true.
Proof.
  unfold Legacy.run.
  assert (H0 : Legacy.mcpProcess Legacy.startMCPServer = true) by reflexivity.
  revert H0. generalize Legacy.startMCPServer.
  induction trace as [|e trace IH]; intros s Hs; [exact Hs|].
  simpl. apply IH. destruct e as [chunk|tool args now|i]; simpl.
  - unfold Legacy.emit_stdout. generalize (Legacy.stdout_listeners s). intros ls.
    revert s Hs. induction ls as [|h ls IHl]; intros s Hs; [exact Hs|].
    simpl. apply IHl. rewrite legacy_deliver_process. exact Hs.
  - unfold Legacy.callMCPTool. destruct (negb (Legacy.mcpProcess s)); exact Hs.
  - unfold Legacy.call_timeout. destruct (Legacy.calls s !! i) as [c|]; [|exact Hs].
    destruct (Legacy.timeout_armed c); exact Hs.
Qed.

End LegacyIpc.

(** X23.  The handlers of [src/app/src/main.js], in every reachable state:
    an invocation that passes the guard writes one request, with the tool
    of the channel, the arguments object built from the invocation and
    [Date.now()] as id, and has no reply while the call is pending.  The
    first chunk after it that parses as a whole, whatever its id, when the
    listener settles from it, produces the reply: the value the listener
    resolves with, returned as it is, or a failure object with the text of
    the error. *)
Theorem legacy_ipc_reply_from_first_output
    (parse : string -> option json) (trace : list Legacy.event)
    (ch : Ipc.channel) (a b : jsval) (now : Z)
    (data : string) (response : json) (p : promise) :
  let s := Legacy.run parse Legacy.startMCPServer trace in
  let s1 := (Ipc.legacy_invoke s ch a b now).1 in
  let r := (Ipc.legacy_invoke s ch a b now).2 in
  let s2 := Legacy.step parse s1 (Legacy.StdoutData data) in
  (forall msg, Ipc.guard ch = Some msg -> Ipc.no_items a = false) ->
  parse data = Some response ->
  Legacy.settlement parse response = Some p ->
  Legacy.stdin s1
  = Legacy.stdin s
    ++ [(ByCall (length (Legacy.calls s)),
         Legacy.request now (Ipc.tool ch) (Ipc.arguments ch a b))]
  /\ Ipc.legacy_reply s1 r = None
  /\ Ipc.legacy_reply s2 r = Ipc.legacy_answer p.
Proof.
  intros s s1 r s2 Hguard Hparse Hset.
  assert (Hlive : Legacy.mcpProcess s = true) by apply legacy_run_process.
  assert (Hinv : Ipc.legacy_invoke s ch a b now
                 = (Legacy.callMCPTool s (Ipc.tool ch) (Ipc.arguments ch a b) now,
                    Ipc.Awaiting (length (Legacy.calls s)))).
  { unfold Ipc.legacy_invoke. destruct (Ipc.guard ch) as [msg|] eqn:Hg; [|reflexivity].
    rewrite (Hguard msg eq_refl). reflexivity. }
  unfold s2, s1, r. rewrite Hinv. cbn [fst snd].
  set (i := length (Legacy.calls s)).
  set (c := Legacy.mkCall (Legacy.request_id now) EmptyString true Unsettled).
  assert (Hs1 : Legacy.callMCPTool s (Ipc.tool ch) (Ipc.arguments ch a b) now
                = Legacy.mkBridge (Legacy.mcpProcess s)
                    (Legacy.stdout_listeners s ++ [CallListener i])
                    (Legacy.stdin s
                     ++ [(ByCall i, Legacy.request (Legacy.request_id now) (Ipc.tool ch)
                                      (Ipc.arguments ch a b))])
                    (Legacy.calls s ++ [c])).
  { unfold Legacy.callMCPTool. rewrite Hlive. reflexivity. }
  assert (Hc : Legacy.calls
                 (Legacy.callMCPTool s (Ipc.tool ch) (Ipc.arguments ch a b) now) !! i
               = Some c).
  { rewrite Hs1. cbn [Legacy.calls]. apply list_lookup_middle. reflexivity. }
  split; [rewrite Hs1; reflexivity|]. split.
  - unfold Ipc.legacy_reply. rewrite Hc. reflexivity.
  - assert (Ht : ObsLegacy.tidy
                   (Legacy.callMCPTool s (Ipc.tool ch) (Ipc.arguments ch a b) now)).
    { apply (legacy_step_tidy parse s
               (Legacy.CallTool (Ipc.tool ch) (Ipc.arguments ch a b) now)).
      apply legacy_run_tidy. }
    assert (Hreg : CallListener i
                   ∈ Legacy.stdout_listeners
                       (Legacy.callMCPTool s (Ipc.tool ch) (Ipc.arguments ch a b) now)).
    { rewrite Hs1. cbn [Legacy.stdout_listeners].
      apply elem_of_app. right. apply list_elem_of_singleton. reflexivity. }
    destruct (legacy_emit_own parse data _ i c Ht Hreg Hc) as (Hown & _).
    assert (Hd : Legacy.dataHandler parse c data
                 = (Legacy.mkCall (Legacy.request_id now) data false p, true)).
    { unfold Legacy.dataHandler, c.
      cbn [Legacy.responseData Legacy.reqid Legacy.outcome Legacy.timeout_armed].
      change (EmptyString +:+ data) with data. rewrite Hparse, Hset. reflexivity. }
    rewrite Hd in Hown.
    unfold Ipc.legacy_reply. cbn [Legacy.step]. rewrite Hown. reflexivity.
Qed.

(** The handler of "get-upcoming-events" invoked without argument; the
    provider answers with a result whose first content item holds JSON
    text, under an id that is not the id of the request. *)
Lemma legacy_ipc_reply_from_first_output_witness :
  let response :=
    Sample.response 7
      (JObj [("content", JArr [JObj [("type", JStr "text"); ("text", JStr "[1,2]")]])]) in
  let s1 := (Ipc.legacy_invoke Legacy.startMCPServer Ipc.GetUpcomingEvents
               Undefined Undefined 1000).1 in
  let r := (Ipc.legacy_invoke Legacy.startMCPServer Ipc.GetUpcomingEvents
              Undefined Undefined 1000).2 in
  let s2 := Legacy.step Json.parse s1 (Legacy.StdoutData (Json.line response)) in
  Legacy.stdin s1
  = [(ByCall 0, Legacy.request 1000 "get_upcoming_events" (JObj [("days", JNum 7)]))]
  /\ Ipc.legacy_reply s1 r = None
  /\ Ipc.legacy_reply s2 r = Some (Val (JArr [JNum 1; JNum 2])).
Proof.
  intros response s1 r s2.
  apply (legacy_ipc_reply_from_first_output Json.parse [] Ipc.GetUpcomingEvents
           Undefined Undefined 1000 (Json.line response) response
           (Resolved (Val (JArr [JNum 1; JNum 2])))); try reflexivity.
  intros msg Hmsg. discriminate.
Defined.

(** * Process exit and readiness over the reachable states *)

(** ** The exit of the provider with calls pending *)

Lemma elem_of_pending_from (n : nat) (cs : list Bridge.call) (i : nat) :
  i ∈ Obs.pending_from n cs ->
  exists c, cs !! (i - n) = Some c /\ n <= i /\ Obs.is_pending c = true.
Proof.
  revert n. induction cs as [|c rest IH]; intros n Hin; simpl in Hin.
  - apply elem_of_nil in Hin. contradiction.
  - apply elem_of_app in Hin as [Hin|Hin].
    + destruct (Obs.is_pending c) eqn:Hc; [|apply elem_of_nil in Hin; contradiction].
      apply list_elem_of_singleton in Hin. subst i. exists c.
      rewrite Nat.sub_diag. auto.
    + destruct (IH (S n) Hin) as (c' & Hc' & Hle & Hp). exists c'.
      replace (i - n) with (S (i - S n)) by lia. split; [exact Hc'|]. split; [lia|exact Hp].
Qed.

Lemma elem_of_pending (s : Bridge.bridge) (i : nat) :
  i ∈ Obs.pending s ->
  exists c f, Bridge.calls s !! i = Some c /\ Bridge.phase_of c = Bridge.Sent f
              /\ Bridge.isComplete f = false.
Proof.
  intros Hin. destruct (elem_of_pending_from 0 _ i Hin) as (c & Hc & _ & Hp).
  rewrite Nat.sub_0_r in Hc. unfold Obs.is_pending in Hp.
  destruct (Bridge.phase_of c) as [|f| |] eqn:Hph; try discriminate.
  exists c, f. split; [exact Hc|]. split; [exact Hph|].
  destruct (Bridge.isComplete f); [discriminate|reflexivity].
Qed.

(** C2, as the close handler implements it.  If the provider process
    terminates while K calls are pending, in whatever state the bridge has
    reached: the exit only clears the module-level handle.  None of the K
    calls is failed and none leaves the set of pending calls: after the exit
    is observed the pending calls are the same K calls, and each of them
    still has its promise unsettled, its listener registered on stdout and
    its 45000 ms timer armed. *)
Theorem exit_fails_no_pending_call
    (parse : string -> option json) (trace : list Bridge.event) :
  let s := Bridge.run parse Bridge.startMCPServer trace in
  let closed := Bridge.step parse s Bridge.ProcessClose in
  Bridge.mcpProcess closed = false
  /\ Obs.pending closed = Obs.pending s
  /\ forall i, i ∈ Obs.pending s ->
       exists c f,
         Bridge.calls closed !! i = Some c
         /\ Bridge.phase_of c = Bridge.Sent f
         /\ Bridge.outcome c = Unsettled
         /\ Bridge.isComplete f = false
         /\ Bridge.timeout_armed f = true
         /\ CallListener i ∈ Bridge.stdout_listeners closed.
Proof.
  intros s closed. split; [reflexivity|]. split; [reflexivity|].
  intros i Hin. destruct (elem_of_pending s i Hin) as (c & f & Hc & Hp & Hinc).
  destruct (run_tidy parse trace) as (_ & _ & _ & HB). fold s in HB.
  destruct (HB i c f Hc Hp) as (Harm & Hpend).
  destruct (Hpend Hinc) as (_ & Hout & Hreg).
  exists c, f. rewrite Harm, Hinc. repeat split; assumption.
Qed.

(** The provider exits with two calls pending. *)
Lemma exit_fails_no_pending_call_witness :
  let trace :=
    Sample.handshake_ok
    ++ [Bridge.CallTool "get_recent_emails" Sample.args 101 0;
        Bridge.CallTool "get_upcoming_events" Sample.args 102 0] in
  let s := Bridge.run Json.parse Bridge.startMCPServer trace in
  let closed := Bridge.step Json.parse s Bridge.ProcessClose in
  Obs.pending s = [0; 1]
  /\ Bridge.mcpProcess closed = false
  /\ Obs.pending closed = [0; 1]
  /\ forall i, i ∈ [0; 1] ->
       exists c f,
         Bridge.calls closed !! i = Some c
         /\ Bridge.phase_of c = Bridge.Sent f
         /\ Bridge.outcome c = Unsettled
         /\ Bridge.isComplete f = false
         /\ Bridge.timeout_armed f = true
         /\ CallListener i ∈ Bridge.stdout_listeners closed.
Proof.
  intros trace s closed.
  assert (Hp : Obs.pending s = [0; 1]) by (vm_compute; reflexivity).
  split; [exact Hp|].
  pose proof (exit_fails_no_pending_call Json.parse trace) as H.
  cbv zeta in H. fold s in H. fold closed in H. rewrite Hp in H. exact H.
Defined.

(** ** What is behind a set ready flag *)

Section ReadySince.

Variable parse : string -> option json.

Lemma call_timeout_keeps (i : nat) (s : Bridge.bridge) :
  Bridge.handshakes (Bridge.call_timeout i s) = Bridge.handshakes s
  /\ Bridge.serverReady (Bridge.call_timeout i s) = Bridge.serverReady s.
Proof.
  unfold Bridge.call_timeout.
  destruct (Bridge.calls s !! i) as [c|]; [|auto].
  destruct (Bridge.phase_of c) as [|f| |]; auto.
  destruct (Bridge.timeout_armed f); [|auto].
  destruct (Bridge.isComplete f); [auto|].
  destruct (Bridge.mcpProcess s); auto.
Qed.

Lemma deliver_call_keeps (data : string) (s : Bridge.bridge) (i : nat) :
  Bridge.serverReady (Bridge.deliver parse data s (CallListener i)) = Bridge.serverReady s.
Proof.
  simpl. destruct (Bridge.calls s !! i) as [c|]; [|reflexivity].
  destruct (Bridge.phase_of c); try reflexivity.
  destruct (Bridge.dataHandler parse (Bridge.mcpProcess s) f data) as [[f' r] log].
  destruct (Bridge.unregistered _ _ _); reflexivity.
Qed.

(** Only a chunk on stdout sets the ready flag. *)
Lemma step_unready (s : Bridge.bridge) (e : Bridge.event) :
  Bridge.serverReady s = false -> (forall data, e <> Bridge.StdoutData data) ->
  Bridge.serverReady (Bridge.step parse s e) = false.
Proof.
  intros Hr Hno. destruct e as [chunk|chunk| |k|k|tool args now rnd|i now rnd|i]; simpl.
  - exfalso. eapply Hno. reflexivity.
  - unfold Bridge.stderr_listener. destruct (Bridge.is_banner chunk); exact Hr.
  - exact Hr.
  - unfold Bridge.banner_timer, Bridge.initializeMCPServer.
    destruct (Bridge.handshakes s !! k) as [[|h|]|]; try exact Hr.
    destruct (Bridge.mcpProcess s); exact Hr.
  - unfold Bridge.handshake_timeout.
    destruct (Bridge.handshakes s !! k) as [[|h|]|]; try exact Hr.
    destruct (Bridge.h_timeout_armed h); exact Hr.
  - unfold Bridge.callMCPTool. destruct (negb (Bridge.mcpProcess s)); [exact Hr|].
    match goal with |- context [Bridge.readiness_loop ?s0 ?i ?c ?n ?r] =>
      destruct (readiness_loop_keeps s0 i c n r) as (_ & H2 & _); rewrite H2 end.
    exact Hr.
  - unfold Bridge.poll_timer.
    destruct (Bridge.calls s !! i) as [c|]; [|exact Hr].
    destruct (Bridge.phase_of c); try exact Hr.
    destruct (readiness_loop_keeps s i (Bridge.incr_attempts c) now rnd) as (_ & H2 & _).
    rewrite H2. exact Hr.
  - destruct (call_timeout_keeps i s) as [_ H2]. rewrite H2. exact Hr.
Qed.

(** A listener starts no handshake and leaves a settled promise settled. *)
Lemma deliver_started_back (data : string) (s : Bridge.bridge) (h0 : listener)
      (k : nat) (h : Bridge.handshaking) :
  Bridge.handshakes (Bridge.deliver parse data s h0) !! k = Some (Bridge.Started h) ->
  exists h', Bridge.handshakes s !! k = Some (Bridge.Started h')
             /\ (Bridge.h_promise h = Unsettled -> Bridge.h_promise h' = Unsettled).
Proof.
  destruct (decide (h0 = InitListener k)) as [->|Hne].
  - simpl. unfold Bridge.init_dataHandler.
    destruct (Bridge.handshakes s !! k) as [[|h1|]|] eqn:Hk; try (intros H; congruence).
    assert (Hlt : k < length (Bridge.handshakes s)) by (eapply lookup_lt_Some, Hk).
    destruct (Bridge.init_lines parse (Bridge.mcpProcess s) _).
    4: destruct (is_settled (Bridge.h_promise h1)).
    all: simpl; rewrite list_lookup_insert_eq by exact Hlt; intros [= <-];
      exists h1; (split; [reflexivity|]); simpl; try tauto;
      destruct (Bridge.h_promise h1); simpl; congruence.
  - rewrite deliver_handshake_ne by exact Hne. intros H. exists h. auto.
Qed.

Lemma foldl_started_back (data : string) (ls : list listener) (s : Bridge.bridge)
      (k : nat) (h : Bridge.handshaking) :
  Bridge.handshakes (foldl (Bridge.deliver parse data) s ls) !! k = Some (Bridge.Started h) ->
  exists h', Bridge.handshakes s !! k = Some (Bridge.Started h')
             /\ (Bridge.h_promise h = Unsettled -> Bridge.h_promise h' = Unsettled).
Proof.
  revert s. induction ls as [|h0 ls IH]; intros s H; [exists h; auto|].
  simpl in H. destruct (IH _ H) as (h1 & H1 & Hp1).
  destruct (deliver_started_back data s h0 k h1 H1) as (h2 & H2 & Hp2).
  exists h2. auto.
Qed.

(** A resolved handshake stays resolved under any listener. *)
Lemma deliver_resolved_keep (data : string) (s : Bridge.bridge) (h0 : listener) (k : nat) :
  Bridge.handshake_promise <$> Bridge.handshakes s !! k = Some (Resolved Undefined) ->
  Bridge.handshake_promise <$> Bridge.handshakes (Bridge.deliver parse data s h0) !! k
  = Some (Resolved Undefined).
Proof.
  destruct (decide (h0 = InitListener k)) as [->|Hne];
    [|rewrite deliver_handshake_ne by exact Hne; auto].
  simpl. unfold Bridge.init_dataHandler.
  destruct (Bridge.handshakes s !! k) as [[|h1|]|] eqn:Hk; try (rewrite Hk; auto).
  assert (Hlt : k < length (Bridge.handshakes s)) by (eapply lookup_lt_Some, Hk).
  simpl. intros [= Hp].
  destruct (Bridge.init_lines parse (Bridge.mcpProcess s) _).
  4: destruct (is_settled (Bridge.h_promise h1)).
  all: simpl; rewrite list_lookup_insert_eq by exact Hlt; simpl; rewrite Hp; reflexivity.
Qed.

Lemma foldl_resolved_keep (data : string) (ls : list listener) (s : Bridge.bridge) (k : nat) :
  Bridge.handshake_promise <$> Bridge.handshakes s !! k = Some (Resolved Undefined) ->
  Bridge.handshake_promise <$> Bridge.handshakes (foldl (Bridge.deliver parse data) s ls) !! k
  = Some (Resolved Undefined).
Proof.
  revert s. induction ls as [|h0 ls IH]; intros s H; [exact H|].
  simpl. apply IH, deliver_resolved_keep, H.
Qed.

(** The listener that sets the flag is the listener of a handshake whose
    promise was unsettled, and which it resolves. *)
Lemma deliver_sets_ready (data : string) (s : Bridge.bridge) (h0 : listener) :
  Bridge.serverReady s = false ->
  Bridge.serverReady (Bridge.deliver parse data s h0) = true ->
  exists k h,
    Bridge.handshakes s !! k = Some (Bridge.Started h)
    /\ Bridge.h_promise h = Unsettled
    /\ Bridge.handshake_promise <$> Bridge.handshakes (Bridge.deliver parse data s h0) !! k
       = Some (Resolved Undefined).
Proof.
  intros Hr. destruct h0 as [|k|i].
  - simpl. congruence.
  - simpl. unfold Bridge.init_dataHandler.
    destruct (Bridge.handshakes s !! k) as [[|h1|]|] eqn:Hk; try congruence.
    assert (Hlt : k < length (Bridge.handshakes s)) by (eapply lookup_lt_Some, Hk).
    destruct (Bridge.init_lines parse (Bridge.mcpProcess s) _); try (simpl; congruence).
    destruct (is_settled (Bridge.h_promise h1)) eqn:Hs; [simpl; congruence|].
    intros _. exists k, h1. split; [exact Hk|].
    assert (Hu : Bridge.h_promise h1 = Unsettled)
      by (destruct (Bridge.h_promise h1); [reflexivity|discriminate|discriminate]).
    split; [exact Hu|].
    simpl. rewrite list_lookup_insert_eq by exact Hlt. simpl. rewrite Hu. reflexivity.
  - rewrite deliver_call_keeps. congruence.
Qed.

Lemma foldl_sets_ready (data : string) (ls : list listener) (s : Bridge.bridge) :
  Bridge.serverReady s = false ->
  Bridge.serverReady (foldl (Bridge.deliver parse data) s ls) = true ->
  exists k h,
    Bridge.handshakes s !! k = Some (Bridge.Started h)
    /\ Bridge.h_promise h = Unsettled
    /\ Bridge.handshake_promise
         <$> Bridge.handshakes (foldl (Bridge.deliver parse data) s ls) !! k
       = Some (Resolved Undefined).
Proof.
  revert s. induction ls as [|h0 ls IH]; intros s Hr Hafter; [simpl in Hafter; congruence|].
  simpl in Hafter |- *.
  destruct (Bridge.serverReady (Bridge.deliver parse data s h0)) eqn:Hr1.
  - destruct (deliver_sets_ready data s h0 Hr Hr1) as (k & h & Hk & Hu & Hres).
    exists k, h. split; [exact Hk|]. split; [exact Hu|].
    apply foldl_resolved_keep, Hres.
  - destruct (IH _ Hr1 Hafter) as (k & h1 & Hk1 & Hu1 & Hres).
    destruct (deliver_started_back data s h0 k h1 Hk1) as (h & Hk & Hp).
    exists k, h. split; [exact Hk|]. split; [apply Hp, Hu1|exact Hres].
Qed.

(** A set ready flag goes back to a chunk on stdout that resolved a
    handshake. *)
Lemma ready_since (trace : list Bridge.event) :
  Bridge.serverReady (Bridge.run parse Bridge.startMCPServer trace) = true ->
  exists pre data post k h,
    trace = pre ++ Bridge.StdoutData data :: post
    /\ Bridge.serverReady (Bridge.run parse Bridge.startMCPServer pre) = false
    /\ Bridge.handshakes (Bridge.run parse Bridge.startMCPServer pre) !! k
       = Some (Bridge.Started h)
    /\ Bridge.h_promise h = Unsettled
    /\ Bridge.serverReady
         (Bridge.run parse Bridge.startMCPServer (pre ++ [Bridge.StdoutData data])) = true
    /\ Bridge.handshake_promise
         <$> Bridge.handshakes
               (Bridge.run parse Bridge.startMCPServer (pre ++ [Bridge.StdoutData data])) !! k
       = Some (Resolved Undefined).
Proof.
  induction trace as [|e trace IH] using rev_ind; [simpl; discriminate|].
  intros Hready.
  destruct (Bridge.serverReady (Bridge.run parse Bridge.startMCPServer trace)) eqn:Hr.
  - destruct (IH eq_refl) as (pre & data & post & k & h & -> & H).
    exists pre, data, (post ++ [e]), k, h. split; [|exact H].
    rewrite <- app_assoc. reflexivity.
  - rewrite run_snoc in Hready.
    destruct e as [data|chunk| |k|k|tool args now rnd|i now rnd|i];
      try (rewrite step_unready in Hready by (assumption || discriminate); discriminate).
    destruct (foldl_sets_ready data _ _ Hr Hready) as (k & h & Hk & Hu & Hres).
    exists trace, data, [], k, h. rewrite run_snoc.
    repeat split; assumption.
Qed.

(** A handshake is started by its banner timer only. *)
Lemma step_started_back (s : Bridge.bridge) (e : Bridge.event)
      (k : nat) (h : Bridge.handshaking) :
  Bridge.handshakes (Bridge.step parse s e) !! k = Some (Bridge.Started h) ->
  (exists h', Bridge.handshakes s !! k = Some (Bridge.Started h'))
  \/ (e = Bridge.BannerTimer k /\ Bridge.handshakes s !! k = Some Bridge.Scheduled).
Proof.
  destruct e as [data|chunk| |k'|k'|tool args now rnd|i now rnd|i]; simpl.
  - intros H. left. destruct (foldl_started_back data _ _ k h H) as (h' & Hk & _).
    exists h'. exact Hk.
  - unfold Bridge.stderr_listener. destruct (Bridge.is_banner chunk); [|eauto].
    simpl. intros H. apply lookup_app_Some in H as [H|[_ H]]; [eauto|].
    apply list_lookup_singleton_Some in H as [_ H]. discriminate.
  - eauto.
  - unfold Bridge.banner_timer.
    destruct (Bridge.handshakes s !! k') as [[|h1|]|] eqn:Hk'; eauto.
    destruct (decide (k' = k)) as [->|Hne]; [intros _; right; auto|].
    unfold Bridge.initializeMCPServer. destruct (Bridge.mcpProcess s); simpl;
      rewrite list_lookup_insert_ne by exact Hne; eauto.
  - unfold Bridge.handshake_timeout.
    destruct (Bridge.handshakes s !! k') as [[|h1|]|] eqn:Hk'; eauto.
    destruct (Bridge.h_timeout_armed h1); eauto.
    destruct (decide (k' = k)) as [->|Hne]; [intros _; left; eauto|].
    simpl. rewrite list_lookup_insert_ne by exact Hne. eauto.
  - unfold Bridge.callMCPTool. destruct (negb (Bridge.mcpProcess s)); [eauto|].
    match goal with |- context [Bridge.readiness_loop ?s0 ?i ?c ?n ?r] =>
      destruct (readiness_loop_keeps s0 i c n r) as (H1 & _); rewrite H1 end.
    eauto.
  - unfold Bridge.poll_timer.
    destruct (Bridge.calls s !! i) as [c|]; [|eauto].
    destruct (Bridge.phase_of c); eauto.
    destruct (readiness_loop_keeps s i (Bridge.incr_attempts c) now rnd) as (H1 & _).
    rewrite H1. eauto.
  - destruct (call_timeout_keeps i s) as [H1 _]. rewrite H1. eauto.
Qed.

Lemma started_since (trace : list Bridge.event) (k : nat) (h : Bridge.handshaking) :
  Bridge.handshakes (Bridge.run parse Bridge.startMCPServer trace) !! k
  = Some (Bridge.Started h) ->
  exists pre post,
    trace = pre ++ Bridge.BannerTimer k :: post
    /\ Bridge.handshakes (Bridge.run parse Bridge.startMCPServer pre) !! k
       = Some Bridge.Scheduled.
Proof.
  revert h. induction trace as [|e trace IH] using rev_ind; intros h; [simpl; discriminate|].
  rewrite run_snoc. intros H.
  destruct (step_started_back _ e k h H) as [(h' & Hk)|(-> & Hk)].
  - destruct (IH h' Hk) as (pre & post & -> & Hs).
    exists pre, (post ++ [e]). split; [|exact Hs]. rewrite <- app_assoc. reflexivity.
  - exists trace, []. auto.
Qed.

End ReadySince.

(** The chunk that made the k-th handshake. *)
Lemma banner_nth (trace : list Bridge.event) (k : nat) :
  k < Obs.banners trace ->
  exists pre chunk post,
    trace = pre ++ Bridge.StderrData chunk :: post
    /\ Bridge.is_banner chunk = true /\ Obs.banners pre = k.
Proof.
  revert k. induction trace as [|e trace IH]; intros k Hk; [simpl in Hk; lia|].
  assert (Hskip : Obs.banners (e :: trace) = Obs.banners trace ->
            exists pre chunk post,
              e :: trace = pre ++ Bridge.StderrData chunk :: post
              /\ Bridge.is_banner chunk = true /\ Obs.banners pre = k).
  { intros Heq. rewrite Heq in Hk. destruct (IH k Hk) as (pre & chunk & post & -> & Hb & Hn).
    exists (e :: pre), chunk, post. split; [reflexivity|]. split; [exact Hb|].
    rewrite <- Hn.
    change (e :: pre ++ Bridge.StderrData chunk :: post)
      with ((e :: pre) ++ Bridge.StderrData chunk :: post) in Heq.
    destruct e; try reflexivity. simpl in *.
    destruct (Bridge.is_banner chunk0); [|reflexivity].
    exfalso. revert Heq. clear. generalize (Obs.banners (pre ++ Bridge.StderrData chunk :: post)).
    intros n. lia. }
  destruct e as [data|chunk| |k'|k'|tool args now rnd|i now rnd|i];
    try (apply Hskip; reflexivity).
  destruct (Bridge.is_banner chunk) eqn:Hb.
  - destruct k as [|k].
    + exists [], chunk, trace. auto.
    + simpl in Hk. rewrite Hb in Hk.
      destruct (IH k ltac:(lia)) as (pre & chunk' & post & -> & Hb' & Hn).
      exists (Bridge.StderrData chunk :: pre), chunk', post.
      split; [reflexivity|]. split; [exact Hb'|]. simpl. rewrite Hb, Hn. reflexivity.
  - apply Hskip. simpl. rewrite Hb. reflexivity.
Qed.

Lemma banner_times_app (a b : list (Z * Bridge.event)) :
  Timed.banner_times (a ++ b) = Timed.banner_times a ++ Timed.banner_times b.
Proof.
  induction a as [|[t e] a IH]; [reflexivity|].
  destruct e; simpl; rewrite ?IH; try reflexivity.
  rewrite app_assoc. reflexivity.
Qed.

Lemma banner_times_length (tt : list (Z * Bridge.event)) :
  length (Timed.banner_times tt) = Obs.banners tt.*2.
Proof.
  induction tt as [|[t e] tt IH]; [reflexivity|].
  destruct e; simpl; rewrite ?IH; try reflexivity.
  destruct (Bridge.is_banner chunk); simpl; rewrite IH; reflexivity.
Qed.

(** A banner timer that fires after its banner chunk does so no earlier than
    [bannerDelay] later. *)
Lemma due_delay (pre post : list (Z * Bridge.event)) (seen : list Z)
      (t1 t2 : Z) (k : nat) :
  Timed.due seen (pre ++ (t2, Bridge.BannerTimer k) :: post) = true ->
  (seen ++ Timed.banner_times pre) !! k = Some t1 ->
  (t1 + Bridge.bannerDelay <= t2)%Z.
Proof.
  revert seen. induction pre as [|[t e] pre IH]; intros seen Hdue Hk.
  - simpl in Hdue, Hk. rewrite app_nil_r in Hk. rewrite Hk in Hdue.
    apply andb_true_iff in Hdue as [Hdue _]. apply Z.leb_le in Hdue. exact Hdue.
  - destruct e as [data|chunk| |k'|k'|tool args now rnd|i now rnd|i];
      try (simpl in Hdue, Hk; apply (IH seen); assumption).
    + simpl in Hdue, Hk. destruct (Bridge.is_banner chunk).
      * apply (IH (seen ++ [t])); [exact Hdue|]. rewrite <- app_assoc. exact Hk.
      * apply (IH seen); assumption.
    + simpl in Hdue, Hk. apply andb_true_iff in Hdue as [_ Hdue].
      apply (IH seen); assumption.
Qed.

Lemma ordered_head (t : Z) (e : Bridge.event) (tt : list (Z * Bridge.event))
      (t' : Z) (e' : Bridge.event) :
  Timed.ordered ((t, e) :: tt) = true -> (t', e') ∈ tt -> (t <= t')%Z.
Proof.
  revert t e. induction tt as [|[t0 e0] tt IH]; intros t e Ho Hin.
  - apply elem_of_nil in Hin. contradiction.
  - cbn [Timed.ordered] in Ho. apply andb_true_iff in Ho as [Hle Ho].
    apply Z.leb_le in Hle.
    apply elem_of_cons in Hin as [[= -> ->]|Hin]; [exact Hle|].
    pose proof (IH t0 e0 Ho Hin). lia.
Qed.

Lemma ordered_app_r (pre tt : list (Z * Bridge.event)) :
  Timed.ordered (pre ++ tt) = true -> Timed.ordered tt = true.
Proof.
  induction pre as [|[t e] pre IH]; [auto|].
  cbn [app Timed.ordered]. destruct (pre ++ tt) as [|[t' e'] rest] eqn:E.
  - destruct pre, tt; try discriminate. auto.
  - intros Ho. apply andb_true_iff in Ho as [_ Ho]. apply IH, Ho.
Qed.

(** A decomposition of the events of a timed trace is one of the trace. *)
Lemma timed_split (timed : list (Z * Bridge.event)) (pre : list Bridge.event)
      (e : Bridge.event) (post : list Bridge.event) :
  timed.*2 = pre ++ e :: post ->
  exists tpre t tpost,
    timed = tpre ++ (t, e) :: tpost /\ pre = tpre.*2 /\ post = tpost.*2.
Proof.
  intros H. apply fmap_app_inv in H as (tpre & trest & Hpre & Hrest & ->).
  symmetry in Hrest. apply fmap_cons_inv in Hrest as ([t e'] & tpost & He & Hpost & ->).
  simpl in He. subst e'. exists tpre, t, tpost. auto.
Qed.

(** C10 as stated fails in its last clause.  With a provider that emits no
    banner, an invocation of [callMCPTool] does not always fail after the
    polling bound: once the provider has exited the invocation is refused at
    once, without a poll, with "MCP server not running"; and when the
    provider exits while the invocation waits, fifteen polls pass and the
    invocation does not fail at all. *)
Lemma no_banner_call_not_failed_after_the_bound :
  let issue := Bridge.CallTool "get_recent_emails" Sample.args 1000 7 in
  let refused := Bridge.run Json.parse Bridge.startMCPServer [Bridge.ProcessClose; issue] in
  let hung := Bridge.run Json.parse Bridge.startMCPServer Trace.exit_in_last_sleep in
  (Forall Inv.no_banner [Bridge.ProcessClose; issue]
   /\ Forall Inv.no_banner Trace.exit_in_last_sleep)
  /\ Bridge.calls refused !! 0
     = Some (Bridge.mkCall "get_recent_emails" Sample.args 0 Bridge.Returned
               (Rejected NotRunning))
  /\ Inv.polls 0 Trace.exit_in_last_sleep = Bridge.maxAttempts
  /\ Bridge.calls hung !! 0
     = Some (Bridge.mkCall "get_recent_emails" Sample.args 15 Bridge.Threw Unsettled).
Proof.
  intros issue refused hung.
  split; [split; repeat constructor|]. vm_compute. repeat split; reflexivity.
Qed.

(** C10, as the code implements it.  The bridge never becomes ready without
    a matching banner on the diagnostic stream.  [is_banner] is the test of
    the stderr listener: one of "FastMCP", "Starting MCP server" together
    with one of "Server name", "Echo Test Server", "Simple Test Server".
    The events carry the times at which they happen: times do not decrease
    along the trace ([Timed.ordered]), and a banner timer fires no earlier
    than [bannerDelay] = 2000 ms after the chunk that set it ([Timed.due]).
    In every state the bridge reaches:
    (1) if the ready flag is set, the trace holds, in this order, a stderr
    chunk that passes the test, the firing of the timer set at that chunk,
    at least 2000 ms later, and a stdout chunk at which the flag was set,
    no earlier than the timer, the handshake started by that timer being
    unsettled before the chunk and resolved after it;
    (2) if no stderr chunk passes the test, the flag is unset whatever
    arrives on stdout, nothing is written to stdin, and no call is
    dispatched or resolved;
    (3) if moreover the provider runs throughout, a call issued at any point
    has, after its sleep elapsed [n] times, polled [n] times while [n] is
    below [maxAttempts] = 15, and is rejected with NotReadyError from then
    on;
    (4) a call issued after the provider has exited is rejected at once with
    "MCP server not running", without a poll. *)
Theorem ready_only_after_banner_delay_and_handshake
    (parse : string -> option json) (timed : list (Z * Bridge.event))
    (later : list Bridge.event) (tool : string) (args : json) (now rnd : Z) :
  let trace := timed.*2 in
  let s := Bridge.run parse Bridge.startMCPServer trace in
  let i := length (Bridge.calls s) in
  let s' := Bridge.run parse s (Bridge.CallTool tool args now rnd :: later) in
  (Timed.ordered timed = true -> Timed.due [] timed = true ->
   Bridge.serverReady s = true ->
     exists pre t1 chunk mid t2 k mid' t3 data post h,
       timed = pre ++ (t1, Bridge.StderrData chunk) :: mid
                   ++ (t2, Bridge.BannerTimer k) :: mid'
                   ++ (t3, Bridge.StdoutData data) :: post
       /\ Bridge.is_banner chunk = true
       /\ Obs.banners pre.*2 = k
       /\ (t1 + Bridge.bannerDelay <= t2 <= t3)%Z
       /\ let before :=
            Bridge.run parse Bridge.startMCPServer
              (pre ++ (t1, Bridge.StderrData chunk) :: mid
                   ++ (t2, Bridge.BannerTimer k) :: mid').*2 in
          let after := Bridge.step parse before (Bridge.StdoutData data) in
          Bridge.serverReady before = false
          /\ Bridge.handshakes before !! k = Some (Bridge.Started h)
          /\ Bridge.h_promise h = Unsettled
          /\ Bridge.serverReady after = true
          /\ Bridge.handshake_promise <$> Bridge.handshakes after !! k
             = Some (Resolved Undefined))
  /\ (Forall Inv.no_banner trace ->
        Bridge.serverReady s = false /\ Bridge.stdin s = []
        /\ Forall Inv.never_dispatched (Bridge.calls s))
  /\ (Forall Inv.no_banner (trace ++ later) -> Forall Inv.no_close (trace ++ later) ->
        Bridge.calls s' !! i
        = Some (if Inv.polls i later <? Bridge.maxAttempts
                then Bridge.mkCall tool args (Inv.polls i later) Bridge.Polling Unsettled
                else Bridge.mkCall tool args Bridge.maxAttempts Bridge.Returned
                       (Rejected NotReadyError)))
  /\ (Bridge.mcpProcess s = false ->
        Bridge.calls s' !! i
        = Some (Bridge.mkCall tool args 0 Bridge.Returned (Rejected NotRunning))).
Proof.
  intros trace s i s'. split; [|split; [|split]].
  - intros Hord Hdue Hready.
    destruct (ready_since parse trace Hready)
      as (pre3 & data & post & k & h & Htr & Hr0 & Hk & Hu & Hr1 & Hres).
    destruct (started_since parse pre3 k h Hk) as (pre2 & mid' & Hpre3 & Hsch).
    assert (Hlt : k < Obs.banners pre2).
    { pose proof (lookup_lt_Some _ _ _ Hsch) as Hlt.
      rewrite run_handshakes_length in Hlt. simpl in Hlt. exact Hlt. }
    destruct (banner_nth pre2 k Hlt) as (pre1 & chunk & mid & Hpre2 & Hb & Hn).
    unfold trace in Htr.
    destruct (timed_split timed pre3 _ post Htr) as (t3pre & t3 & tpost & -> & Hp3 & Hpost).
    rewrite Hpre3 in Hp3.
    destruct (timed_split t3pre pre2 _ mid' (eq_sym Hp3))
      as (t2pre & t2 & tmid' & -> & Hp2 & Hmid').
    rewrite Hpre2 in Hp2.
    destruct (timed_split t2pre pre1 _ mid (eq_sym Hp2))
      as (tpre & t1 & tmid & -> & Hp1 & Hmid).
    exists tpre, t1, chunk, tmid, t2, k, tmid', t3, data, tpost, h.
    split; [rewrite <- !app_assoc; reflexivity|].
    split; [exact Hb|]. split; [congruence|]. split; [split|].
    + apply (due_delay (tpre ++ (t1, Bridge.StderrData chunk) :: tmid)
               (tmid' ++ (t3, Bridge.StdoutData data) :: tpost) [] t1 t2 k).
      * rewrite <- Hdue. f_equal. rewrite <- !app_assoc. reflexivity.
      * simpl. rewrite banner_times_app. simpl. rewrite Hb. simpl.
        apply list_lookup_middle. rewrite banner_times_length. congruence.
    + rewrite <- !app_assoc in Hord.
      apply ordered_app_r in Hord.
      apply (ordered_app_r ((t1, Bridge.StderrData chunk) :: tmid)) in Hord.
      eapply ordered_head; [exact Hord|].
      apply elem_of_app. right. apply elem_of_cons. left. reflexivity.
    + assert (Heq : (tpre ++ (t1, Bridge.StderrData chunk) :: tmid
                          ++ (t2, Bridge.BannerTimer k) :: tmid').*2 = pre3).
      { rewrite Hpre3, Hpre2, Hp1, Hmid, Hmid'.
        rewrite !fmap_app, !fmap_cons, !fmap_app, !fmap_cons.
        rewrite <- !app_assoc. reflexivity. }
      cbv zeta. rewrite Heq. rewrite run_snoc in Hr1, Hres.
      repeat split; assumption.
  - intros Hnb.
    pose proof (run_quiet parse trace Bridge.startMCPServer Hnb (proj1 started_quiet))
      as (_ & Hr & Hin & Hcalls).
    auto.
  - intros Hnb Hnc.
    apply Forall_app in Hnb as [Hnb1 Hnb2]. apply Forall_app in Hnc as [Hnc1 Hnc2].
    destruct (run_alive parse trace Bridge.startMCPServer Hnb1 Hnc1 started_quiet) as [Hq Ha].
    fold s in Hq, Ha.
    destruct (alive_step parse s (Bridge.CallTool tool args now rnd) I I (conj Hq Ha))
      as [Hq1 Ha1].
    unfold s'. change (Bridge.run parse s (Bridge.CallTool tool args now rnd :: later))
      with (Bridge.run parse (Bridge.step parse s (Bridge.CallTool tool args now rnd)) later).
    assert (Hissue : Bridge.calls (Bridge.step parse s (Bridge.CallTool tool args now rnd)) !! i
              = Some (Bridge.mkCall tool args 0 Bridge.Polling Unsettled)).
    { simpl. unfold Bridge.callMCPTool.
      destruct Ha as [Hlive _]. destruct Hq as (_ & Hr & _).
      rewrite Hlive. simpl. rewrite readiness_loop_unready by exact Hr.
      simpl. rewrite Hlive. simpl.
      apply list_lookup_insert_eq. rewrite length_app. simpl. unfold i. lia. }
    rewrite (wait_progress parse later _ i 0 tool args
               ltac:(unfold Bridge.maxAttempts; lia) Hissue
               (quiet_unready parse later _ i Hnb2 Hnc2 Hq1 Ha1)).
    reflexivity.
  - intros Hnull. unfold s'.
    change (Bridge.run parse s (Bridge.CallTool tool args now rnd :: later))
      with (Bridge.run parse (Bridge.step parse s (Bridge.CallTool tool args now rnd)) later).
    apply run_final; [|right; reflexivity].
    simpl. unfold Bridge.callMCPTool. rewrite Hnull. simpl.
    apply list_lookup_middle. reflexivity.
Qed.

(** The banner at time 0, its timer at 2000 ms, the handshake response at
    2150 ms; and, for a provider without banner, a call whose sleep elapses
    fifteen times and a call issued after the exit of the provider. *)
Lemma ready_only_after_banner_delay_and_handshake_witness :
  let timed :=
    [(0%Z, Bridge.StderrData Sample.banner); (2000%Z, Bridge.BannerTimer 0);
     (2150%Z, Bridge.StdoutData (Json.line (Sample.response 0 (JObj []))))] in
  let silent := [(0%Z, Bridge.StdoutData Sample.noise)] in
  let exited := [(0%Z, Bridge.ProcessClose)] in
  let call s later :=
    Bridge.calls
      (Bridge.run Json.parse s
         (Bridge.CallTool "get_recent_emails" Sample.args 1000 7 :: later)) !! 0 in
  (Timed.ordered timed = true
   /\ Timed.due [] timed = true
   /\ Bridge.serverReady (Bridge.run Json.parse Bridge.startMCPServer timed.*2) = true
   /\ Forall Inv.no_banner (silent.*2 ++ Trace.polled15)
   /\ Forall Inv.no_close (silent.*2 ++ Trace.polled15)
   /\ Bridge.mcpProcess (Bridge.run Json.parse Bridge.startMCPServer exited.*2) = false)
  /\ (exists pre t1 chunk mid t2 k mid' t3 data post,
        timed = pre ++ (t1, Bridge.StderrData chunk) :: mid
                    ++ (t2, Bridge.BannerTimer k) :: mid'
                    ++ (t3, Bridge.StdoutData data) :: post
        /\ Bridge.is_banner chunk = true
        /\ (t1 + 2000 <= t2 <= t3)%Z)
  /\ call (Bridge.run Json.parse Bridge.startMCPServer silent.*2) Trace.polled15
     = Some (Bridge.mkCall "get_recent_emails" Sample.args 15 Bridge.Returned
               (Rejected NotReadyError))
  /\ call (Bridge.run Json.parse Bridge.startMCPServer exited.*2) Trace.polled15
     = Some (Bridge.mkCall "get_recent_emails" Sample.args 0 Bridge.Returned
               (Rejected NotRunning)).
Proof.
  intros timed silent exited call.
  assert (Hnb : Forall Inv.no_banner (silent.*2 ++ Trace.polled15))
    by (repeat constructor).
  assert (Hnc : Forall Inv.no_close (silent.*2 ++ Trace.polled15))
    by (repeat constructor).
  split; [repeat split; try reflexivity; assumption|].
  split; [|split].
  - destruct (ready_only_after_banner_delay_and_handshake Json.parse timed []
                "get_recent_emails" Sample.args 1000 7) as (H1 & _).
    destruct (H1 eq_refl eq_refl eq_refl)
      as (pre & t1 & chunk & mid & t2 & k & mid' & t3 & data & post & h & Heq & Hb & _ & Hd & _).
    exists pre, t1, chunk, mid, t2, k, mid', t3, data, post. auto.
  - destruct (ready_only_after_banner_delay_and_handshake Json.parse silent Trace.polled15
                "get_recent_emails" Sample.args 1000 7) as (_ & _ & H3 & _).
    exact (H3 Hnb Hnc).
  - destruct (ready_only_after_banner_delay_and_handshake Json.parse exited Trace.polled15
                "get_recent_emails" Sample.args 1000 7) as (_ & _ & _ & H4).
    exact (H4 eq_refl).
Defined.
